(** * codereviewer: the review pipeline, embedded and verified

    A shallow embedding of the Go sources of the code review agent:
    the diff extractor ([internal/diff]), the commit locator
    ([internal/git]), the review engine ([internal/review]), the delivery
    layer ([internal/notify]), the domain types ([internal/domain]) and the
    orchestrator ([internal/app]).

    Go strings are byte sequences and are modelled by [string] (a list of
    8-bit characters); Go's [int] is modelled by [Z]; maps by [gmap].
    Everything the program obtains from outside (sub-processes, the model
    provider, the mail server, the clock, the file system) is an operation
    of an abstract world, threaded through a state monad that also records
    the calls that were made. *)

From Stdlib Require Import ZArith Lia List Ascii String DecimalString.
From stdpp Require Import base strings gmap list.

Local Open Scope Z_scope.
Local Open Scope nat_scope.
Local Set Warnings "-register-all".

(** ** Bytes and byte strings *)

Module GoString.

Definition byte (n : nat) : ascii := ascii_of_nat n.

(** The code of a byte, [0 .. 255]. *)
Definition code (c : ascii) : nat := nat_of_ascii c.

Definition len (s : string) : Z := Z.of_nat (String.length s).

Fixpoint head_bytes (n : nat) (s : string) : string :=
  match n, s with
  | S n', String c s' => String c (head_bytes n' s')
  | _, _ => EmptyString
  end.

Fixpoint skip_bytes (n : nat) (s : string) : string :=
  match n, s with
  | S n', String _ s' => skip_bytes n' s'
  | _, _ => s
  end.

(** [s[:i]] and [s[i:]] for an index that is in range. *)
Definition slice_to (s : string) (i : Z) : string := head_bytes (Z.to_nat i) s.
Definition slice_from (s : string) (i : Z) : string := skip_bytes (Z.to_nat i) s.

Fixpoint concat (l : list string) : string :=
  match l with
  | [] => EmptyString
  | s :: l' => s +:+ concat l'
  end.

(** [strings.HasPrefix] *)
Fixpoint HasPrefix (s prefix : string) {struct prefix} : bool :=
  match prefix with
  | EmptyString => true
  | String p prefix' =>
      match s with
      | EmptyString => false
      | String c s' => if Ascii.eqb c p then HasPrefix s' prefix' else false
      end
  end.

(** [strings.TrimPrefix] *)
Definition TrimPrefix (s prefix : string) : string :=
  if HasPrefix s prefix then skip_bytes (String.length prefix) s else s.

(** [strings.Index]: the first position of [substr] in [s], or [-1]. *)
Fixpoint Index (s substr : string) : Z :=
  if HasPrefix s substr then 0%Z
  else match s with
       | EmptyString => (-1)%Z
       | String _ s' =>
           let i := Index s' substr in
           if (i <? 0)%Z then (-1)%Z else (i + 1)%Z
       end.

(** [strings.LastIndex]: the last position of [substr] in [s], or [-1]. *)
Fixpoint LastIndex (s substr : string) : Z :=
  match s with
  | EmptyString => if HasPrefix s substr then 0%Z else (-1)%Z
  | String _ s' =>
      let i := LastIndex s' substr in
      if (i <? 0)%Z then (if HasPrefix s substr then 0%Z else (-1)%Z)
      else (i + 1)%Z
  end.

(** [strings.Contains] *)
Definition Contains (s substr : string) : bool := (0 <=? Index s substr)%Z.

(** [strings.Count] for a non-empty separator: the number of
    non-overlapping occurrences. *)
Fixpoint Count_loop (fuel : nat) (s sep : string) : Z :=
  match fuel with
  | O => 0%Z
  | S fuel' =>
      let m := Index s sep in
      if (m <? 0)%Z then 0%Z
      else (1 + Count_loop fuel' (slice_from s (m + len sep)) sep)%Z
  end.

Definition Count (s sep : string) : Z := Count_loop (String.length s) s sep.

(** The loop of [strings.genSplit] (with [sepSave = 0]): at most [n]
    pieces are cut off [s] before the remainder is stored. *)
Fixpoint genSplit_loop (fuel : nat) (s sep : string) (n : Z) : list string :=
  match fuel with
  | O => [s]
  | S fuel' =>
      if (n <=? 0)%Z then [s]
      else
        let m := Index s sep in
        if (m <? 0)%Z then [s]
        else slice_to s m
               :: genSplit_loop fuel' (slice_from s (m + len sep)) sep (n - 1)
  end.

(** [strings.genSplit s sep 0 n] for a non-empty separator [sep], the only
    kind the program uses. *)
Definition genSplit (s sep : string) (n : Z) : list string :=
  if (n =? 0)%Z then []
  else
    let n := if (n <? 0)%Z then (Count s sep + 1)%Z else n in
    let n := if (len s + 1 <? n)%Z then (len s + 1)%Z else n in
    genSplit_loop (String.length s) s sep (n - 1).

(** [strings.Split] and [strings.SplitN] *)
Definition Split (s sep : string) : list string := genSplit s sep (-1).
Definition SplitN (s sep : string) (n : Z) : list string := genSplit s sep n.

(** [strings.Join] *)
Fixpoint Join (elems : list string) (sep : string) : string :=
  match elems with
  | [] => EmptyString
  | [e] => e
  | e :: elems' => e +:+ sep +:+ Join elems' sep
  end.

(** The byte length of the white space character (in the sense of
    [unicode.IsSpace], UTF-8 encoded) at the head of [s]; [0] when [s]
    does not start with one. *)
Definition space_width (s : string) : nat :=
  match s with
  | EmptyString => 0
  | String c s1 =>
      let c := code c in
      if (9 <=? c) && (c <=? 13) || (c =? 32) then 1
      else match s1 with
           | EmptyString => 0
           | String d s2 =>
               let d := code d in
               if (c =? 194) && ((d =? 133) || (d =? 160)) then 2
               else match s2 with
                    | EmptyString => 0
                    | String e _ =>
                        let e := code e in
                        if (c =? 225) && (d =? 154) && (e =? 128) then 3
                        else if (c =? 226) && (d =? 128)
                                && ((128 <=? e) && (e <=? 138)
                                    || (e =? 168) || (e =? 169) || (e =? 175))
                             then 3
                        else if (c =? 226) && (d =? 129) && (e =? 159) then 3
                        else if (c =? 227) && (d =? 128) && (e =? 128) then 3
                        else 0
                    end
           end
  end.

Fixpoint TrimLeftSpace_loop (fuel : nat) (s : string) : string :=
  match fuel with
  | O => s
  | S fuel' =>
      match space_width s with
      | O => s
      | w => TrimLeftSpace_loop fuel' (skip_bytes w s)
      end
  end.

(** [strings.TrimLeftFunc s unicode.IsSpace] *)
Definition TrimLeftSpace (s : string) : string :=
  TrimLeftSpace_loop (String.length s) s.

(** The byte length of the white space character that ends [s], as
    [utf8.DecodeLastRuneInString] finds it; [0] when there is none. *)
Definition space_width_last (s : string) : nat :=
  let n := String.length s in
  if (1 <=? n) && (space_width (skip_bytes (n - 1) s) =? 1) then 1
  else if (2 <=? n) && (space_width (skip_bytes (n - 2) s) =? 2) then 2
  else if (3 <=? n) && (space_width (skip_bytes (n - 3) s) =? 3) then 3
  else 0.

Fixpoint TrimRightSpace_loop (fuel : nat) (s : string) : string :=
  match fuel with
  | O => s
  | S fuel' =>
      match space_width_last s with
      | O => s
      | w => TrimRightSpace_loop fuel' (head_bytes (String.length s - w) s)
      end
  end.

(** [strings.TrimRightFunc s unicode.IsSpace] *)
Definition TrimRightSpace (s : string) : string :=
  TrimRightSpace_loop (String.length s) s.

(** [strings.TrimSpace]: all leading and trailing white space removed. *)
Definition TrimSpace (s : string) : string :=
  TrimRightSpace (TrimLeftSpace s).

Definition flush (cur : string) : list string :=
  match cur with
  | EmptyString => []
  | _ => [cur]
  end.

Fixpoint Fields_loop (fuel : nat) (cur s : string) : list string :=
  match fuel with
  | O => flush cur
  | S fuel' =>
      match s with
      | EmptyString => flush cur
      | String c s' =>
          match space_width s with
          | O => Fields_loop fuel' (cur +:+ String c EmptyString) s'
          | w => flush cur ++ Fields_loop fuel' EmptyString (skip_bytes w s)
          end
      end
  end.

(** [strings.Fields]: the maximal runs of bytes that are not white
    space. *)
Definition Fields (s : string) : list string :=
  Fields_loop (String.length s) EmptyString s.

(** [strconv.Itoa] and the verb [%d]. *)
Definition Itoa (n : Z) : string :=
  NilZero.string_of_int (Z.to_int n).

End GoString.

(** ** Paths ([path/filepath], with [/] as the separator) *)

Module filepath.

Definition IsPathSeparator (c : ascii) : bool := Ascii.eqb c "/".

(** The loop of [filepath.Ext], from the last byte of the path backwards:
    [r] holds the bytes not yet visited, last first, and [acc] the bytes
    already passed. *)
Fixpoint Ext_loop (r acc : string) : string :=
  match r with
  | EmptyString => EmptyString
  | String c r' =>
      if IsPathSeparator c then EmptyString
      else if Ascii.eqb c "." then String c acc
      else Ext_loop r' (String c acc)
  end.

Definition Ext (path : string) : string :=
  Ext_loop (String.rev path) EmptyString.

Fixpoint strip_separators (r : string) : string :=
  match r with
  | String c r' => if IsPathSeparator c then strip_separators r' else r
  | EmptyString => r
  end.

Fixpoint last_element (r acc : string) : string :=
  match r with
  | EmptyString => acc
  | String c r' =>
      if IsPathSeparator c then acc else last_element r' (String c acc)
  end.

(** [filepath.Base] *)
Definition Base (path : string) : string :=
  match path with
  | EmptyString => "."
  | _ =>
      match last_element (strip_separators (String.rev path)) EmptyString with
      | EmptyString => "/"
      | e => e
      end
  end.

End filepath.

Import GoString.

(** ** Errors and formatted output

    [fmt.Errorf] and [Printf] calls are kept with their format string and
    their arguments; an [%w] argument is the error that is wrapped. *)

Inductive error : Type :=
  | External (msg : string)      (* an error value of a library or of the world *)
  | ExitError (Stderr : string)  (* [*exec.ExitError] *)
  | ErrTooLong                   (* [bufio.ErrTooLong] *)
  | SyntaxError                  (* [*json.SyntaxError] *)
  | UnmarshalTypeError           (* [*json.UnmarshalTypeError] *)
  | Errorf (format : string) (args : list fmt_arg)
with fmt_arg : Type :=
  | arg_string (s : string)
  | arg_int (n : Z)
  | arg_error (e : error)
  | arg_nil
  | arg_duration (d : Z).

(** [errors.Unwrap]: the error given for the verb [%w]. Every format of
    the program has at most one. *)
Definition Unwrap (e : error) : option error :=
  match e with
  | Errorf format args =>
      if Contains format "%w" then
        head (omap (fun a => match a with arg_error e' => Some e' | _ => None end) args)
      else None
  | _ => None
  end.

(** A Go result [(value, error)] of which only one side is used. *)
Definition result (A : Type) : Type := A + error.

(** [time.Duration] counts nanoseconds. *)
Definition Duration : Type := Z.
Definition Nanosecond : Duration := 1%Z.
Definition Millisecond : Duration := 1000000%Z.
Definition Second : Duration := 1000000000%Z.

(** ** Package [domain] *)

Module Diff.

Record t : Type := mk {
  FilePath : string;
  OldPath : string;
  Content : string;
  LineCount : Z;
  IsNew : bool;
  IsDeleted : bool;
  IsRenamed : bool;
  CommitHash : string;
  RepoPath : string;
  RepoName : string;
  Language : string
}.

(** The maximum number of lines to include per file. *)
Definition MaxDiffLines : Z := 300%Z.

(** The file extensions that are analysed. *)
Definition SupportedExtensions : gmap string string :=
  <[".go" := "go"]> (<[".ts" := "typescript"]>
    (<[".dart" := "dart"]> (<[".sql" := "sql"]> ∅))).

Definition IsTruncated (d : t) : bool := (MaxDiffLines <? LineCount d)%Z.

End Diff.

Module Commit.

Record t {Time : Type} : Type := mk {
  Hash : string;
  Author : string;
  Email : string;
  Timestamp : Time;
  Message : string;
  RepoPath : string;
  RepoName : string
}.
Global Arguments t : clear implicits.

End Commit.

Definition Severity : Type := string.
Definition SeverityHigh : Severity := "High".
Definition SeverityMedium : Severity := "Medium".
Definition SeverityLow : Severity := "Low".

Module Finding.

Record t : Type := mk {
  Title : string;
  Severity : Severity;
  RepoName : string;
  Files : list string;
  Explanation : string;
  Action : string
}.

Definition IsHighPriority (f : t) : bool := String.eqb (Severity f) SeverityHigh.

End Finding.

Module Report.

Record t {Time : Type} : Type := mk {
  Date : Time;
  Summary : string;
  Findings : list Finding.t;
  Repositories : list string;
  CommitCount : Z;
  FileCount : Z;
  NothingToNote : bool;
  Model : string
}.
Global Arguments t : clear implicits.

Section Methods.
Context {Time : Type}.

(** The counting loop shared by the three severity counters:
    [count++] for every finding whose severity is [sev]. *)
Fixpoint count_severity (sev : Severity) (fs : list Finding.t) (count : Z) : Z :=
  match fs with
  | [] => count
  | f :: fs' =>
      count_severity sev fs'
        (if String.eqb (Finding.Severity f) sev then count + 1 else count)%Z
  end.

Definition HighCount (r : t Time) : Z := count_severity SeverityHigh (Findings r) 0.
Definition MediumCount (r : t Time) : Z := count_severity SeverityMedium (Findings r) 0.
Definition LowCount (r : t Time) : Z := count_severity SeverityLow (Findings r) 0.
Definition TotalFindings (r : t Time) : Z := Z.of_nat (length (Findings r)).
Definition HasFindings (r : t Time) : bool := (0 <? Z.of_nat (length (Findings r)))%Z.
End Methods.

End Report.

(** ** UTF-8 ([unicode/utf8]) *)

Module utf8.

Definition in_range (lo hi : nat) (c : ascii) : bool :=
  (lo <=? code c) && (code c <=? hi).

Definition continuation (c : ascii) : bool := in_range 128 191 c.

(** The width of the well-formed encoding at the head of [s], as
    [utf8.DecodeRuneInString] accepts it; [0] when the head of [s] is
    not a well-formed encoding (the decoder then yields [RuneError] and a
    width of one byte). *)
Definition valid_width (s : string) : nat :=
  match s with
  | EmptyString => 0
  | String c0 s1 =>
      let x := code c0 in
      if x <? 128 then 1
      else if (x <? 194) || (244 <? x) then 0
      else
        match s1 with
        | EmptyString => 0
        | String c1 s2 =>
            if x <? 224 then (if continuation c1 then 2 else 0)
            else
              let lo := if x =? 224 then 160 else if x =? 240 then 144 else 128 in
              let hi := if x =? 237 then 159 else if x =? 244 then 143 else 191 in
              if negb (in_range lo hi c1) then 0
              else
                match s2 with
                | EmptyString => 0
                | String c2 s3 =>
                    if negb (continuation c2) then 0
                    else if x <? 240 then 3
                    else
                      match s3 with
                      | EmptyString => 0
                      | String c3 _ => if continuation c3 then 4 else 0
                      end
                end
        end
  end.

Definition byte_of_Z (n : Z) : ascii := ascii_of_nat (Z.to_nat n).

(** [utf8.EncodeRune] for a code point outside the surrogate range and
    below [0x110000]. *)
Definition Encode (r : Z) : string :=
  if (r <? 128)%Z then String (byte_of_Z r) EmptyString
  else if (r <? 2048)%Z then
    String (byte_of_Z (192 + r / 64))
      (String (byte_of_Z (128 + r mod 64)) EmptyString)
  else if (r <? 65536)%Z then
    String (byte_of_Z (224 + r / 4096))
      (String (byte_of_Z (128 + (r / 64) mod 64))
         (String (byte_of_Z (128 + r mod 64)) EmptyString))
  else
    String (byte_of_Z (240 + r / 262144))
      (String (byte_of_Z (128 + (r / 4096) mod 64))
         (String (byte_of_Z (128 + (r / 64) mod 64))
            (String (byte_of_Z (128 + r mod 64)) EmptyString))).

(** [unicode.ReplacementChar], encoded. *)
Definition RuneError : string := Encode 65533.

End utf8.

(** ** JSON ([encoding/json])

    [json.Unmarshal] first checks that the whole input is one well-formed
    JSON text and then stores the value into the target. The syntax check
    is modelled by a parser into a tree of values, the store by a traversal
    of that tree. *)

Module json.

Inductive value : Type :=
  | Null
  | Bool (b : bool)
  | Number (literal : string)
  | Str (s : string)
  | Array (elems : list value)
  | Object (members : list (string * value)).

Definition isSpace (c : ascii) : bool :=
  let c := code c in (c =? 32) || (c =? 9) || (c =? 13) || (c =? 10).

Fixpoint skip_space (s : string) : string :=
  match s with
  | String c s' => if isSpace c then skip_space s' else s
  | EmptyString => s
  end.

Definition is_digit (c : ascii) : bool := utf8.in_range 48 57 c.

Fixpoint digits (s : string) : string * string :=
  match s with
  | String c s' =>
      if is_digit c then let (d, r) := digits s' in (String c d, r)
      else (EmptyString, s)
  | EmptyString => (EmptyString, s)
  end.

(** At least one digit. *)
Definition digits1 (s : string) : option (string * string) :=
  match digits s with
  | (EmptyString, _) => None
  | (d, r) => Some (d, r)
  end.

Definition is_byte (c : ascii) (n : nat) : bool := code c =? n.

(** A number literal: an optional minus sign; a zero, or a non-zero digit
    and further digits; optionally a point and one digit or more;
    optionally an exponent mark, a sign and one digit or more. *)
Definition parse_number (s : string) : option (string * string) :=
  let (sign, s) :=
    match s with
    | String c s' => if is_byte c 45 then (String c EmptyString, s') else (EmptyString, s)
    | EmptyString => (EmptyString, s)
    end in
  match
    match s with
    | String c s' =>
        if is_byte c 48 then Some (String c EmptyString, s')
        else if is_digit c then let (d, r) := digits s' in Some (String c d, r)
        else None
    | EmptyString => None
    end
  with
  | None => None
  | Some (int, s) =>
      match
        match s with
        | String c s' =>
            if is_byte c 46 then
              match digits1 s' with
              | Some (d, r) => Some (String c d, r)
              | None => None
              end
            else Some (EmptyString, s)
        | EmptyString => Some (EmptyString, s)
        end
      with
      | None => None
      | Some (frac, s) =>
          match
            match s with
            | String c s' =>
                if is_byte c 101 || is_byte c 69 then
                  let (esign, s'') :=
                    match s' with
                    | String d t =>
                        if is_byte d 43 || is_byte d 45
                        then (String d EmptyString, t) else (EmptyString, s')
                    | EmptyString => (EmptyString, s')
                    end in
                  match digits1 s'' with
                  | Some (d, r) => Some (String c (esign +:+ d), r)
                  | None => None
                  end
                else Some (EmptyString, s)
            | EmptyString => Some (EmptyString, s)
            end
          with
          | None => None
          | Some (exp, s) => Some (sign +:+ int +:+ frac +:+ exp, s)
          end
      end
  end.

Definition hex_digit (c : ascii) : option Z :=
  let x := Z.of_nat (code c) in
  if utf8.in_range 48 57 c then Some (x - 48)%Z
  else if utf8.in_range 97 102 c then Some (x - 87)%Z
  else if utf8.in_range 65 70 c then Some (x - 55)%Z
  else None.

(** Four hexadecimal digits, as after [\u]. *)
Definition hex4 (s : string) : option (Z * string) :=
  match s with
  | String a (String b (String c (String d r))) =>
      match hex_digit a, hex_digit b, hex_digit c, hex_digit d with
      | Some a, Some b, Some c, Some d => Some (((a * 16 + b) * 16 + c) * 16 + d, r)%Z
      | _, _, _, _ => None
      end
  | _ => None
  end.

(** [getu4]: the code unit of an escape [\uXXXX] at the head of [s]. *)
Definition getu4 (s : string) : option (Z * string) :=
  if HasPrefix s "\u" then hex4 (skip_bytes 2 s) else None.

Definition is_surrogate (r : Z) : bool := (55296 <=? r)%Z && (r <? 57344)%Z.

(** [utf16.DecodeRune]: the code point of a surrogate pair, if it is one. *)
Definition decode_pair (r1 r2 : Z) : option Z :=
  if (55296 <=? r1)%Z && (r1 <? 56320)%Z && (56320 <=? r2)%Z && (r2 <? 57344)%Z
  then Some ((r1 - 55296) * 1024 + (r2 - 56320) + 65536)%Z
  else None.

Definition simple_escape (c : ascii) : option ascii :=
  let x := code c in
  if (x =? 34) || (x =? 92) || (x =? 47) then Some c
  else if x =? 98 then Some (byte 8)
  else if x =? 102 then Some (byte 12)
  else if x =? 110 then Some (byte 10)
  else if x =? 114 then Some (byte 13)
  else if x =? 116 then Some (byte 9)
  else None.

(** The body of a string literal up to its closing quote, unquoted as
    [unquote] does: escapes are replaced, and bytes that are not
    well-formed UTF-8 become the replacement character. *)
Fixpoint parse_string (fuel : nat) (s : string) : option (string * string) :=
  match fuel with
  | O => None
  | S fuel' =>
      let continue (out rest : string) :=
        match parse_string fuel' rest with
        | Some (str, r) => Some (out +:+ str, r)
        | None => None
        end in
      match s with
      | EmptyString => None
      | String c s' =>
          if is_byte c 34 then Some (EmptyString, s')
          else if is_byte c 92 then
            match s' with
            | EmptyString => None
            | String e s'' =>
                match simple_escape e with
                | Some x => continue (String x EmptyString) s''
                | None =>
                    if is_byte e 117 then
                      match hex4 s'' with
                      | None => None
                      | Some (r1, s3) =>
                          if is_surrogate r1 then
                            match getu4 s3 with
                            | Some (r2, s4) =>
                                match decode_pair r1 r2 with
                                | Some r => continue (utf8.Encode r) s4
                                | None => continue utf8.RuneError s3
                                end
                            | None => continue utf8.RuneError s3
                            end
                          else continue (utf8.Encode r1) s3
                      end
                    else None
                end
            end
          else if code c <? 32 then None
          else
            match utf8.valid_width s with
            | O => continue utf8.RuneError s'
            | w => continue (head_bytes w s) (skip_bytes w s)
            end
      end
  end.

(** The scanner refuses a text nested deeper than this. *)
Definition maxNestingDepth : N := 10000%N.

(** One JSON value at the head of [s], which has no leading white space;
    [depth] counts the arrays and objects that are open. *)
Fixpoint parse_value (fuel : nat) (depth : N) (s : string) : option (value * string) :=
  match fuel with
  | O => None
  | S fuel' =>
      match s with
      | EmptyString => None
      | String c s' =>
          if is_byte c 123 then
            if (maxNestingDepth <=? depth)%N then None
            else
              let s1 := skip_space s' in
              match s1 with
              | String d s2 =>
                  if is_byte d 125 then Some (Object [], s2)
                  else
                    match parse_members fuel' (depth + 1)%N s1 with
                    | Some (ms, r) => Some (Object ms, r)
                    | None => None
                    end
              | EmptyString => None
              end
          else if is_byte c 91 then
            if (maxNestingDepth <=? depth)%N then None
            else
              let s1 := skip_space s' in
              match s1 with
              | String d s2 =>
                  if is_byte d 93 then Some (Array [], s2)
                  else
                    match parse_elements fuel' (depth + 1)%N s1 with
                    | Some (vs, r) => Some (Array vs, r)
                    | None => None
                    end
              | EmptyString => None
              end
          else if is_byte c 34 then
            match parse_string (String.length s) s' with
            | Some (str, r) => Some (Str str, r)
            | None => None
            end
          else if HasPrefix s "true" then Some (Bool true, skip_bytes 4 s)
          else if HasPrefix s "false" then Some (Bool false, skip_bytes 5 s)
          else if HasPrefix s "null" then Some (Null, skip_bytes 4 s)
          else
            match parse_number s with
            | Some (lit, r) => Some (Number lit, r)
            | None => None
            end
      end
  end

(** The members of an object after its opening brace, up to and
    including the closing brace; [s] starts at a key. *)
with parse_members (fuel : nat) (depth : N) (s : string)
    : option (list (string * value) * string) :=
  match fuel with
  | O => None
  | S fuel' =>
      match s with
      | String q s0 =>
          if is_byte q 34 then
            match parse_string (String.length s) s0 with
            | None => None
            | Some (key, s1) =>
                match skip_space s1 with
                | String colon s2 =>
                    if is_byte colon 58 then
                      match parse_value fuel' depth (skip_space s2) with
                      | None => None
                      | Some (v, s3) =>
                          match skip_space s3 with
                          | String d s4 =>
                              if is_byte d 125 then Some ([(key, v)], s4)
                              else if is_byte d 44 then
                                match parse_members fuel' depth (skip_space s4) with
                                | Some (ms, r) => Some ((key, v) :: ms, r)
                                | None => None
                                end
                              else None
                          | EmptyString => None
                          end
                      end
                    else None
                | EmptyString => None
                end
            end
          else None
      | EmptyString => None
      end
  end

(** The elements of an array after its opening bracket, up to and
    including the closing bracket; [s] starts at a value. *)
with parse_elements (fuel : nat) (depth : N) (s : string)
    : option (list value * string) :=
  match fuel with
  | O => None
  | S fuel' =>
      match parse_value fuel' depth s with
      | None => None
      | Some (v, s1) =>
          match skip_space s1 with
          | String d s2 =>
              if is_byte d 93 then Some ([v], s2)
              else if is_byte d 44 then
                match parse_elements fuel' depth (skip_space s2) with
                | Some (vs, r) => Some (v :: vs, r)
                | None => None
                end
              else None
          | EmptyString => None
          end
      end
  end.

(** [checkValid] together with the tree of the text: a single value
    surrounded by white space. *)
Definition parse (data : string) : option value :=
  match parse_value (S (String.length data)) 0%N (skip_space data) with
  | Some (v, rest) =>
      match skip_space rest with
      | EmptyString => Some v
      | _ => None
      end
  | None => None
  end.

(** *** Storing a value into a Go target *)

(** A slice in memory: the elements up to its length, and the elements
    behind them that earlier stores left in the backing array. A store
    into a slice reuses both. *)
Definition slice (A : Type) : Type := list A * list A.

Definition elements {A : Type} (sl : slice A) : list A := fst sl.

(** A target of kind string, such as [string] and [domain.Severity]. *)
Definition store_string (v : value) (old : string) : option string :=
  match v with
  | Str s => Some s
  | Null => Some old
  | _ => None
  end.

(** The loop of [decodeState.array]: element [i] of the text is stored
    into element [i] of the backing array, or into a zero element
    behind its end. *)
Fixpoint store_elements {A : Type} (zero : A) (store : value -> A -> option A)
    (vs : list value) (backing : list A) : option (slice A) :=
  match vs with
  | [] => Some ([], backing)
  | v :: vs' =>
      let (old, backing') :=
        match backing with
        | [] => (zero, [])
        | o :: b => (o, b)
        end in
      match store v old with
      | None => None
      | Some new =>
          match store_elements zero store vs' backing' with
          | Some (news, spare) => Some (new :: news, spare)
          | None => None
          end
      end
  end.

(** A target of kind slice. *)
Definition store_slice {A : Type} (zero : A) (store : value -> A -> option A)
    (v : value) (old : slice A) : option (slice A) :=
  match v with
  | Null => Some ([], [])
  | Array [] => Some ([], [])
  | Array vs => store_elements zero store vs (fst old ++ snd old)
  | _ => None
  end.

(** The loop of [decodeState.object] for a target of kind struct:
    [store_field] stores the value of one member into the field its key
    names. *)
Fixpoint store_members {A : Type} (store_field : string -> value -> A -> option A)
    (ms : list (string * value)) (old : A) : option A :=
  match ms with
  | [] => Some old
  | (key, v) :: ms' =>
      match store_field key v old with
      | Some new => store_members store_field ms' new
      | None => None
      end
  end.

Definition store_struct {A : Type} (store_field : string -> value -> A -> option A)
    (v : value) (old : A) : option A :=
  match v with
  | Object ms => store_members store_field ms old
  | Null => Some old
  | _ => None
  end.

Definition upper (c : ascii) : ascii :=
  if utf8.in_range 97 122 c then byte (code c - 32) else c.

(** Whether [key] names the field whose tag is [name]: equality up to
    simple case folding, in which the long s (U+017F) folds to [S] and the
    Kelvin sign (U+212A) to [K]. The tags are ASCII. *)
Fixpoint EqualFold (key name : string) {struct name} : bool :=
  match name with
  | EmptyString => match key with EmptyString => true | _ => false end
  | String n name' =>
      match key with
      | EmptyString => false
      | String k key' =>
          if Ascii.eqb (upper k) (upper n) then EqualFold key' name'
          else if is_byte (upper n) 83 && HasPrefix key (utf8.Encode 383)
          then EqualFold (skip_bytes 2 key) name'
          else if is_byte (upper n) 75 && HasPrefix key (utf8.Encode 8490)
          then EqualFold (skip_bytes 3 key) name'
          else false
      end
  end.

End json.

(** ** Package [review]: the structured output of the model *)

Module ReviewOutput.

Record t : Type := mk {
  Summary : string;
  Findings : list Finding.t
}.

(** A finding in memory: its fields, and what lies behind the length of
    its [Files] slice. *)
Definition Finding_cell : Type := Finding.t * list string.

Definition Finding_zero : Finding_cell :=
  (Finding.mk "" "" "" [] "" "", []).

Definition store_Finding_field (key : string) (v : json.value) (c : Finding_cell)
    : option Finding_cell :=
  let (f, spare) := c in
  let (title, severity, repo_name, files, explanation, action) := f in
  if json.EqualFold key "title" then
    s ← json.store_string v title;
    Some (Finding.mk s severity repo_name files explanation action, spare)
  else if json.EqualFold key "severity" then
    s ← json.store_string v severity;
    Some (Finding.mk title s repo_name files explanation action, spare)
  else if json.EqualFold key "repo_name" then
    s ← json.store_string v repo_name;
    Some (Finding.mk title severity s files explanation action, spare)
  else if json.EqualFold key "files" then
    sl ← json.store_slice "" json.store_string v (files, spare);
    Some (Finding.mk title severity repo_name (fst sl) explanation action, snd sl)
  else if json.EqualFold key "explanation" then
    s ← json.store_string v explanation;
    Some (Finding.mk title severity repo_name files s action, spare)
  else if json.EqualFold key "suggested_action" then
    s ← json.store_string v action;
    Some (Finding.mk title severity repo_name files explanation s, spare)
  else Some c.

Definition store_Finding : json.value -> Finding_cell -> option Finding_cell :=
  json.store_struct store_Finding_field.

(** The output in memory. *)
Definition cell : Type := string * json.slice Finding_cell.

Definition store_field (key : string) (v : json.value) (c : cell) : option cell :=
  let (summary, findings) := c in
  if json.EqualFold key "summary" then
    s ← json.store_string v summary; Some (s, findings)
  else if json.EqualFold key "findings" then
    sl ← json.store_slice Finding_zero store_Finding v findings; Some (summary, sl)
  else Some c.

Definition store : json.value -> cell -> option cell :=
  json.store_struct store_field.

Definition zero : t := mk "" [].

Definition load (o : t) : cell := (Summary o, (map (fun f => (f, [])) (Findings o), [])).
Definition read (c : cell) : t := mk (fst c) (map fst (json.elements (snd c))).

(** [json.Unmarshal data &output] for [output] of type [ReviewOutput]. *)
Definition Unmarshal (data : string) (output : t) : result t :=
  match json.parse data with
  | None => inr SyntaxError
  | Some v =>
      match store v (load output) with
      | Some c => inl (read c)
      | None => inr UnmarshalTypeError
      end
  end.

End ReviewOutput.

(** ** Line scanning ([bufio.Scanner] with [bufio.ScanLines]) *)

Module bufio.

Definition MaxScanTokenSize : N := 65536%N.

(** [dropCR], on a line whose bytes are held last first. *)
Definition dropCR (rev_line : string) : string :=
  match rev_line with
  | String c r => if json.is_byte c 13 then String.rev r else String.rev rev_line
  | EmptyString => EmptyString
  end.

(** A line is handed out unless it does not fit the buffer of the
    scanner, in which case scanning stops with [ErrTooLong]. *)
Definition token (rev_line : string) (next : list string * option error)
    : list string * option error :=
  if (MaxScanTokenSize <=? N.of_nat (String.length rev_line))%N
  then ([], Some ErrTooLong)
  else (dropCR rev_line :: fst next, snd next).

(** The lines that successive calls of [Scan] hand out, and the value
    of [Err] afterwards. [rev_line] holds the bytes of the line that is
    being read, last first. *)
Fixpoint scan (rev_line data : string) : list string * option error :=
  match data with
  | EmptyString =>
      match rev_line with
      | EmptyString => ([], None)
      | _ => token rev_line ([], None)
      end
  | String c data' =>
      if json.is_byte c 10 then token rev_line (scan EmptyString data')
      else scan (String c rev_line) data'
  end.

Definition ScanLines (data : string) : list string * option error :=
  scan EmptyString data.

End bufio.

(** ** Package [config] *)

Module EmailConfig.
Record t : Type := mk {
  Enabled : bool;
  SendAt : string;
  SMTPHost : string;
  SMTPPort : Z;
  SMTPUser : string;
  SMTPPassword : string;
  FromAddress : string;
  FromName : string;
  ToAddress : string
}.
End EmailConfig.

Module ReviewConfig.
Record t : Type := mk {
  Strictness : string;
  Provider : string;
  Model : string;
  APIKey : string;
  BaseURL : string
}.
End ReviewConfig.

Module ReportsConfig.
Record t : Type := mk { OutputDir : string }.
End ReportsConfig.

Module Config.
Record t : Type := mk {
  RootPath : string;
  Email : EmailConfig.t;
  Review : ReviewConfig.t;
  Reports : ReportsConfig.t;
  Verbose : bool
}.
End Config.

(** ** The handle of the model framework ([genkit.Genkit]) *)

Module Genkit.
Record t : Type := mk {
  Plugin : string;
  APIKey : string;
  BaseURL : string;
  DefaultModel : string
}.
End Genkit.

(** ** The outside world

    The operations the program performs on its environment. Operations
    that depend on the state of the environment, or change it, head_bytes and
    return a [World]. *)

Record Outside {Time World : Type} : Type := {
  (** [time.Now] and [time.Sleep] *)
  time_Now : World -> Time * World;
  time_Sleep : Duration -> World -> World;
  (** [time.Parse layout value] and [t.Format layout] *)
  time_Parse : string -> string -> result Time;
  Time_Format : Time -> string -> string;
  Time_UnixNano : Time -> Z;
  (** [t.Sub u] *)
  Time_Sub : Time -> Time -> Duration;
  (** [time.Date(t.Year(), t.Month(), t.Day(), 0, 0, 0, 0, t.Location())] *)
  Time_midnight : Time -> Time;
  (** [cmd.Output()] for [exec.CommandContext(ctx, name, args...)] run in
      the directory [dir] *)
  exec_Output : string -> string -> list string -> World -> result string * World;
  (** [os.IsNotExist] applied to the error of [os.Stat path] *)
  os_Stat_IsNotExist : string -> World -> bool * World;
  os_Getenv : string -> World -> string * World;
  (** [scanner.FindRepositories], a walk of the file system *)
  scanner_FindRepositories : string -> World -> result (list string) * World;
  (** [genkit.GenerateText] with the handle, the model name and the prompt *)
  genkit_GenerateText : Genkit.t -> string -> string -> World -> result string * World;
  (** [report.Formatter]: [Write] and [ToHTML] *)
  report_Write : Report.t Time -> World -> result string * World;
  report_ToHTML : Report.t Time -> string;
  (** [notify.Service.sendWithTimeout addr message timeout], one SMTP
      session *)
  notify_sendWithTimeout : string -> string -> Duration -> World -> option error * World
}.
Global Arguments Outside : clear implicits.

(** The calls that are observed. *)
Inductive Event {Time : Type} : Type :=
  | EvLog (format : string) (args : list fmt_arg)
  | EvExec (dir name : string) (args : list string) (res : result string)
  | EvFindRepositories (root : string)
  | EvGenerateText (model prompt : string)
  | EvWriteReport (rpt : Report.t Time)
  | EvSend (addr message : string) (timeout : Duration) (res : option error)
  | EvSleep (d : Duration).
Global Arguments Event : clear implicits.

(** ** The monad of the program: state and trace *)

Section IO.
Context {Time World : Type}.

Definition IO (A : Type) : Type :=
  World * list (Event Time) -> A * (World * list (Event Time)).

Definition ret {A : Type} (a : A) : IO A := fun st => (a, st).

Definition bind {A B : Type} (m : IO A) (k : A -> IO B) : IO B :=
  fun st => let (a, st') := m st in k a st'.

(** An operation of the world. *)
Definition call {A : Type} (op : World -> A * World) : IO A :=
  fun st => let (a, w) := op (fst st) in (a, (w, snd st)).

Definition emit (e : Event Time) : IO unit :=
  fun st => (tt, (fst st, snd st ++ [e])).

(** [logger.Printf format args...] *)
Definition Printf (format : string) (args : list fmt_arg) : IO unit :=
  emit (EvLog format args).

(** Running a computation from a world with an empty trace. *)
Definition run {A : Type} (m : IO A) (w : World) : A * (World * list (Event Time)) :=
  m (w, []).

Definition value_of {A : Type} (r : A * (World * list (Event Time))) : A := fst r.
Definition trace_of {A : Type} (r : A * (World * list (Event Time))) : list (Event Time) :=
  snd (snd r).
End IO.

Notation "'let*' x ':=' m 'in' k" := (bind m (fun x => k))
  (at level 10, x pattern, m at level 100, k at level 200).
Notation "m ';;' k" := (bind m (fun _ => k))
  (at level 100, k at level 200, right associativity).

(** The line feed, and a text of lines. *)
Definition LF : string := String (byte 10) EmptyString.

(** ** Package [scanner] *)

Module scanner.
Definition GetRepoName (repoPath : string) : string := filepath.Base repoPath.
End scanner.

(** [cmd.Output()], observed. *)
Definition Output {Time World : Type} (out : Outside Time World)
    (dir name : string) (args : list string) : @IO Time World (result string) :=
  let* res := call (exec_Output out dir name args) in
  emit (EvExec dir name args res) ;;
  ret res.

(** ** Package [git]: the commit locator *)

Module git.

(** [time.RFC3339] *)
Definition RFC3339 : string := "2006-01-02T15:04:05Z07:00".

Section Client.
Context {Time World : Type} (out : Outside Time World).
Local Abbreviation IO := (@IO Time World).

(** The body of the scanning loop of [parseCommits], for one line. *)
Definition parseCommits_line (repoPath repoName line : string)
    (commits : list (Commit.t Time)) : IO (list (Commit.t Time)) :=
  if String.eqb line "" then ret commits
  else
    let parts := SplitN line "|" 5 in
    if (Z.of_nat (length parts) <? 5)%Z then ret commits
    else
      match time_Parse out RFC3339 (nth 3 parts "") with
      | inr err =>
          Printf "Warning: failed to parse timestamp %s: %v"
            [arg_string (nth 3 parts ""); arg_error err] ;;
          ret commits
      | inl timestamp =>
          ret (commits ++
               [Commit.mk Time (nth 0 parts "") (nth 1 parts "") (nth 2 parts "")
                  timestamp (nth 4 parts "") repoPath repoName])
      end.

Fixpoint parseCommits_loop (repoPath repoName : string) (lines : list string)
    (commits : list (Commit.t Time)) : IO (list (Commit.t Time)) :=
  match lines with
  | [] => ret commits
  | line :: lines' =>
      let* commits := parseCommits_line repoPath repoName line commits in
      parseCommits_loop repoPath repoName lines' commits
  end.

Definition parseCommits (output repoPath : string)
    : IO (list (Commit.t Time) * option error) :=
  let repoName := scanner.GetRepoName repoPath in
  let (lines, err) := bufio.ScanLines output in
  let* commits := parseCommits_loop repoPath repoName lines [] in
  ret (commits, err).

Definition GetTodaysCommits (repoPath : string)
    : IO (list (Commit.t Time) * option error) :=
  let* now := call (time_Now out) in
  let midnight := Time_midnight out now in
  let since := Time_Format out midnight "2006-01-02T15:04:05" in
  let format := "%H|%an|%ae|%aI|%s" in
  let* res := Output out repoPath "git"
                ["log"; "--since=" +:+ since; "--no-merges";
                 "--format=" +:+ format; "--all"] in
  match res with
  | inr err =>
      match err with
      | ExitError Stderr =>
          if Contains Stderr "does not have any commits" then ret ([], None)
          else ret ([], Some (Errorf "git log failed: %w" [arg_error err]))
      | _ => ret ([], Some (Errorf "git log failed: %w" [arg_error err]))
      end
  | inl output => parseCommits output repoPath
  end.
End Client.

End git.

(** ** Package [diff]: the diff extractor *)

Module diff.

Definition excludePaths : list string :=
  ["vendor/"; "node_modules/"; ".gen."; ".generated."; "_generated";
   ".pb.go"; ".mock.go"; "_mock.go"; "mocks/"; "testdata/"].

Fixpoint shouldExclude_loop (path : string) (excludes : list string) : bool :=
  match excludes with
  | [] => false
  | exclude :: excludes' =>
      if Contains path exclude then true else shouldExclude_loop path excludes'
  end.

Definition shouldExclude (path : string) : bool :=
  shouldExclude_loop path excludePaths.

(** The body of the scanning loop of [getChangedFiles], for one line. *)
Definition getChangedFiles_line (text : string) (files : list string) : list string :=
  let line := TrimSpace text in
  if String.eqb line "" then files
  else
    let parts := Fields line in
    if (2 <=? Z.of_nat (length parts))%Z then
      if negb (String.eqb (nth 0 parts "") "D")
      then files ++ [nth (length parts - 1) parts ""]
      else files
    else files.

Section Extractor.
Context {Time World : Type} (out : Outside Time World).
Local Abbreviation IO := (@IO Time World).

Definition getChangedFiles (repoPath commitHash : string)
    : IO (list string * option error) :=
  let* res := Output out repoPath "git"
                ["show"; "--format="; "--name-status"; commitHash] in
  match res with
  | inr err => ret ([], Some err)
  | inl output =>
      let (lines, err) := bufio.ScanLines output in
      ret (fold_left (fun files text => getChangedFiles_line text files) lines [], err)
  end.

Definition getFileDiff (repoPath commitHash filePath : string) : IO (result string) :=
  Output out repoPath "git"
    ["show"; "--format="; "--patch"; "--no-color"; commitHash; "--"; filePath].

(** The body of the loop of [Extract], for one changed file. *)
Definition Extract_file (commit : Commit.t Time) (file : string)
    (diffs : list Diff.t) : IO (list Diff.t) :=
  let ext := filepath.Ext file in
  match Diff.SupportedExtensions !! ext with
  | None => ret diffs
  | Some lang =>
      if shouldExclude file then ret diffs
      else
        let* res := getFileDiff (Commit.RepoPath commit) (Commit.Hash commit) file in
        match res with
        | inr err =>
            Printf "Warning: failed to get diff for %s: %v"
              [arg_string file; arg_error err] ;;
            ret diffs
        | inl content =>
            let lines := Split content LF in
            let lineCount := Z.of_nat (length lines) in
            let content :=
              if (Diff.MaxDiffLines <? lineCount)%Z
              then Join (take (Z.to_nat Diff.MaxDiffLines) lines) LF
                     +:+ LF +:+ "... [truncated]"
              else content in
            ret (diffs ++
                 [Diff.mk file "" content lineCount false false false
                    (Commit.Hash commit) (Commit.RepoPath commit)
                    (scanner.GetRepoName (Commit.RepoPath commit)) lang])
        end
  end.

Fixpoint Extract_loop (commit : Commit.t Time) (files : list string)
    (diffs : list Diff.t) : IO (list Diff.t) :=
  match files with
  | [] => ret diffs
  | file :: files' =>
      let* diffs := Extract_file commit file diffs in
      Extract_loop commit files' diffs
  end.

Definition Extract (commit : Commit.t Time) : IO (result (list Diff.t)) :=
  let* (files, err) := getChangedFiles (Commit.RepoPath commit) (Commit.Hash commit) in
  match err with
  | Some err => ret (inr err)
  | None =>
      let* diffs := Extract_loop commit files [] in
      ret (inl diffs)
  end.
End Extractor.

End diff.

(** ** Package [review]: the review engine *)

(** JSON texts are written with ['] where the text has a double quote. *)
Fixpoint q (s : string) : string :=
  match s with
  | EmptyString => EmptyString
  | String c s' => String (if Ascii.eqb c "'" then byte 34 else c) (q s')
  end.

Module review.

Definition systemPrompt : string := "You are a senior software engineer performing a daily code review. Your role is to identify meaningful issues that matter for production code quality.

## Your Review Principles

1. **Signal over noise** – Only flag issues that genuinely matter. If the code looks fine, say so.
2. **Mentor mindset** – Explain why something is a problem, not just that it is one.
3. **Context-aware** – Consider the language, framework, and apparent intent.
4. **No nitpicking** – Ignore formatting, naming style, and minor preferences.
5. **Evidence-based** – Only flag issues you can point to in the code.

## What to Look For

- **Bugs**: Logic errors, edge cases, null/nil handling, race conditions
- **Security**: Injection risks, auth issues, sensitive data exposure
- **Data integrity**: Missing validation, transaction issues, constraint violations
- **Design**: Architectural problems, tight coupling, missing abstractions
- **Performance**: Obvious inefficiencies, N+1 queries, memory leaks

## What to Ignore

- Formatting and whitespace
- Naming conventions (unless truly confusing)
- Missing comments (unless logic is complex)
- Speculative future problems
- Style preferences".

Definition outputInstructions : string := q "
## Required Output Format

Respond with a JSON object in this exact format:

{
  'summary': 'One or two sentence summary of the changes reviewed',
  'findings': [
    {
      'title': 'Brief issue title',
      'severity': 'High|Medium|Low',
      'repo_name': 'repository-name',
      'files': ['file1.go', 'file2.go'],
      'explanation': 'Why this is a problem and what could go wrong',
      'suggested_action': 'Specific recommendation to fix the issue'
    }
  ]
}

If no meaningful issues are found, return:
{
  'summary': 'Summary of changes reviewed',
  'findings': []
}

Respond ONLY with the JSON object, no additional text.".

Record Reviewer : Type := mkReviewer {
  config : ReviewConfig.t;
  genkit : Genkit.t;
  modelID : string
}.

(** The section of the prompt for one diff unit. *)
Definition buildPrompt_diff (d : Diff.t) : string :=
  ("### Repository: " +:+ Diff.RepoName d +:+ LF)
  +:+ ("### File: " +:+ Diff.FilePath d +:+ " (" +:+ Diff.Language d +:+ ")" +:+ LF)
  +:+ ("```diff" +:+ LF)
  +:+ Diff.Content d
  +:+ (LF +:+ "```" +:+ LF +:+ LF).

Definition buildPrompt (diffs : list Diff.t) : string :=
  systemPrompt
  +:+ (LF +:+ LF)
  +:+ ("## Code Changes to Review" +:+ LF +:+ LF)
  +:+ GoString.concat (map buildPrompt_diff diffs)
  +:+ outputInstructions.

(** The removal of a code fence that starts with [fence]. *)
Definition strip_fence (text fence : string) : string :=
  let text := TrimPrefix text fence in
  let idx := LastIndex text "```" in
  if negb (idx =? -1)%Z then slice_to text idx else text.

Definition parseResponse (text : string) : result ReviewOutput.t :=
  let text := TrimSpace text in
  let text :=
    if HasPrefix text "```json" then strip_fence text "```json"
    else if HasPrefix text "```" then strip_fence text "```"
    else text in
  let text := TrimSpace text in
  match ReviewOutput.Unmarshal text ReviewOutput.zero with
  | inr err =>
      inr (Errorf ("failed to parse JSON: %w" +:+ LF +:+ "Response was: %s")
             [arg_error err; arg_string text])
  | inl output => inl output
  end.

Section Reviewer.
Context {Time World : Type} (out : Outside Time World).
Local Abbreviation IO := (@IO Time World).

(** The first of the two environment variables that is set. *)
Definition env_key (first second : string) : IO string :=
  let* apiKey := call (os_Getenv out first) in
  if String.eqb apiKey "" then call (os_Getenv out second) else ret apiKey.

Definition NewReviewer (cfg : ReviewConfig.t) : IO (result Reviewer) :=
  if String.eqb (ReviewConfig.Provider cfg) "openai" then
    let* apiKey :=
      if String.eqb (ReviewConfig.APIKey cfg) ""
      then env_key "ZHIPU_API_KEY" "OPENAI_API_KEY"
      else ret (ReviewConfig.APIKey cfg) in
    let modelID := ReviewConfig.Model cfg in
    let modelID := if String.eqb modelID "" then "glm-4.7" else modelID in
    let modelID := if negb (Contains modelID "/") then "openai/" +:+ modelID else modelID in
    ret (inl (mkReviewer cfg
                (Genkit.mk "openai" apiKey (ReviewConfig.BaseURL cfg) modelID) modelID))
  else
    let* apiKey :=
      if String.eqb (ReviewConfig.APIKey cfg) ""
      then env_key "GEMINI_API_KEY" "GOOGLE_API_KEY"
      else ret (ReviewConfig.APIKey cfg) in
    let modelID := ReviewConfig.Model cfg in
    let modelID := if String.eqb modelID "" then "gemini-2.0-flash" else modelID in
    let modelID := if negb (Contains modelID "/") then "googleai/" +:+ modelID else modelID in
    ret (inl (mkReviewer cfg (Genkit.mk "googleai" apiKey "" modelID) modelID)).

(** [genkit.GenerateText], observed. *)
Definition GenerateText (g : Genkit.t) (model prompt : string) : IO (result string) :=
  let* res := call (genkit_GenerateText out g model prompt) in
  emit (EvGenerateText model prompt) ;;
  ret res.

(** [Review] returns the findings, the summary and the error. *)
Definition Review (r : Reviewer) (diffs : list Diff.t)
    : IO (list Finding.t * string * option error) :=
  if (Z.of_nat (length diffs) =? 0)%Z then ret ([], "No changes to review.", None)
  else
    let prompt := buildPrompt diffs in
    let* answer := GenerateText (genkit r) (modelID r) prompt in
    match answer with
    | inr err => ret ([], "", Some (Errorf "generating review: %w" [arg_error err]))
    | inl answer =>
        match parseResponse answer with
        | inr err => ret ([], "", Some (Errorf "parsing response: %w" [arg_error err]))
        | inl output =>
            ret (ReviewOutput.Findings output, ReviewOutput.Summary output, None)
        end
    end.
End Reviewer.

End review.

(** ** Package [notify]: the delivery layer *)

Definition CRLF : string := String (byte 13) (String (byte 10) EmptyString).

Module notify.

(** [time.RFC1123Z] *)
Definition RFC1123Z : string := "Mon, 02 Jan 2006 15:04:05 -0700".

Record Service : Type := mkService { config : EmailConfig.t }.

Section Service.
Context {Time World : Type} (out : Outside Time World).
Local Abbreviation IO := (@IO Time World).

Definition NewService (cfg : EmailConfig.t) : IO (result Service) :=
  ret (inl (mkService cfg)).

Definition buildSubject (s : Service) (rpt : Report.t Time) : string :=
  let date := Time_Format out (Report.Date rpt) "Jan 2" in
  if negb (Report.HasFindings rpt) then
    "[CRA] Daily Review - " +:+ date +:+ " - ✅ All Clear"
  else
    let findings := Report.TotalFindings rpt in
    let high := Report.HighCount rpt in
    if (0 <? high)%Z then
      "[CRA] Daily Review - " +:+ date +:+ " - ⚠️ " +:+ Itoa findings +:+ " findings (" +:+ Itoa high +:+ " high)"
    else
      "[CRA] Daily Review - " +:+ date +:+ " - " +:+ Itoa findings +:+ " findings".

Definition buildMessage (s : Service) (subject htmlBody : string) : IO string :=
  let cfg := config s in
  let headers1 :=
    ("From: " +:+ EmailConfig.FromName cfg +:+ " <" +:+ EmailConfig.FromAddress cfg
       +:+ ">" +:+ CRLF)
    +:+ ("To: " +:+ EmailConfig.ToAddress cfg +:+ CRLF)
    +:+ ("Subject: " +:+ subject +:+ CRLF)
    +:+ ("MIME-Version: 1.0" +:+ CRLF)
    +:+ ("Content-Type: text/html; charset=UTF-8" +:+ CRLF) in
  let* now1 := call (time_Now out) in
  let date := "Date: " +:+ Time_Format out now1 RFC1123Z +:+ CRLF in
  let* now2 := call (time_Now out) in
  let id := "Message-ID: <" +:+ Itoa (Time_UnixNano out now2) +:+ "@"
              +:+ EmailConfig.SMTPHost cfg +:+ ">" +:+ CRLF in
  ret (headers1 +:+ date +:+ id +:+ CRLF +:+ htmlBody).

(** [sendWithTimeout] and [time.Sleep], observed. *)
Definition sendWithTimeout (addr message : string) (timeout : Duration) : IO (option error) :=
  let* res := call (notify_sendWithTimeout out addr message timeout) in
  emit (EvSend addr message timeout res) ;;
  ret res.

Definition Sleep (d : Duration) : IO unit :=
  call (fun w => (tt, time_Sleep out d w)) ;;
  emit (EvSleep d).

Definition arg_of (lastErr : option error) : fmt_arg :=
  match lastErr with
  | Some e => arg_error e
  | None => arg_nil
  end.

(** The retry loop of [send], entered with the attempt number; [fuel]
    bounds the number of iterations that remain and is not exhausted
    before the loop condition fails. *)
Fixpoint send_loop (fuel : nat) (addr message : string) (attempt : Z)
    (lastErr : option error) : IO (option error) :=
  match fuel with
  | O => ret (Some (Errorf "failed after 3 attempts: %w" [arg_of lastErr]))
  | S fuel' =>
      if (attempt <=? 3)%Z then
        let* err := sendWithTimeout addr message (30 * Second)%Z in
        match err with
        | None => ret None
        | Some err =>
            Printf "Email attempt %d failed: %v" [arg_int attempt; arg_error err] ;;
            (if (attempt <? 3)%Z then Sleep (attempt * attempt * Second)%Z else ret tt) ;;
            send_loop fuel' addr message (attempt + 1)%Z (Some err)
        end
      else ret (Some (Errorf "failed after 3 attempts: %w" [arg_of lastErr]))
  end.

Definition send (s : Service) (subject htmlBody : string) : IO (option error) :=
  let addr := EmailConfig.SMTPHost (config s) +:+ ":"
                +:+ Itoa (EmailConfig.SMTPPort (config s)) in
  let* message := buildMessage s subject htmlBody in
  send_loop 4 addr message 1 None.

Definition SendReport (s : Service) (rpt : Report.t Time) : IO (option error) :=
  let htmlBody := report_ToHTML out rpt in
  let subject := buildSubject s rpt in
  send s subject htmlBody.
End Service.

End notify.

(** ** Package [config]: validation *)

Module config.
Section Validate.
Context {Time World : Type} (out : Outside Time World).
Local Abbreviation IO := (@IO Time World).

Definition set_APIKey (c : Config.t) (key : string) : Config.t :=
  let r := Config.Review c in
  Config.mk (Config.RootPath c) (Config.Email c)
    (ReviewConfig.mk (ReviewConfig.Strictness r) (ReviewConfig.Provider r)
       (ReviewConfig.Model r) key (ReviewConfig.BaseURL r))
    (Config.Reports c) (Config.Verbose c).

(** [Validate] returns its error and the configuration as it leaves it. *)
Definition Validate (c : Config.t) : IO (option error * Config.t) :=
  if String.eqb (Config.RootPath c) "" then
    ret (Some (Errorf "root_path is required" []), c)
  else
    let* missing := call (os_Stat_IsNotExist out (Config.RootPath c)) in
    if missing : bool then
      ret (Some (Errorf "root_path does not exist: %s" [arg_string (Config.RootPath c)]), c)
    else if EmailConfig.Enabled (Config.Email c)
            && String.eqb (EmailConfig.SMTPHost (Config.Email c)) "" then
      ret (Some (Errorf "smtp_host is required when email is enabled" []), c)
    else if EmailConfig.Enabled (Config.Email c)
            && String.eqb (EmailConfig.ToAddress (Config.Email c)) "" then
      ret (Some (Errorf "to_address is required when email is enabled" []), c)
    else if String.eqb (ReviewConfig.APIKey (Config.Review c)) "" then
      let* key := call (os_Getenv out "GOOGLE_API_KEY") in
      if negb (String.eqb key "") then ret (None, set_APIKey c key)
      else
        let* key := call (os_Getenv out "OPENAI_API_KEY") in
        if negb (String.eqb key "") then ret (None, set_APIKey c key)
        else ret (None, c)
    else ret (None, c).
End Validate.
End config.

(** ** Package [app]: the orchestrator *)

(** How a call ends: it returns, or the Go runtime panics. *)
Inductive outcome (A : Type) : Type :=
  | Return (a : A)
  | Panic (reason : string).
Global Arguments Return {A} a.
Global Arguments Panic {A} reason.

Module app.
Section Runner.
Context {Time World : Type} (out : Outside Time World).
Local Abbreviation IO := (@IO Time World).

(** [r.log]: a log line when the run is verbose. *)
Definition log (cfg : Config.t) (format : string) (args : list fmt_arg) : IO unit :=
  if Config.Verbose cfg then Printf format args else ret tt.

(** [report.Formatter.Write] and [scanner.FindRepositories], observed. *)
Definition Write (rpt : Report.t Time) : IO (result string) :=
  let* res := call (report_Write out rpt) in
  emit (EvWriteReport rpt) ;;
  ret res.

Definition FindRepositories (rootPath : string) : IO (result (list string)) :=
  let* res := call (scanner_FindRepositories out rootPath) in
  emit (EvFindRepositories rootPath) ;;
  ret res.

Definition handleNoFindings (cfg : Config.t) : IO (option error) :=
  let* now := call (time_Now out) in
  let rpt := Report.mk Time now "No code changes to review today." [] [] 0 0 true "" in
  let* res := Write rpt in
  match res with
  | inr err => ret (Some (Errorf "writing report: %w" [arg_error err]))
  | inl reportPath =>
      log cfg "Report saved to %s" [arg_string reportPath] ;;
      ret None
  end.

(** Step 1 of [Run], up to the count of the repositories: the start time,
    the validated configuration and the repositories found, unless the
    run ends here. *)
Definition Run_scan (cfg : Config.t)
    : IO (option error + Time * Config.t * list string) :=
  let* startTime := call (time_Now out) in
  let* (err, cfg) := config.Validate out cfg in
  match err with
  | Some err => ret (inl (Some (Errorf "invalid configuration: %w" [arg_error err])))
  | None =>
      log cfg "Starting code review for %s" [arg_string (Config.RootPath cfg)] ;;
      log cfg "Scanning for Git repositories..." [] ;;
      let* res := FindRepositories (Config.RootPath cfg) in
      match res with
      | inr err => ret (inl (Some (Errorf "scanning repositories: %w" [arg_error err])))
      | inl repos =>
          log cfg "Found %d repositories" [arg_int (Z.of_nat (length repos))] ;;
          ret (inr (startTime, cfg, repos))
      end
  end.

(** The loop of step 2. *)
Fixpoint Run_commits_loop (cfg : Config.t) (repos : list string)
    (allCommits : list (Commit.t Time)) : IO (list (Commit.t Time)) :=
  match repos with
  | [] => ret allCommits
  | repoPath :: repos' =>
      let* (commits, err) := git.GetTodaysCommits out repoPath in
      match err with
      | Some err =>
          log cfg "Warning: failed to get commits from %s: %v"
            [arg_string repoPath; arg_error err] ;;
          Run_commits_loop cfg repos' allCommits
      | None => Run_commits_loop cfg repos' (allCommits ++ commits)
      end
  end.

(** Step 2 of [Run], up to the count of the commits. *)
Definition Run_commits (cfg : Config.t) (repos : list string) : IO (list (Commit.t Time)) :=
  log cfg "Finding today's commits..." [] ;;
  let* allCommits := Run_commits_loop cfg repos [] in
  log cfg "Found %d commits from today" [arg_int (Z.of_nat (length allCommits))] ;;
  ret allCommits.

(** The loop of step 3. The warning takes [commit.Hash[:8]], which panics
    for a hash of fewer than eight bytes. *)
Fixpoint Run_diffs_loop (cfg : Config.t) (commits : list (Commit.t Time))
    (allDiffs : list Diff.t) : IO (outcome (list Diff.t)) :=
  match commits with
  | [] => ret (Return allDiffs)
  | commit :: commits' =>
      let* res := diff.Extract out commit in
      match res with
      | inr err =>
          if (len (Commit.Hash commit) <? 8)%Z then
            ret (Panic "runtime error: slice bounds out of range")
          else
            log cfg "Warning: failed to extract diff for %s: %v"
              [arg_string (slice_to (Commit.Hash commit) 8); arg_error err] ;;
            Run_diffs_loop cfg commits' allDiffs
      | inl diffs => Run_diffs_loop cfg commits' (allDiffs ++ diffs)
      end
  end.

(** Step 3 of [Run], up to the count of the diffs. *)
Definition Run_diffs (cfg : Config.t) (allCommits : list (Commit.t Time))
    : IO (outcome (list Diff.t)) :=
  log cfg "Extracting diffs..." [] ;;
  let* res := Run_diffs_loop cfg allCommits [] in
  match res with
  | Panic reason => ret (Panic reason)
  | Return allDiffs =>
      log cfg "Extracted %d file diffs" [arg_int (Z.of_nat (length allDiffs))] ;;
      ret (Return allDiffs)
  end.

(** [elapsed.Round(time.Millisecond)]: to the nearest multiple of [m],
    halves away from zero; a result outside the 64-bit range is replaced by
    the bound of the range. *)
Definition minDuration : Duration := (- 2 ^ 63)%Z.
Definition maxDuration : Duration := (2 ^ 63 - 1)%Z.

Definition Round (d m : Duration) : Duration :=
  if (m <=? 0)%Z then d
  else
    let r := Z.rem d m in
    if (d <? 0)%Z then
      let r := (- r)%Z in
      if (r + r <? m)%Z then (d + r)%Z
      else if (minDuration <=? d - m + r)%Z then (d - m + r)%Z else minDuration
    else
      if (r + r <? m)%Z then (d - r)%Z
      else if (d + m - r <=? maxDuration)%Z then (d + m - r)%Z else maxDuration.

(** Step 6 of [Run]: the notification, and the closing log line. *)
Definition Run_notify (cfg : Config.t) (startTime : Time) (rpt : Report.t Time)
    : IO (option error) :=
  let* err :=
    if EmailConfig.Enabled (Config.Email cfg) && Report.HasFindings rpt then
      log cfg "Sending email notification..." [] ;;
      let* res := notify.NewService (Config.Email cfg) in
      match res with
      | inr err => ret (Some (Errorf "initializing email service: %w" [arg_error err]))
      | inl notifier =>
          let* err := notify.SendReport out notifier rpt in
          match err with
          | Some err => ret (Some (Errorf "sending email: %w" [arg_error err]))
          | None => log cfg "Email sent successfully" [] ;; ret None
          end
      end
    else ret None in
  match err with
  | Some err => ret (Some err)
  | None =>
      let* now := call (time_Now out) in
      let elapsed := Time_Sub out now startTime in
      log cfg "Review complete in %s" [arg_duration (Round elapsed Millisecond)] ;;
      ret None
  end.

(** Steps 4 to 6 of [Run]: review, report and notification. *)
Definition Run_review (cfg : Config.t) (startTime : Time) (repos : list string)
    (allCommits : list (Commit.t Time)) (allDiffs : list Diff.t) : IO (option error) :=
  log cfg "Initializing LLM reviewer..." [] ;;
  let* res := review.NewReviewer out (Config.Review cfg) in
  match res with
  | inr err => ret (Some (Errorf "initializing reviewer: %w" [arg_error err]))
  | inl reviewer =>
      log cfg "Reviewing code changes..." [] ;;
      let* (findings, summary, err) := review.Review out reviewer allDiffs in
      match err with
      | Some err => ret (Some (Errorf "reviewing code: %w" [arg_error err]))
      | None =>
          log cfg "Found %d issues" [arg_int (Z.of_nat (length findings))] ;;
          log cfg "Generating report..." [] ;;
          let* now := call (time_Now out) in
          let rpt := Report.mk Time now summary findings repos
                       (Z.of_nat (length allCommits)) (Z.of_nat (length allDiffs))
                       false "" in
          let* res := Write rpt in
          match res with
          | inr err => ret (Some (Errorf "writing report: %w" [arg_error err]))
          | inl reportPath =>
              log cfg "Report saved to %s" [arg_string reportPath] ;;
              Run_notify cfg startTime rpt
          end
      end
  end.

(** [Run] executes the full review pipeline. *)
Definition Run (cfg : Config.t) : IO (outcome (option error)) :=
  let* scanned := Run_scan cfg in
  match scanned with
  | inl err => ret (Return err)
  | inr (startTime, cfg, repos) =>
      if (Z.of_nat (length repos) =? 0)%Z then
        log cfg "No repositories found, nothing to review" [] ;;
        ret (Return None)
      else
        let* allCommits := Run_commits cfg repos in
        if (Z.of_nat (length allCommits) =? 0)%Z then
          log cfg "No commits today, nothing to review" [] ;;
          let* err := handleNoFindings cfg in
          ret (Return err)
        else
          let* res := Run_diffs cfg allCommits in
          match res with
          | Panic reason => ret (Panic reason)
          | Return allDiffs =>
              if (Z.of_nat (length allDiffs) =? 0)%Z then
                log cfg "No relevant diffs found, nothing to review" [] ;;
                let* err := handleNoFindings cfg in
                ret (Return err)
              else
                let* err := Run_review cfg startTime repos allCommits allDiffs in
                ret (Return err)
          end
  end.
End Runner.
End app.

(** * Auxiliary definitions for the statements *)

(** A text cut at its line feeds, by recursion on the text. *)
Fixpoint lines_of (s : string) : list string :=
  match s with
  | EmptyString => [EmptyString]
  | String c s' =>
      if json.is_byte c 10 then EmptyString :: lines_of s'
      else match lines_of s' with
           | l :: ls => String c l :: ls
           | [] => [String c EmptyString]
           end
  end.

Fixpoint no_LF (s : string) : bool :=
  match s with
  | EmptyString => true
  | String c s' => negb (json.is_byte c 10) && no_LF s'
  end.

Fixpoint count_LF (s : string) : nat :=
  match s with
  | EmptyString => 0
  | String c s' => if json.is_byte c 10 then S (count_LF s') else count_LF s'
  end.

Definition truncation_marker : string := "... [truncated]".

(** The patch query that [getFileDiff] makes for a file of a commit,
    answered with [res]. *)
Definition patch_query {Time : Type} (commit : Commit.t Time) (file : string)
    (res : result string) : Event Time :=
  EvExec (Commit.RepoPath commit) "git"
    ["show"; "--format="; "--patch"; "--no-color"; Commit.Hash commit; "--"; file] res.

(** [d] was built by [Extract] for [commit] from the text [raw] that the
    patch query of its file returned, as the trace [tr] records. *)
Definition extracted_from {Time : Type} (commit : Commit.t Time) (tr : list (Event Time))
    (raw : string) (d : Diff.t) : Prop :=
  let lines := Split raw LF in
  let lineCount := Z.of_nat (length lines) in
  In (patch_query commit (Diff.FilePath d) (inl raw)) tr
  /\ Diff.SupportedExtensions !! filepath.Ext (Diff.FilePath d) = Some (Diff.Language d)
  /\ diff.shouldExclude (Diff.FilePath d) = false
  /\ Diff.LineCount d = lineCount
  /\ Diff.Content d
     = (if (Diff.MaxDiffLines <? lineCount)%Z
        then Join (take (Z.to_nat Diff.MaxDiffLines) lines) LF +:+ LF +:+ truncation_marker
        else raw)
  /\ Diff.CommitHash d = Commit.Hash commit
  /\ Diff.RepoPath d = Commit.RepoPath commit
  /\ Diff.RepoName d = scanner.GetRepoName (Commit.RepoPath commit).

(** ** A small world for examples

    Time is a number of seconds; the state of the world counts the SMTP
    sessions that were opened. [git] answers the sub-process calls from
    their arguments, [answer] is what the model provider returns, [repos]
    what the scan of the file system finds, and [smtp] the outcomes of
    the successive SMTP sessions. *)
Definition toy (git : list string -> result string) (answer : result string)
    (repos : result (list string)) (smtp : list (option error)) : Outside Z nat :=
  {| time_Now w := (0%Z, w);
     time_Sleep _ w := w;
     time_Parse _ v :=
       if String.eqb v "2024-05-01T10:00:00Z" then inl 1714557600%Z
       else inr (External "parsing time: cannot parse");
     Time_Format _ layout := layout;
     Time_UnixNano t := (t * 1000000000)%Z;
     Time_Sub t u := ((t - u) * 1000000000)%Z;
     Time_midnight t := (t - t mod 86400)%Z;
     exec_Output _ _ args w := (git args, w);
     os_Stat_IsNotExist _ w := (false, w);
     os_Getenv _ w := ("", w);
     scanner_FindRepositories _ w := (repos, w);
     genkit_GenerateText _ _ _ w := (answer, w);
     report_Write _ w := (inl "reports/today.md", w);
     report_ToHTML _ := "<html></html>";
     notify_sendWithTimeout _ _ _ w := (nth w smtp None, S w) |}.

Definition TAB : string := String (byte 9) EmptyString.

Definition has_arg (a : string) (args : list string) : bool := existsb (String.eqb a) args.

(** A commit that changed [main.go], whose patch is [raw]. *)
Definition one_file_git (raw : string) (args : list string) : result string :=
  if has_arg "--name-status" args then inl ("M" +:+ TAB +:+ "main.go" +:+ LF)
  else if has_arg "--patch" args then inl raw
  else inr (External "exit status 128").

Definition toy_commit : Commit.t Z :=
  Commit.mk Z "0123456789abcdef" "Ada" "ada@example.com" 1714557600%Z "fix parser"
    "/home/ada/projects/cra" "cra".

(** A patch of 301 lines, and one of 300. *)
Definition long_patch : string := GoString.concat (replicate 300 ("+x" +:+ LF)).
Definition short_patch : string := GoString.concat (replicate 299 ("+x" +:+ LF)).

Definition extract_toy (raw : string) : result (list Diff.t) * (nat * list (Event Z)) :=
  run (diff.Extract (toy (one_file_git raw) (inl "") (inl []) []) toy_commit) 0.

Definition first_diff (r : result (list Diff.t)) : Diff.t :=
  match r with
  | inl (d :: _) => d
  | _ => Diff.mk "" "" "" 0 false false false "" "" "" ""
  end.

(** ** Records of the commit log, in the words of the specification *)

(** [s] cut at its first [k] occurrences of the byte [b] (or at all of
    them, if there are fewer). *)
Fixpoint cut_at_most (k : nat) (b : ascii) (s : string) : list string :=
  match s with
  | EmptyString => [EmptyString]
  | String c s' =>
      if Ascii.eqb c b then
        match k with
        | O => [s]
        | S k' => EmptyString :: cut_at_most k' b s'
        end
      else
        match cut_at_most k b s' with
        | l :: ls => String c l :: ls
        | [] => [s]
        end
  end.

Fixpoint free_of (b : ascii) (s : string) : bool :=
  match s with
  | EmptyString => true
  | String c s' => negb (Ascii.eqb c b) && free_of b s'
  end.

(** The five fields of a line of the log: hash, author name, author
    email, timestamp and subject, delimited by the first four bars. *)
Definition five_fields (line : string) : option (string * string * string * string * string) :=
  match cut_at_most 4 "|" line with
  | [hash; author; email; timestamp; subject] => Some (hash, author, email, timestamp, subject)
  | _ => None
  end.

(** The commit that a line of the log stands for: none for an empty line,
    for a line with fewer than five fields, and for a line whose timestamp
    does not parse. *)
Definition commit_of_line {Time World : Type} (out : Outside Time World)
    (repoPath line : string) : option (Commit.t Time) :=
  if String.eqb line "" then None
  else
    match five_fields line with
    | None => None
    | Some (hash, author, email, timestamp, subject) =>
        match time_Parse out git.RFC3339 timestamp with
        | inl t => Some (Commit.mk Time hash author email t subject repoPath
                           (scanner.GetRepoName repoPath))
        | inr _ => None
        end
    end.

(** The warning that a line of the log causes: one for a line of five
    fields whose timestamp does not parse. *)
Definition warning_of_line {Time World : Type} (out : Outside Time World)
    (line : string) : option (Event Time) :=
  if String.eqb line "" then None
  else
    match five_fields line with
    | None => None
    | Some (_, _, _, timestamp, _) =>
        match time_Parse out git.RFC3339 timestamp with
        | inl _ => None
        | inr err =>
            Some (EvLog "Warning: failed to parse timestamp %s: %v"
                    [arg_string timestamp; arg_error err])
        end
    end.

(** The lines that a scanner hands out for a text cut at its line feeds:
    every piece but the last is a line, and the last piece is one unless it
    is empty; scanning stops at the first line of 65536 bytes or more. *)
Fixpoint scanned (pieces : list string) : list string * option error :=
  match pieces with
  | [] => ([], None)
  | [l] =>
      match l with
      | EmptyString => ([], None)
      | _ => bufio.token (String.rev l) ([], None)
      end
  | l :: pieces' => bufio.token (String.rev l) (scanned pieces')
  end.

Definition prepend (p : string) (pieces : list string) : list string :=
  match pieces with
  | [] => []
  | l :: ls => (p +:+ l) :: ls
  end.

(** A line without the carriage return at its end, if it has one. *)
Fixpoint chomp (l : string) : string :=
  match l with
  | EmptyString => EmptyString
  | String c EmptyString => if json.is_byte c 13 then EmptyString else l
  | String c l' => String c (chomp l')
  end.

(** The lines among the pieces of a text cut at its line feeds: every
    piece but the last, and the last one when it is not empty. *)
Fixpoint lines_among (pieces : list string) : list string :=
  match pieces with
  | [] => []
  | [l] =>
      match l with
      | EmptyString => []
      | _ => [chomp l]
      end
  | l :: pieces' => chomp l :: lines_among pieces'
  end.

(** The lines of a text, each ended by a line feed or by the end of the
    text, without the carriage return before the line feed. *)
Definition text_lines (text : string) : list string := lines_among (lines_of text).

(** A piece of the text that fits the buffer of a line scanner. *)
Definition fits (l : string) : Prop := (N.of_nat (String.length l) < 65536)%N.

(** [n] bytes without a bar and without a line feed. *)
Fixpoint filler (n : nat) : string :=
  match n with
  | O => EmptyString
  | S n' => String "x" (filler n')
  end.

(** ** Fenced responses *)

(** A response wrapped in a code block: the opening fence with a language
    tag (possibly empty), the text on lines of its own, the closing fence. *)
Definition fenced (tag J : string) : string :=
  "```" +:+ tag +:+ LF +:+ J +:+ LF +:+ "```".

(** A byte that is neither white space nor the start of a multi-byte
    character, nor a backquote. *)
Definition solid (c : ascii) : bool :=
  (code c <? 128) && negb ((9 <=? code c) && (code c <=? 13) || (code c =? 32))
  && negb (code c =? 96).

Fixpoint all_space (ws : string) : bool :=
  match ws with
  | EmptyString => true
  | String c ws' => json.isSpace c && all_space ws'
  end.

Definition clean_response : string :=
  q "{'summary': 'One risky change.', 'findings': [{'title': 'Unchecked error', 'severity': 'High', 'repo_name': 'cra', 'files': ['main.go'], 'explanation': 'The error of Close is dropped.', 'suggested_action': 'Check it.'}]}".

Definition clean_output : ReviewOutput.t :=
  ReviewOutput.mk "One risky change."
    [Finding.mk "Unchecked error" "High" "cra" ["main.go"]
       "The error of Close is dropped." "Check it."].

(** ** Responses with an arbitrary severity *)

(** The text [p] followed by [tail]. *)
Fixpoint lit (p tail : string) : string :=
  match p with
  | EmptyString => tail
  | String c p' => String c (lit p' tail)
  end.

(** The sixteen digits. *)
Definition hex (n : nat) : ascii :=
  nth n ["0"; "1"; "2"; "3"; "4"; "5"; "6"; "7"; "8"; "9"; "a"; "b"; "c"; "d"; "e"; "f"]%char
    "0"%char.

(** A byte as it is written in a JSON string: the double quote and the
    backslash after a backslash, a control character as [\u00XX], every
    other byte as it is. *)
Definition escape_byte (c : ascii) : string :=
  if json.is_byte c 34 || json.is_byte c 92 then String "\" (String c EmptyString)
  else if code c <? 32 then
    "\u00" +:+ String (hex (code c / 16)) (String (hex (code c mod 16)) EmptyString)
  else String c EmptyString.

Fixpoint escape (s : string) : string :=
  match s with
  | EmptyString => EmptyString
  | String c s' => escape_byte c +:+ escape s'
  end.

(** The JSON string that stands for the text [s]. *)
Definition quoted (s : string) : string :=
  String (byte 34) (escape s +:+ String (byte 34) EmptyString).

(** [utf8.ValidString]: the text is a sequence of well-formed encodings. *)
Fixpoint valid_from (fuel : nat) (s : string) : bool :=
  match s with
  | EmptyString => true
  | _ =>
      match fuel with
      | O => false
      | S fuel' =>
          match utf8.valid_width s with
          | O => false
          | w => valid_from fuel' (skip_bytes w s)
          end
      end
  end.

Definition ValidString (s : string) : bool := valid_from (String.length s) s.

(** A response with one finding whose severity is the JSON string for
    [sev]. *)
Definition response_of (sev : string) : string :=
  lit (q "{'summary': 'ok', 'findings': [{'title': 'x', 'severity': ")
    (quoted sev +:+ "}]}").

Definition enumerated (sev : Severity) : Prop :=
  sev = SeverityHigh \/ sev = SeverityMedium \/ sev = SeverityLow.

(** The findings whose severity is none of the three. *)
Fixpoint count_other (fs : list Finding.t) : Z :=
  match fs with
  | [] => 0
  | f :: fs' =>
      (if String.eqb (Finding.Severity f) SeverityHigh
          || String.eqb (Finding.Severity f) SeverityMedium
          || String.eqb (Finding.Severity f) SeverityLow
       then 0 else 1) + count_other fs'
  end%Z.

Definition report_of (o : ReviewOutput.t) : Report.t Z :=
  Report.mk Z 0%Z (ReviewOutput.Summary o) (ReviewOutput.Findings o) [] 1 1 false "".

(** ** What a run finds, and what a trace shows *)

(** The events of the scan, of the commit locator and of the diff
    extractor: log lines, sub-process calls and the walk of the file system. *)
Definition quiet {Time : Type} (e : Event Time) : Prop :=
  match e with
  | EvLog _ _ | EvExec _ _ _ _ | EvFindRepositories _ => True
  | _ => False
  end.

Definition is_send {Time : Type} (e : Event Time) : Prop :=
  match e with
  | EvSend _ _ _ _ => True
  | _ => False
  end.

Definition is_generate {Time : Type} (e : Event Time) : Prop :=
  match e with
  | EvGenerateText _ _ => True
  | _ => False
  end.

Definition is_write {Time : Type} (e : Event Time) : Prop :=
  match e with
  | EvWriteReport _ => True
  | _ => False
  end.

(** An event of [handleNoFindings]: a log line, or the hand-over of a
    report that has nothing to note. *)
Definition nothing_to_note {Time : Type} (e : Event Time) : Prop :=
  match e with
  | EvLog _ _ => True
  | EvWriteReport rpt =>
      Report.NothingToNote rpt = true /\ Report.Findings rpt = []
      /\ Report.Summary rpt = "No code changes to review today."
  | _ => False
  end.

(** Every event that a computation adds to the trace satisfies [P]. *)
Definition emits {Time World A : Type} (P : Event Time -> Prop) (m : @IO Time World A) : Prop :=
  forall st, exists evs, snd (snd (m st)) = snd st ++ evs /\ Forall P evs.

Section Found.
Context {Time World : Type} (out : Outside Time World).

(** [Run] up to the end of step 1: the repositories found. *)
Definition Run_until_repositories (cfg : Config.t) : @IO Time World (option (list string)) :=
  let* scanned := app.Run_scan out cfg in
  match scanned with
  | inl _ => ret None
  | inr (_, _, repos) => ret (Some repos)
  end.

(** [Run] up to the end of step 2: the commits found. *)
Definition Run_until_commits (cfg : Config.t)
    : @IO Time World (option (list (Commit.t Time))) :=
  let* scanned := app.Run_scan out cfg in
  match scanned with
  | inl _ => ret None
  | inr (_, cfg, repos) =>
      if (Z.of_nat (length repos) =? 0)%Z then ret None
      else
        let* allCommits := app.Run_commits out cfg repos in
        ret (Some allCommits)
  end.

(** [Run] up to the end of step 3: the diff units found. *)
Definition Run_until_diffs (cfg : Config.t) : @IO Time World (option (list Diff.t)) :=
  let* scanned := app.Run_scan out cfg in
  match scanned with
  | inl _ => ret None
  | inr (_, cfg, repos) =>
      if (Z.of_nat (length repos) =? 0)%Z then ret None
      else
        let* allCommits := app.Run_commits out cfg repos in
        if (Z.of_nat (length allCommits) =? 0)%Z then ret None
        else
          let* res := app.Run_diffs out cfg allCommits in
          match res with
          | Panic _ => ret None
          | Return allDiffs => ret (Some allDiffs)
          end
  end.

Definition found_repositories (cfg : Config.t) (w : World) : option (list string) :=
  value_of (run (Run_until_repositories cfg) w).
Definition found_commits (cfg : Config.t) (w : World) : option (list (Commit.t Time)) :=
  value_of (run (Run_until_commits cfg) w).
Definition found_diffs (cfg : Config.t) (w : World) : option (list Diff.t) :=
  value_of (run (Run_until_diffs cfg) w).
End Found.

Definition is_log {Time : Type} (e : Event Time) : Prop :=
  match e with
  | EvLog _ _ => True
  | _ => False
  end.

(** A configuration and a world for examples: one repository, whose log
    of today is [log_output]. *)
Definition toy_config (enabled : bool) : Config.t :=
  Config.mk "/home/ada/projects"
    (EmailConfig.mk enabled "08:00" "smtp.example.com" 587 "" ""
       "cra@example.com" "Code Review Agent" "ada@example.com")
    (ReviewConfig.mk "medium" "openai" "glm-4.7" "secret" "")
    (ReportsConfig.mk "reports") true.

Definition toy_git (log_output raw : string) (args : list string) : result string :=
  if has_arg "log" args then inl log_output else one_file_git raw args.

Definition toy_log : string :=
  "0123456789abcdef|Ada|ada@example.com|2024-05-01T10:00:00Z|fix parser" +:+ LF.

Definition toy_run (enabled : bool) (repos : list string) (log_output answer : string)
    : outcome (option error) * (nat * list (Event Z)) :=
  run (app.Run (toy (toy_git log_output "+x") (inl answer) (inl repos) [None])
         (toy_config enabled)) 0.

Definition no_send {Time : Type} (e : Event Time) : Prop := ~ is_send e.

Definition any {Time : Type} (e : Event Time) : Prop := True.

Definition is_sendb {Time : Type} (e : Event Time) : bool :=
  match e with
  | EvSend _ _ _ _ => true
  | _ => false
  end.

(** The arguments and the outcome of the first SMTP session of a trace. *)
Definition first_send {Time : Type} (tr : list (Event Time))
    : string * string * Duration * option error :=
  match List.find is_sendb tr with
  | Some (EvSend addr message timeout res) => (addr, message, timeout, res)
  | _ => ("", "", 0%Z, None)
  end.

Definition toy_repos : list string := ["/home/ada/projects/cra"].

Definition toy_service : notify.Service := notify.mkService (Config.Email (toy_config true)).

Definition toy_send (smtp : list (option error)) : option error * (nat * list (Event Z)) :=
  run (notify.send (toy (fun _ => inl "") (inl "") (inl []) smtp) toy_service
         "subject" "<p>body</p>") 0.

(** The sleeps of a trace, in order. *)
Definition sleeps {Time : Type} (tr : list (Event Time)) : list Duration :=
  omap (fun e => match e with EvSleep d => Some d | _ => None end) tr.

Definition sessions {Time : Type} (tr : list (Event Time)) : nat :=
  length (filter (fun e => is_sendb e = true) tr).

(** A log of four lines: a record, a line of two fields, a record whose
    timestamp is no timestamp, and a record whose subject has a bar. *)
Definition mixed_log : string :=
  ("1111111111111111|Ada|ada@example.com|2024-05-01T10:00:00Z|first" +:+ LF)
  +:+ ("garbage|line" +:+ LF)
  +:+ ("2222222222222222|Bob|bob@example.com|yesterday|second" +:+ LF)
  +:+ ("3333333333333333|Cy|cy@example.com|2024-05-01T10:00:00Z|third | last" +:+ LF).

(** A log of three lines: a record, the line [l], and a record. *)
Definition log_around (l : string) : string :=
  ("1111111111111111|Ada|ada@example.com|2024-05-01T10:00:00Z|first" +:+ LF)
  +:+ (l +:+ LF)
  +:+ ("3333333333333333|Cy|cy@example.com|2024-05-01T10:00:00Z|third" +:+ LF).

(** The second line, without a bar, has 65536 bytes: it is the only one
    that does not fit the buffer of the scanner. *)
Definition long_line_log : string := log_around (filler (N.to_nat 65536)).

(** A severity with double quotes, a tab and a character of two bytes. *)
Definition odd_severity : string :=
  "P0 " +:+ String (byte 34) "now" +:+ String (byte 34) TAB
  +:+ String (byte 195) (String (byte 169) EmptyString).

Definition NBSP : string := String (byte 194) (String (byte 160) EmptyString).

(** * Further definitions for the statements *)

(** ** The diff extractor *)

(** The files that [getChangedFiles] collects from the output of the
    name-status query. *)
Definition changed_files (output : string) : list string :=
  fold_left (fun files text => diff.getChangedFiles_line text files)
    (fst (bufio.ScanLines output)) [].

(** A changed file whose patch [Extract] asks for: its extension is
    supported and its path is not excluded. *)
Definition eligible (file : string) : bool :=
  match Diff.SupportedExtensions !! filepath.Ext file with
  | Some _ => negb (diff.shouldExclude file)
  | None => false
  end.

(** The query for the changed files of a commit, answered with [res]. *)
Definition status_query {Time : Type} (commit : Commit.t Time) (res : result string)
    : Event Time :=
  EvExec (Commit.RepoPath commit) "git"
    ["show"; "--format="; "--name-status"; Commit.Hash commit] res.

(** What the trace shows for one eligible file whose patch query was
    answered with [res]: the query, and the warning when it failed. *)
Definition patch_events {Time : Type} (commit : Commit.t Time) (file : string)
    (res : result string) : list (Event Time) :=
  patch_query commit file res
  :: match res with
     | inl _ => []
     | inr err => [EvLog "Warning: failed to get diff for %s: %v"
                     [arg_string file; arg_error err]]
     end.

(** The files among [files] whose answer is a patch text. *)
Definition answered (files : list string) (answers : list (result string)) : list string :=
  omap (fun fa => match snd fa with inl _ => Some (fst fa) | inr _ => None end)
    (zip files answers).

(** No white space character starts at any position of [s]. *)
Fixpoint no_space (s : string) : bool :=
  match s with
  | EmptyString => true
  | String _ s' => (space_width s =? 0) && no_space s'
  end.

(** A world in which the commit changed the four files of [status_output]
    and every patch query fails for [b.go]. *)
Definition status_output : string :=
  ("M" +:+ TAB +:+ "a.go" +:+ LF) +:+ ("A" +:+ TAB +:+ "vendor/x.go" +:+ LF)
  +:+ ("M" +:+ TAB +:+ "b.go" +:+ LF) +:+ ("D" +:+ TAB +:+ "c.go" +:+ LF)
  +:+ ("M" +:+ TAB +:+ "README.md" +:+ LF).

Definition four_files_git (args : list string) : result string :=
  if has_arg "--name-status" args then inl status_output
  else if has_arg "b.go" args then inr (ExitError "fatal: bad object")
  else inl ("+x" +:+ LF).

Definition four_files : Outside Z nat := toy four_files_git (inl "") (inl []) [].

(** What [Extract] leaves unset in a diff unit, and what it copies from
    the commit. *)
Definition plain_unit {Time : Type} (commit : Commit.t Time) (d : Diff.t) : Prop :=
  Diff.OldPath d = "" /\ Diff.IsNew d = false /\ Diff.IsDeleted d = false
  /\ Diff.IsRenamed d = false
  /\ Diff.CommitHash d = Commit.Hash commit
  /\ Diff.RepoPath d = Commit.RepoPath commit
  /\ Diff.RepoName d = filepath.Base (Commit.RepoPath commit).

(** A world in which the commit added [new.go] and renamed [old.go] to
    [renamed.go]. *)
Definition renaming_git (args : list string) : result string :=
  if has_arg "--name-status" args
  then inl (("A" +:+ TAB +:+ "new.go" +:+ LF)
            +:+ ("R100" +:+ TAB +:+ "old.go" +:+ TAB +:+ "renamed.go" +:+ LF))
  else inl ("+x" +:+ LF).

Definition renaming : Outside Z nat := toy renaming_git (inl "") (inl []) [].

(** No white space character starts at a position of [cur] in the text
    [cur +:+ s]. *)
Fixpoint clear_of_space (cur s : string) : bool :=
  match cur with
  | EmptyString => true
  | String c cur' => (space_width (cur +:+ s) =? 0) && clear_of_space cur' s
  end.

Definition file_name (file : string) : Prop := file <> "" /\ no_space file = true.

(** ** The commit locator *)

(** A record of the log as [git log --format=%H|%an|%ae|%aI|%s] prints
    it: the five fields, joined by bars. *)
Module LogRecord.
Record t : Type := mk {
  Hash : string;
  Author : string;
  Email : string;
  Stamp : string;
  Subject : string
}.
End LogRecord.

Definition log_line (r : LogRecord.t) : string :=
  LogRecord.Hash r +:+ "|" +:+ LogRecord.Author r +:+ "|" +:+ LogRecord.Email r +:+ "|"
  +:+ LogRecord.Stamp r +:+ "|" +:+ LogRecord.Subject r.

(** The output of the command: every record on a line of its own. *)
Definition log_output (rs : list LogRecord.t) : string :=
  GoString.concat (map (fun r => log_line r +:+ LF) rs).

(** The last byte of [s] is [c]. *)
Definition ends_with (c : ascii) (s : string) : bool :=
  match String.rev s with
  | String d _ => Ascii.eqb d c
  | EmptyString => false
  end.

(** A record that the format does not garble: no bar in the first four
    fields, no line feed in any, no carriage return at the end of the
    subject, and a line that fits the scanner. *)
Definition well_formed (r : LogRecord.t) : Prop :=
  free_of "|" (LogRecord.Hash r) = true /\ free_of "|" (LogRecord.Author r) = true
  /\ free_of "|" (LogRecord.Email r) = true /\ free_of "|" (LogRecord.Stamp r) = true
  /\ no_LF (log_line r) = true
  /\ ends_with (byte 13) (LogRecord.Subject r) = false
  /\ (N.of_nat (String.length (log_line r)) < bufio.MaxScanTokenSize)%N.

Definition commit_of_record {Time : Type} (repoPath : string) (r : LogRecord.t) (t : Time)
    : Commit.t Time :=
  Commit.mk Time (LogRecord.Hash r) (LogRecord.Author r) (LogRecord.Email r) t
    (LogRecord.Subject r) repoPath (scanner.GetRepoName repoPath).

Definition toy_records : list (LogRecord.t * Z) :=
  [(LogRecord.mk "0123456789abcdef" "Ada" "ada@example.com" "2024-05-01T10:00:00Z"
      "fix parser | keep bars", 1714557600%Z);
   (LogRecord.mk "fedcba9876543210" "Bob" "" "2024-05-01T10:00:00Z" "", 1714557600%Z)].

(** The command that [GetTodaysCommits] runs at the time [now]. *)
Definition log_args {Time World : Type} (out : Outside Time World) (now : Time)
    : list string :=
  ["log";
   "--since=" +:+ Time_Format out (Time_midnight out now) "2006-01-02T15:04:05";
   "--no-merges"; "--format=%H|%an|%ae|%aI|%s"; "--all"].

(** A repository without commits, and one that is broken. *)
Definition empty_repository_git (args : list string) : result string :=
  inr (ExitError "fatal: your current branch 'main' does not have any commits yet").

(** ** The review engine *)

(** The part of the prompt that precedes the diff units. *)
Definition prompt_head : string :=
  review.systemPrompt +:+ (LF +:+ LF) +:+ ("## Code Changes to Review" +:+ LF +:+ LF).

(** The block of the prompt that holds the content of a diff unit. *)
Definition diff_block (d : Diff.t) : string :=
  ("```diff" +:+ LF) +:+ Diff.Content d +:+ (LF +:+ "```" +:+ LF +:+ LF).

Definition toy_reviewer : review.Reviewer :=
  review.mkReviewer (Config.Review (toy_config true))
    (Genkit.mk "openai" "secret" "" "openai/glm-4.7") "openai/glm-4.7".

Definition toy_diff : Diff.t :=
  Diff.mk "main.go" "" "+x" 1 false false false "0123456789abcdef"
    "/home/ada/projects/cra" "cra" "go".

Definition one_file_git_plus : list string -> result string := one_file_git "+x".

(** ** Delivery *)

(** An SMTP session of the trace addresses [addr], carries [message] and
    has a timeout of 30 seconds. *)
Definition session_of {Time : Type} (addr message : string) (e : Event Time) : Prop :=
  match e with
  | EvSend addr' message' timeout _ =>
      addr' = addr /\ message' = message /\ timeout = (30 * Second)%Z
  | _ => True
  end.

Definition CR : string := String (byte 13) EmptyString.

Definition toy_report : Report.t Z := report_of clean_output.

(** The header lines of the message that [buildMessage] builds at the
    times [now1] and [now2] of its two readings of the clock. *)
Definition header_lines {Time World : Type} (out : Outside Time World)
    (s : notify.Service) (subject : string) (now1 now2 : Time) : list string :=
  let cfg := notify.config s in
  ["From: " +:+ EmailConfig.FromName cfg +:+ " <" +:+ EmailConfig.FromAddress cfg +:+ ">";
   "To: " +:+ EmailConfig.ToAddress cfg;
   "Subject: " +:+ subject;
   "MIME-Version: 1.0";
   "Content-Type: text/html; charset=UTF-8";
   "Date: " +:+ Time_Format out now1 notify.RFC1123Z;
   "Message-ID: <" +:+ Itoa (Time_UnixNano out now2) +:+ "@" +:+ EmailConfig.SMTPHost cfg
     +:+ ">"].

(** ** The orchestrator *)

(** A configuration without a root path. *)
Definition rootless_config : Config.t :=
  Config.mk "" (Config.Email (toy_config true)) (Config.Review (toy_config true))
    (Config.Reports (toy_config true)) true.

(** The log lines that the components write to the logger themselves,
    whether the run is verbose or not. *)
Definition warning_formats : list string :=
  ["Warning: failed to parse timestamp %s: %v";
   "Warning: failed to get diff for %s: %v";
   "Email attempt %d failed: %v"].

Definition only_warnings {Time : Type} (e : Event Time) : Prop :=
  match e with
  | EvLog format _ => In format warning_formats
  | _ => True
  end.

(** The same run as [toy_run], not verbose, with a log of which the
    second line has a timestamp that does not parse. *)
Definition silent_config : Config.t :=
  Config.mk "/home/ada/projects" (Config.Email (toy_config true))
    (Config.Review (toy_config true)) (Config.Reports (toy_config true)) false.

Definition silent_run : outcome (option error) * (nat * list (Event Z)) :=
  run (app.Run (toy (toy_git mixed_log "+x") (inl clean_response) (inl toy_repos)
                  [Some (External "EOF"); None])
         silent_config) 0.

(** Every value that a computation returns satisfies [Q]. *)
Definition returns {Time World A : Type} (Q : A -> Prop) (m : @IO Time World A) : Prop :=
  forall st, Q (fst (m st)).

(** The errors of a run: the stage that failed, wrapping the cause. *)
Definition run_error_formats : list string :=
  ["invalid configuration: %w"; "scanning repositories: %w"; "reviewing code: %w";
   "writing report: %w"; "sending email: %w"].

Definition run_error (e : error) : Prop :=
  exists format cause,
    e = Errorf format [arg_error cause] /\ In format run_error_formats
    /\ Unwrap e = Some cause.

Definition run_errors (v : option error) : Prop :=
  match v with
  | Some e => run_error e
  | None => True
  end.

(** A world in which every sub-process fails but the log, whose only
    commit has a hash of seven bytes. *)
Definition short_hash_git (args : list string) : result string :=
  if has_arg "log" args
  then inl ("abc1234|Ada|ada@example.com|2024-05-01T10:00:00Z|fix parser" +:+ LF)
  else inr (ExitError "fatal: bad object abc1234").

Definition short_hash_world : Outside Z nat :=
  toy short_hash_git (inl clean_response) (inl toy_repos) [None].

(** A world in which the model provider fails. *)
Definition no_model_world : Outside Z nat :=
  toy (toy_git toy_log "+x") (inr (External "503 Service Unavailable")) (inl toy_repos)
    [None].

Definition no_write {Time : Type} (e : Event Time) : Prop := ~ is_write e.

(** The first report that a trace of the small world hands over. *)
Definition first_report (tr : list (Event Z)) : Report.t Z :=
  match omap (fun e => match e with EvWriteReport rpt => Some rpt | _ => None end) tr with
  | rpt :: _ => rpt
  | [] => toy_report
  end.

(** A computation adds events [evs] to the trace and returns a value such
    that [Q] holds of the value and the events. *)
Definition post {Time World A : Type} (Q : A -> list (Event Time) -> Prop)
    (m : @IO Time World A) : Prop :=
  forall st, exists evs, snd (snd (m st)) = snd st ++ evs /\ Q (fst (m st)) evs.

(** A session that succeeded is among the events. *)
Definition delivered {Time : Type} (evs : list (Event Time)) : Prop :=
  exists addr message, In (EvSend addr message (30 * Second)%Z None) evs.

(** A run whose mail server refuses the first session. *)
Definition retried_run : outcome (option error) * (nat * list (Event Z)) :=
  run (app.Run (toy (toy_git toy_log "+x") (inl clean_response) (inl toy_repos)
                  [Some (External "EOF"); None])
         (toy_config true)) 0.

(** The stage of the pipeline that an event belongs to: 1 for the scan
    and the sub-processes, 2 for the call of the model, 3 for the hand-over
    of the report, 4 for delivery. Log lines belong to no stage. *)
Definition stage {Time : Type} (e : Event Time) : option nat :=
  match e with
  | EvLog _ _ => None
  | EvExec _ _ _ _ | EvFindRepositories _ => Some 1
  | EvGenerateText _ _ => Some 2
  | EvWriteReport _ => Some 3
  | EvSend _ _ _ _ | EvSleep _ => Some 4
  end.

Definition stages {Time : Type} (tr : list (Event Time)) : list nat := omap stage tr.

Definition from_stage3 (l : list nat) : Prop :=
  exists c d, l = replicate c 3 ++ replicate d 4 /\ c <= 1 /\ (c = 0 -> d = 0).

Definition from_stage2 (l : list nat) : Prop :=
  exists b c d,
    l = replicate b 2 ++ replicate c 3 ++ replicate d 4
    /\ b <= 1 /\ c <= 1 /\ (c = 0 -> d = 0).

Definition from_stage1 (l : list nat) : Prop :=
  exists a b c d,
    l = replicate a 1 ++ replicate b 2 ++ replicate c 3 ++ replicate d 4
    /\ b <= 1 /\ c <= 1 /\ (c = 0 -> d = 0).

(** An event of delivery: a log line, an SMTP session or a sleep. *)
Definition of_delivery {Time : Type} (e : Event Time) : Prop :=
  match e with
  | EvLog _ _ | EvSend _ _ _ _ | EvSleep _ => True
  | _ => False
  end.

(** * The scan for repositories

    ** More of [path/filepath] *)

Module fspath.

Import filepath.

(** The step back of [Clean] over the last element of the buffer. The
    buffer is held last byte first; [removed] is the byte at the write index
    [w], and [r] the [w] bytes before it:
    [for out.w > dotdot && !os.IsPathSeparator(out.index(out.w)) { out.w-- }]. *)
Fixpoint backtrack (r : string) (removed : ascii) (dotdot : nat) : string :=
  if (dotdot <? String.length r) && negb (IsPathSeparator removed) then
    match r with
    | String c r' => backtrack r' c dotdot
    | EmptyString => r
    end
  else r.

(** The copy of a path element to the buffer: the bytes of [path] up to
    the next separator. *)
Fixpoint copy_element (path out : string) : string * string :=
  match path with
  | EmptyString => (path, out)
  | String c rest =>
      if IsPathSeparator c then (path, out) else copy_element rest (String c out)
  end.

Definition at_end_or_separator (path : string) : bool :=
  match path with
  | EmptyString => true
  | String c _ => IsPathSeparator c
  end.

(** The loop of [Clean]: [path] is what is left to read, [out] the buffer
    (last byte first) and [dotdot] the index where [..] must stop. Every turn
    reads a byte at least, so that [fuel], the length of the path, is not
    exhausted. *)
Fixpoint Clean_loop (fuel : nat) (rooted : bool) (path out : string) (dotdot : nat)
    : string :=
  match fuel with
  | O => out
  | S fuel' =>
      match path with
      | EmptyString => out
      | String c rest =>
          if IsPathSeparator c then
            (* empty path element *)
            Clean_loop fuel' rooted rest out dotdot
          else if Ascii.eqb c "." && at_end_or_separator rest then
            (* . element *)
            Clean_loop fuel' rooted rest out dotdot
          else if Ascii.eqb c "." && HasPrefix rest "."
                  && at_end_or_separator (skip_bytes 1 rest) then
            (* .. element: remove to last separator *)
            let rest := skip_bytes 1 rest in
            if (dotdot <? String.length out) then
              (* can backtrack *)
              match out with
              | String last out' =>
                  Clean_loop fuel' rooted rest (backtrack out' last dotdot) dotdot
              | EmptyString => Clean_loop fuel' rooted rest out dotdot
              end
            else if negb rooted then
              (* cannot backtrack, but not rooted, so append .. element *)
              let out := if (0 <? String.length out) then String "/" out else out in
              let out := String "." (String "." out) in
              Clean_loop fuel' rooted rest out (String.length out)
            else Clean_loop fuel' rooted rest out dotdot
          else
            (* real path element: add slash if needed, copy element *)
            let out :=
              if rooted && negb (String.length out =? 1)
                 || negb rooted && negb (String.length out =? 0)
              then String "/" out else out in
            let (rest', out') := copy_element path out in
            Clean_loop fuel' rooted rest' out' dotdot
      end
  end.

(** [filepath.Clean] *)
Definition Clean (path : string) : string :=
  match path with
  | EmptyString => "."
  | String c rest =>
      let rooted := IsPathSeparator c in
      let out :=
        if rooted then Clean_loop (String.length path) true rest "/" 1
        else Clean_loop (String.length path) false path "" 0 in
      match out with
      | EmptyString => "."
      | _ => String.rev out
      end
  end.

(** [filepath.Join]: the elements from the first that is not empty,
    joined by separators and cleaned. *)
Fixpoint Join (elem : list string) : string :=
  match elem with
  | [] => ""
  | e :: elem' =>
      if String.eqb e "" then Join elem' else Clean (GoString.Join elem "/")
  end.

(** The path up to its last separator, on the path held last byte first. *)
Fixpoint up_to_separator (r : string) : string :=
  match r with
  | EmptyString => r
  | String c r' => if IsPathSeparator c then r else up_to_separator r'
  end.

(** [filepath.Dir] *)
Definition Dir (path : string) : string :=
  Clean (String.rev (up_to_separator (String.rev path))).

End fspath.

(** ** The file system, as a walk sees it *)

(** What [os.Lstat] and [os.ReadDir] tell of a path: it is a directory,
    with the entries that [ReadDir] returns (sorted by name) and the error
    it returns with them, if any; or it is something else (a file, a
    symbolic link). *)
Inductive node : Type :=
  | File
  | Dir (entries : list (string * node)) (err : option error).

Definition node_IsDir (n : node) : bool :=
  match n with
  | Dir _ _ => true
  | File => false
  end.

(** [fs.DirEntry]: the name and whether the entry is a directory. *)
Module DirEntry.
Record t : Type := mk { Name : string; IsDir : bool }.
End DirEntry.

(** What a [fs.WalkDirFunc] returns: [nil], [filepath.SkipDir],
    [filepath.SkipAll] or another error. *)
Inductive walk_error : Type :=
  | SkipDir
  | SkipAll
  | Failed (e : error).

Definition is_SkipDir (e : walk_error) : bool :=
  match e with
  | SkipDir => true
  | _ => false
  end.

Module fswalk.
Section WalkDir.
Context {S : Type}.

(** [fs.WalkDirFunc], with the variables that the function closes over as
    a state. The entry is [None] for the Go value [nil]. *)
Definition WalkDirFunc : Type :=
  string -> option DirEntry.t -> option error -> S -> option walk_error * S.

Variable walkDirFn : WalkDirFunc.

(** [if err == SkipDir && d.IsDir() { err = nil }; return err] *)
Definition skipped (err : walk_error) (d : DirEntry.t) : option walk_error :=
  if is_SkipDir err && DirEntry.IsDir d then None else Some err.

(** The loop of [walkDir] over the entries of a directory, with the walk
    of an entry as [walk]. *)
Definition walk_entries (walk : string -> node -> S -> option walk_error * S)
    : list (string * node) -> S -> option walk_error * S :=
  fix loop (dirs : list (string * node)) (s : S) : option walk_error * S :=
    match dirs with
    | [] => (None, s)
    | (name1, n1) :: dirs' =>
        match walk name1 n1 s with
        | (Some err, s) => if is_SkipDir err then (None, s) else (Some err, s)
        | (None, s) => loop dirs' s
        end
    end.

(** [filepath.walkDir] for the entry [d] of the node [n]. *)
Fixpoint walkDir (path : string) (name : string) (n : node) (s : S)
    : option walk_error * S :=
  let d := DirEntry.mk name (node_IsDir n) in
  match walkDirFn path (Some d) None s with
  | (Some err, s) => (skipped err d, s)
  | (None, s) =>
      match n with
      | File => (None, s)
      | Dir dirs rerr =>
          let (err, s) :=
            match rerr with
            | Some e => walkDirFn path (Some d) (Some e) s  (* to report ReadDir error *)
            | None => (None, s)
            end in
          match err with
          | Some err => (skipped err d, s)
          | None =>
              walk_entries
                (fun name1 n1 s => walkDir (fspath.Join [path; name1]) name1 n1 s)
                dirs s
          end
      end
  end.

(** [filepath.WalkDir]; [root] is what [os.Lstat] returns for the root,
    whose entry has the last element of the root path as its name. *)
Definition WalkDir (rootPath : string) (root : result node) (s : S) : option error * S :=
  let (err, s) :=
    match root with
    | inr e => walkDirFn rootPath None (Some e) s
    | inl n => walkDir rootPath (filepath.Base rootPath) n s
    end in
  match err with
  | Some (Failed e) => (Some e, s)
  | _ => (None, s)
  end.

End WalkDir.
End fswalk.

(** ** The scanner ([internal/scanner/repos.go]) *)

Module repos.

(** Directories to skip during scanning. *)
Definition ExcludedDirs : gmap string bool :=
  list_to_map
    [("node_modules", true); ("vendor", true); ("dist", true); ("build", true);
     ("target", true); ("__pycache__", true); (".venv", true); ("venv", true)].

(** [ExcludedDirs[name]]: [false] for a name that is no key. *)
Definition excluded (name : string) : bool := default false (ExcludedDirs !! name).

(** The function that [FindRepositories] walks the tree with; the state
    is the slice [repos]. An entry is [nil] only together with an error. *)
Definition visit : fswalk.WalkDirFunc (S := list string) :=
  fun path d err repos =>
    match err, d with
    | Some _, _ => (None, repos)  (* skip directories we can't access *)
    | None, None => (None, repos)
    | None, Some d =>
        let name := DirEntry.Name d in
        if HasPrefix name "." && negb (String.eqb name ".git") then
          if DirEntry.IsDir d then (Some SkipDir, repos) else (None, repos)
        else if DirEntry.IsDir d && excluded name then (Some SkipDir, repos)
        else if DirEntry.IsDir d && String.eqb name ".git" then
          let repoPath := fspath.Dir path in
          (Some SkipDir, repos ++ [repoPath])
        else (None, repos)
    end.

(** [FindRepositories] recursively finds all Git repositories under
    [rootPath]. *)
Definition FindRepositories (rootPath : string) (root : result node)
    : result (list string) :=
  let (err, repos) := fswalk.WalkDir visit rootPath root [] in
  match err with
  | Some err => inr err
  | None => inl repos
  end.

End repos.

(** A directory whose name lets the walk go into it: not hidden and not
    excluded. *)
Definition descends (name : string) : bool :=
  negb (HasPrefix name ".") && negb (repos.excluded name).

(** The entries that the walk of [n] at [path] visits: [n] itself, and
    what it visits in the entries of [n] when [n] is a directory that the
    walk goes into. *)
Inductive visited_from (path name : string) (n : node)
    : string -> string -> node -> Prop :=
  | visited_here : visited_from path name n path name n
  | visited_below (dirs : list (string * node)) (err : option error)
      (name1 : string) (n1 : node) (path' name' : string) (n' : node) :
      n = Dir dirs err -> descends name = true -> In (name1, n1) dirs ->
      visited_from (fspath.Join [path; name1]) name1 n1 path' name' n' ->
      visited_from path name n path' name' n'.

(** A tree for examples: a repository, a repository inside it, one in a
    hidden directory and one under [vendor]. *)
Definition git_dir : node := Dir [("HEAD", File)] None.

Definition toy_tree : node :=
  Dir [(".cache", Dir [("old", Dir [(".git", git_dir)] None)] None);
       ("cra", Dir [(".git", git_dir); (".gitignore", File);
                    ("third_party", Dir [("lib", Dir [(".git", git_dir)] None)] None);
                    ("vendor", Dir [("dep", Dir [(".git", git_dir)] None)] None)] None);
       ("notes.txt", File);
       ("worktree", Dir [(".git", File)] None)] None.

(** [r] is the directory of a [.git] directory that the walk of [n] at
    [path] visits. *)
Definition found_below (path name : string) (n : node) (r : string) : Prop :=
  exists p dirs e, visited_from path name n p ".git" (Dir dirs e) /\ r = fspath.Dir p.

(** ** Package [config]: the defaults and the configuration file *)

(** What the loader uses besides the operations of [Outside]: the file and
    its decoder. *)
Record Files {World : Type} : Type := {
  (** [os.ReadFile path] *)
  os_ReadFile : string -> World -> result string * World;
  (** [os.IsNotExist err] *)
  os_IsNotExist : error -> bool;
  (** [yaml.Unmarshal data cfg]: its error, or the configuration as the
      decoder leaves it *)
  yaml_Unmarshal : string -> Config.t -> result Config.t
}.
Global Arguments Files : clear implicits.

Module configfile.
Section Load.
Context {Time World : Type} (out : Outside Time World) (files : Files World).
Local Abbreviation IO := (@IO Time World).

(** [os.UserHomeDir] on Linux and macOS. *)
Definition UserHomeDir : IO (result string) :=
  let* v := call (os_Getenv out "HOME") in
  if negb (String.eqb v "") then ret (inl v)
  else ret (inr (External "$HOME is not defined")).

Definition DefaultConfig : IO Config.t :=
  let* home := UserHomeDir in
  let homeDir := match home with inl dir => dir | inr _ => "" end in
  ret (Config.mk (fspath.Join [homeDir; "projects"])
         (EmailConfig.mk true "08:00" "" 587 "" "" "" "Code Review Agent" "")
         (ReviewConfig.mk "medium" "openai" "glm-4.7" "" "https://api.z.ai/api/paas/v4")
         (ReportsConfig.mk "reports")
         false).

Definition expandPath (path : string) : IO string :=
  if HasPrefix path "~/" then
    let* home := UserHomeDir in
    match home with
    | inl homeDir => ret (fspath.Join [homeDir; slice_from path 2])
    | inr _ => ret path
    end
  else ret path.

Definition set_paths (c : Config.t) (rootPath outputDir : string) : Config.t :=
  Config.mk rootPath (Config.Email c) (Config.Review c) (ReportsConfig.mk outputDir)
    (Config.Verbose c).

Definition Load (path : string) : IO (result Config.t) :=
  let* cfg := DefaultConfig in
  let* located :=
    if String.eqb path "" then
      let* home := UserHomeDir in
      match home with
      | inr _ => ret None
      | inl homeDir => ret (Some (fspath.Join [homeDir; ".config"; "cra"; "config.yaml"]))
      end
    else ret (Some path) in
  match located with
  | None => ret (inl cfg)
  | Some path =>
      let* path := expandPath path in
      let* read := call (os_ReadFile files path) in
      match read with
      | inr err =>
          if os_IsNotExist files err then ret (inl cfg)
          else ret (inr (Errorf "reading config: %w" [arg_error err]))
      | inl data =>
          match yaml_Unmarshal files data cfg with
          | inr err => ret (inr (Errorf "parsing config: %w" [arg_error err]))
          | inl cfg =>
              let* rootPath := expandPath (Config.RootPath cfg) in
              let* outputDir := expandPath (ReportsConfig.OutputDir (Config.Reports cfg)) in
              ret (inl (set_paths cfg rootPath outputDir))
          end
      end
  end.
End Load.
End configfile.

(** ** The command *)

Module main.
(** The flags of the command line. *)
Record Flags : Type := mkFlags {
  rootPath : string;
  cfgFile : string;
  dryRun : bool;
  verbose : bool
}.

Section run.
Context {Time World : Type} (out : Outside Time World) (files : Files World).
Local Abbreviation IO := (@IO Time World).

Definition set_RootPath (c : Config.t) (rootPath : string) : Config.t :=
  Config.mk rootPath (Config.Email c) (Config.Review c) (Config.Reports c) (Config.Verbose c).

Definition set_Enabled (c : Config.t) (enabled : bool) : Config.t :=
  let e := Config.Email c in
  Config.mk (Config.RootPath c)
    (EmailConfig.mk enabled (EmailConfig.SendAt e) (EmailConfig.SMTPHost e)
       (EmailConfig.SMTPPort e) (EmailConfig.SMTPUser e) (EmailConfig.SMTPPassword e)
       (EmailConfig.FromAddress e) (EmailConfig.FromName e) (EmailConfig.ToAddress e))
    (Config.Review c) (Config.Reports c) (Config.Verbose c).

Definition set_Verbose (c : Config.t) (verbose : bool) : Config.t :=
  Config.mk (Config.RootPath c) (Config.Email c) (Config.Review c) (Config.Reports c) verbose.

(** The configuration of the run: the loaded one, with the flags over it. *)
Definition override (flags : Flags) (cfg : Config.t) : Config.t :=
  let cfg := if negb (String.eqb (rootPath flags) "") then set_RootPath cfg (rootPath flags)
             else cfg in
  let cfg := if dryRun flags then set_Enabled cfg false else cfg in
  set_Verbose cfg (verbose flags).

Definition run (flags : Flags) : IO (outcome (option error)) :=
  let* loaded := configfile.Load out files (cfgFile flags) in
  match loaded with
  | inr err => ret (Return (Some (Errorf "failed to load config: %w" [arg_error err])))
  | inl cfg => app.Run out (override flags cfg)
  end.
End run.
End main.

(** A file system without configuration file. *)
Definition no_file {World : Type} (files : Files World) : Prop :=
  forall path w, exists err w',
    os_ReadFile files path w = (inr err, w') /\ os_IsNotExist files err = true.

Definition ENOENT : error := External "no such file or directory".

Definition toy_files (cfg : option Config.t) : Files nat :=
  {| os_ReadFile _ w :=
       (match cfg with
        | Some _ => inl "root_path: /home/ada/projects"
        | None => inr ENOENT
        end, w);
     os_IsNotExist err :=
       match err with
       | External "no such file or directory" => true
       | _ => false
       end;
     yaml_Unmarshal _ c := match cfg with Some cfg => inl cfg | None => inl c end |}.

(** Everything but git works: the scan, the model (whose answer parses),
    the writing of the report and the mail server. *)
Definition others_succeed {Time World : Type} (out : Outside Time World) : Prop :=
  (forall root w, exists repos, fst (scanner_FindRepositories out root w) = inl repos)
  /\ (forall g model prompt w,
        exists answer output,
          fst (genkit_GenerateText out g model prompt w) = inl answer
          /\ review.parseResponse answer = inl output)
  /\ (forall rpt w, exists reportPath, fst (report_Write out rpt w) = inl reportPath)
  /\ (forall addr message timeout w,
        fst (notify_sendWithTimeout out addr message timeout w) = None).

(** A world in which every call of git fails, and nothing else does. *)
Definition no_git_world : Outside Z nat :=
  toy (fun _ => inr (ExitError "fatal: not a git repository")) (inl clean_response)
    (inl toy_repos) [].

(** * Properties *)

(** ** Byte strings *)

Lemma app_cons (c : ascii) (s t : string) : String c s +:+ t = String c (s +:+ t).
Proof. reflexivity. Qed.

Lemma app_empty_r (s : string) : s +:+ "" = s.
Proof. induction s as [|c s IH]; [reflexivity|]. rewrite app_cons, IH. reflexivity. Qed.

Lemma app_assoc_s (s t u : string) : (s +:+ t) +:+ u = s +:+ t +:+ u.
Proof. induction s as [|c s IH]; [reflexivity|]. rewrite !app_cons, IH. reflexivity. Qed.

Lemma length_app_s (s t : string) :
  String.length (s +:+ t) = String.length s + String.length t.
Proof. induction s as [|c s IH]; [reflexivity|]. rewrite app_cons. simpl. lia. Qed.

Lemma is_byte_eq (c : ascii) (n : nat) : n < 256 -> json.is_byte c n = Ascii.eqb c (byte n).
Proof.
  intros Hn. unfold json.is_byte, code, byte.
  destruct (Ascii.eqb_spec c (ascii_of_nat n)) as [->|Hne].
  - rewrite nat_ascii_embedding by assumption. apply Nat.eqb_refl.
  - apply Nat.eqb_neq. intros Heq. apply Hne. rewrite <- Heq. symmetry. apply ascii_nat_embedding.
Qed.

Lemma HasPrefix_LF (c : ascii) (s : string) :
  HasPrefix (String c s) LF = json.is_byte c 10.
Proof.
  unfold LF. simpl. rewrite is_byte_eq by lia. destruct (Ascii.eqb c (byte 10)); reflexivity.
Qed.

Lemma Index_LF_cons (c : ascii) (s : string) :
  Index (String c s) LF
  = if json.is_byte c 10 then 0%Z
    else if (Index s LF <? 0)%Z then (-1)%Z else (Index s LF + 1)%Z.
Proof.
  change (Index (String c s) LF)
    with (if HasPrefix (String c s) LF then 0%Z
          else if (Index s LF <? 0)%Z then (-1)%Z else (Index s LF + 1)%Z).
  rewrite HasPrefix_LF. reflexivity.
Qed.

Lemma no_LF_lines (s : string) : no_LF s = true -> lines_of s = [s].
Proof.
  induction s as [|c s IH]; simpl; [reflexivity|].
  intros H. apply andb_true_iff in H as [Hc Hs].
  apply negb_true_iff in Hc. rewrite Hc, (IH Hs). reflexivity.
Qed.

Lemma no_LF_count (s : string) : no_LF s = true <-> count_LF s = 0.
Proof.
  induction s as [|c s IH]; simpl; [tauto|].
  destruct (json.is_byte c 10); simpl; [split; [discriminate|lia]|exact IH].
Qed.

Lemma lines_of_app (pre post : string) :
  no_LF pre = true -> lines_of (pre +:+ LF +:+ post) = pre :: lines_of post.
Proof.
  induction pre as [|c pre IH]; intros H.
  - reflexivity.
  - simpl in H. apply andb_true_iff in H as [Hc Hs]. apply negb_true_iff in Hc.
    rewrite app_cons. simpl. rewrite Hc, (IH Hs). reflexivity.
Qed.

Lemma count_LF_app (pre post : string) :
  count_LF (pre +:+ post) = count_LF pre + count_LF post.
Proof.
  induction pre as [|c pre IH]; [reflexivity|].
  rewrite app_cons. simpl. destruct (json.is_byte c 10); lia.
Qed.

Lemma head_bytes_app (pre post : string) :
  head_bytes (String.length pre) (pre +:+ post) = pre.
Proof.
  induction pre as [|c pre IH].
  - destruct post; reflexivity.
  - rewrite app_cons. simpl. f_equal. exact IH.
Qed.

Lemma skip_bytes_app (pre post : string) :
  skip_bytes (String.length pre) (pre +:+ post) = post.
Proof. induction pre as [|c pre IH]; [destruct post; reflexivity|exact IH]. Qed.

(** The first line feed of a text, as [strings.Index] finds it. *)
Lemma Index_LF_spec (s : string) :
  (Index s LF = (-1)%Z /\ no_LF s = true) \/
  (exists pre post, s = pre +:+ LF +:+ post /\ no_LF pre = true
                    /\ Index s LF = Z.of_nat (String.length pre)).
Proof.
  induction s as [|c s IH].
  - left. split; reflexivity.
  - rewrite Index_LF_cons. destruct (json.is_byte c 10) eqn:Hc.
    + right. exists "", s. split; [|split; reflexivity].
      rewrite is_byte_eq in Hc by lia. apply Ascii.eqb_eq in Hc. subst c. reflexivity.
    + destruct IH as [[Hi Hs]|(pre & post & -> & Hpre & Hi)].
      * left. rewrite Hi. simpl. rewrite Hc, Hs. split; reflexivity.
      * right. exists (String c pre), post. split; [reflexivity|]. split.
        -- simpl. rewrite Hc, Hpre. reflexivity.
        -- rewrite Hi. destruct (Z.ltb_spec (Z.of_nat (String.length pre)) 0); simpl String.length; lia.
Qed.

Lemma len_LF : len LF = 1%Z.
Proof. reflexivity. Qed.

Lemma genSplit_loop_lines (fuel : nat) : forall (s : string) (n : Z),
  String.length s <= fuel -> (Z.of_nat (count_LF s) <= n)%Z ->
  genSplit_loop fuel s LF n = lines_of s.
Proof.
  induction fuel as [|fuel IH]; intros s n Hlen Hn.
  - destruct s; [reflexivity|simpl in Hlen; lia].
  - simpl. destruct (Z.leb_spec n 0) as [Hn0|Hn0].
    + symmetry. apply no_LF_lines, no_LF_count. lia.
    + destruct (Index_LF_spec s) as [[Hi Hs]|(pre & post & -> & Hpre & Hi)].
      * rewrite Hi. simpl. symmetry. apply no_LF_lines, Hs.
      * rewrite Hi, len_LF.
        destruct (Z.ltb_spec (Z.of_nat (String.length pre)) 0) as [?|_]; [lia|].
        rewrite lines_of_app by assumption.
        unfold slice_to, slice_from. rewrite Nat2Z.id.
        replace (Z.to_nat (Z.of_nat (String.length pre) + 1)) with (String.length (pre +:+ LF))
          by (rewrite length_app_s; simpl; lia).
        rewrite head_bytes_app. rewrite <- app_assoc_s, skip_bytes_app.
        f_equal. apply IH.
        -- rewrite !length_app_s in Hlen. simpl in Hlen. lia.
        -- rewrite !count_LF_app in Hn. simpl in Hn. lia.
Qed.

Lemma Count_loop_LF (fuel : nat) : forall s : string,
  String.length s <= fuel -> Count_loop fuel s LF = Z.of_nat (count_LF s).
Proof.
  induction fuel as [|fuel IH]; intros s Hlen.
  - destruct s; [reflexivity|simpl in Hlen; lia].
  - simpl. destruct (Index_LF_spec s) as [[Hi Hs]|(pre & post & -> & Hpre & Hi)].
    + rewrite Hi. simpl. apply no_LF_count in Hs. lia.
    + rewrite Hi, len_LF.
      destruct (Z.ltb_spec (Z.of_nat (String.length pre)) 0) as [?|_]; [lia|].
      unfold slice_from.
      replace (Z.to_nat (Z.of_nat (String.length pre) + 1)) with (String.length (pre +:+ LF))
        by (rewrite length_app_s; simpl; lia).
      rewrite <- app_assoc_s, skip_bytes_app, IH.
      * rewrite !count_LF_app. apply no_LF_count in Hpre. simpl. lia.
      * rewrite !length_app_s in Hlen. simpl in Hlen. lia.
Qed.

Lemma count_LF_le (s : string) : count_LF s <= String.length s.
Proof. induction s as [|c s IH]; simpl; [lia|]. destruct (json.is_byte c 10); lia. Qed.

(** [strings.Split s "\n"] cuts [s] at every line feed. *)
Lemma Split_LF (s : string) : Split s LF = lines_of s.
Proof.
  unfold Split, genSplit.
  change ((-1 =? 0)%Z) with false. change ((-1 <? 0)%Z) with true. cbv iota.
  unfold Count. rewrite Count_loop_LF by lia.
  pose proof (count_LF_le s) as Hc. unfold len.
  destruct (Z.ltb_spec (Z.of_nat (String.length s) + 1) (Z.of_nat (count_LF s) + 1)); [lia|].
  apply genSplit_loop_lines; lia.
Qed.

Lemma lines_of_no_LF (s : string) : Forall (fun l => no_LF l = true) (lines_of s).
Proof.
  induction s as [|c s IH]; simpl.
  - repeat constructor.
  - destruct (json.is_byte c 10) eqn:Hc.
    + constructor; [reflexivity|exact IH].
    + destruct (lines_of s) as [|l ls]; [repeat constructor; simpl; rewrite Hc; reflexivity|].
      inversion IH; subst. constructor; [simpl; rewrite Hc; assumption|assumption].
Qed.

Lemma lines_of_Join (ls : list string) :
  ls <> [] -> Forall (fun l => no_LF l = true) ls -> lines_of (Join ls LF) = ls.
Proof.
  induction ls as [|l ls IH]; intros Hne Hall; [congruence|].
  inversion Hall as [|? ? Hl Hls]; subst.
  destruct ls as [|l' ls].
  - simpl. apply no_LF_lines, Hl.
  - change (Join (l :: l' :: ls) LF) with (l +:+ LF +:+ Join (l' :: ls) LF).
    rewrite lines_of_app by assumption. f_equal. apply IH; [discriminate|assumption].
Qed.

Lemma Join_snoc (ls : list string) (m : string) :
  ls <> [] -> Join ls LF +:+ LF +:+ m = Join (ls ++ [m]) LF.
Proof.
  induction ls as [|l ls IH]; intros Hne; [congruence|].
  destruct ls as [|l' ls].
  - reflexivity.
  - change (Join (l :: l' :: ls) LF) with (l +:+ LF +:+ Join (l' :: ls) LF).
    change ((l :: l' :: ls) ++ [m]) with (l :: l' :: (ls ++ [m])).
    change (Join (l :: l' :: ls ++ [m]) LF) with (l +:+ LF +:+ Join ((l' :: ls) ++ [m]) LF).
    rewrite <- IH by discriminate. rewrite !app_assoc_s. reflexivity.
Qed.

(** Joining the lines of a text with line feeds gives the text back. *)
Lemma Join_lines_of (s : string) : Join (lines_of s) LF = s.
Proof.
  induction s as [|c s IH]; [reflexivity|]. simpl.
  destruct (json.is_byte c 10) eqn:Hc.
  - rewrite is_byte_eq in Hc by lia. apply Ascii.eqb_eq in Hc. subst c.
    destruct (lines_of s) as [|l ls] eqn:Hl.
    + destruct s; simpl in Hl; [discriminate|].
      destruct (json.is_byte a 10); [discriminate|]. destruct (lines_of s); discriminate.
    + change (Join ("" :: l :: ls) LF) with ("" +:+ LF +:+ Join (l :: ls) LF).
      rewrite IH. reflexivity.
  - destruct (lines_of s) as [|l ls] eqn:Hl.
    + destruct s; simpl in Hl; [discriminate|].
      destruct (json.is_byte a 10); [discriminate|]. destruct (lines_of s); discriminate.
    + rewrite <- IH. destruct ls as [|l' ls]; [reflexivity|].
      change (Join (String c l :: l' :: ls) LF) with (String c l +:+ LF +:+ Join (l' :: ls) LF).
      reflexivity.
Qed.

(** ** The diff extractor *)

Section ExtractFacts.
Context {Time World : Type} (out : Outside Time World).

Lemma extracted_from_mono (commit : Commit.t Time) tr evs raw d :
  extracted_from commit tr raw d -> extracted_from commit (tr ++ evs) raw d.
Proof.
  unfold extracted_from. intros (Hin & H). split; [|exact H].
  apply in_or_app. left. exact Hin.
Qed.

Lemma Extract_file_inv (commit : Commit.t Time) file diffs (st : World * list (Event Time)) :
  let r := diff.Extract_file out commit file diffs st in
  (exists evs, snd (snd r) = snd st ++ evs)
  /\ (fst r = diffs
      \/ exists raw d, fst r = diffs ++ [d] /\ Diff.FilePath d = file
                       /\ extracted_from commit (snd (snd r)) raw d).
Proof.
  unfold diff.Extract_file.
  destruct (Diff.SupportedExtensions !! filepath.Ext file) as [lang|] eqn:Hlang;
    [|simpl; split; [exists []; symmetry; apply app_nil_r|left; reflexivity]].
  destruct (diff.shouldExclude file) eqn:Hex;
    [simpl; split; [exists []; symmetry; apply app_nil_r|left; reflexivity]|].
  unfold diff.getFileDiff, Output, bind, call, emit, ret, Printf, emit.
  destruct st as [w tr]. simpl fst. simpl snd.
  destruct (exec_Output out _ _ _ w) as [[content|err] w']; simpl.
  - split; [eexists; reflexivity|]. right. eexists content, _. split; [reflexivity|].
    split; [reflexivity|].
    unfold extracted_from, patch_query. simpl. repeat split; try assumption; try reflexivity.
    apply in_or_app. right. left. reflexivity.
  - split; [|left; reflexivity]. rewrite <- app_assoc. eexists. reflexivity.
Qed.

Lemma Extract_loop_inv (commit : Commit.t Time) files : forall diffs (st : World * list (Event Time)),
  let r := diff.Extract_loop out commit files diffs st in
  (exists evs, snd (snd r) = snd st ++ evs)
  /\ forall d, In d (fst r) ->
       In d diffs \/ (In (Diff.FilePath d) files
                      /\ exists raw, extracted_from commit (snd (snd r)) raw d).
Proof.
  induction files as [|file files IH]; intros diffs st.
  - simpl. split; [exists []; symmetry; apply app_nil_r|]. intros d Hd. left. exact Hd.
  - simpl. unfold bind.
    pose proof (Extract_file_inv commit file diffs st) as Hfile. simpl in Hfile.
    destruct (diff.Extract_file out commit file diffs st) as [diffs1 st1].
    simpl in Hfile. destruct Hfile as [[evs1 Htr1] Hd1].
    specialize (IH diffs1 st1). simpl in IH.
    destruct (diff.Extract_loop out commit files diffs1 st1) as [diffs2 st2].
    simpl in IH |- *. destruct IH as [[evs2 Htr2] Hd2].
    split; [exists (evs1 ++ evs2); rewrite Htr2, Htr1, app_assoc; reflexivity|].
    intros d Hd. destruct (Hd2 d Hd) as [Hin|[Hin Hex]]; [|right; split; [right|]; assumption].
    destruct Hd1 as [->|(raw & d1 & -> & Hfp & Hex)]; [left; assumption|].
    apply in_app_or in Hin as [Hin|[<-|[]]]; [left; assumption|].
    right. split; [left; symmetry; exact Hfp|]. exists raw. rewrite Htr2.
    apply extracted_from_mono, Hex.
Qed.

(** Every diff unit that [Extract] returns was built from the text of a
    patch query that the trace records. *)
Lemma Extract_extracted (commit : Commit.t Time) (w : World) diffs d :
  value_of (run (diff.Extract out commit) w) = inl diffs -> In d diffs ->
  exists raw, extracted_from commit (trace_of (run (diff.Extract out commit) w)) raw d.
Proof.
  unfold run, value_of, trace_of, diff.Extract, bind.
  destruct (diff.getChangedFiles out _ _ (w, [])) as [[files [err|]] st]; simpl;
    [discriminate|].
  pose proof (Extract_loop_inv commit files [] st) as Hloop. simpl in Hloop.
  destruct (diff.Extract_loop out commit files [] st) as [diffs' st']. simpl in *.
  intros [= <-] Hd. destruct Hloop as [_ Hloop].
  destruct (Hloop d Hd) as [[]|[_ Hex]]. exact Hex.
Qed.

End ExtractFacts.

Lemma HasPrefix_spec (s p : string) :
  HasPrefix s p = true <-> exists post, s = p +:+ post.
Proof.
  revert s. induction p as [|c p IH]; intros s; simpl.
  - split; [intros _; exists s; reflexivity|reflexivity].
  - destruct s as [|d s]; [split; [discriminate|intros [post H]; discriminate]|].
    destruct (Ascii.eqb_spec d c) as [->|Hne].
    + rewrite IH. split; intros [post H]; exists post.
      * rewrite app_cons. congruence.
      * rewrite app_cons in H. congruence.
    + split; [discriminate|]. intros [post H]. rewrite app_cons in H. congruence.
Qed.

Lemma Index_range (s sub : string) : (-1 <= Index s sub)%Z.
Proof.
  induction s as [|c s IH]; simpl.
  - destruct (HasPrefix "" sub); lia.
  - destruct (HasPrefix (String c s) sub); [lia|].
    destruct (Z.ltb_spec (Index s sub) 0); lia.
Qed.

(** [strings.Contains s sub] holds exactly when [sub] occurs in [s]. *)
Lemma Contains_spec (s sub : string) :
  Contains s sub = true <-> exists pre post, s = pre +:+ sub +:+ post.
Proof.
  unfold Contains. induction s as [|c s IH].
  - simpl. destruct (HasPrefix "" sub) eqn:Hp.
    + split; [intros _|reflexivity]. apply HasPrefix_spec in Hp as [post Hp].
      exists "", post. exact Hp.
    + split; [discriminate|]. intros (pre & post & H).
      destruct pre; [|discriminate].
      assert (HasPrefix "" sub = true) by (apply HasPrefix_spec; exists post; exact H).
      congruence.
  - change (Index (String c s) sub)
      with (if HasPrefix (String c s) sub then 0%Z
            else if (Index s sub <? 0)%Z then (-1)%Z else (Index s sub + 1)%Z).
    destruct (HasPrefix (String c s) sub) eqn:Hp.
    + split; [intros _|reflexivity]. apply HasPrefix_spec in Hp as [post Hp].
      exists "", post. exact Hp.
    + pose proof (Index_range s sub) as Hr.
      destruct (Z.ltb_spec (Index s sub) 0) as [Hneg|Hpos].
      * split; [discriminate|]. intros (pre & post & H). destruct pre as [|d pre].
        -- assert (HasPrefix (String c s) sub = true)
             by (apply HasPrefix_spec; exists post; exact H). congruence.
        -- rewrite app_cons in H. injection H as _ H.
           assert (Hc : (0 <=? Index s sub)%Z = true) by (apply IH; eauto).
           apply Z.leb_le in Hc. lia.
      * split; [intros _|intros _; apply Z.leb_le; lia].
        assert (Hc : (0 <=? Index s sub)%Z = true) by (apply Z.leb_le; lia).
        apply IH in Hc as (pre & post & ->). exists (String c pre), post. reflexivity.
Qed.


(** ** The claims on the diff extractor *)

(** C1. A diff unit that [Extract] returns with a line count above 300
    was built from the text of its patch query: [LineCount] is the number of
    lines of that text, [Content] is its first 300 lines followed by the line
    of the truncation marker, and [IsTruncated] holds. *)
Theorem C1_truncated_content {Time World : Type} (out : Outside Time World)
    (commit : Commit.t Time) (w : World) (diffs : list Diff.t) (d : Diff.t) :
  value_of (run (diff.Extract out commit) w) = inl diffs ->
  In d diffs ->
  (Diff.MaxDiffLines < Diff.LineCount d)%Z ->
  exists raw,
    let lines := Split raw LF in
    In (patch_query commit (Diff.FilePath d) (inl raw))
       (trace_of (run (diff.Extract out commit) w))
    /\ Diff.LineCount d = Z.of_nat (length lines)
    /\ Diff.Content d = Join (take 300 lines) LF +:+ LF +:+ "... [truncated]"
    /\ Split (Diff.Content d) LF = take 300 lines ++ ["... [truncated]"]
    /\ Diff.IsTruncated d = true.
Proof.
  intros Hrun Hd Hlong.
  destruct (Extract_extracted out commit w diffs d Hrun Hd)
    as (raw & Hq & _ & _ & Hcount & Hcontent & _).
  exists raw. cbv zeta. rewrite Hcount in Hlong.
  apply Z.ltb_lt in Hlong. rewrite Hlong in Hcontent.
  change (Z.to_nat Diff.MaxDiffLines) with 300 in Hcontent.
  repeat split; try assumption.
  - rewrite Hcontent, Split_LF. unfold truncation_marker.
    apply Z.ltb_lt in Hlong. unfold Diff.MaxDiffLines in Hlong.
    assert (Hne : take 300 (Split raw LF) <> []).
    { destruct (Split raw LF); simpl in Hlong; [lia|discriminate]. }
    rewrite Join_snoc by assumption. apply lines_of_Join.
    + destruct (take 300 (Split raw LF)); [congruence|discriminate].
    + apply Forall_app. split; [|repeat constructor].
      rewrite Split_LF. apply Forall_take, lines_of_no_LF.
  - unfold Diff.IsTruncated. rewrite Hcount. exact Hlong.
Qed.

Lemma C1_witness :
  exists raw,
    let lines := Split raw LF in
    In (patch_query toy_commit (Diff.FilePath (first_diff (value_of (extract_toy long_patch))))
          (inl raw))
       (trace_of (extract_toy long_patch))
    /\ Diff.LineCount (first_diff (value_of (extract_toy long_patch)))
       = Z.of_nat (length lines)
    /\ Diff.Content (first_diff (value_of (extract_toy long_patch)))
       = Join (take 300 lines) LF +:+ LF +:+ "... [truncated]"
    /\ Split (Diff.Content (first_diff (value_of (extract_toy long_patch)))) LF
       = take 300 lines ++ ["... [truncated]"]
    /\ Diff.IsTruncated (first_diff (value_of (extract_toy long_patch))) = true.
Proof.
  apply (C1_truncated_content (toy (one_file_git long_patch) (inl "") (inl []) [])
           toy_commit 0 [first_diff (value_of (extract_toy long_patch))]).
  - vm_compute. reflexivity.
  - left. reflexivity.
  - vm_compute. reflexivity.
Defined.



(** C9. The boundary is strict: a diff unit that [Extract] returns with a
    line count of 300 or less holds the text of its patch query unchanged,
    with no marker appended, and [IsTruncated] is false. *)
Theorem C9_boundary_is_strict {Time World : Type} (out : Outside Time World)
    (commit : Commit.t Time) (w : World) (diffs : list Diff.t) (d : Diff.t) :
  value_of (run (diff.Extract out commit) w) = inl diffs ->
  In d diffs ->
  (Diff.LineCount d <= 300)%Z ->
  exists raw,
    In (patch_query commit (Diff.FilePath d) (inl raw))
       (trace_of (run (diff.Extract out commit) w))
    /\ Diff.LineCount d = Z.of_nat (length (Split raw LF))
    /\ Diff.Content d = raw
    /\ Diff.IsTruncated d = false.
Proof.
  intros Hrun Hd Hshort.
  destruct (Extract_extracted out commit w diffs d Hrun Hd)
    as (raw & Hq & _ & _ & Hcount & Hcontent & _).
  exists raw. rewrite Hcount in Hshort.
  assert (Hf : (Diff.MaxDiffLines <? Z.of_nat (length (Split raw LF)))%Z = false)
    by (apply Z.ltb_ge; exact Hshort).
  rewrite Hf in Hcontent. repeat split; try assumption.
  unfold Diff.IsTruncated. rewrite Hcount. exact Hf.
Qed.

Lemma C9_witness :
  exists raw,
    In (patch_query toy_commit
          (Diff.FilePath (first_diff (value_of (extract_toy short_patch)))) (inl raw))
       (trace_of (extract_toy short_patch))
    /\ Diff.LineCount (first_diff (value_of (extract_toy short_patch)))
       = Z.of_nat (length (Split raw LF))
    /\ Diff.Content (first_diff (value_of (extract_toy short_patch))) = raw
    /\ Diff.IsTruncated (first_diff (value_of (extract_toy short_patch))) = false.
Proof.
  apply (C9_boundary_is_strict (toy (one_file_git short_patch) (inl "") (inl []) [])
           toy_commit 0 [first_diff (value_of (extract_toy short_patch))]).
  - vm_compute. reflexivity.
  - left. reflexivity.
  - vm_compute. discriminate.
Defined.

(** ** The claims on the review engine and on delivery *)

(** C6. For the empty collection of diff units [Review] returns no
    finding, the summary "No changes to review." and no error; it leaves
    the world as it is and records no call, so the model is not asked. *)
Theorem C6_empty_review {Time World : Type} (out : Outside Time World)
    (r : review.Reviewer) (w : World) :
  run (review.Review out r []) w = (([], "No changes to review.", None), (w, []))
  /\ forall tr : list (Event Time),
       review.Review out r [] (w, tr) = (([], "No changes to review.", None), (w, tr)).
Proof. split; reflexivity. Qed.

Lemma buildMessage_trace {Time World : Type} (out : Outside Time World)
    (s : notify.Service) (subject htmlBody : string) (st : World * list (Event Time)) :
  snd (snd (notify.buildMessage out s subject htmlBody st)) = snd st.
Proof.
  unfold notify.buildMessage, bind, call, ret. destruct st as [w tr]. simpl.
  destruct (time_Now out w) as [now1 w1]. simpl.
  destruct (time_Now out w1) as [now2 w2]. reflexivity.
Qed.

(** The four ways the retry loop can go, as the trace shows them. *)
Lemma send_loop_cases {Time World : Type} (out : Outside Time World)
    (addr message : string) (w : World) (tr : list (Event Time)) :
  let r := notify.send_loop out 4 addr message 1 None (w, tr) in
  let attempt res := EvSend addr message (30 * Second)%Z res in
  let failed n e := EvLog "Email attempt %d failed: %v" [arg_int n; arg_error e] in
  (fst r = None /\ snd (snd r) = tr ++ [attempt None])
  \/ (exists e1,
        fst r = None
        /\ snd (snd r) = tr ++ [attempt (Some e1); failed 1%Z e1; EvSleep (1 * Second)%Z;
                               attempt None])
  \/ (exists e1 e2,
        fst r = None
        /\ snd (snd r) = tr ++ [attempt (Some e1); failed 1%Z e1; EvSleep (1 * Second)%Z;
                               attempt (Some e2); failed 2%Z e2; EvSleep (4 * Second)%Z;
                               attempt None])
  \/ (exists e1 e2 e3,
        fst r = Some (Errorf "failed after 3 attempts: %w" [arg_error e3])
        /\ snd (snd r) = tr ++ [attempt (Some e1); failed 1%Z e1; EvSleep (1 * Second)%Z;
                               attempt (Some e2); failed 2%Z e2; EvSleep (4 * Second)%Z;
                               attempt (Some e3); failed 3%Z e3]).
Proof.
  cbv zeta. unfold notify.send_loop, notify.sendWithTimeout, notify.Sleep, Printf,
    bind, call, emit, ret. simpl.
  destruct (notify_sendWithTimeout out addr message _ w) as [[e1|] w1]; simpl;
    [|left; split; reflexivity].
  destruct (notify_sendWithTimeout out addr message _ _) as [[e2|] w2]; simpl;
    [|right; left; exists e1; rewrite <- !app_assoc; split; reflexivity].
  destruct (notify_sendWithTimeout out addr message _ _) as [[e3|] w3]; simpl.
  - right; right; right. exists e1, e2, e3. rewrite <- !app_assoc. split; reflexivity.
  - right; right; left. exists e1, e2. rewrite <- !app_assoc. split; reflexivity.
Qed.


(** ** Cutting at a separator of one byte *)

Section Separator.
Variable b : ascii.
Let sep : string := String b EmptyString.

Lemma HasPrefix_byte (c : ascii) (s : string) :
  HasPrefix (String c s) sep = Ascii.eqb c b.
Proof. simpl. destruct (Ascii.eqb c b); reflexivity. Qed.

Lemma Index_byte_cons (c : ascii) (s : string) :
  Index (String c s) sep
  = if Ascii.eqb c b then 0%Z
    else if (Index s sep <? 0)%Z then (-1)%Z else (Index s sep + 1)%Z.
Proof.
  change (Index (String c s) sep)
    with (if HasPrefix (String c s) sep then 0%Z
          else if (Index s sep <? 0)%Z then (-1)%Z else (Index s sep + 1)%Z).
  rewrite HasPrefix_byte. reflexivity.
Qed.

Lemma Index_byte_spec (s : string) :
  (Index s sep = (-1)%Z /\ free_of b s = true) \/
  (exists pre post, s = pre +:+ sep +:+ post /\ free_of b pre = true
                    /\ Index s sep = Z.of_nat (String.length pre)).
Proof.
  induction s as [|c s IH].
  - left. split; reflexivity.
  - rewrite Index_byte_cons. destruct (Ascii.eqb_spec c b) as [->|Hc].
    + right. exists "", s. repeat split; reflexivity.
    + apply Ascii.eqb_neq in Hc.
      destruct IH as [[Hi Hs]|(pre & post & -> & Hpre & Hi)].
      * left. rewrite Hi. simpl. rewrite Hc, Hs. split; reflexivity.
      * right. exists (String c pre), post. split; [reflexivity|]. split.
        -- simpl. rewrite Hc, Hpre. reflexivity.
        -- rewrite Hi.
           destruct (Z.ltb_spec (Z.of_nat (String.length pre)) 0); simpl String.length; lia.
Qed.

Lemma cut_zero (s : string) : cut_at_most 0 b s = [s].
Proof.
  induction s as [|c s IH]; [reflexivity|]. simpl.
  destruct (Ascii.eqb c b); [reflexivity|]. rewrite IH. reflexivity.
Qed.

Lemma cut_free (k : nat) (s : string) : free_of b s = true -> cut_at_most k b s = [s].
Proof.
  induction s as [|c s IH]; [reflexivity|]. simpl. intros H.
  apply andb_true_iff in H as [Hc Hs]. apply negb_true_iff in Hc.
  rewrite Hc, (IH Hs). reflexivity.
Qed.

Lemma cut_app (k : nat) (pre post : string) :
  free_of b pre = true ->
  cut_at_most (S k) b (pre +:+ sep +:+ post) = pre :: cut_at_most k b post.
Proof.
  induction pre as [|c pre IH]; intros H.
  - simpl. rewrite Ascii.eqb_refl. reflexivity.
  - simpl in H. apply andb_true_iff in H as [Hc Hs]. apply negb_true_iff in Hc.
    rewrite app_cons. simpl. rewrite Hc, (IH Hs). reflexivity.
Qed.

Lemma genSplit_loop_cut (fuel : nat) : forall (s : string) (n : Z),
  String.length s <= fuel -> (0 <= n)%Z ->
  genSplit_loop fuel s sep n = cut_at_most (Z.to_nat n) b s.
Proof.
  induction fuel as [|fuel IH]; intros s n Hlen Hn.
  - destruct s; [|simpl in Hlen; lia]. simpl. destruct (Z.to_nat n); reflexivity.
  - simpl. destruct (Z.leb_spec n 0) as [Hn0|Hn0].
    + replace n with 0%Z by lia. symmetry. apply cut_zero.
    + destruct (Index_byte_spec s) as [[Hi Hs]|(pre & post & -> & Hpre & Hi)].
      * rewrite Hi. simpl. symmetry. apply cut_free, Hs.
      * rewrite Hi.
        destruct (Z.ltb_spec (Z.of_nat (String.length pre)) 0) as [?|_]; [lia|].
        replace (Z.to_nat n) with (S (Z.to_nat (n - 1))) by lia.
        rewrite cut_app by assumption.
        unfold slice_to, slice_from. rewrite Nat2Z.id.
        replace (Z.to_nat (Z.of_nat (String.length pre) + len sep))
          with (String.length (pre +:+ sep))
          by (rewrite length_app_s; unfold len; simpl; lia).
        rewrite head_bytes_app. rewrite <- app_assoc_s, skip_bytes_app.
        f_equal. apply IH; [|lia].
        rewrite !length_app_s in Hlen. simpl in Hlen. lia.
Qed.

Lemma cut_more (s : string) : forall k k' : nat,
  String.length s <= k -> String.length s <= k' -> cut_at_most k b s = cut_at_most k' b s.
Proof.
  induction s as [|c s IH]; intros k k' Hk Hk'; [reflexivity|].
  simpl in Hk, Hk'. simpl. destruct (Ascii.eqb c b).
  - destruct k as [|k]; [lia|]. destruct k' as [|k']; [lia|].
    f_equal. apply IH; lia.
  - rewrite (IH k k') by lia. reflexivity.
Qed.

(** [strings.SplitN s sep n] for a positive [n] cuts [s] at the first
    [n - 1] occurrences of the separator. *)
Lemma SplitN_cut (s : string) (n : Z) :
  (0 < n)%Z -> SplitN s sep n = cut_at_most (Z.to_nat (n - 1)) b s.
Proof.
  intros Hn. unfold SplitN, genSplit.
  destruct (Z.eqb_spec n 0) as [?|_]; [lia|].
  destruct (Z.ltb_spec n 0) as [?|_]; [lia|].
  unfold len. destruct (Z.ltb_spec (Z.of_nat (String.length s) + 1) n) as [Hshort|Hlong].
  - rewrite genSplit_loop_cut by lia. apply cut_more; lia.
  - apply genSplit_loop_cut; lia.
Qed.

End Separator.

Lemma cut_length (k : nat) (b : ascii) (s : string) :
  1 <= length (cut_at_most k b s) <= S k.
Proof.
  revert k. induction s as [|c s IH]; intros k; simpl; [lia|].
  destruct (Ascii.eqb c b).
  - destruct k as [|k]; simpl; [lia|]. specialize (IH k). lia.
  - specialize (IH k). destruct (cut_at_most k b s); simpl in *; lia.
Qed.

(** ** The commit locator *)

Section ParseCommits.
Context {Time World : Type} (out : Outside Time World).

(** One turn of the loop of [parseCommits] does what the specification
    says of a line. *)
Lemma parseCommits_line_spec (repoPath line : string) (commits : list (Commit.t Time))
    (w : World) (tr : list (Event Time)) :
  git.parseCommits_line out repoPath (scanner.GetRepoName repoPath) line commits (w, tr)
  = (commits ++ option_list (commit_of_line out repoPath line),
     (w, tr ++ option_list (warning_of_line out line))).
Proof.
  unfold git.parseCommits_line, commit_of_line, warning_of_line, five_fields.
  destruct (String.eqb line "") eqn:Hempty.
  { unfold ret. simpl. rewrite !app_nil_r. reflexivity. }
  rewrite (SplitN_cut "|" line 5) by lia. change (Z.to_nat (5 - 1)) with 4.
  pose proof (cut_length 4 "|" line) as Hlen.
  destruct (cut_at_most 4 "|" line) as [|f0 [|f1 [|f2 [|f3 [|f4 [|f5 fs]]]]]];
    simpl in Hlen; try lia;
    try (unfold ret; simpl; rewrite !app_nil_r; reflexivity).
  simpl. destruct (time_Parse out git.RFC3339 f3) as [t|err].
  - unfold ret. simpl. rewrite app_nil_r. reflexivity.
  - unfold bind, Printf, emit, ret. simpl. rewrite app_nil_r. reflexivity.
Qed.

Lemma parseCommits_loop_spec (repoPath : string) (lines : list string) :
  forall (commits : list (Commit.t Time)) (w : World) (tr : list (Event Time)),
  git.parseCommits_loop out repoPath (scanner.GetRepoName repoPath) lines commits (w, tr)
  = (commits ++ omap (commit_of_line out repoPath) lines,
     (w, tr ++ omap (warning_of_line out) lines)).
Proof.
  induction lines as [|line lines IH]; intros commits w tr.
  - simpl. unfold ret. rewrite !app_nil_r. reflexivity.
  - simpl. unfold bind. rewrite parseCommits_line_spec, IH.
    destruct (commit_of_line out repoPath line), (warning_of_line out line);
      simpl; rewrite <- ?app_assoc, ?app_nil_r; reflexivity.
Qed.

End ParseCommits.

Lemma rev_app_spec (s t : string) : String.rev_app s t = String.rev s +:+ t.
Proof.
  unfold String.rev. revert t. induction s as [|c s IH]; intros t; [reflexivity|].
  simpl. rewrite (IH (String c t)), (IH (String c "")), app_assoc_s. reflexivity.
Qed.

Lemma rev_cons (c : ascii) (s : string) :
  String.rev (String c s) = String.rev s +:+ String c "".
Proof. unfold String.rev at 1. simpl. apply rev_app_spec. Qed.

Lemma rev_app_s (s t : string) : String.rev (s +:+ t) = String.rev t +:+ String.rev s.
Proof.
  induction s as [|c s IH].
  - symmetry. apply app_empty_r.
  - rewrite app_cons, !rev_cons, IH, app_assoc_s. reflexivity.
Qed.

Lemma rev_involutive_s (s : string) : String.rev (String.rev s) = s.
Proof.
  induction s as [|c s IH]; [reflexivity|].
  rewrite rev_cons, rev_app_s, IH. reflexivity.
Qed.

Lemma rev_empty (s : string) : String.rev s = "" -> s = "".
Proof. intros H. rewrite <- (rev_involutive_s s), H. reflexivity. Qed.

Lemma lines_of_nonempty (s : string) : lines_of s <> [].
Proof.
  destruct s as [|c s]; simpl; [discriminate|].
  destruct (json.is_byte c 10); [discriminate|]. destruct (lines_of s); discriminate.
Qed.

(** What [bufio.ScanLines] hands out, in terms of the text cut at its line
    feeds. *)
Lemma scan_scanned (data : string) : forall acc : string,
  bufio.scan acc data = scanned (prepend (String.rev acc) (lines_of data)).
Proof.
  induction data as [|c data IH]; intros acc.
  - simpl. rewrite app_empty_r. destruct acc as [|a acc]; [reflexivity|].
    rewrite rev_involutive_s.
    destruct (String.rev (String a acc)) eqn:Hr; [apply rev_empty in Hr; discriminate|].
    reflexivity.
  - simpl. destruct (json.is_byte c 10).
    + rewrite (IH ""). simpl. rewrite app_empty_r, rev_involutive_s.
      pose proof (lines_of_nonempty data) as Hne.
      destruct (lines_of data) as [|l ls]; [congruence|]. reflexivity.
    + rewrite (IH (String c acc)). rewrite rev_cons.
      pose proof (lines_of_nonempty data) as Hne.
      destruct (lines_of data) as [|l ls]; [congruence|].
      simpl. rewrite app_assoc_s. reflexivity.
Qed.

Lemma ScanLines_scanned (data : string) : bufio.ScanLines data = scanned (lines_of data).
Proof.
  unfold bufio.ScanLines. rewrite scan_scanned.
  destruct (lines_of data); reflexivity.
Qed.

Lemma length_rev_s (s : string) : String.length (String.rev s) = String.length s.
Proof.
  induction s as [|c s IH]; [reflexivity|].
  rewrite rev_cons, length_app_s, IH. simpl. lia.
Qed.

Lemma chomp_snoc (x : string) (c : ascii) :
  chomp (x +:+ String c "") = if json.is_byte c 13 then x else x +:+ String c "".
Proof.
  induction x as [|d x IH]; [simpl; destruct (json.is_byte c 13); reflexivity|].
  rewrite app_cons. destruct (x +:+ String c "") as [|a y] eqn:Hx.
  - apply (f_equal String.length) in Hx. rewrite length_app_s in Hx. simpl in Hx. lia.
  - change (chomp (String d (String a y))) with (String d (chomp (String a y))).
    rewrite IH. destruct (json.is_byte c 13); reflexivity.
Qed.

(** [dropCR] takes the carriage return from the end of a line. *)
Lemma dropCR_chomp (l : string) : bufio.dropCR (String.rev l) = chomp l.
Proof.
  destruct (String.rev l) as [|c r] eqn:Hr.
  - apply rev_empty in Hr. subst l. reflexivity.
  - assert (Hl : l = String.rev r +:+ String c "").
    { rewrite <- (rev_involutive_s l), Hr, rev_cons. reflexivity. }
    rewrite Hl, chomp_snoc. unfold bufio.dropCR.
    destruct (json.is_byte c 13); [reflexivity|]. apply rev_cons.
Qed.

Lemma token_fits (l : string) (next : list string * option error) :
  fits l -> bufio.token (String.rev l) next = (chomp l :: fst next, snd next).
Proof.
  unfold fits, bufio.token, bufio.MaxScanTokenSize. intros Hl. rewrite length_rev_s.
  destruct (N.leb_spec 65536 (N.of_nat (String.length l))); [lia|].
  rewrite dropCR_chomp. reflexivity.
Qed.

Lemma token_too_long (l : string) (next : list string * option error) :
  ~ fits l -> bufio.token (String.rev l) next = ([], Some ErrTooLong).
Proof.
  unfold fits, bufio.token, bufio.MaxScanTokenSize. intros Hl. rewrite length_rev_s.
  destruct (N.leb_spec 65536 (N.of_nat (String.length l))); [reflexivity|contradiction].
Qed.

(** The scanner hands out every line of a text whose pieces all fit. *)
Lemma scanned_fits (pieces : list string) :
  Forall fits pieces -> scanned pieces = (lines_among pieces, None).
Proof.
  induction pieces as [|l pieces IH]; intros Hall; [reflexivity|].
  inversion Hall as [|? ? Hl Hrest]; subst. specialize (IH Hrest).
  destruct pieces as [|l' pieces].
  - simpl. destruct l as [|c l]; [reflexivity|]. apply (token_fits (String c l)), Hl.
  - change (scanned (l :: l' :: pieces))
      with (bufio.token (String.rev l) (scanned (l' :: pieces))).
    rewrite IH, token_fits by exact Hl. reflexivity.
Qed.

(** It stops at the first piece that does not fit. *)
Lemma scanned_too_long (before : list string) (long : string) (after : list string) :
  Forall fits before -> ~ fits long ->
  scanned (before ++ long :: after) = (map chomp before, Some ErrTooLong).
Proof.
  intros Hall Hlong. induction Hall as [|l before Hl _ IH].
  - simpl. destruct after as [|l' after].
    + destruct long as [|c long]; [|apply (token_too_long (String c long)), Hlong].
      exfalso. apply Hlong. unfold fits. simpl. lia.
    + apply token_too_long, Hlong.
  - change (scanned ((l :: before) ++ long :: after))
      with (scanned (l :: (before ++ long :: after))).
    assert (Hstep : scanned (l :: (before ++ long :: after))
                    = bufio.token (String.rev l) (scanned (before ++ long :: after))).
    { destruct (before ++ long :: after) eqn:Hne; [destruct before; discriminate|reflexivity]. }
    rewrite Hstep, IH, token_fits by exact Hl. reflexivity.
Qed.

Lemma parseCommits_run {Time World : Type} (out : Outside Time World)
    (output repoPath : string) (w : World) :
  run (git.parseCommits out output repoPath) w
  = ((omap (commit_of_line out repoPath) (fst (scanned (lines_of output))),
      snd (scanned (lines_of output))),
     (w, omap (warning_of_line out) (fst (scanned (lines_of output))))).
Proof.
  unfold run, git.parseCommits, bind. rewrite ScanLines_scanned.
  destruct (scanned (lines_of output)) as [lines err].
  rewrite parseCommits_loop_spec. reflexivity.
Qed.

(** C8, as the code has it. [parseCommits] takes the lines of the log in
    turn when every line is shorter than 65536 bytes: an empty line, a line
    with fewer than five
    fields and a line whose timestamp does not parse give no commit, the
    last with a warning in the log; every other line gives the commit of its
    five fields, also after a malformed line, and no error is returned. A
    line of 65536 bytes or more, malformed or not, stops the parsing: the
    commits of the lines before it are returned with [bufio.ErrTooLong], and
    the lines after it are not read. *)
Theorem C8_lines_are_parsed_in_turn {Time World : Type} (out : Outside Time World)
    (output repoPath : string) (w : World) :
  let r := run (git.parseCommits out output repoPath) w in
  (Forall fits (lines_of output) ->
   value_of r = (omap (commit_of_line out repoPath) (text_lines output), None)
   /\ trace_of r = omap (warning_of_line out) (text_lines output)
   /\ forall before bad after,
        text_lines output = before ++ bad :: after ->
        commit_of_line out repoPath bad = None ->
        fst (value_of r)
        = omap (commit_of_line out repoPath) before
            ++ omap (commit_of_line out repoPath) after)
  /\ (forall before long after,
        lines_of output = before ++ long :: after ->
        Forall fits before -> ~ fits long ->
        value_of r
        = (omap (commit_of_line out repoPath) (map chomp before), Some ErrTooLong)
        /\ trace_of r = omap (warning_of_line out) (map chomp before)).
Proof.
  cbv zeta. rewrite parseCommits_run. unfold value_of, trace_of, text_lines. split.
  - intros Hall. rewrite scanned_fits by exact Hall. simpl. repeat split.
    intros before bad after -> Hbad. rewrite omap_app. simpl. rewrite Hbad. reflexivity.
  - intros before long after -> Hall Hlong.
    rewrite scanned_too_long by assumption. split; reflexivity.
Qed.

Lemma C8_witness :
  let r := run (git.parseCommits (toy (fun _ => inl "") (inl "") (inl []) [])
                  mixed_log "/home/ada/projects/cra") 0 in
  value_of r
  = (omap (commit_of_line (toy (fun _ => inl "") (inl "") (inl []) [])
             "/home/ada/projects/cra") (text_lines mixed_log), None)
  /\ trace_of r
     = omap (warning_of_line (toy (fun _ => inl "") (inl "") (inl []) []))
         (text_lines mixed_log)
  /\ text_lines mixed_log
     = ["1111111111111111|Ada|ada@example.com|2024-05-01T10:00:00Z|first";
        "garbage|line";
        "2222222222222222|Bob|bob@example.com|yesterday|second";
        "3333333333333333|Cy|cy@example.com|2024-05-01T10:00:00Z|third | last"].
Proof.
  cbv zeta.
  destruct (C8_lines_are_parsed_in_turn (toy (fun _ => inl "") (inl "") (inl []) [])
              mixed_log "/home/ada/projects/cra" 0) as [Hshort _].
  destruct Hshort as (Hvalue & Htrace & _).
  - repeat constructor; unfold fits; simpl; lia.
  - split; [exact Hvalue|]. split; [exact Htrace|reflexivity].
Defined.

Lemma length_filler (n : nat) : String.length (filler n) = n.
Proof. induction n as [|n IH]; simpl; [|rewrite IH]; reflexivity. Qed.

Lemma no_LF_filler (n : nat) : no_LF (filler n) = true.
Proof. induction n as [|n IH]; [reflexivity|exact IH]. Qed.

Lemma chomp_filler (n : nat) : chomp (filler n) = filler n.
Proof.
  induction n as [|[|n] IH]; [reflexivity..|].
  change (chomp (filler (S (S n)))) with (String "x" (chomp (filler (S n)))).
  rewrite IH. reflexivity.
Qed.

Lemma cut_filler (k n : nat) : cut_at_most k "|" (filler (S n)) = [filler (S n)].
Proof.
  induction n as [|n IH]; [reflexivity|].
  change (cut_at_most k "|" (filler (S (S n))))
    with (match cut_at_most k "|" (filler (S n)) with
          | l :: ls => String "x" l :: ls
          | [] => [filler (S (S n))]
          end).
  rewrite IH. reflexivity.
Qed.

Lemma lines_of_log_around (l : string) :
  no_LF l = true ->
  lines_of (log_around l)
  = ["1111111111111111|Ada|ada@example.com|2024-05-01T10:00:00Z|first"; l;
     "3333333333333333|Cy|cy@example.com|2024-05-01T10:00:00Z|third"; ""].
Proof.
  intros Hl. unfold log_around.
  rewrite app_assoc_s, lines_of_app by reflexivity. f_equal.
  rewrite app_assoc_s, lines_of_app by exact Hl. reflexivity.
Qed.

(** The log with a second line of [n] bytes, from 65536 on. *)
Lemma parseCommits_long_line {Time World : Type} (out : Outside Time World)
    (repoPath : string) (w : World) (n : nat) :
  (65536 <= N.of_nat n)%N ->
  text_lines (log_around (filler n))
  = ["1111111111111111|Ada|ada@example.com|2024-05-01T10:00:00Z|first"; filler n;
     "3333333333333333|Cy|cy@example.com|2024-05-01T10:00:00Z|third"]
  /\ five_fields (filler n) = None
  /\ value_of (run (git.parseCommits out (log_around (filler n)) repoPath) w)
     = (omap (commit_of_line out repoPath)
          ["1111111111111111|Ada|ada@example.com|2024-05-01T10:00:00Z|first"],
        Some ErrTooLong).
Proof.
  intros Hn. destruct n as [|n]; [lia|].
  pose proof (lines_of_log_around (filler (S n)) (no_LF_filler (S n))) as Hlines.
  split; [|split].
  - unfold text_lines. rewrite Hlines.
    change (lines_among ?l) with
      [chomp "1111111111111111|Ada|ada@example.com|2024-05-01T10:00:00Z|first";
       chomp (filler (S n));
       chomp "3333333333333333|Cy|cy@example.com|2024-05-01T10:00:00Z|third"].
    rewrite chomp_filler. reflexivity.
  - unfold five_fields. rewrite cut_filler. reflexivity.
  - rewrite parseCommits_run, Hlines. unfold value_of.
    change (scanned ?l)
      with (scanned (["1111111111111111|Ada|ada@example.com|2024-05-01T10:00:00Z|first"]
                     ++ filler (S n)
                        :: ["3333333333333333|Cy|cy@example.com|2024-05-01T10:00:00Z|third";
                            ""])).
    rewrite (scanned_too_long
               ["1111111111111111|Ada|ada@example.com|2024-05-01T10:00:00Z|first"]
               (filler (S n))).
    + reflexivity.
    + repeat constructor.
    + unfold fits. rewrite length_filler. lia.
Qed.

(** C8, as stated, fails for a malformed line that does not fit the buffer
    of the scanner: the line of [long_line_log] that has fewer than five
    fields ends the parsing with an error, and the record after it is
    lost. A short line in its place is skipped, and the record is read. *)
Lemma C8_counterexample :
  let out := toy (fun _ => inl "") (inl "") (inl []) [] in
  let r := run (git.parseCommits out long_line_log "/home/ada/projects/cra") 0 in
  let r' := run (git.parseCommits out (log_around "garbage|line") "/home/ada/projects/cra") 0 in
  text_lines long_line_log
  = ["1111111111111111|Ada|ada@example.com|2024-05-01T10:00:00Z|first";
     filler (N.to_nat 65536);
     "3333333333333333|Cy|cy@example.com|2024-05-01T10:00:00Z|third"]
  /\ five_fields (filler (N.to_nat 65536)) = None
  /\ map Commit.Message (fst (value_of r)) = ["first"]
  /\ snd (value_of r) = Some ErrTooLong
  /\ map Commit.Message (fst (value_of r')) = ["first"; "third"]
  /\ snd (value_of r') = None.
Proof.
  cbv zeta. unfold long_line_log.
  assert (Hn : (65536 <= N.of_nat (N.to_nat 65536))%N) by (rewrite N2Nat.id; lia).
  destruct (parseCommits_long_line (toy (fun _ => inl "") (inl "") (inl []) [])
              "/home/ada/projects/cra" 0 (N.to_nat 65536) Hn) as (Hlines & Hfields & Hvalue).
  generalize dependent (N.to_nat 65536). intros n _ Hlines Hfields Hvalue.
  split; [exact Hlines|]. split; [exact Hfields|].
  rewrite Hvalue. repeat split; vm_compute; reflexivity.
Qed.

(** ** Trimming *)

Lemma length_head_bytes (n : nat) (s : string) :
  String.length (head_bytes n s) = Nat.min n (String.length s).
Proof.
  revert s. induction n as [|n IH]; intros s; [reflexivity|].
  destruct s as [|c s]; [reflexivity|]. simpl. rewrite IH. reflexivity.
Qed.

Lemma skip_bytes_app_more (k : nat) (y z : string) :
  skip_bytes (String.length y + k) (y +:+ z) = skip_bytes k z.
Proof. induction y as [|c y IH]; [reflexivity|exact IH]. Qed.

Lemma head_bytes_cons_app (k : nat) (y z : string) :
  head_bytes (String.length y + k) (y +:+ z) = y +:+ head_bytes k z.
Proof.
  induction y as [|c y IH]; [reflexivity|].
  rewrite app_cons. simpl. rewrite IH. reflexivity.
Qed.

Lemma solid_space_width (c : ascii) (t : string) :
  solid c = true -> space_width (String c t) = 0.
Proof.
  unfold solid, space_width. intros H.
  apply andb_true_iff in H as [H _]. apply andb_true_iff in H as [Hlt Hsp].
  apply negb_true_iff in Hsp. rewrite Hsp. apply Nat.ltb_lt in Hlt.
  assert (H194 : (code c =? 194) = false) by (apply Nat.eqb_neq; lia).
  assert (H225 : (code c =? 225) = false) by (apply Nat.eqb_neq; lia).
  assert (H226 : (code c =? 226) = false) by (apply Nat.eqb_neq; lia).
  assert (H227 : (code c =? 227) = false) by (apply Nat.eqb_neq; lia).
  destruct t as [|d [|e t]]; [reflexivity|..]; rewrite H194; simpl; [reflexivity|].
  rewrite H225, H226, H227. reflexivity.
Qed.

Lemma isSpace_space_width (c : ascii) (t : string) :
  json.isSpace c = true -> space_width (String c t) = 1.
Proof.
  unfold json.isSpace, space_width. intros H.
  assert (Hc : code c = 32 \/ code c = 9 \/ code c = 13 \/ code c = 10).
  { repeat (apply orb_true_iff in H as [H|H]); apply Nat.eqb_eq in H; tauto. }
  destruct Hc as [-> | [-> | [-> | ->]]]; reflexivity.
Qed.

Lemma TrimLeftSpace_loop_step (fuel : nat) (s : string) :
  TrimLeftSpace_loop (S fuel) s
  = match space_width s with
    | O => s
    | S w => TrimLeftSpace_loop fuel (skip_bytes (S w) s)
    end.
Proof. reflexivity. Qed.

Lemma TrimRightSpace_loop_step (fuel : nat) (s : string) :
  TrimRightSpace_loop (S fuel) s
  = match space_width_last s with
    | O => s
    | S w => TrimRightSpace_loop fuel (head_bytes (String.length s - S w) s)
    end.
Proof. reflexivity. Qed.

Lemma TrimLeftSpace_loop_spaces (ws s : string) : forall fuel : nat,
  all_space ws = true -> space_width s = 0 -> String.length ws <= fuel ->
  TrimLeftSpace_loop fuel (ws +:+ s) = s.
Proof.
  induction ws as [|c ws IH]; intros fuel Hws Hs Hfuel.
  - change ("" +:+ s) with s. destruct fuel; [reflexivity|].
    rewrite TrimLeftSpace_loop_step, Hs. reflexivity.
  - simpl in Hws. apply andb_true_iff in Hws as [Hc Hws].
    destruct fuel as [|fuel]; [simpl in Hfuel; lia|].
    rewrite app_cons, TrimLeftSpace_loop_step, isSpace_space_width by exact Hc.
    change (skip_bytes 1 (String c (ws +:+ s))) with (ws +:+ s).
    apply IH; [assumption..|simpl in Hfuel; lia].
Qed.

Lemma TrimLeftSpace_spaces (ws s : string) :
  all_space ws = true -> space_width s = 0 -> TrimLeftSpace (ws +:+ s) = s.
Proof.
  intros Hws Hs. unfold TrimLeftSpace. apply TrimLeftSpace_loop_spaces; [assumption..|].
  rewrite length_app_s. lia.
Qed.

Lemma TrimLeftSpace_id (s : string) : space_width s = 0 -> TrimLeftSpace s = s.
Proof. intros Hs. apply (TrimLeftSpace_spaces "" s); [reflexivity|exact Hs]. Qed.

Lemma TrimRightSpace_loop_id (fuel : nat) (s : string) :
  space_width_last s = 0 -> TrimRightSpace_loop fuel s = s.
Proof.
  intros H. destruct fuel; [reflexivity|]. rewrite TrimRightSpace_loop_step, H. reflexivity.
Qed.

Lemma space_width_last_bound (s : string) :
  space_width_last s <= String.length s /\ space_width_last s <= 3.
Proof.
  unfold space_width_last.
  repeat match goal with
  | |- context [if ?b && ?e then _ else _] =>
      let H := fresh in
      destruct (b && e) eqn:H;
      [apply andb_true_iff in H as [H _]; apply Nat.leb_le in H; lia|]
  end.
  lia.
Qed.

(** What is left after trimming on the right does not end in white space. *)
Lemma TrimRightSpace_loop_done (fuel : nat) : forall s : string,
  String.length s <= fuel -> space_width_last (TrimRightSpace_loop fuel s) = 0.
Proof.
  induction fuel as [|fuel IH]; intros s Hlen.
  - destruct s; [reflexivity|simpl in Hlen; lia].
  - rewrite TrimRightSpace_loop_step.
    destruct (space_width_last s) as [|w] eqn:Hw; [exact Hw|].
    apply IH. rewrite length_head_bytes. lia.
Qed.

(** A solid first byte survives trimming on the right. *)
Lemma TrimRightSpace_loop_head (fuel : nat) (c : ascii) : forall rest : string,
  solid c = true ->
  exists rest', TrimRightSpace_loop fuel (String c rest) = String c rest'.
Proof.
  induction fuel as [|fuel IH]; intros rest Hc; [exists rest; reflexivity|].
  rewrite TrimRightSpace_loop_step.
  destruct (space_width_last (String c rest)) as [|w] eqn:Hw; [exists rest; reflexivity|].
  assert (Hlt : S w <= String.length rest).
  { pose proof (solid_space_width c rest Hc) as Hsolid.
    unfold space_width_last in Hw. simpl String.length in Hw.
    destruct (Nat.le_gt_cases (S w) (String.length rest)) as [?|Hshort]; [assumption|exfalso].
    repeat match type of Hw with
    | context [if ?b && (space_width (skip_bytes ?k ?s) =? ?n) then _ else _] =>
        let Hb := fresh "Hb" in
        destruct (b && (space_width (skip_bytes k s) =? n)) eqn:Hb;
        [apply andb_true_iff in Hb as [Hle Heq]; apply Nat.leb_le in Hle;
         apply Nat.eqb_eq in Heq; injection Hw as Hw; subst w;
         replace k with 0 in Heq by lia;
         change (skip_bytes 0 (String c rest)) with (String c rest) in Heq;
         rewrite Hsolid in Heq; discriminate|]
    end.
    discriminate. }
  simpl String.length.
  replace (S (String.length rest) - S w) with (S (String.length rest - S w)) by lia.
  simpl head_bytes. apply IH, Hc.
Qed.

Lemma TrimRightSpace_LF (s : string) : TrimRightSpace (s +:+ LF) = TrimRightSpace s.
Proof.
  unfold TrimRightSpace. rewrite length_app_s. simpl String.length.
  replace (String.length s + 1) with (S (String.length s)) by lia.
  rewrite TrimRightSpace_loop_step.
  assert (Hw : space_width_last (s +:+ LF) = 1).
  { unfold space_width_last. rewrite length_app_s. change (String.length LF) with 1.
    replace (String.length s + 1 - 1) with (String.length s + 0) by lia.
    rewrite skip_bytes_app_more. change (space_width (skip_bytes 0 LF)) with 1.
    replace (1 <=? String.length s + 1) with true by (symmetry; apply Nat.leb_le; lia).
    reflexivity. }
  rewrite Hw. rewrite length_app_s. change (String.length LF) with 1.
  replace (String.length s + 1 - 1) with (String.length s + 0) by lia.
  rewrite head_bytes_cons_app. change (head_bytes 0 LF) with "". rewrite app_empty_r.
  reflexivity.
Qed.

Lemma space_width_last_fence (y : string) : space_width_last (y +:+ "```") = 0.
Proof.
  unfold space_width_last. rewrite length_app_s. change (String.length "```") with 3.
  replace (String.length y + 3 - 1) with (String.length y + 2) by lia.
  replace (String.length y + 3 - 2) with (String.length y + 1) by lia.
  replace (String.length y + 3 - 3) with (String.length y + 0) by lia.
  rewrite !skip_bytes_app_more.
  change (space_width (skip_bytes 2 "```")) with 0.
  change (space_width (skip_bytes 1 "```")) with 0.
  change (space_width (skip_bytes 0 "```")) with 0.
  change (0 =? 1) with false. change (0 =? 2) with false. change (0 =? 3) with false.
  rewrite !andb_false_r. reflexivity.
Qed.

(** ** Fences *)

Lemma LastIndex_fence (x : string) : LastIndex (x +:+ "```") "```" = len x.
Proof.
  induction x as [|c x IH]; [reflexivity|].
  rewrite app_cons. simpl LastIndex. rewrite IH. unfold len. simpl String.length.
  destruct (Z.ltb_spec (Z.of_nat (String.length x)) 0); lia.
Qed.

Lemma strip_fence_fenced (opening body : string) :
  review.strip_fence (opening +:+ body +:+ "```") opening = body.
Proof.
  unfold review.strip_fence, TrimPrefix.
  assert (Hp : HasPrefix (opening +:+ body +:+ "```") opening = true)
    by (apply HasPrefix_spec; eexists; reflexivity).
  rewrite Hp, skip_bytes_app, LastIndex_fence. unfold len.
  destruct (Z.eqb_spec (Z.of_nat (String.length body)) (-1)) as [?|_]; [lia|].
  unfold slice_to. rewrite Nat2Z.id. apply head_bytes_app.
Qed.

Lemma skip_space_spec (J : string) :
  exists ws, J = ws +:+ json.skip_space J /\ all_space ws = true.
Proof.
  induction J as [|c J (ws & HJ & Hws)]; [exists ""; split; reflexivity|].
  simpl. destruct (json.isSpace c) eqn:Hc.
  - exists (String c ws). rewrite app_cons, <- HJ. split; [reflexivity|].
    simpl. rewrite Hc. exact Hws.
  - exists "". split; reflexivity.
Qed.

Lemma parse_value_solid (fuel : nat) (depth : N) (c : ascii) (s : string)
    (r : json.value * string) :
  json.parse_value fuel depth (String c s) = Some r -> solid c = true.
Proof.
  destruct fuel as [|fuel]; [discriminate|].
  destruct c as [[|] [|] [|] [|] [|] [|] [|] [|]]; try reflexivity; simpl; discriminate.
Qed.

(** A text that [json.Unmarshal] accepts is white space followed by a
    solid byte. *)
Lemma Unmarshal_shape (J : string) (out : ReviewOutput.t) :
  ReviewOutput.Unmarshal J ReviewOutput.zero = inl out ->
  exists ws c rest, J = ws +:+ String c rest /\ all_space ws = true /\ solid c = true.
Proof.
  unfold ReviewOutput.Unmarshal, json.parse. intros H.
  destruct (skip_space_spec J) as (ws & HJ & Hws).
  destruct (json.skip_space J) as [|c rest] eqn:Hskip.
  - simpl in H. discriminate.
  - destruct (json.parse_value _ 0 (String c rest)) as [r|] eqn:Hp; [|discriminate].
    exists ws, c, rest. split; [exact HJ|]. split; [exact Hws|].
    eapply parse_value_solid, Hp.
Qed.

Lemma solid_not_backquote (c : ascii) : solid c = true -> Ascii.eqb c "`" = false.
Proof.
  unfold solid. intros H. apply andb_true_iff in H as [_ H]. apply negb_true_iff in H.
  apply Nat.eqb_neq in H. apply Ascii.eqb_neq. intros ->. apply H. reflexivity.
Qed.

(** [parseResponse] on a text that starts, after white space, with a
    solid byte: no fence is removed, and the text is decoded as trimmed. *)
Lemma parseResponse_plain (ws rest : string) (c : ascii) :
  all_space ws = true -> solid c = true ->
  review.parseResponse (ws +:+ String c rest)
  = match ReviewOutput.Unmarshal (TrimRightSpace (String c rest)) ReviewOutput.zero with
    | inr err =>
        inr (Errorf ("failed to parse JSON: %w" +:+ LF +:+ "Response was: %s")
               [arg_error err; arg_string (TrimRightSpace (String c rest))])
    | inl output => inl output
    end.
Proof.
  intros Hws Hc. unfold review.parseResponse.
  assert (Htrim : TrimSpace (ws +:+ String c rest) = TrimRightSpace (String c rest)).
  { unfold TrimSpace. rewrite TrimLeftSpace_spaces; auto using solid_space_width. }
  rewrite Htrim.
  destruct (TrimRightSpace_loop_head (String.length (String c rest)) c rest Hc)
    as [rest' Hhead].
  fold (TrimRightSpace (String c rest)) in Hhead.
  assert (Hidem : TrimSpace (TrimRightSpace (String c rest)) = TrimRightSpace (String c rest)).
  { unfold TrimSpace. rewrite (TrimLeftSpace_id (TrimRightSpace (String c rest)))
      by (rewrite Hhead; apply solid_space_width, Hc).
    apply TrimRightSpace_loop_id. unfold TrimRightSpace at 1.
    apply TrimRightSpace_loop_done. lia. }
  assert (Hno : forall p, HasPrefix (TrimRightSpace (String c rest)) (String "`" p) = false).
  { intros p. rewrite Hhead. simpl. rewrite (solid_not_backquote c Hc). reflexivity. }
  change "```json" with (String "`" "``json"). rewrite Hno.
  change "```" with (String "`" "``"). rewrite Hno.
  rewrite Hidem. reflexivity.
Qed.

Lemma TrimSpace_fenced (body : string) :
  TrimSpace ("```" +:+ body +:+ "```") = "```" +:+ body +:+ "```".
Proof.
  unfold TrimSpace. rewrite TrimLeftSpace_id by reflexivity.
  apply TrimRightSpace_loop_id. rewrite <- app_assoc_s. apply space_width_last_fence.
Qed.

Lemma TrimSpace_lines (ws rest : string) (c : ascii) :
  all_space ws = true -> solid c = true ->
  TrimSpace (LF +:+ (ws +:+ String c rest) +:+ LF) = TrimRightSpace (String c rest).
Proof.
  intros Hws Hc. unfold TrimSpace.
  replace (LF +:+ (ws +:+ String c rest) +:+ LF)
    with ((LF +:+ ws) +:+ (String c rest +:+ LF))
    by (rewrite !app_assoc_s; reflexivity).
  rewrite TrimLeftSpace_spaces.
  - apply TrimRightSpace_LF.
  - simpl. exact Hws.
  - rewrite app_cons. apply solid_space_width, Hc.
Qed.

Lemma fenced_body (tag J : string) :
  fenced tag J = "```" +:+ (tag +:+ LF +:+ J +:+ LF) +:+ "```".
Proof. unfold fenced. rewrite !app_assoc_s. reflexivity. Qed.

(** C4, as the code has it. A well-formed review response parses the same
    when it is wrapped in a code block whose opening fence carries the tag
    [json] or no tag. *)
Theorem C4_fence_json_or_bare (J tag : string) (out : ReviewOutput.t) :
  ReviewOutput.Unmarshal J ReviewOutput.zero = inl out ->
  tag = "json" \/ tag = "" ->
  review.parseResponse (fenced tag J) = review.parseResponse J.
Proof.
  intros Hwf Htag.
  destruct (Unmarshal_shape J out Hwf) as (ws & c & rest & -> & Hws & Hc).
  rewrite parseResponse_plain by assumption.
  unfold review.parseResponse. rewrite fenced_body.
  rewrite (TrimSpace_fenced (tag +:+ LF +:+ (ws +:+ String c rest) +:+ LF)).
  destruct Htag as [-> | ->].
  - change (HasPrefix ("```" +:+ ("json" +:+ LF +:+ (ws +:+ String c rest) +:+ LF) +:+ "```")
              "```json") with true. cbv iota.
    change ("```" +:+ ("json" +:+ LF +:+ (ws +:+ String c rest) +:+ LF) +:+ "```")
      with ("```json" +:+ (LF +:+ (ws +:+ String c rest) +:+ LF) +:+ "```").
    rewrite strip_fence_fenced, TrimSpace_lines by assumption. reflexivity.
  - change (HasPrefix ("```" +:+ ("" +:+ LF +:+ (ws +:+ String c rest) +:+ LF) +:+ "```")
              "```json") with false. cbv iota.
    change (HasPrefix ("```" +:+ ("" +:+ LF +:+ (ws +:+ String c rest) +:+ LF) +:+ "```")
              "```") with true. cbv iota.
    change ("```" +:+ ("" +:+ LF +:+ (ws +:+ String c rest) +:+ LF) +:+ "```")
      with ("```" +:+ (LF +:+ (ws +:+ String c rest) +:+ LF) +:+ "```").
    rewrite strip_fence_fenced, TrimSpace_lines by assumption. reflexivity.
Qed.

Lemma C4_witness :
  review.parseResponse (fenced "json" clean_response) = review.parseResponse clean_response.
Proof.
  apply (C4_fence_json_or_bare clean_response "json" clean_output).
  - vm_compute. reflexivity.
  - left. reflexivity.
Defined.

(** C4, as stated, fails: a response wrapped in a code block whose fence
    carries another language tag is not parsed as the response is. *)
Lemma C4_counterexample :
  ReviewOutput.Unmarshal clean_response ReviewOutput.zero = inl clean_output
  /\ review.parseResponse clean_response = inl clean_output
  /\ review.parseResponse (fenced "javascript" clean_response)
     = inr (Errorf ("failed to parse JSON: %w" +:+ LF +:+ "Response was: %s")
              [arg_error SyntaxError; arg_string ("javascript" +:+ LF +:+ clean_response)])
  /\ review.parseResponse (fenced "javascript" clean_response)
     <> review.parseResponse clean_response.
Proof.
  assert (H1 : review.parseResponse clean_response = inl clean_output)
    by (vm_compute; reflexivity).
  assert (H2 : review.parseResponse (fenced "javascript" clean_response)
               = inr (Errorf ("failed to parse JSON: %w" +:+ LF +:+ "Response was: %s")
                        [arg_error SyntaxError;
                         arg_string ("javascript" +:+ LF +:+ clean_response)]))
    by (vm_compute; reflexivity).
  split; [vm_compute; reflexivity|]. split; [exact H1|]. split; [exact H2|].
  rewrite H1, H2. discriminate.
Qed.

(** ** Counting by severity *)

Lemma counts_sum (fs : list Finding.t) : forall h m l : Z,
  (Report.count_severity SeverityHigh fs h + Report.count_severity SeverityMedium fs m
   + Report.count_severity SeverityLow fs l + count_other fs
   = h + m + l + Z.of_nat (length fs))%Z.
Proof.
  induction fs as [|f fs IH]; intros h m l; [simpl; lia|].
  destruct f as [title sv repo files explanation action].
  cbn [Report.count_severity count_other length Finding.Severity].
  rewrite Nat2Z.inj_succ.
  destruct (String.eqb_spec sv SeverityHigh) as [->|_];
    [|destruct (String.eqb_spec sv SeverityMedium) as [->|_];
      [|destruct (String.eqb_spec sv SeverityLow) as [->|_]]];
    simpl;
    match goal with
    | |- (Report.count_severity _ fs ?a + Report.count_severity _ fs ?b
          + Report.count_severity _ fs ?c + _ = _)%Z => pose proof (IH a b c)
    end; lia.
Qed.

Lemma count_other_nonneg (fs : list Finding.t) : (0 <= count_other fs)%Z.
Proof.
  induction fs as [|f fs IH]; simpl; [lia|].
  destruct (_ || _); lia.
Qed.

Lemma enumerated_spec (sev : Severity) :
  String.eqb sev SeverityHigh || String.eqb sev SeverityMedium || String.eqb sev SeverityLow
  = true <-> enumerated sev.
Proof.
  unfold enumerated. rewrite !orb_true_iff, !String.eqb_eq. tauto.
Qed.

Lemma count_other_zero (fs : list Finding.t) :
  count_other fs = 0%Z <-> Forall (fun f => enumerated (Finding.Severity f)) fs.
Proof.
  induction fs as [|f fs IH]; [split; [constructor|reflexivity]|].
  pose proof (count_other_nonneg fs) as Hnn.
  pose proof (enumerated_spec (Finding.Severity f)) as Hf.
  cbn [count_other].
  destruct (String.eqb (Finding.Severity f) SeverityHigh
            || String.eqb (Finding.Severity f) SeverityMedium
            || String.eqb (Finding.Severity f) SeverityLow).
  - split.
    + intros H. constructor; [apply Hf; reflexivity|apply IH; lia].
    + intros H. inversion H as [|? ? _ Hfs]; subst. apply IH in Hfs. lia.
  - split; [lia|].
    intros H. inversion H as [|? ? Hen _]; subst. apply Hf in Hen. discriminate.
Qed.

(** ** Strings in JSON *)

Lemma escape_app (s t : string) : escape (s +:+ t) = escape s +:+ escape t.
Proof.
  induction s as [|c s IH]; [reflexivity|].
  rewrite app_cons. simpl. rewrite IH, app_assoc_s. reflexivity.
Qed.

Lemma escape_byte_high (c : ascii) : 128 <= code c -> escape_byte c = String c "".
Proof.
  intros Hc. unfold escape_byte, json.is_byte.
  destruct (Nat.eqb_spec (code c) 34); [lia|]. destruct (Nat.eqb_spec (code c) 92); [lia|].
  destruct (Nat.ltb_spec (code c) 32); [lia|]. reflexivity.
Qed.

Lemma continuation_high (c : ascii) : utf8.continuation c = true -> 128 <= code c.
Proof.
  unfold utf8.continuation, utf8.in_range. intros H.
  apply andb_true_iff in H as [H _]. apply Nat.leb_le in H. exact H.
Qed.

(** A control character is read back from its escape. *)
Lemma hex4_control (c : ascii) (tail : string) :
  (code c <? 32) = true ->
  json.hex4 (String "0" (String "0" (String (hex (code c / 16))
                                       (String (hex (code c mod 16)) tail))))
  = Some (Z.of_nat (code c), tail)
  /\ json.is_surrogate (Z.of_nat (code c)) = false
  /\ utf8.Encode (Z.of_nat (code c)) = String c "".
Proof.
  destruct c as [[|] [|] [|] [|] [|] [|] [|] [|]]; intros H; try discriminate H;
    repeat split; reflexivity.
Qed.

(** The encoding at the head of a text that starts with a byte that is
    written as it is: its bytes are written as they are, and it is
    recognised whatever follows. *)
Lemma valid_width_chunk (c : ascii) (s : string) :
  (json.is_byte c 34 || json.is_byte c 92) = false ->
  (code c <? 32) = false ->
  utf8.valid_width (String c s) <> 0 ->
  exists chunk rest,
    String c s = chunk +:+ rest
    /\ String.length chunk = utf8.valid_width (String c s)
    /\ escape chunk = chunk
    /\ (exists chunk', chunk = String c chunk')
    /\ forall t, utf8.valid_width (chunk +:+ t) = utf8.valid_width (String c s).
Proof.
  intros Hq Hctl. unfold utf8.valid_width. cbv zeta.
  assert (Hself : escape_byte c = String c "")
    by (unfold escape_byte; rewrite Hq, Hctl; reflexivity).
  destruct (code c <? 128) eqn:H128.
  { intros _. exists (String c ""), s. repeat split.
    - simpl. rewrite Hself. reflexivity.
    - exists "". reflexivity.
    - intros t. simpl. rewrite H128. reflexivity. }
  apply Nat.ltb_ge in H128.
  destruct ((code c <? 194) || (244 <? code c)) eqn:Hlead; [congruence|].
  destruct s as [|c1 s]; [congruence|].
  assert (Hc : escape_byte c = String c "") by (apply escape_byte_high; lia).
  destruct (code c <? 224) eqn:H224.
  { destruct (utf8.continuation c1) eqn:Hc1; [|congruence]. intros _.
    exists (String c (String c1 "")), s. repeat split.
    - simpl. rewrite Hc, (escape_byte_high c1) by (apply continuation_high, Hc1).
      reflexivity.
    - exists (String c1 ""). reflexivity.
    - intros t. simpl. destruct (code c <? 128) eqn:H; [apply Nat.ltb_lt in H; lia|].
      rewrite Hlead, H224, Hc1. reflexivity. }
  set (lo := if code c =? 224 then 160 else if code c =? 240 then 144 else 128).
  set (hi := if code c =? 237 then 159 else if code c =? 244 then 143 else 191).
  assert (Hlo : 128 <= lo)
    by (unfold lo; destruct (code c =? 224); [lia|]; destruct (code c =? 240); lia).
  destruct (utf8.in_range lo hi c1) eqn:Hc1; [|simpl; congruence]. simpl negb. cbv iota.
  assert (Hh1 : 128 <= code c1).
  { unfold utf8.in_range in Hc1. apply andb_true_iff in Hc1 as [H _].
    apply Nat.leb_le in H. lia. }
  destruct s as [|c2 s]; [congruence|].
  destruct (utf8.continuation c2) eqn:Hc2; [|simpl; congruence]. simpl negb. cbv iota.
  destruct (code c <? 240) eqn:H240.
  { intros _. exists (String c (String c1 (String c2 ""))), s. repeat split.
    - simpl. rewrite Hc, (escape_byte_high c1), (escape_byte_high c2)
        by first [assumption | apply continuation_high; assumption].
      reflexivity.
    - exists (String c1 (String c2 "")). reflexivity.
    - intros t. simpl. destruct (code c <? 128) eqn:H; [apply Nat.ltb_lt in H; lia|].
      rewrite Hlead, H224. fold lo hi. rewrite Hc1, Hc2, H240. reflexivity. }
  destruct s as [|c3 s]; [congruence|].
  destruct (utf8.continuation c3) eqn:Hc3; [|congruence]. intros _.
  exists (String c (String c1 (String c2 (String c3 "")))), s. repeat split.
  - simpl. rewrite Hc, (escape_byte_high c1), (escape_byte_high c2), (escape_byte_high c3)
      by first [assumption | apply continuation_high; assumption].
    reflexivity.
  - exists (String c1 (String c2 (String c3 ""))). reflexivity.
  - intros t. simpl. destruct (code c <? 128) eqn:H; [apply Nat.ltb_lt in H; lia|].
    rewrite Hlead, H224. fold lo hi. rewrite Hc1, Hc2, H240, Hc3. reflexivity.
Qed.

(** The parser on a backslash followed by a double quote or a backslash. *)
Lemma parse_string_escaped (fuel : nat) (c : ascii) (s : string) :
  (json.is_byte c 34 || json.is_byte c 92) = true ->
  json.parse_string (S fuel) (String "\" (String c s))
  = match json.parse_string fuel s with
    | Some (str, r) => Some (String c str, r)
    | None => None
    end.
Proof.
  intros Hc. rewrite !is_byte_eq in Hc by lia.
  apply orb_true_iff in Hc as [Hc|Hc]; apply Ascii.eqb_eq in Hc; subst c; reflexivity.
Qed.

(** The parser on the escape of a control character. *)
Lemma parse_string_control (fuel : nat) (c : ascii) (s : string) :
  (code c <? 32) = true ->
  json.parse_string (S fuel)
    ("\u00" +:+ String (hex (code c / 16)) (String (hex (code c mod 16)) s))
  = match json.parse_string fuel s with
    | Some (str, r) => Some (String c str, r)
    | None => None
    end.
Proof.
  intros Hc. destruct (hex4_control c s Hc) as (Hhex & Hsur & Henc).
  change (json.parse_string (S fuel)
            ("\u00" +:+ String (hex (code c / 16)) (String (hex (code c mod 16)) s)))
    with (match json.hex4 (String "0" (String "0" (String (hex (code c / 16))
                                                   (String (hex (code c mod 16)) s)))) with
          | None => None
          | Some (r1, s3) =>
              if json.is_surrogate r1 then
                match json.getu4 s3 with
                | Some (r2, s4) =>
                    match json.decode_pair r1 r2 with
                    | Some r =>
                        match json.parse_string fuel s4 with
                        | Some (str, r') => Some (utf8.Encode r +:+ str, r')
                        | None => None
                        end
                    | None =>
                        match json.parse_string fuel s3 with
                        | Some (str, r') => Some (utf8.RuneError +:+ str, r')
                        | None => None
                        end
                    end
                | None =>
                    match json.parse_string fuel s3 with
                    | Some (str, r') => Some (utf8.RuneError +:+ str, r')
                    | None => None
                    end
                end
              else
                match json.parse_string fuel s3 with
                | Some (str, r') => Some (utf8.Encode r1 +:+ str, r')
                | None => None
                end
          end).
  rewrite Hhex, Hsur, Henc. reflexivity.
Qed.

(** The parser on an encoding that is written as it is. *)
Lemma parse_string_chunk (fuel : nat) (c : ascii) (chunk' s : string) :
  (json.is_byte c 34 || json.is_byte c 92) = false ->
  (code c <? 32) = false ->
  utf8.valid_width (String c chunk' +:+ s) = String.length (String c chunk') ->
  json.parse_string (S fuel) (String c chunk' +:+ s)
  = match json.parse_string fuel s with
    | Some (str, r) => Some (String c chunk' +:+ str, r)
    | None => None
    end.
Proof.
  intros Hq Hctl Hw. apply orb_false_iff in Hq as [H34 H92].
  rewrite app_cons in *.
  change (json.parse_string (S fuel) (String c (chunk' +:+ s)))
    with (if json.is_byte c 34 then Some (EmptyString, chunk' +:+ s)
          else if json.is_byte c 92 then
            match chunk' +:+ s with
            | EmptyString => None
            | String e s'' =>
                match json.simple_escape e with
                | Some x =>
                    match json.parse_string fuel s'' with
                    | Some (str, r) => Some (String x EmptyString +:+ str, r)
                    | None => None
                    end
                | None =>
                    if json.is_byte e 117 then
                      match json.hex4 s'' with
                      | None => None
                      | Some (r1, s3) =>
                          if json.is_surrogate r1 then
                            match json.getu4 s3 with
                            | Some (r2, s4) =>
                                match json.decode_pair r1 r2 with
                                | Some r =>
                                    match json.parse_string fuel s4 with
                                    | Some (str, r') => Some (utf8.Encode r +:+ str, r')
                                    | None => None
                                    end
                                | None =>
                                    match json.parse_string fuel s3 with
                                    | Some (str, r') => Some (utf8.RuneError +:+ str, r')
                                    | None => None
                                    end
                                end
                            | None =>
                                match json.parse_string fuel s3 with
                                | Some (str, r') => Some (utf8.RuneError +:+ str, r')
                                | None => None
                                end
                            end
                          else
                            match json.parse_string fuel s3 with
                            | Some (str, r') => Some (utf8.Encode r1 +:+ str, r')
                            | None => None
                            end
                      end
                    else None
                end
            end
          else if code c <? 32 then None
          else
            match utf8.valid_width (String c (chunk' +:+ s)) with
            | O =>
                match json.parse_string fuel (chunk' +:+ s) with
                | Some (str, r) => Some (utf8.RuneError +:+ str, r)
                | None => None
                end
            | w =>
                match json.parse_string fuel
                        (skip_bytes w (String c (chunk' +:+ s))) with
                | Some (str, r) => Some (head_bytes w (String c (chunk' +:+ s)) +:+ str, r)
                | None => None
                end
            end).
  rewrite H34, H92, Hctl, Hw.
  change (String.length (String c chunk')) with (S (String.length chunk')).
  cbv iota zeta.
  change (skip_bytes (S (String.length chunk')) (String c (chunk' +:+ s)))
    with (skip_bytes (String.length chunk') (chunk' +:+ s)).
  change (head_bytes (S (String.length chunk')) (String c (chunk' +:+ s)))
    with (String c (head_bytes (String.length chunk') (chunk' +:+ s))).
  rewrite skip_bytes_app, head_bytes_app. reflexivity.
Qed.

Lemma length_escape_byte (c : ascii) : 1 <= String.length (escape_byte c).
Proof.
  unfold escape_byte. destruct (_ || _); [simpl; lia|].
  destruct (code c <? 32); simpl; lia.
Qed.

(** A JSON string is read back as the text it stands for. *)
Lemma parse_string_escape (n : nat) : forall (sev rest : string) (fuel : nat),
  valid_from n sev = true ->
  String.length (escape sev) < fuel ->
  json.parse_string fuel (escape sev +:+ String (byte 34) rest) = Some (sev, rest).
Proof.
  induction n as [|n IH]; intros sev rest fuel Hv Hlen.
  - destruct sev; [|discriminate]. destruct fuel; [simpl in Hlen; lia|]. reflexivity.
  - destruct sev as [|c sev]; [destruct fuel; [simpl in Hlen; lia|]; reflexivity|].
    destruct fuel as [|fuel]; [lia|].
    change (valid_from (S n) (String c sev))
      with (match utf8.valid_width (String c sev) with
            | O => false
            | w => valid_from n (skip_bytes w (String c sev))
            end) in Hv.
    change (escape (String c sev)) with (escape_byte c +:+ escape sev) in *.
    rewrite length_app_s in Hlen. pose proof (length_escape_byte c) as Hone.
    destruct (json.is_byte c 34 || json.is_byte c 92) eqn:Hq.
    { (* the double quote and the backslash *)
      assert (Hw : utf8.valid_width (String c sev) = 1).
      { rewrite !is_byte_eq in Hq by lia.
        apply orb_true_iff in Hq as [Hq|Hq]; apply Ascii.eqb_eq in Hq; subst c; reflexivity. }
      rewrite Hw in Hv. unfold escape_byte in *. rewrite Hq in *.
      rewrite app_assoc_s, !app_cons.
      change ("" +:+ escape sev +:+ String (byte 34) rest)
        with (escape sev +:+ String (byte 34) rest).
      rewrite parse_string_escaped by exact Hq.
      rewrite IH; [reflexivity|exact Hv|simpl in Hlen; lia]. }
    destruct (code c <? 32) eqn:Hctl.
    { (* a control character *)
      assert (Hw : utf8.valid_width (String c sev) = 1).
      { unfold utf8.valid_width. apply Nat.ltb_lt in Hctl.
        destruct (Nat.ltb_spec (code c) 128); [reflexivity|lia]. }
      rewrite Hw in Hv. unfold escape_byte in *. rewrite Hq, Hctl in *.
      rewrite !app_assoc_s.
      change ((String (hex (code c / 16)) (String (hex (code c mod 16)) ""))
              +:+ escape sev +:+ String (byte 34) rest)
        with (String (hex (code c / 16))
                (String (hex (code c mod 16)) (escape sev +:+ String (byte 34) rest))).
      rewrite parse_string_control by exact Hctl.
      rewrite IH; [reflexivity|exact Hv|simpl in Hlen; lia]. }
    (* an encoding written as it is *)
    destruct (utf8.valid_width (String c sev)) as [|w] eqn:Hw; [discriminate|].
    destruct (valid_width_chunk c sev Hq Hctl) as (chunk & tail & Hsev & Hlc & Hesc & [chunk' ->] & Hany);
      [congruence|].
    rewrite Hw in Hlc.
    assert (Hwhole : escape_byte c +:+ escape sev = String c chunk' +:+ escape tail).
    { change (escape_byte c +:+ escape sev) with (escape (String c sev)).
      rewrite Hsev, escape_app, Hesc. reflexivity. }
    pose proof (f_equal String.length Hwhole) as Hl. rewrite !length_app_s in Hl.
    simpl in Hl. rewrite Hwhole, app_assoc_s.
    rewrite parse_string_chunk; [|exact Hq|exact Hctl|rewrite Hany, Hw, Hlc; reflexivity].
    rewrite Hsev, <- Hlc, skip_bytes_app in Hv.
    rewrite IH; [rewrite Hsev; reflexivity|exact Hv|lia].
Qed.

Lemma lit_app (p tail : string) : lit p tail = p +:+ tail.
Proof. induction p as [|c p IH]; [reflexivity|]. simpl. rewrite IH. reflexivity. Qed.

(** A JSON string as a value. *)
Lemma parse_value_quoted (fuel : nat) (depth : N) (sev rest : string) :
  ValidString sev = true ->
  json.parse_value (S fuel) depth (quoted sev +:+ rest) = Some (json.Str sev, rest).
Proof.
  intros Hv. unfold quoted. rewrite app_cons, app_assoc_s, app_cons.
  change ("" +:+ rest) with rest.
  change (json.parse_value (S fuel) depth
            (String (byte 34) (escape sev +:+ String (byte 34) rest)))
    with (match json.parse_string
                  (String.length (String (byte 34) (escape sev +:+ String (byte 34) rest)))
                  (escape sev +:+ String (byte 34) rest) with
          | Some (str, r) => Some (json.Str str, r)
          | None => None
          end).
  rewrite (parse_string_escape (String.length sev)); [reflexivity|exact Hv|].
  simpl. rewrite length_app_s. lia.
Qed.

Lemma quoted_app (s r : string) :
  quoted s +:+ r = String (byte 34) (escape s +:+ String (byte 34) r).
Proof. unfold quoted. rewrite app_cons, app_assoc_s, app_cons. reflexivity. Qed.

(** A member of an object: the key, the colon, a blank and the value. *)
Lemma parse_members_member (fuel : nat) (depth : N) (key s2 : string) (v : json.value)
    (after : string) :
  ValidString key = true ->
  json.skip_space s2 = s2 ->
  json.parse_value fuel depth s2 = Some (v, after) ->
  json.parse_members (S fuel) depth (quoted key +:+ String ":" (String " " s2))
  = match json.skip_space after with
    | String d s4 =>
        if json.is_byte d 125 then Some ([(key, v)], s4)
        else if json.is_byte d 44 then
          match json.parse_members fuel depth (json.skip_space s4) with
          | Some (ms, r) => Some ((key, v) :: ms, r)
          | None => None
          end
        else None
    | EmptyString => None
    end.
Proof.
  intros Hkey Hspace Hvalue. rewrite quoted_app.
  set (s0 := escape key +:+ String (byte 34) (String ":" (String " " s2))).
  change (json.parse_members (S fuel) depth (String (byte 34) s0))
    with (match json.parse_string (String.length (String (byte 34) s0)) s0 with
          | None => None
          | Some (key, s1) =>
              match json.skip_space s1 with
              | String colon s2 =>
                  if json.is_byte colon 58 then
                    match json.parse_value fuel depth (json.skip_space s2) with
                    | None => None
                    | Some (v, s3) =>
                        match json.skip_space s3 with
                        | String d s4 =>
                            if json.is_byte d 125 then Some ([(key, v)], s4)
                            else if json.is_byte d 44 then
                              match json.parse_members fuel depth (json.skip_space s4) with
                              | Some (ms, r) => Some ((key, v) :: ms, r)
                              | None => None
                              end
                            else None
                        | EmptyString => None
                        end
                    end
                  else None
              | EmptyString => None
              end
          end).
  unfold s0. rewrite (parse_string_escape (String.length key));
    [|exact Hkey|simpl; rewrite length_app_s; lia].
  change (json.skip_space (String ":" (String " " s2))) with (String ":" (String " " s2)).
  cbv beta iota. change (json.is_byte ":" 58) with true. cbv iota.
  change (json.skip_space (String " " s2)) with (json.skip_space s2).
  rewrite Hspace, Hvalue. reflexivity.
Qed.

(** An object with members, and an array with elements. *)
Lemma parse_value_object (fuel : nat) (depth : N) (s : string) :
  (json.maxNestingDepth <=? depth)%N = false ->
  json.parse_value (S fuel) depth (String "{" (String (byte 34) s))
  = match json.parse_members fuel (depth + 1)%N (String (byte 34) s) with
    | Some (ms, r) => Some (json.Object ms, r)
    | None => None
    end.
Proof.
  intros Hdepth.
  change (json.parse_value (S fuel) depth (String "{" (String (byte 34) s)))
    with (if (json.maxNestingDepth <=? depth)%N then None
          else match json.parse_members fuel (depth + 1)%N (String (byte 34) s) with
               | Some (ms, r) => Some (json.Object ms, r)
               | None => None
               end).
  rewrite Hdepth. reflexivity.
Qed.

Lemma parse_value_array (fuel : nat) (depth : N) (s : string) :
  (json.maxNestingDepth <=? depth)%N = false ->
  json.parse_value (S (S fuel)) depth (String "[" (String "{" s))
  = match json.parse_value fuel (depth + 1)%N (String "{" s) with
    | None => None
    | Some (v, s1) =>
        match json.skip_space s1 with
        | String d s2 =>
            if json.is_byte d 93 then Some (json.Array [v], s2)
            else if json.is_byte d 44 then
              match json.parse_elements fuel (depth + 1)%N (json.skip_space s2) with
              | Some (vs, r) => Some (json.Array (v :: vs), r)
              | None => None
              end
            else None
        | EmptyString => None
        end
    end.
Proof.
  intros Hdepth.
  change (json.parse_value (S (S fuel)) depth (String "[" (String "{" s)))
    with (if (json.maxNestingDepth <=? depth)%N then None
          else match
                 match json.parse_value fuel (depth + 1)%N (String "{" s) with
                 | None => None
                 | Some (v, s1) =>
                     match json.skip_space s1 with
                     | String d s2 =>
                         if json.is_byte d 93 then Some ([v], s2)
                         else if json.is_byte d 44 then
                           match json.parse_elements fuel (depth + 1)%N
                                   (json.skip_space s2) with
                           | Some (vs, r) => Some (v :: vs, r)
                           | None => None
                           end
                         else None
                     | EmptyString => None
                     end
                 end
               with
               | Some (vs, r) => Some (json.Array vs, r)
               | None => None
               end).
  rewrite Hdepth.
  destruct (json.parse_value fuel (depth + 1)%N (String "{" s)) as [[v s1]|]; [|reflexivity].
  destruct (json.skip_space s1) as [|d s2]; [reflexivity|].
  destruct (json.is_byte d 93); [reflexivity|].
  destruct (json.is_byte d 44); [|reflexivity].
  destruct (json.parse_elements fuel (depth + 1)%N (json.skip_space s2)) as [[vs r]|];
    reflexivity.
Qed.

(** The text of a response with one finding, in its parts. *)
Lemma response_of_parts (sev : string) :
  response_of sev
  = String "{"
      (quoted "summary" +:+ String ":" (String " "
      (quoted "ok" +:+ String "," (String " "
      (quoted "findings" +:+ String ":" (String " "
      (String "[" (String "{"
      (quoted "title" +:+ String ":" (String " "
      (quoted "x" +:+ String "," (String " "
      (quoted "severity" +:+ String ":" (String " "
      (quoted sev +:+ "}]}"))))))))))))))).
Proof. reflexivity. Qed.

Lemma parse_members_last (fuel : nat) (depth : N) (key s2 : string) (v : json.value)
    (rest : string) :
  ValidString key = true ->
  json.skip_space s2 = s2 ->
  json.parse_value fuel depth s2 = Some (v, String "}" rest) ->
  json.parse_members (S fuel) depth (quoted key +:+ String ":" (String " " s2))
  = Some ([(key, v)], rest).
Proof.
  intros Hkey Hspace Hvalue.
  rewrite (parse_members_member fuel depth key s2 v _ Hkey Hspace Hvalue). reflexivity.
Qed.

Lemma parse_members_more (fuel : nat) (depth : N) (key s2 : string) (v : json.value)
    (more : string) (ms : list (string * json.value)) (r : string) :
  ValidString key = true ->
  json.skip_space s2 = s2 ->
  json.parse_value fuel depth s2 = Some (v, String "," (String " " (String (byte 34) more))) ->
  json.parse_members fuel depth (String (byte 34) more) = Some (ms, r) ->
  json.parse_members (S fuel) depth (quoted key +:+ String ":" (String " " s2))
  = Some ((key, v) :: ms, r).
Proof.
  intros Hkey Hspace Hvalue Hmore.
  rewrite (parse_members_member fuel depth key s2 v _ Hkey Hspace Hvalue).
  change (json.skip_space (String "," (String " " (String (byte 34) more))))
    with (String "," (String " " (String (byte 34) more))).
  cbv beta iota. change (json.is_byte "," 125) with false. change (json.is_byte "," 44) with true.
  cbv iota.
  change (json.skip_space (String " " (String (byte 34) more))) with (String (byte 34) more).
  rewrite Hmore. reflexivity.
Qed.

Lemma parse_value_members (fuel : nat) (depth : N) (s : string)
    (ms : list (string * json.value)) (r : string) :
  (json.maxNestingDepth <=? depth)%N = false ->
  json.parse_members fuel (depth + 1)%N (String (byte 34) s) = Some (ms, r) ->
  json.parse_value (S fuel) depth (String "{" (String (byte 34) s))
  = Some (json.Object ms, r).
Proof. intros Hdepth Hms. rewrite parse_value_object, Hms by exact Hdepth. reflexivity. Qed.

Lemma parse_value_element (fuel : nat) (depth : N) (s : string) (v : json.value)
    (rest : string) :
  (json.maxNestingDepth <=? depth)%N = false ->
  json.parse_value fuel (depth + 1)%N (String "{" s) = Some (v, String "]" rest) ->
  json.parse_value (S (S fuel)) depth (String "[" (String "{" s))
  = Some (json.Array [v], rest).
Proof. intros Hdepth Hv. rewrite parse_value_array, Hv by exact Hdepth. reflexivity. Qed.

(** The tree of a response with one finding. *)
Lemma parse_response_of (sev : string) :
  ValidString sev = true ->
  json.parse (response_of sev)
  = Some (json.Object
            [("summary", json.Str "ok");
             ("findings",
              json.Array [json.Object [("title", json.Str "x");
                                       ("severity", json.Str sev)]])]).
Proof.
  intros Hsev. rewrite response_of_parts.
  match goal with |- json.parse ?t = _ => set (T := t) end.
  assert (Hvalue : forall fuel,
            json.parse_value (9 + fuel) 0 T
            = Some (json.Object
                      [("summary", json.Str "ok");
                       ("findings",
                        json.Array [json.Object [("title", json.Str "x");
                                                 ("severity", json.Str sev)]])], "")).
  { intros fuel. unfold T.
    apply parse_value_members; [reflexivity|].
    eapply (parse_members_more _ _ "summary"); [reflexivity|reflexivity|..].
    { apply (parse_value_quoted _ _ "ok"). reflexivity. }
    apply (parse_members_last _ _ "findings"); [reflexivity|reflexivity|].
    apply parse_value_element; [reflexivity|].
    apply parse_value_members; [reflexivity|].
    eapply (parse_members_more _ _ "title"); [reflexivity|reflexivity|..].
    { apply (parse_value_quoted _ _ "x"). reflexivity. }
    apply (parse_members_last _ _ "severity"); [reflexivity|reflexivity|].
    apply parse_value_quoted, Hsev. }
  unfold json.parse.
  change (json.skip_space T) with T.
  change (S (String.length T)) with (9 + (String.length (skip_bytes 8 T))).
  rewrite Hvalue. reflexivity.
Qed.

Lemma space_width_last_closing (y : string) : space_width_last (y +:+ "}]}") = 0.
Proof.
  unfold space_width_last. rewrite length_app_s. change (String.length "}]}") with 3.
  replace (String.length y + 3 - 1) with (String.length y + 2) by lia.
  replace (String.length y + 3 - 2) with (String.length y + 1) by lia.
  replace (String.length y + 3 - 3) with (String.length y + 0) by lia.
  rewrite !skip_bytes_app_more.
  change (space_width (skip_bytes 2 "}]}")) with 0.
  change (space_width (skip_bytes 1 "}]}")) with 0.
  change (space_width (skip_bytes 0 "}]}")) with 0.
  change (0 =? 1) with false. change (0 =? 2) with false. change (0 =? 3) with false.
  rewrite !andb_false_r. reflexivity.
Qed.

(** [parseResponse] takes the severity of a finding as it is written,
    whatever it is. *)
Lemma parseResponse_response_of (sev : string) :
  ValidString sev = true ->
  review.parseResponse (response_of sev)
  = inl (ReviewOutput.mk "ok" [Finding.mk "x" sev "" [] "" ""]).
Proof.
  intros Hsev.
  assert (Htrim : TrimRightSpace (response_of sev) = response_of sev).
  { unfold response_of. rewrite lit_app, <- app_assoc_s.
    apply TrimRightSpace_loop_id, space_width_last_closing. }
  pose proof (parseResponse_plain "" (skip_bytes 1 (response_of sev)) "{" eq_refl eq_refl)
    as Hplain.
  change ("" +:+ String "{" (skip_bytes 1 (response_of sev))) with (response_of sev) in Hplain.
  change (String "{" (skip_bytes 1 (response_of sev))) with (response_of sev) in Hplain.
  rewrite Hplain, Htrim. unfold ReviewOutput.Unmarshal.
  rewrite parse_response_of by exact Hsev. reflexivity.
Qed.

(** C10. The three severity counters add up to the number of findings
    exactly when every severity is High, Medium or Low; they count the
    findings less those of another severity, so one such finding makes the
    sum smaller than the total. Nothing checks the severity of a parsed
    finding: for every text [sev] that is well-formed UTF-8 (a decoded JSON
    string is nothing else), [parseResponse] accepts the response whose
    finding has the severity [sev] and returns the finding with that
    severity; when [sev] is none of the three, the counters of its report
    add up to 0 of 1 finding. *)
Theorem C10_severity_not_validated {Time : Type} (r : Report.t Time) (sev : string) :
  ((Report.HighCount r + Report.MediumCount r + Report.LowCount r = Report.TotalFindings r)%Z
   <-> Forall (fun f => enumerated (Finding.Severity f)) (Report.Findings r))
  /\ (Report.HighCount r + Report.MediumCount r + Report.LowCount r
      = Report.TotalFindings r - count_other (Report.Findings r))%Z
  /\ (Exists (fun f => ~ enumerated (Finding.Severity f)) (Report.Findings r) ->
      (Report.HighCount r + Report.MediumCount r + Report.LowCount r
       < Report.TotalFindings r)%Z)
  /\ (ValidString sev = true ->
      review.parseResponse (response_of sev)
      = inl (ReviewOutput.mk "ok" [Finding.mk "x" sev "" [] "" ""])
      /\ (~ enumerated sev ->
          let rpt := report_of (ReviewOutput.mk "ok" [Finding.mk "x" sev "" [] "" ""]) in
          (Report.HighCount rpt + Report.MediumCount rpt + Report.LowCount rpt = 0
           /\ Report.TotalFindings rpt = 1)%Z)).
Proof.
  pose proof (counts_sum (Report.Findings r) 0 0 0) as Hsum.
  pose proof (count_other_nonneg (Report.Findings r)) as Hnn.
  pose proof (count_other_zero (Report.Findings r)) as Hzero.
  unfold Report.HighCount, Report.MediumCount, Report.LowCount, Report.TotalFindings.
  split; [|split; [|split]].
  - rewrite <- Hzero. lia.
  - lia.
  - intros Hex.
    assert (count_other (Report.Findings r) <> 0%Z); [|lia].
    intros H0. apply Hzero in H0. apply Exists_exists in Hex as (f & Hin & Hf).
    rewrite Forall_forall in H0. apply Hf, H0, Hin.
  - intros Hsev. split; [apply parseResponse_response_of, Hsev|].
    intros Hother. cbv zeta. unfold report_of. simpl Report.Findings.
    pose proof (enumerated_spec sev) as Hspec.
    cbn [Report.count_severity Finding.Severity length].
    destruct (String.eqb sev SeverityHigh) eqn:HH;
      [exfalso; apply Hother, Hspec; reflexivity|].
    destruct (String.eqb sev SeverityMedium) eqn:HM;
      [exfalso; apply Hother, Hspec; reflexivity|].
    destruct (String.eqb sev SeverityLow) eqn:HL;
      [exfalso; apply Hother, Hspec; rewrite orb_true_r; reflexivity|].
    split; reflexivity.
Qed.

Lemma C10_witness :
  review.parseResponse (response_of "Blocker")
  = inl (ReviewOutput.mk "ok" [Finding.mk "x" "Blocker" "" [] "" ""])
  /\ (let rpt := report_of (ReviewOutput.mk "ok" [Finding.mk "x" "Blocker" "" [] "" ""]) in
      (Report.HighCount rpt + Report.MediumCount rpt + Report.LowCount rpt = 0
       /\ Report.TotalFindings rpt = 1)%Z).
Proof.
  destruct (C10_severity_not_validated
              (report_of (ReviewOutput.mk "ok" [Finding.mk "x" "Blocker" "" [] "" ""]))
              "Blocker") as (_ & _ & _ & Haccepted).
  destruct (Haccepted eq_refl) as [Hparsed Hcounts].
  split; [exact Hparsed|]. apply Hcounts.
  intros [H|[H|H]]; discriminate H.
Defined.

(** ** Traces *)

Section Emits.
Context {Time World : Type}.
Local Abbreviation IO := (@IO Time World).
Variable P : Event Time -> Prop.

Lemma emits_ret {A : Type} (a : A) : emits P (ret a : IO A).
Proof. intros st. exists []. rewrite app_nil_r. split; [reflexivity|constructor]. Qed.

Lemma emits_bind {A B : Type} (m : IO A) (k : A -> IO B) :
  emits P m -> (forall a, emits P (k a)) -> emits P (bind m k).
Proof.
  intros Hm Hk st. unfold bind. destruct (Hm st) as (evs1 & Htr1 & Hall1).
  destruct (m st) as [a st1]. destruct (Hk a st1) as (evs2 & Htr2 & Hall2).
  exists (evs1 ++ evs2). simpl in Htr1. rewrite Htr2, Htr1, app_assoc.
  split; [reflexivity|]. apply Forall_app. split; assumption.
Qed.

Lemma emits_call {A : Type} (op : World -> A * World) : emits P (call op).
Proof.
  intros [w tr]. unfold call. simpl. destruct (op w). exists []. simpl.
  rewrite app_nil_r. split; [reflexivity|constructor].
Qed.

Lemma emits_emit (e : Event Time) : P e -> emits P (emit e : IO unit).
Proof. intros He st. exists [e]. split; [reflexivity|]. repeat constructor. exact He. Qed.

Lemma emits_log (cfg : Config.t) (format : string) (args : list fmt_arg) :
  P (EvLog format args) -> emits P (app.log cfg format args : IO unit).
Proof.
  intros He. unfold app.log. destruct (Config.Verbose cfg);
    [apply emits_emit, He|apply emits_ret].
Qed.
End Emits.

Lemma emits_weaken {Time World A : Type} (P Q : Event Time -> Prop) (m : @IO Time World A) :
  (forall e, P e -> Q e) -> emits P m -> emits Q m.
Proof.
  intros HPQ Hm st. destruct (Hm st) as (evs & Htr & Hall). exists evs.
  split; [exact Htr|]. eapply Forall_impl; eassumption.
Qed.

Ltac emits_step :=
  lazymatch goal with
  | |- emits _ (bind _ _) => apply emits_bind; [|intros]
  | |- emits _ (ret _) => apply emits_ret
  | |- emits _ (call _) => apply emits_call
  | |- emits _ (emit _) => apply emits_emit; simpl; auto
  | |- emits _ (Printf _ _) => apply emits_emit; simpl; auto
  | |- emits _ (app.log _ _ _) => apply emits_log; simpl; auto
  | |- emits _ (if ?b then _ else _) => destruct b
  | |- emits _ (match ?x with _ => _ end) => destruct x
  end.

Ltac emits_auto := repeat emits_step.

Section QuietPhases.
Context {Time World : Type} (out : Outside Time World).
Variable P : Event Time -> Prop.
Hypothesis P_quiet : forall e, quiet e -> P e.

Local Hint Extern 1 (P _) => (apply P_quiet; exact I) : core.

Lemma emits_Output (dir name : string) (args : list string) :
  emits P (Output out dir name args).
Proof. unfold Output. emits_auto. Qed.

Lemma emits_parseCommits (output repoPath : string) :
  emits P (git.parseCommits out output repoPath).
Proof.
  unfold git.parseCommits. destruct (bufio.ScanLines output) as [lines err].
  apply emits_bind; [|intros; apply emits_ret].
  generalize (@nil (Commit.t Time)). induction lines as [|line lines IH]; intros commits.
  - apply emits_ret.
  - simpl. apply emits_bind; [|intros; apply IH].
    unfold git.parseCommits_line. emits_auto.
Qed.

Lemma emits_GetTodaysCommits (repoPath : string) :
  emits P (git.GetTodaysCommits out repoPath).
Proof.
  unfold git.GetTodaysCommits. apply emits_bind; [apply emits_call|intros now].
  apply emits_bind; [apply emits_Output|intros res].
  destruct res as [output|err]; [apply emits_parseCommits|].
  destruct err; emits_auto.
Qed.

Lemma emits_Extract (commit : Commit.t Time) : emits P (diff.Extract out commit).
Proof.
  unfold diff.Extract. apply emits_bind.
  - unfold diff.getChangedFiles. apply emits_bind; [apply emits_Output|intros res].
    destruct res; [destruct (bufio.ScanLines _)|]; apply emits_ret.
  - intros [files [err|]]; [apply emits_ret|].
    apply emits_bind; [|intros; apply emits_ret].
    generalize (@nil Diff.t). induction files as [|file files IH]; intros diffs.
    + apply emits_ret.
    + simpl. apply emits_bind; [|intros; apply IH].
      unfold diff.Extract_file.
      destruct (Diff.SupportedExtensions !! filepath.Ext file); [|apply emits_ret].
      destruct (diff.shouldExclude file); [apply emits_ret|].
      apply emits_bind; [apply emits_Output|intros res]. emits_auto.
Qed.

Lemma emits_Validate (cfg : Config.t) : emits P (config.Validate out cfg).
Proof. unfold config.Validate. emits_auto. Qed.

Lemma emits_Run_scan (cfg : Config.t) : emits P (app.Run_scan out cfg).
Proof.
  unfold app.Run_scan. apply emits_bind; [apply emits_call|intros startTime].
  apply emits_bind; [apply emits_Validate|intros [[err|] cfg']]; [apply emits_ret|].
  unfold app.FindRepositories. emits_auto.
Qed.

Lemma emits_Run_commits (cfg : Config.t) (repos : list string) :
  emits P (app.Run_commits out cfg repos).
Proof.
  unfold app.Run_commits. apply emits_bind; [emits_auto|intros _].
  apply emits_bind; [|intros; emits_auto].
  generalize (@nil (Commit.t Time)). induction repos as [|repo repos IH]; intros commits.
  - apply emits_ret.
  - simpl. apply emits_bind; [apply emits_GetTodaysCommits|intros [cs [err|]]].
    + apply emits_bind; [emits_auto|intros; apply IH].
    + apply IH.
Qed.

Lemma emits_Run_diffs (cfg : Config.t) (commits : list (Commit.t Time)) :
  emits P (app.Run_diffs out cfg commits).
Proof.
  unfold app.Run_diffs. apply emits_bind; [emits_auto|intros _].
  apply emits_bind; [|intros [allDiffs|reason]; emits_auto].
  generalize (@nil Diff.t). induction commits as [|commit commits IH]; intros diffs.
  - apply emits_ret.
  - simpl. apply emits_bind; [apply emits_Extract|intros [ds|err]]; [apply IH|].
    destruct (len (Commit.Hash commit) <? 8)%Z; [apply emits_ret|].
    apply emits_bind; [emits_auto|intros; apply IH].
Qed.

End QuietPhases.

Lemma quiet_not {Time : Type} (e : Event Time) :
  quiet e -> ~ is_generate e /\ ~ is_send e /\ ~ is_write e.
Proof. destruct e; simpl; tauto. Qed.

Lemma is_log_quiet {Time : Type} (e : Event Time) : is_log e -> quiet e.
Proof. destruct e; simpl; tauto. Qed.

Lemma log_spec {Time World : Type} (cfg : Config.t) (format : string) (args : list fmt_arg)
    (st : World * list (Event Time)) :
  exists logs, app.log cfg format args st = (tt, (fst st, snd st ++ logs))
               /\ Forall is_log logs.
Proof.
  unfold app.log, Printf, emit, ret. destruct (Config.Verbose cfg).
  - exists [EvLog format args]. split; [reflexivity|]. repeat constructor.
  - exists []. rewrite app_nil_r. destruct st. split; [reflexivity|constructor].
Qed.

(** [handleNoFindings] hands one report over, which has nothing to note. *)
Lemma handleNoFindings_spec {Time World : Type} (out : Outside Time World)
    (cfg : Config.t) (st : World * list (Event Time)) :
  exists rpt logs,
    snd (snd (app.handleNoFindings out cfg st)) = snd st ++ EvWriteReport rpt :: logs
    /\ Report.NothingToNote rpt = true /\ Report.Findings rpt = []
    /\ Report.Summary rpt = "No code changes to review today."
    /\ Forall is_log logs.
Proof.
  unfold app.handleNoFindings, app.Write, bind, call, emit, ret.
  destruct st as [w tr]. simpl. destruct (time_Now out w) as [now w1]. simpl.
  destruct (report_Write out _ w1) as [[path|err] w2]; simpl.
  - destruct (log_spec cfg "Report saved to %s" [arg_string path]
                (w2, tr ++ [EvWriteReport
                   (Report.mk Time now "No code changes to review today." [] [] 0 0 true "")]))
      as (logs & Hlog & Hall).
    rewrite Hlog. simpl. rewrite <- app_assoc. eexists _, logs.
    split; [reflexivity|]. repeat split; assumption.
  - eexists _, []. split; [reflexivity|]. repeat split. constructor.
Qed.

Lemma Forall_quiet_no {Time : Type} (evs : list (Event Time)) :
  Forall quiet evs -> Forall (fun e => ~ is_generate e /\ ~ is_send e) evs.
Proof.
  intros H. eapply Forall_impl; [exact H|]. intros e He. apply quiet_not in He. tauto.
Qed.

Lemma Forall_log_no {Time : Type} (evs : list (Event Time)) :
  Forall is_log evs -> Forall (fun e => ~ is_generate e /\ ~ is_send e) evs.
Proof.
  intros H. apply Forall_quiet_no. eapply Forall_impl; [exact H|apply is_log_quiet].
Qed.

(** The run from the point where nothing was found, after the trace
    [before]. *)
Lemma nothing_found_spec {Time World : Type} (out : Outside Time World)
    (cfg : Config.t) (format : string) (w : World) (before : list (Event Time)) :
  Forall quiet before ->
  let r := (app.log cfg format [] ;;
            let* err := app.handleNoFindings out cfg in ret (Return err)) (w, before) in
  Forall (fun e => ~ is_generate e /\ ~ is_send e) (snd (snd r))
  /\ exists rpt before' after,
       snd (snd r) = before' ++ EvWriteReport rpt :: after
       /\ Report.NothingToNote rpt = true /\ Report.Findings rpt = []
       /\ Forall quiet before' /\ Forall is_log after.
Proof.
  intros Hq. cbv zeta. unfold bind, ret.
  destruct (log_spec cfg format [] (w, before)) as (logs & Hlog & Hlogs).
  rewrite Hlog. simpl fst. simpl snd.
  pose proof (handleNoFindings_spec out cfg (w, before ++ logs))
    as (rpt & after & Htr & Hntn & Hfs & _ & Hafter).
  destruct (app.handleNoFindings out cfg (w, before ++ logs)) as [err [w' tr']].
  simpl in Htr |- *. subst tr'.
  assert (Hb : Forall quiet (before ++ logs)).
  { apply Forall_app. split; [exact Hq|].
    eapply Forall_impl; [exact Hlogs|apply is_log_quiet]. }
  split.
  - apply Forall_app. split; [apply Forall_quiet_no, Hb|].
    constructor; [simpl; tauto|apply Forall_log_no, Hafter].
  - exists rpt, (before ++ logs), after. split; [reflexivity|]. repeat split; assumption.
Qed.

(** ** The claims on the orchestrator *)

(** C3, as the code has it. A run that finds no commit, or commits but no
    diff unit, writes one report, which has nothing to note and no finding,
    and neither asks the model nor sends mail. A run that finds no
    repository returns at once without error: it neither asks the model nor
    sends mail, and it writes no report. *)
Theorem C3_early_exits {Time World : Type} (out : Outside Time World)
    (cfg : Config.t) (w : World) :
  found_repositories out cfg w = Some []
  \/ found_commits out cfg w = Some []
  \/ found_diffs out cfg w = Some [] ->
  let r := run (app.Run out cfg) w in
  Forall (fun e => ~ is_generate e /\ ~ is_send e) (trace_of r)
  /\ (found_repositories out cfg w = Some [] ->
      value_of r = Return None /\ Forall (fun e => ~ is_write e) (trace_of r))
  /\ (found_commits out cfg w = Some [] \/ found_diffs out cfg w = Some [] ->
      exists rpt before after,
        trace_of r = before ++ EvWriteReport rpt :: after
        /\ Report.NothingToNote rpt = true /\ Report.Findings rpt = []
        /\ Forall quiet before /\ Forall is_log after).
Proof.
  cbv zeta.
  unfold found_repositories, found_commits, found_diffs, Run_until_repositories,
    Run_until_commits, Run_until_diffs, app.Run, run, value_of, trace_of, bind.
  destruct (emits_Run_scan out quiet (fun e H => H) cfg (w, [])) as (evs1 & Htr1 & Hq1).
  destruct (app.Run_scan out cfg (w, [])) as [[err | [[t cfg'] repos]] [w1 tr1]];
    cbv beta iota; simpl in Htr1; subst tr1.
  { intros [H|[H|H]]; discriminate. }
  destruct (Z.of_nat (length repos) =? 0)%Z eqn:Hrepos.
  { destruct (log_spec cfg' "No repositories found, nothing to review" [] (w1, evs1))
      as (logs & Hlog & Hlogs).
    rewrite Hlog. unfold ret. simpl fst. simpl snd.
    intros _. assert (Hq : Forall quiet (evs1 ++ logs)).
    { apply Forall_app. split; [exact Hq1|].
      eapply Forall_impl; [exact Hlogs|apply is_log_quiet]. }
    split; [apply Forall_quiet_no, Hq|]. split.
    - intros _. split; [reflexivity|].
      eapply Forall_impl; [exact Hq|]. intros e He. apply quiet_not in He. tauto.
    - intros [H|H]; discriminate. }
  destruct (emits_Run_commits out quiet (fun e H => H) cfg' repos (w1, evs1))
    as (evs2 & Htr2 & Hq2).
  destruct (app.Run_commits out cfg' repos (w1, evs1)) as [allCommits [w2 tr2]].
  simpl in Htr2; subst tr2. unfold ret at 1 2 3. simpl fst.
  assert (Hq12 : Forall quiet (evs1 ++ evs2)) by (apply Forall_app; split; assumption).
  assert (Hne : Some repos <> Some [] :> option (list string)).
  { intros [= ->]. discriminate. }
  destruct (Z.of_nat (length allCommits) =? 0)%Z eqn:Hcommits.
  { pose proof (nothing_found_spec out cfg' "No commits today, nothing to review"
                  w2 (evs1 ++ evs2) Hq12) as Hnf.
    cbv zeta in Hnf. unfold bind in Hnf.
    intros _. split; [apply Hnf|]. split; [intros H; contradiction|].
    intros _. apply Hnf. }
  assert (Hne2 : Some allCommits <> Some [] :> option (list (Commit.t Time))).
  { intros [= ->]. discriminate. }
  destruct (emits_Run_diffs out quiet (fun e H => H) cfg' allCommits (w2, evs1 ++ evs2))
    as (evs3 & Htr3 & Hq3).
  destruct (app.Run_diffs out cfg' allCommits (w2, evs1 ++ evs2))
    as [[allDiffs|reason] [w3 tr3]]; simpl in Htr3; subst tr3; unfold ret at 1; simpl fst.
  2: { intros [H|[H|H]]; [contradiction..|discriminate]. }
  destruct (Z.of_nat (length allDiffs) =? 0)%Z eqn:Hdiffs.
  2: { intros [H|[H|H]]; [contradiction..|]. injection H as ->. discriminate. }
  assert (Hq123 : Forall quiet ((evs1 ++ evs2) ++ evs3))
    by (apply Forall_app; split; assumption).
  pose proof (nothing_found_spec out cfg' "No relevant diffs found, nothing to review"
                w3 ((evs1 ++ evs2) ++ evs3) Hq123) as Hnf.
  cbv zeta in Hnf. unfold bind in Hnf.
  intros _. split; [apply Hnf|]. split; [intros H; contradiction|].
  intros _. apply Hnf.
Qed.

Lemma C3_witness :
  exists rpt before after,
    trace_of (toy_run true ["/home/ada/projects/cra"] "" "")
    = before ++ EvWriteReport rpt :: after
    /\ Report.NothingToNote rpt = true /\ Report.Findings rpt = []
    /\ Forall quiet before /\ Forall is_log after.
Proof.
  destruct (C3_early_exits (toy (toy_git "" "+x") (inl "") (inl ["/home/ada/projects/cra"])
                              [None]) (toy_config true) 0) as (_ & _ & H).
  - right. left. vm_compute. reflexivity.
  - apply H. left. vm_compute. reflexivity.
Defined.

(** C3, as stated, fails for a run that finds no repository: the run ends
    without a report. *)
Lemma C3_counterexample :
  found_repositories (toy (toy_git "" "+x") (inl "") (inl []) [None]) (toy_config true) 0
  = Some []
  /\ value_of (toy_run true [] "" "") = Return None
  /\ ~ exists rpt, In (EvWriteReport rpt) (trace_of (toy_run true [] "" "")).
Proof.
  split; [vm_compute; reflexivity|]. split; [vm_compute; reflexivity|].
  intros [rpt H]. vm_compute in H.
  repeat (destruct H as [H|H]; [discriminate|]). exact H.
Qed.
Lemma Validate_Email {Time World : Type} (out : Outside Time World) (cfg : Config.t)
    (st : World * list (Event Time)) :
  Config.Email (snd (fst (config.Validate out cfg st))) = Config.Email cfg.
Proof.
  unfold config.Validate, bind, call, ret. destruct st as [w tr].
  destruct (String.eqb (Config.RootPath cfg) ""); [reflexivity|]. simpl.
  destruct (os_Stat_IsNotExist out _ w) as [[|] w1]; [reflexivity|].
  destruct (_ && _); [reflexivity|]. destruct (_ && _); [reflexivity|].
  destruct (String.eqb _ ""); [|reflexivity]. simpl.
  destruct (os_Getenv out _ w1) as [key w2]. destruct (negb _); [reflexivity|]. simpl.
  destruct (os_Getenv out _ w2) as [key' w3]. destruct (negb _); reflexivity.
Qed.

Lemma Run_scan_Email {Time World : Type} (out : Outside Time World) (cfg : Config.t)
    (st st' : World * list (Event Time)) t cfg' repos :
  app.Run_scan out cfg st = (inr (t, cfg', repos), st') ->
  Config.Email cfg' = Config.Email cfg.
Proof.
  unfold app.Run_scan, bind, call. destruct st as [w tr]. simpl.
  destruct (time_Now out w) as [now w1]. simpl.
  pose proof (Validate_Email out cfg (w1, tr)) as HE.
  destruct (config.Validate out cfg (w1, tr)) as [[[err|] cfg1] st1]; simpl in HE.
  - discriminate.
  - destruct (app.log cfg1 _ _ st1) as [[] st2].
    destruct (app.log cfg1 _ _ st2) as [[] st3].
    destruct (app.FindRepositories out _ st3) as [[rs|err] st4]; [|discriminate].
    destruct (app.log cfg1 _ _ st4) as [[] st5]. unfold ret. intros [= _ <- _ _]. exact HE.
Qed.

Lemma emits_NewReviewer {Time World : Type} (out : Outside Time World)
    (P : Event Time -> Prop) (cfg : ReviewConfig.t) :
  emits P (review.NewReviewer out cfg).
Proof. unfold review.NewReviewer, review.env_key. emits_auto. Qed.

Lemma emits_Review {Time World : Type} (out : Outside Time World)
    (r : review.Reviewer) (diffs : list Diff.t) :
  emits (@no_send Time) (review.Review out r diffs).
Proof.
  unfold review.Review, review.GenerateText.
  destruct (_ =? 0)%Z; [apply emits_ret|].
  apply emits_bind.
  - apply emits_bind; [apply emits_call|intros res].
    apply emits_bind; [apply emits_emit; unfold no_send; simpl; tauto|intros; apply emits_ret].
  - intros [answer|err]; [|apply emits_ret].
    destruct (review.parseResponse answer); apply emits_ret.
Qed.

Lemma emits_send_loop {Time World : Type} (out : Outside Time World)
    (addr message : string) (fuel : nat) : forall (attempt : Z) (lastErr : option error),
  emits (@any Time) (notify.send_loop out fuel addr message attempt lastErr).
Proof.
  induction fuel as [|fuel IH]; intros attempt lastErr; [apply emits_ret|].
  simpl. destruct (attempt <=? 3)%Z; [|apply emits_ret].
  apply emits_bind.
  - unfold notify.sendWithTimeout. emits_auto; exact I.
  - intros [err|]; [|apply emits_ret].
    apply emits_bind; [apply emits_emit; exact I|intros _].
    apply emits_bind; [|intros _; apply IH].
    destruct (attempt <? 3)%Z; [|apply emits_ret].
    unfold notify.Sleep. emits_auto; exact I.
Qed.

Lemma emits_Run_notify_any {Time World : Type} (out : Outside Time World) (cfg : Config.t)
    (startTime : Time) (rpt : Report.t Time) :
  emits (@any Time) (app.Run_notify out cfg startTime rpt).
Proof.
  unfold app.Run_notify. apply emits_bind; [|intros [err|]; emits_auto; exact I].
  destruct (_ && _); [|apply emits_ret].
  apply emits_bind; [apply emits_log; exact I|intros _].
  apply emits_bind; [apply emits_ret|intros [notifier|err]]; [|apply emits_ret].
  apply emits_bind; [|intros [err|]; emits_auto; exact I].
  unfold notify.SendReport, notify.send.
  apply emits_bind; [unfold notify.buildMessage; emits_auto|intros message].
  apply emits_send_loop.
Qed.

Lemma emits_Run_notify_off {Time World : Type} (out : Outside Time World) (cfg : Config.t)
    (startTime : Time) (rpt : Report.t Time) :
  EmailConfig.Enabled (Config.Email cfg) && Report.HasFindings rpt = false ->
  emits (@no_send Time) (app.Run_notify out cfg startTime rpt).
Proof.
  intros Hoff. unfold app.Run_notify. rewrite Hoff.
  apply emits_bind; [apply emits_ret|intros [err|]; [apply emits_ret|]].
  apply emits_bind; [apply emits_call|intros now].
  apply emits_bind; [apply emits_log|intros; apply emits_ret].
  unfold no_send. simpl. tauto.
Qed.

Tactic Notation "phase" constr(H) "as" ident(a) ident(w') ident(evs) ident(Hall) :=
  let Htr := fresh "Htr" in
  let tr := fresh "tr" in
  destruct H as (evs & Htr & Hall);
  lazymatch type of Htr with
  | snd (snd ?t) = _ => destruct t as [a [w' tr]]
  end;
  simpl in Htr; subst tr; cbv beta iota.

Lemma no_send_log {Time : Type} (format : string) (args : list fmt_arg) :
  @no_send Time (EvLog format args).
Proof. unfold no_send. simpl. tauto. Qed.

Ltac no_send_all :=
  repeat (apply Forall_app; split); try assumption;
  try (repeat constructor; unfold no_send; simpl; tauto).

Lemma Run_review_spec {Time World : Type} (out : Outside Time World) (cfg : Config.t)
    (startTime : Time) (repos : list string) (allCommits : list (Commit.t Time))
    (allDiffs : list Diff.t) (w : World) (before : list (Event Time)) :
  Forall no_send before ->
  let tr := snd (snd (app.Run_review out cfg startTime repos allCommits allDiffs (w, before))) in
  Forall no_send tr
  \/ (EmailConfig.Enabled (Config.Email cfg) = true
      /\ exists rpt before' after,
           tr = before' ++ EvWriteReport rpt :: after
           /\ Forall no_send before'
           /\ Report.HasFindings rpt = true
           /\ Report.NothingToNote rpt = false
           /\ Report.CommitCount rpt = Z.of_nat (length allCommits)
           /\ Report.FileCount rpt = Z.of_nat (length allDiffs)).
Proof.
  intros Hb. cbv zeta. unfold app.Run_review, bind.
  phase (emits_log no_send cfg "Initializing LLM reviewer..." []
           (no_send_log _ _) (w, before)) as u1 w1 evs1 H1.
  phase (emits_NewReviewer out no_send (Config.Review cfg) (w1, before ++ evs1))
    as res w2 evs2 H2.
  destruct res as [reviewer|err]; [|left; unfold ret; simpl; no_send_all].
  phase (emits_log no_send cfg "Reviewing code changes..." []
           (no_send_log _ _) (w2, (before ++ evs1) ++ evs2)) as u2 w3 evs3 H3.
  phase (emits_Review out reviewer allDiffs (w3, ((before ++ evs1) ++ evs2) ++ evs3))
    as reviewed w4 evs4 H4.
  destruct reviewed as [[findings summary] [err|]]; [left; unfold ret; simpl; no_send_all|].
  match goal with
  | |- context [app.log cfg "Found %d issues" ?args ?st] =>
      phase (emits_log no_send cfg "Found %d issues" args (no_send_log _ _) st)
        as u3 w5 evs5 H5
  end.
  match goal with
  | |- context [app.log cfg "Generating report..." ?args ?st] =>
      phase (emits_log no_send cfg "Generating report..." args (no_send_log _ _) st)
        as u4 w6 evs6 H6
  end.
  unfold call at 1 2. simpl fst. simpl snd.
  destruct (time_Now out w6) as [now w7]. cbv beta iota.
  unfold app.Write, bind, call, emit, ret. simpl fst. simpl snd.
  destruct (report_Write out _ w7) as [[reportPath|err] w8]; cbv beta iota; simpl fst; simpl snd.
  2: { left. no_send_all. }
  set (rpt := Report.mk Time now summary findings repos (Z.of_nat (length allCommits))
                (Z.of_nat (length allDiffs)) false "").
  set (pre := (((((before ++ evs1) ++ evs2) ++ evs3) ++ evs4) ++ evs5) ++ evs6).
  assert (Hpre : Forall no_send pre) by (unfold pre; no_send_all).
  match goal with
  | |- context [app.log cfg "Report saved to %s" ?args ?st] =>
      phase (emits_log no_send cfg "Report saved to %s" args (no_send_log _ _) st)
        as u5 w9 evs7 H7
  end.
  destruct (EmailConfig.Enabled (Config.Email cfg) && Report.HasFindings rpt) eqn:Hgate.
  - right. apply andb_true_iff in Hgate as [Hen Hfind]. split; [exact Hen|].
    phase (emits_Run_notify_any out cfg startTime rpt (w9, (pre ++ [EvWriteReport rpt]) ++ evs7))
      as err w10 evs8 H8.
    exists rpt, pre, (evs7 ++ evs8). split; [rewrite <- !app_assoc; reflexivity|].
    repeat split; assumption.
  - left.
    phase (emits_Run_notify_off out cfg startTime rpt Hgate
             (w9, (pre ++ [EvWriteReport rpt]) ++ evs7)) as err w10 evs8 H8.
    no_send_all.
Qed.


Lemma quiet_no_send {Time : Type} (e : Event Time) : quiet e -> no_send e.
Proof. destruct e; unfold no_send; simpl; tauto. Qed.

Lemma no_send_In {Time : Type} (tr : list (Event Time)) addr message timeout res :
  Forall no_send tr -> In (EvSend addr message timeout res) tr -> False.
Proof.
  intros Hall Hin. rewrite Forall_forall in Hall.
  apply (Hall _ (proj2 (list_elem_of_In _ _) Hin)). exact I.
Qed.

Lemma emits_handleNoFindings {Time World : Type} (out : Outside Time World) (cfg : Config.t) :
  emits (@no_send Time) (app.handleNoFindings out cfg).
Proof.
  unfold app.handleNoFindings, app.Write.
  emits_auto; unfold no_send; simpl; tauto.
Qed.

(** C7. Whenever a run opens an SMTP session, email is enabled in the
    configuration and a report was handed over before, with no session
    earlier than it: a report that has at least one finding, is not marked
    as nothing to note, and counts at least one commit and one diff unit, so
    that the run took none of the early exits. *)
Theorem C7_delivery_gate {Time World : Type} (out : Outside Time World)
    (cfg : Config.t) (w : World) (addr message : string) (timeout : Duration)
    (res : option error) :
  In (EvSend addr message timeout res) (trace_of (run (app.Run out cfg) w)) ->
  EmailConfig.Enabled (Config.Email cfg) = true
  /\ exists rpt before after,
       trace_of (run (app.Run out cfg) w) = before ++ EvWriteReport rpt :: after
       /\ Forall no_send before
       /\ Report.HasFindings rpt = true
       /\ Report.NothingToNote rpt = false
       /\ (0 < Report.CommitCount rpt)%Z
       /\ (0 < Report.FileCount rpt)%Z.
Proof.
  unfold app.Run, run, trace_of, bind.
  pose proof (Run_scan_Email out cfg (w, [])) as HEmail.
  phase (emits_Run_scan out no_send quiet_no_send cfg (w, [])) as scanned w1 evs1 H1.
  simpl app_nil_l in *.
  destruct scanned as [err | [[t cfg'] repos]];
    [unfold ret; simpl; intros Hin; destruct (no_send_In _ _ _ _ _ H1 Hin)|].
  specialize (HEmail _ _ _ _ eq_refl).
  destruct (Z.of_nat (length repos) =? 0)%Z eqn:Hrepos.
  { phase (emits_log no_send cfg' "No repositories found, nothing to review" []
             (no_send_log _ _) (w1, evs1)) as u w2 evs2 H2.
    unfold ret; simpl. intros Hin. exfalso. eapply no_send_In; [|exact Hin]. no_send_all. }
  phase (emits_Run_commits out no_send quiet_no_send cfg' repos (w1, evs1))
    as allCommits w2 evs2 H2.
  destruct (Z.of_nat (length allCommits) =? 0)%Z eqn:Hcommits.
  { phase (emits_log no_send cfg' "No commits today, nothing to review" []
             (no_send_log _ _) (w2, evs1 ++ evs2)) as u w3 evs3 H3.
    phase (emits_handleNoFindings out cfg' (w3, (evs1 ++ evs2) ++ evs3)) as err w4 evs4 H4.
    unfold ret; simpl. intros Hin. exfalso. eapply no_send_In; [|exact Hin]. no_send_all. }
  phase (emits_Run_diffs out no_send quiet_no_send cfg' allCommits (w2, evs1 ++ evs2))
    as diffs w3 evs3 H3.
  destruct diffs as [allDiffs|reason].
  2: { unfold ret; simpl. intros Hin. exfalso. eapply no_send_In; [|exact Hin]. no_send_all. }
  destruct (Z.of_nat (length allDiffs) =? 0)%Z eqn:Hdiffs.
  { phase (emits_log no_send cfg' "No relevant diffs found, nothing to review" []
             (no_send_log _ _) (w3, (evs1 ++ evs2) ++ evs3)) as u w4 evs4 H4.
    phase (emits_handleNoFindings out cfg' (w4, ((evs1 ++ evs2) ++ evs3) ++ evs4))
      as err w5 evs5 H5.
    unfold ret; simpl. intros Hin. exfalso. eapply no_send_In; [|exact Hin]. no_send_all. }
  assert (Hbefore : Forall no_send ((evs1 ++ evs2) ++ evs3)) by no_send_all.
  pose proof (Run_review_spec out cfg' t repos allCommits allDiffs w3 _ Hbefore) as Hrev.
  cbv zeta in Hrev.
  destruct (app.Run_review out cfg' t repos allCommits allDiffs (w3, (evs1 ++ evs2) ++ evs3))
    as [err [w4 tr4]].
  unfold ret. simpl in Hrev |- *. intros Hin.
  destruct Hrev as [Hall|(Hen & rpt & before & after & Htr & Hb & Hf & Hn & Hc & Hd)].
  { destruct (no_send_In _ _ _ _ _ Hall Hin). }
  rewrite <- HEmail. split; [exact Hen|].
  exists rpt, before, after. repeat split; try assumption.
  - rewrite Hc. apply Z.eqb_neq in Hcommits. lia.
  - rewrite Hd. apply Z.eqb_neq in Hdiffs. lia.
Qed.

Lemma C7_witness :
  EmailConfig.Enabled (Config.Email (toy_config true)) = true
  /\ exists rpt before after,
       trace_of (toy_run true toy_repos toy_log clean_response)
       = before ++ EvWriteReport rpt :: after
       /\ Forall no_send before
       /\ Report.HasFindings rpt = true
       /\ Report.NothingToNote rpt = false
       /\ (0 < Report.CommitCount rpt)%Z
       /\ (0 < Report.FileCount rpt)%Z.
Proof.
  apply (C7_delivery_gate
           (toy (toy_git toy_log "+x") (inl clean_response) (inl toy_repos) [None])
           (toy_config true) 0
           (fst (fst (fst (first_send (trace_of (toy_run true toy_repos toy_log clean_response))))))
           (snd (fst (fst (first_send (trace_of (toy_run true toy_repos toy_log clean_response))))))
           (snd (fst (first_send (trace_of (toy_run true toy_repos toy_log clean_response)))))
           (snd (first_send (trace_of (toy_run true toy_repos toy_log clean_response))))).
  vm_compute. repeat (first [left; reflexivity | right]).
Defined.

(** ** Examples *)

(** Delivery that fails twice and then succeeds returns no error, after
    three sessions and sleeps of 1 and 4 seconds. *)
Example send_recovers :
  let r := toy_send [Some (External "dial tcp: timeout"); Some (External "EOF"); None] in
  value_of r = None /\ sessions (trace_of r) = 3
  /\ sleeps (trace_of r) = [1 * Second; 4 * Second]%Z.
Proof. vm_compute. repeat split; reflexivity. Qed.

(** Delivery that fails three times gives up with the error of the third
    failure wrapped; there is no fourth session and no third sleep. *)
Example send_gives_up :
  let r := toy_send [Some (External "first"); Some (External "second");
                     Some (External "third"); None] in
  value_of r = Some (Errorf "failed after 3 attempts: %w" [arg_error (External "third")])
  /\ sessions (trace_of r) = 3
  /\ sleeps (trace_of r) = [1 * Second; 4 * Second]%Z.
Proof. vm_compute. repeat split; reflexivity. Qed.

(** Of the four lines of [mixed_log] the first and the last give commits;
    the third is reported in the log. *)
Example parseCommits_mixed :
  let r := run (git.parseCommits (toy (fun _ => inl "") (inl "") (inl []) [])
                  mixed_log "/home/ada/projects/cra") 0 in
  map Commit.Message (fst (value_of r)) = ["first"; "third | last"]
  /\ snd (value_of r) = None
  /\ trace_of r = [EvLog "Warning: failed to parse timestamp %s: %v"
                     [arg_string "yesterday";
                      arg_error (External "parsing time: cannot parse")]].
Proof. vm_compute. repeat split; reflexivity. Qed.

(** A severity with double quotes, a tab and a character of two bytes is
    written with escapes, and read back as it is. *)
Example parseResponse_odd_severity :
  ValidString odd_severity = true
  /\ response_of odd_severity
     = q "{'summary': 'ok', 'findings': [{'title': 'x', 'severity': 'P0 \'now\'\u0009"
       +:+ String (byte 195) (String (byte 169) (q "'}]}"))
  /\ review.parseResponse (response_of odd_severity)
     = inl (ReviewOutput.mk "ok" [Finding.mk "x" odd_severity "" [] "" ""]).
Proof. vm_compute. repeat split; reflexivity. Qed.

(** The library functions on small inputs. *)
Example Split_lines : Split ("a" +:+ LF +:+ LF +:+ "b" +:+ LF) LF = ["a"; ""; "b"; ""].
Proof. reflexivity. Qed.

Example SplitN_bars : SplitN "h|a|e|t|s|u" "|" 5 = ["h"; "a"; "e"; "t"; "s|u"].
Proof. reflexivity. Qed.

Example Fields_status : Fields ("R100" +:+ TAB +:+ "old.go" +:+ TAB +:+ "new.go")
                        = ["R100"; "old.go"; "new.go"].
Proof. reflexivity. Qed.

Example TrimSpace_unicode : TrimSpace (NBSP +:+ " x y" +:+ TAB +:+ NBSP +:+ LF) = "x y".
Proof. reflexivity. Qed.

Example Ext_examples :
  filepath.Ext "pkg/a.mock.go" = ".go" /\ filepath.Ext "a.b/Makefile" = ""
  /\ filepath.Ext "archive.tar.gz" = ".gz" /\ filepath.Ext ".go" = ".go".
Proof. repeat split; reflexivity. Qed.

Example shouldExclude_examples :
  diff.shouldExclude "vendor/x/y.go" = true /\ diff.shouldExclude "api/user.pb.go" = true
  /\ diff.shouldExclude "internal/diff/extract.go" = false.
Proof. repeat split; reflexivity. Qed.

Example changed_files_examples :
  diff.getChangedFiles_line ("D" +:+ TAB +:+ "gone.go") [] = []
  /\ diff.getChangedFiles_line ("R100" +:+ TAB +:+ "old.go" +:+ TAB +:+ "new.go") []
     = ["new.go"]
  /\ diff.getChangedFiles_line ("M" +:+ TAB +:+ "main.go") ["a.go"] = ["a.go"; "main.go"].
Proof. repeat split; reflexivity. Qed.

(** A second [findings] member is stored into the elements that the first
    one left in the slice. *)
Example Unmarshal_merges :
  ReviewOutput.Unmarshal
    (q "{'findings': [{'title': 'a', 'severity': 'High'}], 'Findings': [{'title': 'b'}]}")
    ReviewOutput.zero
  = inl (ReviewOutput.mk "" [Finding.mk "b" "High" "" [] "" ""]).
Proof. vm_compute. reflexivity. Qed.

Example Unmarshal_rejects :
  ReviewOutput.Unmarshal (q "{'summary': 3}") ReviewOutput.zero = inr UnmarshalTypeError
  /\ ReviewOutput.Unmarshal (q "{'summary': 'x',}") ReviewOutput.zero = inr SyntaxError
  /\ ReviewOutput.Unmarshal "null" ReviewOutput.zero = inl ReviewOutput.zero.
Proof. vm_compute. repeat split; reflexivity. Qed.

(** * Further properties of the code *)

(** ** The diff extractor *)

Section ExtractMore.
Context {Time World : Type} (out : Outside Time World).

(** One turn of the loop of [Extract] for a file that is not eligible. *)
Lemma Extract_file_skip (commit : Commit.t Time) (file : string) (diffs : list Diff.t)
    (st : World * list (Event Time)) :
  eligible file = false -> diff.Extract_file out commit file diffs st = (diffs, st).
Proof.
  unfold eligible, diff.Extract_file.
  destruct (Diff.SupportedExtensions !! filepath.Ext file); [|reflexivity].
  destruct (diff.shouldExclude file); [reflexivity|discriminate].
Qed.

(** One turn of the loop of [Extract] for an eligible file. *)
Lemma Extract_file_query (commit : Commit.t Time) (file : string) (diffs : list Diff.t)
    (w : World) (tr : list (Event Time)) :
  eligible file = true ->
  exists res w',
    exec_Output out (Commit.RepoPath commit) "git"
      ["show"; "--format="; "--patch"; "--no-color"; Commit.Hash commit; "--"; file] w
    = (res, w')
    /\ snd (diff.Extract_file out commit file diffs (w, tr))
       = (w', tr ++ patch_events commit file res)
    /\ match res with
       | inl raw =>
           exists d, fst (diff.Extract_file out commit file diffs (w, tr)) = diffs ++ [d]
                     /\ Diff.FilePath d = file
       | inr _ => fst (diff.Extract_file out commit file diffs (w, tr)) = diffs
       end.
Proof.
  unfold eligible, diff.Extract_file. intros Hel.
  destruct (Diff.SupportedExtensions !! filepath.Ext file) as [lang|]; [|discriminate].
  destruct (diff.shouldExclude file); [discriminate|].
  unfold diff.getFileDiff, Output, bind, call, emit, ret, Printf, emit. simpl fst. simpl snd.
  destruct (exec_Output out _ _ _ w) as [[raw|err] w'] eqn:Hex;
    [exists (inl raw), w'|exists (inr err), w'].
  - split; [reflexivity|]. simpl. split; [reflexivity|]. eexists. split; reflexivity.
  - split; [reflexivity|]. simpl. rewrite <- app_assoc. split; reflexivity.
Qed.

Lemma Extract_loop_queries (commit : Commit.t Time) (files : list string) :
  forall (diffs : list Diff.t) (w : World) (tr : list (Event Time)),
  exists answers : list (result string),
    length answers = length (List.filter eligible files)
    /\ snd (snd (diff.Extract_loop out commit files diffs (w, tr)))
       = tr ++ List.concat (zip_with (patch_events commit) (List.filter eligible files) answers)
    /\ exists new,
         fst (diff.Extract_loop out commit files diffs (w, tr)) = diffs ++ new
         /\ map Diff.FilePath new = answered (List.filter eligible files) answers.
Proof.
  induction files as [|file files IH]; intros diffs w tr.
  - exists []. simpl. rewrite app_nil_r. repeat split. exists []. rewrite app_nil_r.
    split; reflexivity.
  - simpl diff.Extract_loop. unfold bind. simpl List.filter.
    destruct (eligible file) eqn:Hel.
    + destruct (Extract_file_query commit file diffs w tr Hel) as (res & w' & _ & Hst & Hval).
      destruct (diff.Extract_file out commit file diffs (w, tr)) as [diffs1 st1].
      simpl in Hst, Hval. subst st1.
      destruct (IH diffs1 w' (tr ++ patch_events commit file res))
        as (answers & Hlen & Htr & new & Hnew & Hpaths).
      exists (res :: answers). split; [simpl; rewrite Hlen; reflexivity|].
      split; [rewrite Htr; simpl; rewrite <- app_assoc; reflexivity|].
      destruct res as [raw|err].
      * destruct Hval as (d & -> & Hd). exists (d :: new).
        rewrite Hnew, <- app_assoc. split; [reflexivity|].
        simpl. unfold answered in *. simpl. rewrite Hd, Hpaths. reflexivity.
      * subst diffs1. exists new. split; [exact Hnew|]. unfold answered in *. simpl.
        exact Hpaths.
    + rewrite Extract_file_skip by exact Hel. apply IH.
Qed.

End ExtractMore.

Lemma scan_error (data : string) : forall (acc : string) (err : error),
  snd (bufio.scan acc data) = Some err -> err = ErrTooLong.
Proof.
  assert (Htoken : forall rev_line next err,
            (forall e, snd next = Some e -> e = ErrTooLong) ->
            snd (bufio.token rev_line next) = Some err -> err = ErrTooLong).
  { intros rev_line next err Hnext. unfold bufio.token.
    destruct (_ <=? _)%N; simpl; [congruence|apply Hnext]. }
  induction data as [|c data IH]; intros acc err; simpl.
  - destruct acc; [discriminate|]. apply Htoken. discriminate.
  - destruct (json.is_byte c 10); [|apply IH].
    apply Htoken. intros e. apply IH.
Qed.

(** X1. When the query for the changed files succeeds, [Extract] asks for
    the patch of every eligible file, in the order of the listing, and of no
    other file; a patch query that fails is followed by a warning and gives
    no diff unit, and the diff units returned are those of the files whose
    query succeeded, in order. *)
Theorem Extract_queries_eligible_files {Time World : Type} (out : Outside Time World)
    (commit : Commit.t Time) (w w1 : World) (output : string) :
  exec_Output out (Commit.RepoPath commit) "git"
    ["show"; "--format="; "--name-status"; Commit.Hash commit] w = (inl output, w1) ->
  snd (bufio.ScanLines output) = None ->
  let r := run (diff.Extract out commit) w in
  let files := List.filter eligible (changed_files output) in
  exists (answers : list (result string)) (diffs : list Diff.t),
    length answers = length files
    /\ trace_of r
       = status_query commit (inl output)
         :: List.concat (zip_with (patch_events commit) files answers)
    /\ value_of r = inl diffs
    /\ map Diff.FilePath diffs = answered files answers.
Proof.
  intros Hex Herr. cbv zeta.
  unfold run, value_of, trace_of, diff.Extract, diff.getChangedFiles, Output, bind, call,
    emit, ret. simpl fst. simpl snd. rewrite Hex. cbv beta iota. simpl fst. simpl snd.
  unfold changed_files.
  destruct (bufio.ScanLines output) as [lines err]. simpl in Herr. subst err.
  cbv beta iota. simpl fst.
  set (files := fold_left _ lines []).
  destruct (Extract_loop_queries out commit files [] w1 [status_query commit (inl output)])
    as (answers & Hlen & Htr & new & Hnew & Hpaths).
  unfold status_query in Htr.
  destruct (diff.Extract_loop out commit files [] _) as [diffs st].
  simpl in Htr, Hnew. exists answers, diffs. subst diffs.
  repeat split; assumption.
Qed.

Lemma Extract_queries_eligible_files_witness :
  exists (answers : list (result string)) (diffs : list Diff.t),
    length answers = length (List.filter eligible (changed_files status_output))
    /\ trace_of (run (diff.Extract four_files toy_commit) 0)
       = status_query toy_commit (inl status_output)
         :: List.concat (zip_with (patch_events toy_commit)
                           (List.filter eligible (changed_files status_output)) answers)
    /\ value_of (run (diff.Extract four_files toy_commit) 0) = inl diffs
    /\ map Diff.FilePath diffs
       = answered (List.filter eligible (changed_files status_output)) answers.
Proof.
  apply (Extract_queries_eligible_files four_files toy_commit 0 0 status_output);
    vm_compute; reflexivity.
Defined.

(** X2. [Extract] fails only with the query for the changed files: with
    the error of the sub-process, or with [bufio.ErrTooLong] when a line of
    its output does not fit the scanner. It then asks for no patch. In every
    other case it returns diff units and no error. *)
Theorem Extract_fails_only_with_the_listing {Time World : Type}
    (out : Outside Time World) (commit : Commit.t Time) (w : World) :
  let r := run (diff.Extract out commit) w in
  let listing :=
    fst (exec_Output out (Commit.RepoPath commit) "git"
           ["show"; "--format="; "--name-status"; Commit.Hash commit] w) in
  match listing with
  | inr err => value_of r = inr err /\ trace_of r = [status_query commit listing]
  | inl output =>
      match snd (bufio.ScanLines output) with
      | Some err =>
          err = ErrTooLong /\ value_of r = inr err
          /\ trace_of r = [status_query commit listing]
      | None => exists diffs, value_of r = inl diffs
      end
  end.
Proof.
  cbv zeta.
  unfold run, value_of, trace_of, diff.Extract, diff.getChangedFiles, Output, bind, call,
    emit, ret. simpl fst. simpl snd.
  destruct (exec_Output out _ _ _ w) as [[output|err] w1]; cbv beta iota; simpl fst; simpl snd.
  - pose proof (scan_error output "") as Hscan. unfold bufio.ScanLines.
    destruct (bufio.scan "" output) as [lines [err|]]; cbv beta iota; simpl fst; simpl snd.
    + split; [apply Hscan; reflexivity|]. split; reflexivity.
    + destruct (diff.Extract_loop out commit _ [] _) as [diffs st]. exists diffs. reflexivity.
  - split; reflexivity.
Qed.

(** The lines of a truncated content. *)
Lemma Split_truncated (lines : list string) :
  300 < length lines -> Forall (fun l => no_LF l = true) lines ->
  Split (Join (take 300 lines) LF +:+ LF +:+ "... [truncated]") LF
  = take 300 lines ++ ["... [truncated]"].
Proof.
  intros Hlong Hall. rewrite Split_LF.
  assert (Hne : take 300 lines <> []) by (destruct lines; simpl in *; [lia|discriminate]).
  rewrite Join_snoc by assumption. apply lines_of_Join.
  - destruct (take 300 lines); [congruence|discriminate].
  - apply Forall_app. split; [apply Forall_take, Hall|repeat constructor].
Qed.

(** X3. The content of a diff unit that [Extract] returns has as many
    lines as the patch had, and 301 when the patch had more than 300: the
    text handed to the reviewer is bounded in lines. *)
Theorem Extract_content_has_at_most_301_lines {Time World : Type}
    (out : Outside Time World) (commit : Commit.t Time) (w : World)
    (diffs : list Diff.t) (d : Diff.t) :
  value_of (run (diff.Extract out commit) w) = inl diffs ->
  In d diffs ->
  Z.of_nat (length (Split (Diff.Content d) LF))
  = Z.min (Diff.LineCount d) (Diff.MaxDiffLines + 1).
Proof.
  intros Hrun Hd.
  destruct (Extract_extracted out commit w diffs d Hrun Hd)
    as (raw & _ & _ & _ & Hcount & Hcontent & _).
  rewrite Hcontent, Hcount. unfold Diff.MaxDiffLines.
  destruct (Z.ltb_spec 300 (Z.of_nat (length (Split raw LF)))) as [Hlong|Hshort].
  - change (Z.to_nat 300) with 300. unfold truncation_marker.
    rewrite Split_truncated; [|lia|rewrite Split_LF; apply lines_of_no_LF].
    rewrite length_app, length_take. change (length ["... [truncated]"]) with 1. lia.
  - lia.
Qed.

Lemma Extract_content_has_at_most_301_lines_witness :
  Z.of_nat (length (Split (Diff.Content (first_diff (value_of (extract_toy long_patch)))) LF))
  = Z.min (Diff.LineCount (first_diff (value_of (extract_toy long_patch))))
      (Diff.MaxDiffLines + 1).
Proof.
  apply (Extract_content_has_at_most_301_lines
           (toy (one_file_git long_patch) (inl "") (inl []) []) toy_commit 0
           [first_diff (value_of (extract_toy long_patch))]).
  - vm_compute. reflexivity.
  - left. reflexivity.
Defined.

Section ExtractFlags.
Context {Time World : Type} (out : Outside Time World).

Lemma Extract_file_plain (commit : Commit.t Time) (file : string) (diffs : list Diff.t)
    (st : World * list (Event Time)) :
  Forall (plain_unit commit) diffs ->
  Forall (plain_unit commit) (fst (diff.Extract_file out commit file diffs st)).
Proof.
  intros Hall. unfold diff.Extract_file.
  destruct (Diff.SupportedExtensions !! filepath.Ext file) as [lang|]; [|exact Hall].
  destruct (diff.shouldExclude file); [exact Hall|].
  unfold bind. destruct (diff.getFileDiff out _ _ file st) as [[raw|err] st1].
  - unfold ret. simpl. apply Forall_app. split; [exact Hall|].
    constructor; [|constructor]. repeat split.
  - unfold Printf, emit, ret. simpl. exact Hall.
Qed.

Lemma Extract_loop_plain (commit : Commit.t Time) (files : list string) :
  forall (diffs : list Diff.t) (st : World * list (Event Time)),
  Forall (plain_unit commit) diffs ->
  Forall (plain_unit commit) (fst (diff.Extract_loop out commit files diffs st)).
Proof.
  induction files as [|file files IH]; intros diffs st Hall; [exact Hall|].
  simpl. unfold bind.
  pose proof (Extract_file_plain commit file diffs st Hall) as Hfile.
  destruct (diff.Extract_file out commit file diffs st) as [diffs1 st1].
  apply IH, Hfile.
Qed.

End ExtractFlags.

(** X4. [Extract] never records the kind of a change: in every diff unit
    it returns [OldPath] is empty and [IsNew], [IsDeleted] and [IsRenamed]
    are false, also for a file that the commit added or renamed. The unit
    carries the hash and the repository path of the commit, and the last
    element of that path as the repository name. *)
Theorem Extract_never_sets_the_change_kind {Time World : Type}
    (out : Outside Time World) (commit : Commit.t Time) (w : World)
    (diffs : list Diff.t) (d : Diff.t) :
  value_of (run (diff.Extract out commit) w) = inl diffs ->
  In d diffs ->
  Diff.OldPath d = "" /\ Diff.IsNew d = false /\ Diff.IsDeleted d = false
  /\ Diff.IsRenamed d = false
  /\ Diff.CommitHash d = Commit.Hash commit
  /\ Diff.RepoPath d = Commit.RepoPath commit
  /\ Diff.RepoName d = filepath.Base (Commit.RepoPath commit).
Proof.
  unfold run, value_of, diff.Extract, bind.
  destruct (diff.getChangedFiles out _ _ (w, [])) as [[files [err|]] st]; simpl;
    [discriminate|].
  pose proof (Extract_loop_plain out commit files [] st (List.Forall_nil _)) as Hloop.
  destruct (diff.Extract_loop out commit files [] st) as [diffs' st']. simpl in *.
  intros [= <-] Hd. rewrite Forall_forall in Hloop.
  apply (Hloop d). apply list_elem_of_In. exact Hd.
Qed.

(** The commit of the example adds [new.go] and renames [old.go]. *)
Lemma Extract_never_sets_the_change_kind_witness :
  let d := nth 1 (match value_of (run (diff.Extract renaming toy_commit) 0) with
                  | inl diffs => diffs
                  | inr _ => []
                  end) (first_diff (inr ErrTooLong)) in
  Diff.FilePath d = "renamed.go"
  /\ Diff.OldPath d = "" /\ Diff.IsNew d = false /\ Diff.IsDeleted d = false
  /\ Diff.IsRenamed d = false
  /\ Diff.CommitHash d = Commit.Hash toy_commit
  /\ Diff.RepoPath d = Commit.RepoPath toy_commit
  /\ Diff.RepoName d = filepath.Base (Commit.RepoPath toy_commit).
Proof.
  split; [vm_compute; reflexivity|].
  apply (Extract_never_sets_the_change_kind renaming toy_commit 0
           (match value_of (run (diff.Extract renaming toy_commit) 0) with
            | inl diffs => diffs
            | inr _ => []
            end)).
  - vm_compute. reflexivity.
  - vm_compute. right. left. reflexivity.
Defined.

(** ** Fields *)

(** A white space character that does not start a text does not start a
    prefix of it. *)
Lemma space_width_prefix (b t : string) :
  space_width (b +:+ t) = 0 -> space_width b = 0.
Proof.
  destruct b as [|c [|d [|e b]]]; [reflexivity|..]; rewrite ?app_cons;
    [| |intros H; exact H].
  - unfold space_width.
    destruct ((9 <=? code c) && (code c <=? 13) || (code c =? 32)); [discriminate|].
    reflexivity.
  - change ("" +:+ t) with t. unfold space_width.
    destruct ((9 <=? code c) && (code c <=? 13) || (code c =? 32)); [discriminate|].
    destruct ((code c =? 194) && ((code d =? 133) || (code d =? 160))); [discriminate|].
    reflexivity.
Qed.

Lemma clear_no_space (cur s : string) : clear_of_space cur s = true -> no_space cur = true.
Proof.
  induction cur as [|c cur IH]; [reflexivity|].
  intros H. apply andb_true_iff in H as [Hc H]. apply Nat.eqb_eq in Hc.
  change (no_space (String c cur))
    with ((space_width (String c cur) =? 0) && no_space cur).
  rewrite (space_width_prefix _ _ Hc), (IH H). reflexivity.
Qed.

Lemma clear_snoc (cur : string) (c : ascii) (s : string) :
  clear_of_space cur (String c s) = true -> space_width (String c s) = 0 ->
  clear_of_space (cur +:+ String c "") s = true.
Proof.
  intros Hcur Hc. induction cur as [|d cur IH].
  - change ((space_width (String c s) =? 0) && true = true).
    rewrite Hc. reflexivity.
  - apply andb_true_iff in Hcur as [Hd Hcur].
    rewrite app_cons.
    change ((space_width (String d (cur +:+ String c "") +:+ s) =? 0)
            && clear_of_space (cur +:+ String c "") s = true).
    rewrite (IH Hcur), andb_true_r.
    rewrite app_cons, app_assoc_s in *. exact Hd.
Qed.

Lemma flush_file_names (cur s : string) :
  clear_of_space cur s = true -> Forall file_name (flush cur).
Proof.
  intros H. destruct cur as [|c cur]; [constructor|].
  constructor; [|constructor]. split; [discriminate|]. eapply clear_no_space, H.
Qed.

Lemma Fields_loop_file_names (fuel : nat) : forall cur s : string,
  clear_of_space cur s = true -> Forall file_name (Fields_loop fuel cur s).
Proof.
  induction fuel as [|fuel IH]; intros cur s Hcur; [eapply flush_file_names, Hcur|].
  destruct s as [|c s]; [eapply flush_file_names, Hcur|].
  change (Fields_loop (S fuel) cur (String c s))
    with (match space_width (String c s) with
          | O => Fields_loop fuel (cur +:+ String c EmptyString) s
          | S w => flush cur ++ Fields_loop fuel EmptyString (skip_bytes (S w) (String c s))
          end).
  destruct (space_width (String c s)) as [|w] eqn:Hw.
  - apply IH, clear_snoc; assumption.
  - apply Forall_app. split; [eapply flush_file_names, Hcur|]. apply IH. reflexivity.
Qed.

(** The fields of a text are not empty and hold no white space. *)
Lemma Fields_file_names (s : string) : Forall file_name (Fields s).
Proof. apply Fields_loop_file_names. reflexivity. Qed.

Lemma getChangedFiles_line_file_names (text : string) (files : list string) :
  Forall file_name files -> Forall file_name (diff.getChangedFiles_line text files).
Proof.
  intros Hall. unfold diff.getChangedFiles_line.
  destruct (String.eqb (TrimSpace text) ""); [exact Hall|].
  pose proof (Fields_file_names (TrimSpace text)) as Hf.
  destruct (2 <=? Z.of_nat (length (Fields (TrimSpace text))))%Z eqn:Hlen; [|exact Hall].
  destruct (negb _); [|exact Hall].
  apply Forall_app. split; [exact Hall|]. constructor; [|constructor].
  rewrite Forall_forall in Hf. apply Hf, list_elem_of_In, nth_In.
  apply Z.leb_le in Hlen. lia.
Qed.

Lemma changed_files_file_names (lines : list string) : forall files : list string,
  Forall file_name files ->
  Forall file_name
    (fold_left (fun files text => diff.getChangedFiles_line text files) lines files).
Proof.
  induction lines as [|line lines IH]; intros files Hall; [exact Hall|].
  simpl. apply IH, getChangedFiles_line_file_names, Hall.
Qed.

(** X5. The paths that [getChangedFiles] returns are not empty and hold
    no white space character: a path is the last white-space-delimited field
    of its line, so of a path with a blank only what follows the last blank
    is returned. *)
Theorem getChangedFiles_returns_fields {Time World : Type} (out : Outside Time World)
    (repoPath commitHash : string) (w : World) :
  Forall (fun file => file <> "" /\ no_space file = true)
    (fst (value_of (run (diff.getChangedFiles out repoPath commitHash) w))).
Proof.
  unfold run, value_of, diff.getChangedFiles, Output, bind, call, emit, ret.
  simpl fst. simpl snd.
  destruct (exec_Output out _ _ _ w) as [[output|err] w1]; cbv beta iota;
    [|simpl; constructor].
  destruct (bufio.ScanLines output) as [lines err]. simpl.
  apply (changed_files_file_names lines []). constructor.
Qed.

(** A path with a blank is cut at the blank. *)
Example getChangedFiles_cuts_at_blanks :
  diff.getChangedFiles_line ("M" +:+ TAB +:+ "docs/release notes.sql") [] = ["notes.sql"].
Proof. reflexivity. Qed.

(** X6. [shouldExclude] holds exactly for the paths in which one of the
    ten exclusion texts occurs, at any position: the match is on substrings,
    not on path elements, so [myvendor/a.go] is excluded as [vendor/a.go]
    is. *)
Theorem shouldExclude_matches_substrings (path : string) :
  diff.shouldExclude path = true
  <-> exists exclude pre post,
        In exclude diff.excludePaths /\ path = pre +:+ exclude +:+ post.
Proof.
  unfold diff.shouldExclude. generalize diff.excludePaths as excludes.
  induction excludes as [|e excludes IH]; simpl.
  - split; [discriminate|]. intros (exclude & _ & _ & [] & _).
  - destruct (Contains path e) eqn:He.
    + split; [intros _|reflexivity]. apply Contains_spec in He as (pre & post & He).
      exists e, pre, post. split; [left; reflexivity|exact He].
    + rewrite IH. split.
      * intros (exclude & pre & post & Hin & Hp). exists exclude, pre, post.
        split; [right; exact Hin|exact Hp].
      * intros (exclude & pre & post & [<-|Hin] & Hp).
        -- assert (Hc : Contains path e = true) by (apply Contains_spec; eauto).
           congruence.
        -- exists exclude, pre, post. split; assumption.
Qed.

Example shouldExclude_inside_a_name :
  diff.shouldExclude "myvendor/a.go" = true /\ diff.shouldExclude "cmd/remocks/a.go" = true
  /\ diff.shouldExclude "vendor.go" = false.
Proof. repeat split; reflexivity. Qed.

(** ** The commit locator *)

Lemma lines_of_log_output (rs : list LogRecord.t) :
  Forall (fun r => no_LF (log_line r) = true) rs ->
  lines_of (log_output rs) = map log_line rs ++ [""].
Proof.
  induction rs as [|r rs IH]; intros Hall; [reflexivity|].
  inversion Hall as [|? ? Hr Hrs]; subst.
  unfold log_output. simpl. rewrite app_assoc_s, lines_of_app by exact Hr.
  f_equal. apply IH, Hrs.
Qed.

Lemma scanned_lines (ls : list string) :
  Forall (fun l => bufio.dropCR (String.rev l) = l
                   /\ (N.of_nat (String.length l) < bufio.MaxScanTokenSize)%N) ls ->
  scanned (ls ++ [""]) = (ls, None).
Proof.
  induction ls as [|l ls IH]; intros Hall; [reflexivity|].
  inversion Hall as [|? ? [Hcr Hlen] Hls]; subst. specialize (IH Hls).
  change ((l :: ls) ++ [""]) with (l :: (ls ++ [""])).
  assert (Hstep : scanned (l :: (ls ++ [""]))
                  = bufio.token (String.rev l) (scanned (ls ++ [""]))).
  { destruct (ls ++ [""]) eqn:Hne; [destruct ls; discriminate|reflexivity]. }
  rewrite Hstep, IH. unfold bufio.token. rewrite length_rev_s.
  destruct (N.leb_spec bufio.MaxScanTokenSize (N.of_nat (String.length l))); [lia|].
  simpl. rewrite Hcr. reflexivity.
Qed.

Lemma dropCR_line (x subject : string) :
  ends_with (byte 13) subject = false ->
  bufio.dropCR (String.rev (x +:+ "|" +:+ subject)) = x +:+ "|" +:+ subject.
Proof.
  intros Hend. unfold ends_with in Hend.
  assert (Hrev : String.rev (x +:+ "|" +:+ subject)
                 = String.rev subject +:+ "|" +:+ String.rev x).
  { rewrite !rev_app_s, app_assoc_s. reflexivity. }
  unfold bufio.dropCR.
  destruct (String.rev (x +:+ "|" +:+ subject)) as [|c r] eqn:Hr.
  - apply (f_equal String.length) in Hrev. rewrite !length_app_s in Hrev.
    simpl in Hrev. lia.
  - assert (Hc : json.is_byte c 13 = false).
    { destruct (String.rev subject) as [|d s'].
      - injection Hrev as -> _. reflexivity.
      - rewrite app_cons in Hrev. injection Hrev as -> _.
        rewrite is_byte_eq by lia. exact Hend. }
    rewrite Hc, <- Hr. apply rev_involutive_s.
Qed.

Lemma five_fields_log_line (r : LogRecord.t) :
  free_of "|" (LogRecord.Hash r) = true -> free_of "|" (LogRecord.Author r) = true ->
  free_of "|" (LogRecord.Email r) = true -> free_of "|" (LogRecord.Stamp r) = true ->
  five_fields (log_line r)
  = Some (LogRecord.Hash r, LogRecord.Author r, LogRecord.Email r, LogRecord.Stamp r,
          LogRecord.Subject r).
Proof.
  intros Hh Ha He Ht. unfold five_fields, log_line.
  rewrite (cut_app "|" 3) by exact Hh. rewrite (cut_app "|" 2) by exact Ha.
  rewrite (cut_app "|" 1) by exact He. rewrite (cut_app "|" 0) by exact Ht.
  rewrite cut_zero. reflexivity.
Qed.

Lemma log_line_not_empty (r : LogRecord.t) : String.eqb (log_line r) "" = false.
Proof.
  apply String.eqb_neq. intros H. apply (f_equal String.length) in H.
  unfold log_line in H. rewrite !length_app_s in H. simpl in H. lia.
Qed.

(** X7. [parseCommits] reads back what the log format prints: for records
    without a bar in the hash, the author name, the email and the timestamp,
    on lines that fit the scanner, whose timestamps parse, it returns the
    commits of the records, in order, with no error and no warning. A bar in
    the subject is kept. *)
Theorem parseCommits_reads_the_log_format {Time World : Type} (out : Outside Time World)
    (repoPath : string) (rs : list (LogRecord.t * Time)) (w : World) :
  Forall (fun rt => well_formed (fst rt)
                    /\ time_Parse out git.RFC3339 (LogRecord.Stamp (fst rt)) = inl (snd rt))
    rs ->
  run (git.parseCommits out (log_output (map fst rs)) repoPath) w
  = ((map (fun rt => commit_of_record repoPath (fst rt) (snd rt)) rs, None), (w, [])).
Proof.
  intros Hall. unfold run, git.parseCommits.
  assert (Hscan : bufio.ScanLines (log_output (map fst rs))
                  = (map log_line (map fst rs), None)).
  { rewrite ScanLines_scanned, lines_of_log_output.
    - apply scanned_lines. apply Forall_map, Forall_map.
      eapply Forall_impl; [exact Hall|]. intros [r t] [(_ & _ & _ & _ & _ & Hcr & Hlen) _].
      split; [|exact Hlen]. unfold log_line. rewrite <- !app_assoc_s.
      rewrite app_assoc_s. apply dropCR_line, Hcr.
    - apply Forall_map. eapply Forall_impl; [exact Hall|].
      intros [r t] [(_ & _ & _ & _ & Hlf & _) _]. exact Hlf. }
  rewrite Hscan. clear Hscan. unfold bind. rewrite parseCommits_loop_spec. unfold ret. simpl.
  f_equal; [f_equal|f_equal].
  - induction Hall as [|[r t] rs [(Hh & Ha & He & Ht & _) Hparse] _ IH]; [reflexivity|].
    simpl. unfold commit_of_line at 1.
    rewrite log_line_not_empty, five_fields_log_line by assumption.
    simpl in Hparse. rewrite Hparse. simpl. f_equal. exact IH.
  - induction Hall as [|[r t] rs [(Hh & Ha & He & Ht & _) Hparse] _ IH]; [reflexivity|].
    simpl. unfold warning_of_line at 1.
    rewrite log_line_not_empty, five_fields_log_line by assumption.
    simpl in Hparse. rewrite Hparse. simpl. exact IH.
Qed.

Lemma parseCommits_reads_the_log_format_witness :
  run (git.parseCommits (toy (fun _ => inl "") (inl "") (inl []) [])
         (log_output (map fst toy_records)) "/home/ada/projects/cra") 0
  = ((map (fun rt => commit_of_record "/home/ada/projects/cra" (fst rt) (snd rt))
        toy_records, None), (0, [])).
Proof.
  apply (parseCommits_reads_the_log_format (toy (fun _ => inl "") (inl "") (inl []) [])).
  repeat constructor; vm_compute; reflexivity.
Defined.

(** X8. [GetTodaysCommits] runs one sub-process, [git log] in the
    repository with the start of the day as the lower bound, and nothing
    else but warnings follows in the trace. A failure of the command whose
    error output says that the repository does not have any commits is no
    error: no commits and no error are returned. Every other failure is
    returned as "git log failed" wrapping the cause, with no commits. When
    the command succeeds the only error is that of the line scanner, and the
    commits read before it are returned with it. *)
Theorem GetTodaysCommits_runs_git_log_once {Time World : Type} (out : Outside Time World)
    (repoPath : string) (w : World) :
  let r := run (git.GetTodaysCommits out repoPath) w in
  let now := fst (time_Now out w) in
  let listing :=
    fst (exec_Output out repoPath "git" (log_args out now) (snd (time_Now out w))) in
  (exists warnings,
     trace_of r = EvExec repoPath "git" (log_args out now) listing :: warnings
     /\ Forall is_log warnings)
  /\ match listing with
     | inr cause =>
         value_of r
         = ([], match cause with
                | ExitError stderr =>
                    if Contains stderr "does not have any commits" then None
                    else Some (Errorf "git log failed: %w" [arg_error cause])
                | _ => Some (Errorf "git log failed: %w" [arg_error cause])
                end)
     | inl output =>
         fst (value_of r)
         = omap (commit_of_line out repoPath) (fst (bufio.ScanLines output))
         /\ (snd (value_of r) = None \/ snd (value_of r) = Some ErrTooLong)
     end.
Proof.
  cbv zeta. unfold run, value_of, trace_of, git.GetTodaysCommits, Output, bind, call, emit,
    ret, log_args. simpl fst. simpl snd.
  destruct (time_Now out w) as [now w1]. simpl fst. simpl snd.
  destruct (exec_Output out repoPath "git" _ w1) as [[output|cause] w2]; simpl fst; simpl snd;
    cbv beta iota.
  - unfold git.parseCommits, bind.
    pose proof (scan_error output "") as Hscan. fold (bufio.ScanLines output) in Hscan.
    destruct (bufio.ScanLines output) as [lines err].
    rewrite parseCommits_loop_spec. unfold ret. simpl. split; [|split; [reflexivity|]].
    + eexists. split; [reflexivity|]. clear. induction lines as [|line lines IH]; simpl.
      * constructor.
      * unfold warning_of_line at 1. destruct (String.eqb line ""); [exact IH|].
        destruct (five_fields line) as [[[[[? ?] ?] ts] ?]|]; [|exact IH].
        destruct (time_Parse out git.RFC3339 ts); [exact IH|].
        constructor; [exact I|exact IH].
    + destruct err as [err|]; [right|left; reflexivity].
      f_equal. apply Hscan. reflexivity.
  - split.
    + exists []. split; [|constructor].
      destruct cause; try reflexivity. destruct (Contains _ _); reflexivity.
    + destruct cause; try reflexivity. destruct (Contains _ _); reflexivity.
Qed.

Example GetTodaysCommits_empty_repository :
  value_of (run (git.GetTodaysCommits (toy empty_repository_git (inl "") (inl []) [])
                   "/home/ada/projects/new") 0)
  = ([], None).
Proof. vm_compute. reflexivity. Qed.

(** ** The review engine *)

Lemma Contains_prefixed (p s : string) : Contains (p +:+ "/" +:+ s) "/" = true.
Proof. apply Contains_spec. exists p, s. reflexivity. Qed.

(** X9. [NewReviewer] never fails and makes no observable call. The model
    name it settles on always names its provider: it holds a slash, the
    configured name being kept when it has one and prefixed by [openai/] or
    [googleai/] otherwise (after the default name stands in for an empty
    one); it is also the default model of the handle. Every provider other
    than [openai] is treated as [googleai]. An API key in the configuration
    is used as it is, and the environment is then not read. *)
Theorem NewReviewer_settles_the_model {Time World : Type} (out : Outside Time World)
    (cfg : ReviewConfig.t) (w : World) :
  let r := run (review.NewReviewer out cfg) w in
  trace_of r = []
  /\ exists rv,
       value_of r = inl rv
       /\ review.config rv = cfg
       /\ Genkit.DefaultModel (review.genkit rv) = review.modelID rv
       /\ Contains (review.modelID rv) "/" = true
       /\ (if Contains (ReviewConfig.Model cfg) "/"
           then review.modelID rv = ReviewConfig.Model cfg
           else exists name,
                  review.modelID rv = Genkit.Plugin (review.genkit rv) +:+ "/" +:+ name
                  /\ (ReviewConfig.Model cfg <> "" -> name = ReviewConfig.Model cfg))
       /\ Genkit.Plugin (review.genkit rv)
          = (if String.eqb (ReviewConfig.Provider cfg) "openai" then "openai"
             else "googleai")
       /\ (if String.eqb (ReviewConfig.APIKey cfg) "" then True
           else Genkit.APIKey (review.genkit rv) = ReviewConfig.APIKey cfg
                /\ fst (snd r) = w).
Proof.
  cbv zeta. unfold run, value_of, trace_of, review.NewReviewer.
  assert (Hempty : Contains "" "/" = false) by reflexivity.
  assert (Hkey : forall first second (st : World * list (Event Time)),
            snd (snd (review.env_key out first second st)) = snd st).
  { intros first second [w0 tr0]. unfold review.env_key, bind, call, ret. simpl.
    destruct (os_Getenv out first w0) as [k w1]. simpl.
    destruct (String.eqb k ""); [|reflexivity]. simpl.
    destruct (os_Getenv out second w1). reflexivity. }
  destruct (String.eqb (ReviewConfig.Provider cfg) "openai");
    destruct (String.eqb (ReviewConfig.APIKey cfg) "") eqn:Hk; unfold bind;
    try (match goal with
         | |- context [review.env_key out ?a ?b ?st] =>
             pose proof (Hkey a b st) as Htr;
             destruct (review.env_key out a b st) as [apiKey [w1 tr1]];
             simpl in Htr; subst tr1
         end);
    unfold ret; simpl; (split; [reflexivity|]); eexists; (split; [reflexivity|]); simpl;
    (split; [reflexivity|]); (split; [reflexivity|]);
    destruct (String.eqb_spec (ReviewConfig.Model cfg) "") as [Hm|Hm];
    rewrite ?Hm, ?Hempty; simpl;
    try (destruct (Contains (ReviewConfig.Model cfg) "/") eqn:Hc; simpl);
    repeat split; try reflexivity; try assumption;
    try apply Contains_prefixed;
    try (eexists; split; [reflexivity|]; intros H; try reflexivity; congruence).
Qed.

(** X10. For a collection of diff units that is not empty [Review] asks
    the model once, whatever the number of units, with the model name of the
    reviewer and the one prompt built from all units. When generation or
    parsing fails it returns the wrapped error with no finding and an empty
    summary; otherwise it returns the findings and the summary of the parsed
    answer. *)
Theorem Review_asks_the_model_once {Time World : Type} (out : Outside Time World)
    (rv : review.Reviewer) (diffs : list Diff.t) (w : World) :
  diffs <> [] ->
  let r := run (review.Review out rv diffs) w in
  let answer :=
    fst (genkit_GenerateText out (review.genkit rv) (review.modelID rv)
           (review.buildPrompt diffs) w) in
  trace_of r = [EvGenerateText (review.modelID rv) (review.buildPrompt diffs)]
  /\ match answer with
     | inr cause =>
         value_of r = ([], "", Some (Errorf "generating review: %w" [arg_error cause]))
     | inl text =>
         match review.parseResponse text with
         | inr cause =>
             value_of r = ([], "", Some (Errorf "parsing response: %w" [arg_error cause]))
         | inl output =>
             value_of r
             = (ReviewOutput.Findings output, ReviewOutput.Summary output, None)
         end
     end.
Proof.
  intros Hne. cbv zeta. unfold run, value_of, trace_of, review.Review.
  destruct diffs as [|d diffs]; [congruence|].
  change (Z.of_nat (length (d :: diffs)) =? 0)%Z with false. cbv iota.
  unfold review.GenerateText, bind, call, emit, ret. simpl fst. simpl snd.
  destruct (genkit_GenerateText out _ _ _ w) as [[text|cause] w1]; simpl.
  - destruct (review.parseResponse text); split; reflexivity.
  - split; reflexivity.
Qed.

Lemma Review_asks_the_model_once_witness :
  trace_of (run (review.Review (toy one_file_git_plus (inl clean_response) (inl []) [])
                   toy_reviewer [toy_diff; toy_diff]) 0)
  = [EvGenerateText "openai/glm-4.7" (review.buildPrompt [toy_diff; toy_diff])]
  /\ value_of (run (review.Review (toy one_file_git_plus (inl clean_response) (inl []) [])
                      toy_reviewer [toy_diff; toy_diff]) 0)
     = (ReviewOutput.Findings clean_output, ReviewOutput.Summary clean_output, None).
Proof.
  destruct (Review_asks_the_model_once
              (toy one_file_git_plus (inl clean_response) (inl []) [])
              toy_reviewer [toy_diff; toy_diff] 0) as [Htr Hval]; [discriminate|].
  split; [exact Htr|]. exact Hval.
Defined.

Lemma concat_app_s (xs ys : list string) :
  GoString.concat (xs ++ ys) = GoString.concat xs +:+ GoString.concat ys.
Proof.
  induction xs as [|x xs IH]; [reflexivity|].
  simpl. rewrite IH, app_assoc_s. reflexivity.
Qed.

(** X11. The prompt starts with the system prompt and ends with the
    output instructions, whatever the diff units are. Every unit has a
    section of its own between them, in the order of the units, and the
    section ends with the content of the unit, unchanged, inside a fence. *)
Theorem buildPrompt_frames_every_unit (before after : list Diff.t) (d : Diff.t) :
  exists title,
    review.buildPrompt (before ++ d :: after)
    = prompt_head
      +:+ GoString.concat (map review.buildPrompt_diff before)
      +:+ (title +:+ diff_block d)
      +:+ GoString.concat (map review.buildPrompt_diff after)
      +:+ review.outputInstructions
    /\ HasPrefix (review.buildPrompt (before ++ d :: after)) review.systemPrompt = true
    /\ title = ("### Repository: " +:+ Diff.RepoName d +:+ LF)
               +:+ ("### File: " +:+ Diff.FilePath d +:+ " (" +:+ Diff.Language d +:+ ")"
                    +:+ LF).
Proof.
  eexists. split; [|split; [|reflexivity]].
  - unfold review.buildPrompt, prompt_head. rewrite map_app, concat_app_s. simpl.
    unfold review.buildPrompt_diff at 2, diff_block. rewrite !app_assoc_s. reflexivity.
  - apply HasPrefix_spec. unfold review.buildPrompt. eexists. reflexivity.
Qed.

Lemma TrimSpace_blank (ws : string) : all_space ws = true -> TrimSpace ws = "".
Proof.
  intros Hws. unfold TrimSpace. rewrite <- (app_empty_r ws) at 1.
  rewrite TrimLeftSpace_spaces by (exact Hws || reflexivity). reflexivity.
Qed.

(** X12. An answer that is empty, or holds only blanks, tabs and line
    ends, is an error for [parseResponse], not an empty review: the error is
    "failed to parse JSON" wrapping the syntax error of the decoder. *)
Theorem parseResponse_rejects_a_blank_answer (ws : string) :
  all_space ws = true ->
  review.parseResponse ws
  = inr (Errorf ("failed to parse JSON: %w" +:+ LF +:+ "Response was: %s")
           [arg_error SyntaxError; arg_string ""]).
Proof.
  intros Hws. unfold review.parseResponse. rewrite (TrimSpace_blank ws Hws). reflexivity.
Qed.

Lemma parseResponse_rejects_a_blank_answer_witness :
  review.parseResponse (" " +:+ LF +:+ TAB)
  = inr (Errorf ("failed to parse JSON: %w" +:+ LF +:+ "Response was: %s")
           [arg_error SyntaxError; arg_string ""]).
Proof. apply parseResponse_rejects_a_blank_answer. reflexivity. Defined.

(** ** Delivery *)

(** X13. [SendReport] builds one message, from the report as HTML and the
    subject line, before the first attempt; every attempt goes to the
    address [host:port] of the configuration with that same message, so that
    a retry repeats the date and the message id of the first attempt.
    [SendReport] returns no error exactly when one of its sessions
    succeeded. *)
Theorem SendReport_repeats_one_message {Time World : Type} (out : Outside Time World)
    (s : notify.Service) (rpt : Report.t Time) (w : World) :
  let r := run (notify.SendReport out s rpt) w in
  let message :=
    fst (notify.buildMessage out s (notify.buildSubject out s rpt) (report_ToHTML out rpt)
           (w, [])) in
  let addr := EmailConfig.SMTPHost (notify.config s) +:+ ":"
              +:+ Itoa (EmailConfig.SMTPPort (notify.config s)) in
  Forall (session_of addr message) (trace_of r)
  /\ (value_of r = None
      <-> exists addr' message' timeout,
            In (EvSend addr' message' timeout None) (trace_of r)).
Proof.
  cbv zeta. unfold run, value_of, trace_of, notify.SendReport, notify.send, bind.
  pose proof (buildMessage_trace out s (notify.buildSubject out s rpt)
                (report_ToHTML out rpt) (w, [])) as Htr.
  destruct (notify.buildMessage out s _ _ (w, [])) as [message [w1 tr1]].
  simpl in Htr. subst tr1.
  pose proof (send_loop_cases out
                (EmailConfig.SMTPHost (notify.config s) +:+ ":"
                   +:+ Itoa (EmailConfig.SMTPPort (notify.config s))) message w1 [])
    as Hcases.
  cbv beta zeta in Hcases.
  set (res := notify.send_loop out 4 _ message _ None (w1, [])) in *.
  destruct res as [v [w2 tr2]]. simpl in Hcases |- *.
  destruct Hcases
    as [[Hv Ht]|[(e1 & Hv & Ht)|[(e1 & e2 & Hv & Ht)|(e1 & e2 & e3 & Hv & Ht)]]];
    subst v tr2; (split; [repeat constructor|]).
  - split; [intros _|reflexivity]. eexists _, _, _. left. reflexivity.
  - split; [intros _|reflexivity]. eexists _, _, _. right; right; right; left. reflexivity.
  - split; [intros _|reflexivity]. eexists _, _, _. do 6 right. left. reflexivity.
  - split; [discriminate|]. intros (a & m & t & Hin). simpl in Hin.
    repeat (destruct Hin as [Hin|Hin]; [discriminate|]). destruct Hin.
Qed.

Lemma no_LF_app (s t : string) : no_LF (s +:+ t) = no_LF s && no_LF t.
Proof.
  induction s as [|c s IH]; [reflexivity|].
  rewrite app_cons. simpl. rewrite IH, andb_assoc. reflexivity.
Qed.

Lemma no_LF_uint (d : Decimal.uint) : no_LF (NilEmpty.string_of_uint d) = true.
Proof. induction d; simpl; try exact IHd; reflexivity. Qed.

Lemma no_LF_Itoa (n : Z) : no_LF (Itoa n) = true.
Proof.
  unfold Itoa, NilZero.string_of_int, NilZero.string_of_uint.
  destruct (Z.to_int n) as [d|d]; destruct d; try reflexivity; simpl; apply no_LF_uint.
Qed.

Lemma lines_of_headers (hs : list string) (rest : string) :
  Forall (fun h => no_LF h = true) hs ->
  lines_of (GoString.concat (map (fun h => h +:+ CRLF) hs) +:+ rest)
  = map (fun h => h +:+ CR) hs ++ lines_of rest.
Proof.
  induction hs as [|h hs IH]; intros Hall; [reflexivity|].
  inversion Hall as [|? ? Hh Hhs]; subst. simpl.
  replace (((h +:+ CRLF) +:+ GoString.concat (map (fun h0 => h0 +:+ CRLF) hs)) +:+ rest)
    with ((h +:+ CR) +:+ LF
          +:+ (GoString.concat (map (fun h0 => h0 +:+ CRLF) hs) +:+ rest)).
  - rewrite lines_of_app; [rewrite IH by exact Hhs; reflexivity|].
    rewrite no_LF_app, Hh. reflexivity.
  - rewrite !app_assoc_s. reflexivity.
Qed.

(** X14. When no field that goes into a header holds a line feed, the
    message that [buildMessage] returns is seven header lines, none of them
    blank, then one blank line, then the body: every line ends with a
    carriage return and a line feed, and the body starts after the first
    blank line. *)
Theorem buildMessage_separates_headers_from_body {Time World : Type}
    (out : Outside Time World) (s : notify.Service) (subject htmlBody : string)
    (w : World) :
  (forall t : Time, no_LF (Time_Format out t notify.RFC1123Z) = true) ->
  no_LF (EmailConfig.FromName (notify.config s)) = true ->
  no_LF (EmailConfig.FromAddress (notify.config s)) = true ->
  no_LF (EmailConfig.ToAddress (notify.config s)) = true ->
  no_LF (EmailConfig.SMTPHost (notify.config s)) = true ->
  no_LF subject = true ->
  exists headers : list string,
    length headers = 7
    /\ Forall (fun h => h <> "" /\ no_LF h = true) headers
    /\ Split (value_of (run (notify.buildMessage out s subject htmlBody) w)) LF
       = map (fun h => h +:+ CR) headers ++ CR :: Split htmlBody LF.
Proof.
  intros Hfmt Hname Hfrom Hto Hhost Hsubject.
  unfold run, value_of, notify.buildMessage, bind, call, ret. simpl fst. simpl snd.
  destruct (time_Now out w) as [now1 w1]. simpl fst. simpl snd.
  destruct (time_Now out w1) as [now2 w2]. simpl fst.
  exists (header_lines out s subject now1 now2).
  assert (Hall : Forall (fun h => h <> "" /\ no_LF h = true)
                   (header_lines out s subject now1 now2)).
  { unfold header_lines. repeat constructor; try discriminate;
      rewrite ?no_LF_app, ?Hname, ?Hfrom, ?Hto, ?Hhost, ?Hsubject, ?Hfmt, ?no_LF_Itoa;
      reflexivity. }
  split; [reflexivity|]. split; [exact Hall|].
  rewrite !Split_LF.
  replace (CR :: lines_of htmlBody) with (lines_of (CRLF +:+ htmlBody)).
  - rewrite <- lines_of_headers.
    + f_equal. unfold header_lines. simpl. rewrite !app_assoc_s. reflexivity.
    + eapply Forall_impl; [exact Hall|]. intros h [_ Hh]. exact Hh.
  - change (CRLF +:+ htmlBody) with (CR +:+ LF +:+ htmlBody).
    apply lines_of_app. reflexivity.
Qed.

Lemma buildMessage_separates_headers_from_body_witness :
  exists headers : list string,
    length headers = 7
    /\ Forall (fun h => h <> "" /\ no_LF h = true) headers
    /\ Split (value_of (run (notify.buildMessage (toy (fun _ => inl "") (inl "") (inl []) [])
                               toy_service "subject" ("<p>a</p>" +:+ LF +:+ "<p>b</p>")) 0))
          LF
       = map (fun h => h +:+ CR) headers
         ++ CR :: Split ("<p>a</p>" +:+ LF +:+ "<p>b</p>") LF.
Proof.
  apply (buildMessage_separates_headers_from_body
           (toy (fun _ => inl "") (inl "") (inl []) []) toy_service "subject"
           ("<p>a</p>" +:+ LF +:+ "<p>b</p>") 0); try reflexivity.
Defined.

Lemma count_severity_filter (sev : Severity) (fs : list Finding.t) : forall count : Z,
  Report.count_severity sev fs count
  = (count + Z.of_nat (length (List.filter
                                 (fun f => String.eqb (Finding.Severity f) sev) fs)))%Z.
Proof.
  induction fs as [|f fs IH]; intros count; simpl; [lia|].
  rewrite IH. destruct (String.eqb (Finding.Severity f) sev); simpl length; lia.
Qed.

(** X15. [HighCount] is the number of findings for which [IsHighPriority]
    holds, and the subject line of the mail is chosen by it: "All Clear" for
    a report without findings, the warning sign with both counts when a
    finding is of high priority, and the plain count otherwise, so also when
    every finding has a severity such as [Critical] or [high] that is not
    the text [High]. *)
Theorem buildSubject_flags_high_priority {Time World : Type} (out : Outside Time World)
    (s : notify.Service) (rpt : Report.t Time) :
  let high := List.filter Finding.IsHighPriority (Report.Findings rpt) in
  let total := Itoa (Z.of_nat (length (Report.Findings rpt))) in
  Report.HighCount rpt = Z.of_nat (length high)
  /\ notify.buildSubject out s rpt
     = "[CRA] Daily Review - " +:+ Time_Format out (Report.Date rpt) "Jan 2" +:+ " - "
       +:+ match Report.Findings rpt, high with
           | [], _ => "✅ All Clear"
           | _ :: _, [] => total +:+ " findings"
           | _ :: _, _ :: _ =>
               "⚠️ " +:+ total +:+ " findings (" +:+ Itoa (Z.of_nat (length high))
               +:+ " high)"
           end.
Proof.
  cbv zeta.
  assert (Hhigh : Report.HighCount rpt
                  = Z.of_nat (length (List.filter Finding.IsHighPriority
                                        (Report.Findings rpt)))).
  { unfold Report.HighCount. rewrite count_severity_filter. reflexivity. }
  split; [exact Hhigh|].
  unfold notify.buildSubject, Report.HasFindings, Report.TotalFindings. rewrite Hhigh.
  destruct (Report.Findings rpt) as [|f fs]; [reflexivity|].
  change (negb (0 <? Z.of_nat (length (f :: fs)))%Z) with false. cbv iota.
  destruct (List.filter Finding.IsHighPriority (f :: fs)) as [|h hs]; [reflexivity|].
  change (0 <? Z.of_nat (length (h :: hs)))%Z with true. cbv iota.
  reflexivity.
Qed.

(** ** Validation of the configuration *)

Lemma set_APIKey_same (c : Config.t) :
  config.set_APIKey c (ReviewConfig.APIKey (Config.Review c)) = c.
Proof. destruct c as [root email [strictness provider model key url] reports verbose].
  reflexivity. Qed.

Lemma Validate_run {Time World : Type} (out : Outside Time World) (c : Config.t) (w : World) :
  run (config.Validate out c) w
  = if String.eqb (Config.RootPath c) "" then
      ((Some (Errorf "root_path is required" []), c), (w, []))
    else
      let missing := os_Stat_IsNotExist out (Config.RootPath c) w in
      if fst missing then
        ((Some (Errorf "root_path does not exist: %s" [arg_string (Config.RootPath c)]), c),
         (snd missing, []))
      else if EmailConfig.Enabled (Config.Email c)
              && String.eqb (EmailConfig.SMTPHost (Config.Email c)) "" then
        ((Some (Errorf "smtp_host is required when email is enabled" []), c),
         (snd missing, []))
      else if EmailConfig.Enabled (Config.Email c)
              && String.eqb (EmailConfig.ToAddress (Config.Email c)) "" then
        ((Some (Errorf "to_address is required when email is enabled" []), c),
         (snd missing, []))
      else if String.eqb (ReviewConfig.APIKey (Config.Review c)) "" then
        let google := os_Getenv out "GOOGLE_API_KEY" (snd missing) in
        if String.eqb (fst google) "" then
          let openai := os_Getenv out "OPENAI_API_KEY" (snd google) in
          if String.eqb (fst openai) "" then ((None, c), (snd openai, []))
          else ((None, config.set_APIKey c (fst openai)), (snd openai, []))
        else ((None, config.set_APIKey c (fst google)), (snd google, []))
      else ((None, c), (snd missing, [])).
Proof.
  unfold run, config.Validate, bind, call, ret.
  destruct (String.eqb (Config.RootPath c) ""); [reflexivity|].
  cbv zeta. simpl fst. simpl snd.
  destruct (os_Stat_IsNotExist out (Config.RootPath c) w) as [[|] w1]; [reflexivity|].
  simpl fst. simpl snd.
  destruct (_ && _); [reflexivity|]. destruct (_ && _); [reflexivity|].
  destruct (String.eqb _ ""); [|reflexivity]. cbv beta. simpl fst. simpl snd.
  destruct (os_Getenv out "GOOGLE_API_KEY" w1) as [k1 w2]. simpl fst. simpl snd.
  destruct (String.eqb k1 ""); [|reflexivity]. cbn [negb fst snd]. cbv beta iota. cbn [negb fst snd].
  destruct (os_Getenv out "OPENAI_API_KEY" w2) as [k2 w3]. simpl fst. simpl snd.
  destruct (String.eqb k2 ""); reflexivity.
Qed.

(** X16. [Validate] accepts a configuration exactly when the root path is
    not empty and exists and, if email is enabled, the SMTP host and the
    recipient are not empty. Nothing else is checked: not the API key, the
    sender address, the port or the provider. *)
Theorem Validate_accepts_exactly {Time World : Type} (out : Outside Time World)
    (c : Config.t) (w : World) :
  fst (value_of (run (config.Validate out c) w)) = None
  <-> Config.RootPath c <> ""
      /\ fst (os_Stat_IsNotExist out (Config.RootPath c) w) = false
      /\ (EmailConfig.Enabled (Config.Email c) = true ->
          EmailConfig.SMTPHost (Config.Email c) <> ""
          /\ EmailConfig.ToAddress (Config.Email c) <> "").
Proof.
  rewrite Validate_run. cbv zeta. unfold value_of.
  destruct (String.eqb_spec (Config.RootPath c) "") as [Hroot|Hroot].
  { simpl. split; [discriminate|]. intros [H _]. contradiction. }
  destruct (fst (os_Stat_IsNotExist out (Config.RootPath c) w)).
  { simpl. split; [discriminate|]. intros (_ & H & _). discriminate. }
  destruct (EmailConfig.Enabled (Config.Email c)); cbn [andb].
  - destruct (String.eqb_spec (EmailConfig.SMTPHost (Config.Email c)) "") as [Hh|Hh].
    { simpl. split; [discriminate|]. intros (_ & _ & H). destruct (H eq_refl). contradiction. }
    destruct (String.eqb_spec (EmailConfig.ToAddress (Config.Email c)) "") as [Ht|Ht].
    { simpl. split; [discriminate|]. intros (_ & _ & H). destruct (H eq_refl). contradiction. }
    split; [intros _; repeat split; assumption|intros _].
    repeat (destruct (String.eqb _ "")); reflexivity.
  - split; [intros _; repeat split; try assumption; discriminate|intros _].
    repeat (destruct (String.eqb _ "")); reflexivity.
Qed.

(** X17. [Validate] records no call and changes at most the API key of
    the configuration. A key that the configuration has is never replaced by
    one of the environment, and a configuration that is rejected is left as
    it is. A missing key is taken from [GOOGLE_API_KEY] and, when that is
    empty, from [OPENAI_API_KEY], whatever the provider is. *)
Theorem Validate_fills_only_a_missing_key {Time World : Type} (out : Outside Time World)
    (c : Config.t) (w : World) :
  let r := run (config.Validate out c) w in
  let c' := snd (value_of r) in
  trace_of r = []
  /\ c' = config.set_APIKey c (ReviewConfig.APIKey (Config.Review c'))
  /\ (if String.eqb (ReviewConfig.APIKey (Config.Review c)) "" then
        match fst (value_of r) with
        | Some _ => c' = c
        | None =>
            let w1 := snd (os_Stat_IsNotExist out (Config.RootPath c) w) in
            let google := os_Getenv out "GOOGLE_API_KEY" w1 in
            let openai := os_Getenv out "OPENAI_API_KEY" (snd google) in
            ReviewConfig.APIKey (Config.Review c')
            = (if String.eqb (fst google) "" then fst openai else fst google)
        end
      else c' = c).
Proof.
  cbv zeta. rewrite Validate_run. cbv zeta. unfold value_of, trace_of.
  pose proof (set_APIKey_same c) as Hsame.
  destruct (String.eqb (Config.RootPath c) "").
  { simpl. destruct (String.eqb _ ""); repeat split; congruence. }
  destruct (fst (os_Stat_IsNotExist out (Config.RootPath c) w)).
  { simpl. destruct (String.eqb _ ""); repeat split; congruence. }
  destruct (_ && _). { simpl. destruct (String.eqb _ ""); repeat split; congruence. }
  destruct (_ && _). { simpl. destruct (String.eqb _ ""); repeat split; congruence. }
  destruct (String.eqb (ReviewConfig.APIKey (Config.Review c)) "") eqn:Hkey;
    [|simpl; repeat split; congruence].
  destruct (String.eqb (fst (os_Getenv out "GOOGLE_API_KEY" _)) "") eqn:Hk1;
    [|simpl; repeat split].
  destruct (String.eqb (fst (os_Getenv out "OPENAI_API_KEY" _)) "") eqn:Hk2;
    simpl; repeat split; try congruence.
  apply String.eqb_eq in Hkey, Hk2. congruence.
Qed.

(** ** The orchestrator *)

(** *** What a run may record: a general rule *)

Section RunEmits.
Context {Time World : Type} (out : Outside Time World).
Variable P : Event Time -> Prop.
Variable verbose : bool.
Hypothesis P_log : verbose = true -> forall format args, P (EvLog format args).
Hypothesis P_timestamp :
  forall args, P (EvLog "Warning: failed to parse timestamp %s: %v" args).
Hypothesis P_diff : forall args, P (EvLog "Warning: failed to get diff for %s: %v" args).
Hypothesis P_attempt : forall args, P (EvLog "Email attempt %d failed: %v" args).
Hypothesis P_exec : forall dir name args res, P (EvExec dir name args res).
Hypothesis P_find : forall root, P (EvFindRepositories root).
Hypothesis P_generate : forall model prompt, P (EvGenerateText model prompt).
Hypothesis P_write : forall rpt, P (EvWriteReport rpt).
Hypothesis P_send : forall addr message timeout res, P (EvSend addr message timeout res).
Hypothesis P_sleep : forall d, P (EvSleep d).

Local Hint Resolve P_timestamp P_diff P_attempt P_exec P_find P_generate P_write P_send
  P_sleep : core.

Lemma emits_log_when (cfg : Config.t) (format : string) (args : list fmt_arg) :
  Config.Verbose cfg = verbose -> emits P (app.log (Time:=Time) (World:=World) cfg format args).
Proof.
  intros Hv. unfold app.log. destruct (Config.Verbose cfg) eqn:Hc.
  - apply emits_emit, P_log. congruence.
  - apply emits_ret.
Qed.

Ltac emits_run Hv :=
  repeat lazymatch goal with
  | |- emits _ (bind _ _) => apply emits_bind; [|intros]
  | |- emits _ (ret _) => apply emits_ret
  | |- emits _ (call _) => apply emits_call
  | |- emits _ (emit _) => apply emits_emit; auto
  | |- emits _ (Printf _ _) => apply emits_emit; auto
  | |- emits _ (app.log _ _ _) => apply emits_log_when; exact Hv
  | |- emits _ (if ?b then _ else _) => destruct b
  | |- emits _ (match ?x with _ => _ end) => destruct x
  end.

Lemma emits_GetTodaysCommits_when (repoPath : string) :
  emits P (git.GetTodaysCommits out repoPath).
Proof.
  unfold git.GetTodaysCommits. apply emits_bind; [apply emits_call|intros now].
  apply emits_bind; [unfold Output; emits_run I|intros res].
  destruct res as [output|err]; [|destruct err; emits_run I].
  unfold git.parseCommits. destruct (bufio.ScanLines output) as [lines err].
  apply emits_bind; [|intros; apply emits_ret].
  generalize (@nil (Commit.t Time)). induction lines as [|line lines IH]; intros commits.
  - apply emits_ret.
  - simpl. apply emits_bind; [|intros; apply IH].
    unfold git.parseCommits_line. emits_run I.
Qed.

Lemma emits_Extract_when (commit : Commit.t Time) : emits P (diff.Extract out commit).
Proof.
  unfold diff.Extract. apply emits_bind.
  - unfold diff.getChangedFiles, Output. emits_run I.
  - intros [files [err|]]; [apply emits_ret|].
    apply emits_bind; [|intros; apply emits_ret].
    generalize (@nil Diff.t). induction files as [|file files IH]; intros diffs.
    + apply emits_ret.
    + simpl. apply emits_bind; [|intros; apply IH].
      unfold diff.Extract_file, diff.getFileDiff, Output.
      destruct (Diff.SupportedExtensions !! filepath.Ext file); [|apply emits_ret].
      destruct (diff.shouldExclude file); [apply emits_ret|]. emits_run I.
Qed.

Lemma Validate_Verbose (cfg : Config.t) (st : World * list (Event Time)) :
  Config.Verbose (snd (fst (config.Validate out cfg st))) = Config.Verbose cfg.
Proof.
  unfold config.Validate, bind, call, ret. destruct st as [w tr].
  destruct (String.eqb (Config.RootPath cfg) ""); [reflexivity|]. simpl.
  destruct (os_Stat_IsNotExist out _ w) as [[|] w1]; [reflexivity|].
  destruct (_ && _); [reflexivity|]. destruct (_ && _); [reflexivity|].
  destruct (String.eqb _ ""); [|reflexivity]. simpl.
  destruct (os_Getenv out _ w1) as [key w2]. destruct (negb _); [reflexivity|]. simpl.
  destruct (os_Getenv out _ w2) as [key' w3]. destruct (negb _); reflexivity.
Qed.

Lemma emits_bind_post {A B : Type} (m : @IO Time World A) (k : A -> @IO Time World B)
    (Q : A -> Prop) :
  (forall st, Q (fst (m st))) -> emits P m -> (forall a, Q a -> emits P (k a)) ->
  emits P (bind m k).
Proof.
  intros HQ Hm Hk st. unfold bind. destruct (Hm st) as (evs1 & Htr1 & Hall1).
  specialize (HQ st). destruct (m st) as [a st1].
  destruct (Hk a HQ st1) as (evs2 & Htr2 & Hall2).
  exists (evs1 ++ evs2). simpl in Htr1. rewrite Htr2, Htr1, app_assoc.
  split; [reflexivity|]. apply Forall_app. split; assumption.
Qed.

Lemma Run_scan_Verbose (cfg : Config.t) (st : World * list (Event Time)) :
  match fst (app.Run_scan out cfg st) with
  | inr (_, cfg', _) => Config.Verbose cfg' = Config.Verbose cfg
  | inl _ => True
  end.
Proof.
  unfold app.Run_scan, bind. destruct (call (time_Now out) st) as [startTime st1].
  pose proof (Validate_Verbose cfg st1) as Hv.
  destruct (config.Validate out cfg st1) as [[[err|] cfg1] st2]; simpl in Hv; [exact I|].
  destruct (app.log cfg1 _ _ st2) as [[] st3].
  destruct (app.log cfg1 _ _ st3) as [[] st4].
  destruct (app.FindRepositories out _ st4) as [[rs|err] st5]; [|exact I].
  destruct (app.log cfg1 _ _ st5) as [[] st6]. exact Hv.
Qed.

Lemma emits_Run_scan_when (cfg : Config.t) :
  Config.Verbose cfg = verbose -> emits P (app.Run_scan out cfg).
Proof.
  intros Hv. unfold app.Run_scan.
  apply emits_bind; [apply emits_call|intros startTime].
  apply (emits_bind_post _ _ (fun r => Config.Verbose (snd r) = verbose)).
  - intros st. rewrite Validate_Verbose. exact Hv.
  - unfold config.Validate. emits_run I.
  - intros [err cfg1] Hv1. simpl in Hv1. unfold app.FindRepositories. emits_run Hv1.
Qed.

Lemma emits_Run_commits_when (cfg : Config.t) (repos : list string) :
  Config.Verbose cfg = verbose -> emits P (app.Run_commits out cfg repos).
Proof.
  intros Hv. unfold app.Run_commits. apply emits_bind; [emits_run Hv|intros _].
  apply emits_bind; [|intros; emits_run Hv].
  generalize (@nil (Commit.t Time)). induction repos as [|repo repos IH]; intros commits.
  - apply emits_ret.
  - simpl. apply emits_bind; [apply emits_GetTodaysCommits_when|intros [cs [err|]]].
    + apply emits_bind; [emits_run Hv|intros; apply IH].
    + apply IH.
Qed.

Lemma emits_Run_diffs_when (cfg : Config.t) (commits : list (Commit.t Time)) :
  Config.Verbose cfg = verbose -> emits P (app.Run_diffs out cfg commits).
Proof.
  intros Hv. unfold app.Run_diffs. apply emits_bind; [emits_run Hv|intros _].
  apply emits_bind; [|intros [allDiffs|reason]; emits_run Hv].
  generalize (@nil Diff.t). induction commits as [|commit commits IH]; intros diffs.
  - apply emits_ret.
  - simpl. apply emits_bind; [apply emits_Extract_when|intros [ds|err]]; [apply IH|].
    destruct (len (Commit.Hash commit) <? 8)%Z; [apply emits_ret|].
    apply emits_bind; [emits_run Hv|intros; apply IH].
Qed.

Lemma emits_handleNoFindings_when (cfg : Config.t) :
  Config.Verbose cfg = verbose -> emits P (app.handleNoFindings out cfg).
Proof. intros Hv. unfold app.handleNoFindings, app.Write. emits_run Hv. Qed.

Lemma emits_send_loop_when (addr message : string) (fuel : nat) :
  forall (attempt : Z) (lastErr : option error),
  emits P (notify.send_loop out fuel addr message attempt lastErr).
Proof.
  induction fuel as [|fuel IH]; intros attempt lastErr; [apply emits_ret|].
  simpl. destruct (attempt <=? 3)%Z; [|apply emits_ret].
  apply emits_bind; [unfold notify.sendWithTimeout; emits_run I|].
  intros [err|]; [|apply emits_ret].
  apply emits_bind; [apply emits_emit; auto|intros _].
  apply emits_bind; [|intros _; apply IH].
  destruct (attempt <? 3)%Z; [|apply emits_ret].
  unfold notify.Sleep. emits_run I.
Qed.

Lemma emits_Run_notify_when (cfg : Config.t) (startTime : Time) (rpt : Report.t Time) :
  Config.Verbose cfg = verbose -> emits P (app.Run_notify out cfg startTime rpt).
Proof.
  intros Hv. unfold app.Run_notify. apply emits_bind; [|intros [err|]; emits_run Hv].
  destruct (_ && _); [|apply emits_ret].
  apply emits_bind; [emits_run Hv|intros _].
  apply emits_bind; [apply emits_ret|intros [notifier|err]]; [|apply emits_ret].
  apply emits_bind; [|intros [err|]; emits_run Hv].
  unfold notify.SendReport, notify.send.
  apply emits_bind; [unfold notify.buildMessage; emits_run I|intros message].
  apply emits_send_loop_when.
Qed.

Lemma emits_Run_review_when (cfg : Config.t) (startTime : Time) (repos : list string)
    (allCommits : list (Commit.t Time)) (allDiffs : list Diff.t) :
  Config.Verbose cfg = verbose ->
  emits P (app.Run_review out cfg startTime repos allCommits allDiffs).
Proof.
  intros Hv. unfold app.Run_review.
  apply emits_bind; [emits_run Hv|intros _].
  apply emits_bind; [unfold review.NewReviewer, review.env_key; emits_run I|].
  intros [reviewer|err]; [|apply emits_ret].
  apply emits_bind; [emits_run Hv|intros _].
  apply emits_bind.
  { unfold review.Review, review.GenerateText. emits_run I. }
  intros [[findings summary] [err|]]; [apply emits_ret|].
  apply emits_bind; [emits_run Hv|intros _].
  apply emits_bind; [emits_run Hv|intros _].
  apply emits_bind; [apply emits_call|intros now].
  apply emits_bind; [unfold app.Write; emits_run I|].
  intros [reportPath|err]; [|apply emits_ret].
  apply emits_bind; [emits_run Hv|intros _].
  apply emits_Run_notify_when, Hv.
Qed.

(** Whatever holds of every event that the steps of a run may record,
    log lines being recorded only by a verbose run and by the three
    warnings of the components, holds of the trace of [Run]. *)
Lemma emits_Run_when (cfg : Config.t) :
  Config.Verbose cfg = verbose -> emits P (app.Run out cfg).
Proof.
  intros Hv. unfold app.Run.
  apply (emits_bind_post _ _
           (fun r => match r with
                     | inr (_, cfg', _) => Config.Verbose cfg' = verbose
                     | inl _ => True
                     end)).
  - intros st. pose proof (Run_scan_Verbose cfg st) as H.
    destruct (fst (app.Run_scan out cfg st)) as [err|[[t cfg'] repos]]; [exact I|].
    congruence.
  - apply emits_Run_scan_when, Hv.
  - intros [err|[[t cfg'] repos]] Hv'; [apply emits_ret|].
    destruct (_ =? 0)%Z; [emits_run Hv'|].
    apply emits_bind; [apply emits_Run_commits_when, Hv'|intros allCommits].
    destruct (_ =? 0)%Z.
    { apply emits_bind; [emits_run Hv'|intros _].
      apply emits_bind; [apply emits_handleNoFindings_when, Hv'|intros; apply emits_ret]. }
    apply emits_bind; [apply emits_Run_diffs_when, Hv'|intros [allDiffs|reason]];
      [|apply emits_ret].
    destruct (_ =? 0)%Z.
    { apply emits_bind; [emits_run Hv'|intros _].
      apply emits_bind; [apply emits_handleNoFindings_when, Hv'|intros; apply emits_ret]. }
    apply emits_bind; [apply emits_Run_review_when, Hv'|intros; apply emits_ret].
Qed.

End RunEmits.

(** X18. A run that is not verbose still writes to the log: the only log
    lines it records are the three warnings that the commit locator, the
    diff extractor and the mail sender write to the logger themselves (a
    timestamp that does not parse, a patch query that fails, a mail attempt
    that fails). Every line that [Run] writes itself is left out. *)
Theorem Run_not_verbose_logs_only_warnings {Time World : Type}
    (out : Outside Time World) (cfg : Config.t) (w : World) :
  Config.Verbose cfg = false ->
  Forall only_warnings (trace_of (run (app.Run out cfg) w)).
Proof.
  intros Hv.
  destruct (emits_Run_when out only_warnings false) with (cfg := cfg) (st := (w, @nil (Event Time)))
    as (evs & Htr & Hall); try (intros; exact I); try exact Hv.
  - discriminate.
  - intros args. simpl. tauto.
  - intros args. simpl. tauto.
  - intros args. simpl. tauto.
  - unfold run, trace_of. rewrite Htr. exact Hall.
Qed.

Lemma Run_not_verbose_logs_only_warnings_witness :
  Forall only_warnings (trace_of silent_run)
  /\ exists args, In (EvLog "Warning: failed to parse timestamp %s: %v" args)
                    (trace_of silent_run).
Proof.
  split.
  - apply (Run_not_verbose_logs_only_warnings
             (toy (toy_git mixed_log "+x") (inl clean_response) (inl toy_repos)
                [Some (External "EOF"); None]) silent_config 0).
    reflexivity.
  - eexists. vm_compute. repeat (first [left; reflexivity | right]).
Defined.

(** X19. A configuration that [Validate] rejects stops the run before
    anything is done: [Run] returns "invalid configuration" wrapping the
    error of [Validate], and records no call at all, not even a log line. *)
Theorem Run_stops_at_an_invalid_configuration {Time World : Type}
    (out : Outside Time World) (cfg : Config.t) (w : World) (cause : error) :
  fst (value_of (run (config.Validate out cfg) (snd (time_Now out w)))) = Some cause ->
  value_of (run (app.Run out cfg) w)
  = Return (Some (Errorf "invalid configuration: %w" [arg_error cause]))
  /\ trace_of (run (app.Run out cfg) w) = [].
Proof.
  unfold run, value_of, trace_of, app.Run, app.Run_scan, bind, call. simpl fst. simpl snd.
  destruct (time_Now out w) as [now w1]. simpl snd.
  pose proof (Validate_run out cfg w1) as Hrun. unfold run in Hrun.
  assert (Htr : snd (snd (config.Validate out cfg (w1, []))) = []).
  { rewrite Hrun. cbv zeta.
    repeat match goal with |- context [if ?b then _ else _] => destruct b end; reflexivity. }
  destruct (config.Validate out cfg (w1, [])) as [[err cfg1] [w2 tr2]].
  simpl in Htr |- *. subst tr2. intros ->. split; reflexivity.
Qed.

Lemma Run_stops_at_an_invalid_configuration_witness :
  value_of (run (app.Run (toy (toy_git toy_log "+x") (inl clean_response) (inl toy_repos)
                            [None]) rootless_config) 0)
  = Return (Some (Errorf "invalid configuration: %w"
                    [arg_error (Errorf "root_path is required" [])]))
  /\ trace_of (run (app.Run (toy (toy_git toy_log "+x") (inl clean_response) (inl toy_repos)
                               [None]) rootless_config) 0) = [].
Proof.
  apply (Run_stops_at_an_invalid_configuration
           (toy (toy_git toy_log "+x") (inl clean_response) (inl toy_repos) [None])
           rootless_config 0).
  reflexivity.
Defined.

(** *** The values of a run *)

Section Returns.
Context {Time World : Type}.
Local Abbreviation IO := (@IO Time World).

Lemma returns_ret {A : Type} (Q : A -> Prop) (a : A) : Q a -> returns Q (ret a : IO A).
Proof. intros Ha st. exact Ha. Qed.

Lemma returns_bind_post {A B : Type} (R : A -> Prop) (Q : B -> Prop) (m : IO A)
    (k : A -> IO B) :
  returns R m -> (forall a, R a -> returns Q (k a)) -> returns Q (bind m k).
Proof.
  intros Hm Hk st. unfold bind. specialize (Hm st). destruct (m st) as [a st1].
  apply Hk, Hm.
Qed.

Lemma returns_bind {A B : Type} (Q : B -> Prop) (m : IO A) (k : A -> IO B) :
  (forall a, returns Q (k a)) -> returns Q (bind m k).
Proof.
  intros Hk. apply (returns_bind_post (fun _ => True)); [intros st; exact I|].
  intros a _. apply Hk.
Qed.

End Returns.

Lemma run_error_intro (format : string) (cause : error) :
  In format run_error_formats -> run_error (Errorf format [arg_error cause]).
Proof.
  intros Hin. exists format, cause. split; [reflexivity|]. split; [exact Hin|].
  simpl in Hin.
  repeat (destruct Hin as [<-|Hin]; [reflexivity|]). destruct Hin.
Qed.

Ltac returns_auto :=
  repeat lazymatch goal with
  | |- returns _ (bind _ _) => apply returns_bind; intros
  | |- returns _ (ret _) =>
      apply returns_ret; simpl;
      try exact I; try (apply run_error_intro; simpl; tauto)
  | |- returns _ (if ?b then _ else _) => destruct b
  | |- returns _ (match ?x with _ => _ end) => destruct x
  end.

Section RunReturns.
Context {Time World : Type} (out : Outside Time World).

Lemma returns_NewReviewer (cfg : ReviewConfig.t) :
  returns (fun r => exists rv, r = inl rv) (review.NewReviewer out cfg).
Proof.
  unfold review.NewReviewer.
  destruct (String.eqb _ "openai"); apply returns_bind; intros apiKey;
    apply returns_ret; eexists; reflexivity.
Qed.

Lemma returns_Run_notify (cfg : Config.t) (startTime : Time) (rpt : Report.t Time) :
  returns run_errors (app.Run_notify out cfg startTime rpt).
Proof.
  unfold app.Run_notify, notify.NewService.
  apply (returns_bind_post run_errors).
  - destruct (_ && _); [|apply returns_ret; exact I].
    apply returns_bind; intros _.
    apply (returns_bind_post (fun r => exists s, r = inl s));
      [apply returns_ret; eexists; reflexivity|].
    intros r [s ->]. returns_auto.
  - intros [err|] Herr; [apply returns_ret; exact Herr|]. returns_auto.
Qed.

Lemma returns_Run_review (cfg : Config.t) (startTime : Time) (repos : list string)
    (allCommits : list (Commit.t Time)) (allDiffs : list Diff.t) :
  returns run_errors (app.Run_review out cfg startTime repos allCommits allDiffs).
Proof.
  unfold app.Run_review. apply returns_bind; intros _.
  apply (returns_bind_post (fun r => exists rv, r = inl rv)); [apply returns_NewReviewer|].
  intros r [rv ->]. apply returns_bind; intros _.
  apply returns_bind; intros [[findings summary] [err|]]; [returns_auto|].
  apply returns_bind; intros _. apply returns_bind; intros _.
  apply returns_bind; intros now. apply returns_bind; intros [reportPath|err];
    [|returns_auto].
  apply returns_bind; intros _. apply returns_Run_notify.
Qed.

Lemma returns_handleNoFindings (cfg : Config.t) :
  returns run_errors (app.handleNoFindings out cfg).
Proof. unfold app.handleNoFindings. returns_auto. Qed.

Lemma returns_Run_scan (cfg : Config.t) :
  returns (fun r => match r with
                    | inl (Some e) => run_error e
                    | inl None => False
                    | inr _ => True
                    end) (app.Run_scan out cfg).
Proof. unfold app.Run_scan. returns_auto. Qed.

Lemma returns_Run (cfg : Config.t) :
  returns (fun v => match v with
                    | Return err => run_errors err
                    | Panic _ => True
                    end) (app.Run out cfg).
Proof.
  unfold app.Run. eapply returns_bind_post; [apply returns_Run_scan|].
  intros [[e|]|[[t cfg'] repos]] Hscan; [apply returns_ret; exact Hscan|destruct Hscan|].
  destruct (_ =? 0)%Z; [returns_auto|].
  apply returns_bind; intros allCommits.
  destruct (_ =? 0)%Z.
  { apply returns_bind; intros _.
    eapply returns_bind_post; [apply returns_handleNoFindings|].
    intros err Herr. apply returns_ret. exact Herr. }
  apply returns_bind; intros [allDiffs|reason]; [|apply returns_ret; exact I].
  destruct (_ =? 0)%Z.
  { apply returns_bind; intros _.
    eapply returns_bind_post; [apply returns_handleNoFindings|].
    intros err Herr. apply returns_ret. exact Herr. }
  eapply returns_bind_post; [apply returns_Run_review|].
  intros err Herr. apply returns_ret. exact Herr.
Qed.

End RunReturns.

Lemma Run_diffs_loop_panic {Time World : Type} (out : Outside Time World) (cfg : Config.t)
    (commits : list (Commit.t Time)) :
  forall (allDiffs : list Diff.t) (st : World * list (Event Time)) (reason : string),
  fst (app.Run_diffs_loop out cfg commits allDiffs st) = Panic reason ->
  reason = "runtime error: slice bounds out of range"
  /\ exists c, In c commits /\ (len (Commit.Hash c) < 8)%Z.
Proof.
  induction commits as [|c commits IH]; intros allDiffs st reason; [discriminate|].
  simpl. unfold bind. destruct (diff.Extract out c st) as [[diffs|err] st1].
  - intros H. destruct (IH _ _ _ H) as (Hr & c' & Hin & Hshort).
    split; [exact Hr|]. exists c'. split; [right; exact Hin|exact Hshort].
  - destruct (Z.ltb_spec (len (Commit.Hash c)) 8) as [Hshort|Hlong].
    + unfold ret. simpl. intros [= <-]. split; [reflexivity|].
      exists c. split; [left; reflexivity|exact Hshort].
    + destruct (app.log cfg _ _ st1) as [[] st2].
      intros H. destruct (IH _ _ _ H) as (Hr & c' & Hin & Hs).
      split; [exact Hr|]. exists c'. split; [right; exact Hin|exact Hs].
Qed.

(** [Run] panics only when the hash of a commit found has fewer than
    eight bytes. *)
Lemma Run_panic_short_hash {Time World : Type} (out : Outside Time World)
    (cfg : Config.t) (w : World) (reason : string) :
  value_of (run (app.Run out cfg) w) = Panic reason ->
  reason = "runtime error: slice bounds out of range"
  /\ exists commits c,
       found_commits out cfg w = Some commits
       /\ In c commits
       /\ (len (Commit.Hash c) < 8)%Z.
Proof.
  unfold found_commits, Run_until_commits, app.Run, run, value_of, bind.
  destruct (app.Run_scan out cfg (w, [])) as [[err|[[t cfg'] repos]] st1];
    [discriminate|].
  destruct (_ =? 0)%Z.
  { destruct (app.log cfg' _ _ st1) as [[] st2]. discriminate. }
  destruct (app.Run_commits out cfg' repos st1) as [allCommits st2].
  destruct (_ =? 0)%Z.
  { destruct (app.log cfg' _ _ st2) as [[] st3].
    destruct (app.handleNoFindings out cfg' st3) as [err st4]. discriminate. }
  unfold app.Run_diffs, bind.
  destruct (app.log cfg' _ _ st2) as [[] st3].
  pose proof (Run_diffs_loop_panic out cfg' allCommits [] st3) as Hloop.
  destruct (app.Run_diffs_loop out cfg' allCommits [] st3) as [[allDiffs|reason'] st4].
  - destruct (app.log cfg' _ _ st4) as [[] st5]. unfold ret at 1. cbv beta iota.
    destruct (_ =? 0)%Z.
    + destruct (app.log cfg' _ _ st5) as [[] st6].
      destruct (app.handleNoFindings out cfg' st6) as [err st7]. discriminate.
    + destruct (app.Run_review out cfg' t repos allCommits allDiffs st5) as [err st6].
      discriminate.
  - unfold ret. simpl. intros [= <-].
    destruct (Hloop reason' eq_refl) as (Hr & c & Hin & Hshort).
    split; [exact Hr|]. exists allCommits, c. repeat split; assumption.
Qed.

(** *** A run in which only git fails *)

Lemma returns_call {Time World A : Type} (Q : A -> Prop) (op : World -> A * World) :
  (forall w, Q (fst (op w))) -> returns Q (call op : @IO Time World A).
Proof. intros H [w tr]. unfold call. simpl. specialize (H w). destruct (op w). exact H. Qed.

Section GitOnly.
Context {Time World : Type} (out : Outside Time World).
Hypothesis Hothers : others_succeed out.

Lemma returns_Write_ok (rpt : Report.t Time) :
  returns (fun r => exists reportPath, r = inl reportPath) (app.Write out rpt).
Proof.
  destruct Hothers as (_ & _ & Hwrite & _). unfold app.Write.
  apply (returns_bind_post (fun r => exists reportPath, r = inl reportPath)).
  - apply returns_call. intros w. apply Hwrite.
  - intros r Hr. apply returns_bind; intros _. apply returns_ret, Hr.
Qed.

Lemma returns_handleNoFindings_ok (cfg : Config.t) :
  returns (fun err => err = None) (app.handleNoFindings out cfg).
Proof.
  unfold app.handleNoFindings. apply returns_bind; intros now.
  eapply returns_bind_post; [apply returns_Write_ok|].
  intros r [reportPath ->]. apply returns_bind; intros _. apply returns_ret. reflexivity.
Qed.

Lemma returns_SendReport_ok (s : notify.Service) (rpt : Report.t Time) :
  returns (fun err => err = None) (notify.SendReport out s rpt).
Proof.
  destruct Hothers as (_ & _ & _ & Hsmtp).
  unfold notify.SendReport, notify.send. apply returns_bind; intros message.
  change (notify.send_loop out 4 ?addr message 1 None)
    with (let* err := notify.sendWithTimeout out addr message (30 * Second)%Z in
          match err with
          | None => ret None
          | Some err =>
              Printf "Email attempt %d failed: %v" [arg_int 1; arg_error err] ;;
              (if (1 <? 3)%Z then notify.Sleep out (1 * 1 * Second)%Z else ret tt) ;;
              notify.send_loop out 3 addr message (1 + 1)%Z (Some err)
          end).
  apply (returns_bind_post (fun err => err = None)).
  - unfold notify.sendWithTimeout.
    apply (returns_bind_post (fun err => err = None)).
    + apply returns_call. intros w. apply Hsmtp.
    + intros err ->. apply returns_bind; intros _. apply returns_ret. reflexivity.
  - intros err ->. apply returns_ret. reflexivity.
Qed.

Lemma returns_Run_notify_ok (cfg : Config.t) (startTime : Time) (rpt : Report.t Time) :
  returns (fun err => err = None) (app.Run_notify out cfg startTime rpt).
Proof.
  unfold app.Run_notify, notify.NewService.
  apply (returns_bind_post (fun err => err = None)).
  - destruct (_ && _); [|apply returns_ret; reflexivity].
    apply returns_bind; intros _.
    apply (returns_bind_post (fun r => exists s, r = inl s));
      [apply returns_ret; eexists; reflexivity|].
    intros r [s ->].
    eapply returns_bind_post; [apply returns_SendReport_ok|].
    intros err ->. apply returns_bind; intros _. apply returns_ret. reflexivity.
  - intros err ->. apply returns_bind; intros now. apply returns_bind; intros _.
    apply returns_ret. reflexivity.
Qed.

Lemma returns_Review_ok (r : review.Reviewer) (diffs : list Diff.t) :
  returns (fun res => snd res = None) (review.Review out r diffs).
Proof.
  destruct Hothers as (_ & Hmodel & _ & _). unfold review.Review, review.GenerateText.
  destruct (_ =? 0)%Z; [apply returns_ret; reflexivity|].
  apply (returns_bind_post
           (fun res => exists answer output,
                         res = inl answer /\ review.parseResponse answer = inl output)).
  - apply (returns_bind_post
             (fun res => exists answer output,
                           res = inl answer /\ review.parseResponse answer = inl output)).
    + apply returns_call. intros w. apply Hmodel.
    + intros res Hres. apply returns_bind; intros _. apply returns_ret, Hres.
  - intros res (answer & output & -> & ->). apply returns_ret. reflexivity.
Qed.

Lemma returns_Run_review_ok (cfg : Config.t) (startTime : Time) (repos : list string)
    (allCommits : list (Commit.t Time)) (allDiffs : list Diff.t) :
  returns (fun err => err = None)
    (app.Run_review out cfg startTime repos allCommits allDiffs).
Proof.
  unfold app.Run_review. apply returns_bind; intros _.
  apply (returns_bind_post (fun r => exists rv, r = inl rv)); [apply returns_NewReviewer|].
  intros r [rv ->]. apply returns_bind; intros _.
  eapply returns_bind_post; [apply returns_Review_ok|].
  intros [[findings summary] err] Herr. simpl in Herr. subst err.
  apply returns_bind; intros _. apply returns_bind; intros _.
  apply returns_bind; intros now.
  eapply returns_bind_post; [apply returns_Write_ok|].
  intros res [reportPath ->]. apply returns_bind; intros _. apply returns_Run_notify_ok.
Qed.

Lemma Run_scan_ok (cfg : Config.t) (w : World) :
  fst (value_of (run (config.Validate out cfg) (snd (time_Now out w)))) = None ->
  exists found, fst (app.Run_scan out cfg (w, [])) = inr found.
Proof.
  destruct Hothers as (Hscan & _). unfold run, value_of, app.Run_scan, bind, call.
  simpl fst. simpl snd. destruct (time_Now out w) as [now w1]. simpl snd.
  destruct (config.Validate out cfg (w1, [])) as [[err cfg1] st1]. simpl. intros ->.
  destruct (app.log cfg1 _ _ st1) as [[] st2]. destruct (app.log cfg1 _ _ st2) as [[] st3].
  unfold app.FindRepositories, bind, call.
  destruct (Hscan (Config.RootPath cfg1) (fst st3)) as [repos Hrepos].
  destruct (scanner_FindRepositories out (Config.RootPath cfg1) (fst st3)) as [res w4].
  simpl in Hrepos. subst res. simpl.
  destruct (app.log cfg1 _ _ _) as [[] st5]. eexists. reflexivity.
Qed.

(** Whatever the calls of git do, such a run returns no error. *)
Lemma Run_git_only (cfg : Config.t) (w : World) :
  fst (value_of (run (config.Validate out cfg) (snd (time_Now out w)))) = None ->
  value_of (run (app.Run out cfg) w) = Return None
  \/ exists reason, value_of (run (app.Run out cfg) w) = Panic reason.
Proof.
  intros Hvalid. destruct (Run_scan_ok cfg w Hvalid) as [[[t cfg'] repos] Hscan].
  unfold run, value_of, app.Run, bind.
  destruct (app.Run_scan out cfg (w, [])) as [scanned st1]. simpl in Hscan. subst scanned.
  destruct (_ =? 0)%Z.
  { destruct (app.log cfg' _ _ st1) as [[] st2]. left. reflexivity. }
  destruct (app.Run_commits out cfg' repos st1) as [allCommits st2].
  destruct (_ =? 0)%Z.
  { destruct (app.log cfg' _ _ st2) as [[] st3].
    pose proof (returns_handleNoFindings_ok cfg' st3) as Herr.
    destruct (app.handleNoFindings out cfg' st3) as [err st4]. simpl in Herr. subst err.
    left. reflexivity. }
  destruct (app.Run_diffs out cfg' allCommits st2) as [[allDiffs|reason] st3];
    [|right; exists reason; reflexivity].
  destruct (_ =? 0)%Z.
  { destruct (app.log cfg' _ _ st3) as [[] st4].
    pose proof (returns_handleNoFindings_ok cfg' st4) as Herr.
    destruct (app.handleNoFindings out cfg' st4) as [err st5]. simpl in Herr. subst err.
    left. reflexivity. }
  pose proof (returns_Run_review_ok cfg' t repos allCommits allDiffs st3) as Herr.
  destruct (app.Run_review out cfg' t repos allCommits allDiffs st3) as [err st4].
  simpl in Herr. subst err. left. reflexivity.
Qed.

End GitOnly.

(** X20. [Run] ends in one of three ways: it returns no error; it returns
    an error that names the stage that failed and wraps the cause (the
    configuration, the scan for repositories, the review, the writing of
    the report, or the sending of the mail; "initializing reviewer" and
    "initializing email service" cannot occur); or it panics with a slice
    bounds error, and then one of the commits found has a hash of fewer than
    eight bytes. The calls of git never make it return an error: when the
    configuration is valid and the scan, the model, the report and the mail
    server work, [Run] returns no error (or panics as said), whatever the
    calls of git return. *)
Theorem Run_errors_name_the_stage {Time World : Type} (out : Outside Time World)
    (cfg : Config.t) (w : World) :
  (forall e, value_of (run (app.Run out cfg) w) = Return (Some e) -> run_error e)
  /\ (forall reason,
        value_of (run (app.Run out cfg) w) = Panic reason ->
        reason = "runtime error: slice bounds out of range"
        /\ exists commits c,
             found_commits out cfg w = Some commits
             /\ In c commits
             /\ (len (Commit.Hash c) < 8)%Z)
  /\ (others_succeed out ->
      fst (value_of (run (config.Validate out cfg) (snd (time_Now out w)))) = None ->
      value_of (run (app.Run out cfg) w) = Return None
      \/ exists reason, value_of (run (app.Run out cfg) w) = Panic reason).
Proof.
  split; [|split].
  - intros e Hrun. pose proof (returns_Run out cfg (w, [])) as H.
    unfold run, value_of in Hrun. rewrite Hrun in H. exact H.
  - intros reason. apply Run_panic_short_hash.
  - intros Hothers. apply Run_git_only, Hothers.
Qed.

Lemma Run_errors_name_the_stage_witness :
  value_of (run (app.Run no_git_world (toy_config true)) 0) = Return None
  \/ exists reason,
       value_of (run (app.Run no_git_world (toy_config true)) 0) = Panic reason.
Proof.
  apply (Run_errors_name_the_stage no_git_world (toy_config true) 0).
  - repeat split.
    + intros root w. exists toy_repos. reflexivity.
    + intros g model prompt w. exists clean_response, clean_output.
      split; [reflexivity|vm_compute; reflexivity].
    + intros rpt w. eexists. reflexivity.
    + intros addr message timeout [|w]; reflexivity.
  - reflexivity.
Defined.

(** The three ways, each in a toy world: git fails and the run returns no
    error; the model fails and the run returns the error of the review; the
    hash of a commit is short and the run panics. *)
Example Run_three_ways :
  value_of (run (app.Run no_git_world (toy_config true)) 0) = Return None
  /\ In (EvExec "/home/ada/projects/cra" "git"
           ["log"; "--since=" +:+ "2006-01-02T15:04:05"; "--no-merges";
            "--format=%H|%an|%ae|%aI|%s"; "--all"]
           (inr (ExitError "fatal: not a git repository")))
       (trace_of (run (app.Run no_git_world (toy_config true)) 0))
  /\ value_of (run (app.Run no_model_world (toy_config true)) 0)
     = Return (Some (Errorf "reviewing code: %w"
                       [arg_error (Errorf "generating review: %w"
                                     [arg_error (External "503 Service Unavailable")])]))
  /\ value_of (run (app.Run short_hash_world silent_config) 0)
     = Panic "runtime error: slice bounds out of range".
Proof.
  split; [vm_compute; reflexivity|]. split; [|split; vm_compute; reflexivity].
  vm_compute. repeat (first [left; reflexivity | right]).
Qed.

(** *** Values and events together *)

Section Post.
Context {Time World : Type}.
Local Abbreviation IO := (@IO Time World).

Lemma post_ret {A : Type} (Q : A -> list (Event Time) -> Prop) (a : A) :
  Q a [] -> post Q (ret a : IO A).
Proof. intros H st. exists []. rewrite app_nil_r. split; [reflexivity|exact H]. Qed.

Lemma post_bind {A B : Type} (Q1 : A -> list (Event Time) -> Prop)
    (Q : B -> list (Event Time) -> Prop) (m : IO A) (k : A -> IO B) :
  post Q1 m ->
  (forall a evs1, Q1 a evs1 -> post (fun b evs2 => Q b (evs1 ++ evs2)) (k a)) ->
  post Q (bind m k).
Proof.
  intros Hm Hk st. unfold bind. destruct (Hm st) as (evs1 & Htr1 & H1).
  destruct (m st) as [a st1]. simpl in Htr1, H1.
  destruct (Hk a evs1 H1 st1) as (evs2 & Htr2 & H2).
  exists (evs1 ++ evs2). rewrite Htr2, Htr1, app_assoc. split; [reflexivity|exact H2].
Qed.

Lemma post_weaken {A : Type} (Q1 Q : A -> list (Event Time) -> Prop) (m : IO A) :
  post Q1 m -> (forall a evs, Q1 a evs -> Q a evs) -> post Q m.
Proof.
  intros Hm HQ st. destruct (Hm st) as (evs & Htr & H). exists evs.
  split; [exact Htr|apply HQ, H].
Qed.

Lemma post_call {A : Type} (op : World -> A * World) :
  post (fun _ evs => evs = []) (call op : IO A).
Proof.
  intros [w tr]. unfold call. simpl. destruct (op w). exists []. simpl.
  rewrite app_nil_r. split; reflexivity.
Qed.

Lemma post_emit (e : Event Time) : post (fun _ evs => evs = [e]) (emit e : IO unit).
Proof. intros st. exists [e]. split; reflexivity. Qed.

Lemma post_log (cfg : Config.t) (format : string) (args : list fmt_arg) :
  post (fun _ evs => Forall is_log evs) (app.log cfg format args : IO unit).
Proof.
  intros st. destruct (log_spec cfg format args st) as (logs & Hlog & Hall).
  exists logs. rewrite Hlog. split; [reflexivity|exact Hall].
Qed.

(** What is known of the events and what is known of the value, together. *)
Lemma post_both {A : Type} (P : Event Time -> Prop) (R : A -> Prop) (m : IO A) :
  emits P m -> returns R m -> post (fun a evs => R a /\ Forall P evs) m.
Proof.
  intros He Hr st. destruct (He st) as (evs & Htr & Hall). exists evs.
  split; [exact Htr|]. split; [apply Hr|exact Hall].
Qed.

Lemma post_emits {A : Type} (P : Event Time -> Prop) (m : IO A) :
  emits P m -> post (fun _ evs => Forall P evs) m.
Proof.
  intros He st. destruct (He st) as (evs & Htr & Hall). exists evs.
  split; [exact Htr|exact Hall].
Qed.

End Post.

Lemma delivered_app_l {Time : Type} (evs1 evs2 : list (Event Time)) :
  delivered evs1 -> delivered (evs1 ++ evs2).
Proof. intros (a & m & Hin). exists a, m. apply in_or_app. left. exact Hin. Qed.

Lemma delivered_app_r {Time : Type} (evs1 evs2 : list (Event Time)) :
  delivered evs2 -> delivered (evs1 ++ evs2).
Proof. intros (a & m & Hin). exists a, m. apply in_or_app. right. exact Hin. Qed.

Lemma post_SendReport {Time World : Type} (out : Outside Time World)
    (s : notify.Service) (rpt : Report.t Time) :
  post (fun v evs => v = None -> delivered evs) (notify.SendReport out s rpt).
Proof.
  intros [w tr]. unfold notify.SendReport, notify.send, bind.
  pose proof (buildMessage_trace out s (notify.buildSubject out s rpt)
                (report_ToHTML out rpt) (w, tr)) as Htr.
  destruct (notify.buildMessage out s _ _ (w, tr)) as [message [w1 tr1]].
  simpl in Htr. subst tr1.
  pose proof (send_loop_cases out
                (EmailConfig.SMTPHost (notify.config s) +:+ ":"
                   +:+ Itoa (EmailConfig.SMTPPort (notify.config s))) message w1 tr)
    as Hcases.
  cbv beta zeta in Hcases.
  set (res := notify.send_loop out 4 _ message _ None (w1, tr)) in *.
  destruct res as [v [w2 tr2]]. simpl in Hcases |- *.
  destruct Hcases
    as [[Hv Ht]|[(e1 & Hv & Ht)|[(e1 & e2 & Hv & Ht)|(e1 & e2 & e3 & Hv & Ht)]]];
    subst v tr2; (eexists; split; [reflexivity|]); try discriminate;
    intros _; eexists _, message; simpl; tauto.
Qed.

Lemma post_Run_notify {Time World : Type} (out : Outside Time World) (cfg : Config.t)
    (startTime : Time) (rpt : Report.t Time) :
  EmailConfig.Enabled (Config.Email cfg) && Report.HasFindings rpt = true ->
  post (fun v evs => v = None -> delivered evs) (app.Run_notify out cfg startTime rpt).
Proof.
  intros Hgate. unfold app.Run_notify. rewrite Hgate. unfold notify.NewService.
  apply (post_bind (fun v evs => v = None -> delivered evs)).
  - apply (post_bind (fun _ evs => Forall is_log evs)); [apply post_log|intros _ logs _].
    apply (post_bind (fun r evs => exists s, r = inl s));
      [apply post_ret; eexists; reflexivity|intros r evs0 [notifier ->]].
    apply (post_bind (fun v evs => v = None -> delivered evs));
      [apply post_SendReport|intros [err|] evs1 H1]; [apply post_ret; discriminate|].
    apply (post_bind (fun _ evs => Forall is_log evs)); [apply post_log|intros _ logs2 _].
    apply post_ret. intros _. destruct (H1 eq_refl) as (a & m & Hin).
    exists a, m. rewrite !in_app_iff. tauto.
  - intros [err|] evs1 H1; [apply post_ret; discriminate|].
    apply (post_bind (fun _ evs => evs = [])); [apply post_call|intros now ? ->].
    apply (post_bind (fun _ evs => Forall is_log evs)); [apply post_log|intros _ logs _].
    apply post_ret. intros _. destruct (H1 eq_refl) as (a & m & Hin).
    exists a, m. rewrite !in_app_iff. tauto.
Qed.

Section PostMore.
Context {Time World : Type}.
Local Abbreviation IO := (@IO Time World).

Lemma post_and {A : Type} (Q1 Q2 : A -> list (Event Time) -> Prop) (m : IO A) :
  post Q1 m -> post Q2 m -> post (fun a evs => Q1 a evs /\ Q2 a evs) m.
Proof.
  intros H1 H2 st. destruct (H1 st) as (evs1 & Htr1 & HQ1).
  destruct (H2 st) as (evs2 & Htr2 & HQ2). exists evs1. split; [exact Htr1|].
  split; [exact HQ1|]. rewrite Htr1 in Htr2. apply app_inv_head in Htr2. subst evs2.
  exact HQ2.
Qed.

Lemma no_write_In (evs : list (Event Time)) (rpt : Report.t Time) :
  Forall no_write evs -> In (EvWriteReport rpt) evs -> False.
Proof.
  intros Hall Hin. rewrite Forall_forall in Hall.
  apply (Hall _ (proj2 (list_elem_of_In _ _) Hin)). exact I.
Qed.

Lemma log_no_write (evs : list (Event Time)) : Forall is_log evs -> Forall no_write evs.
Proof.
  intros H. eapply Forall_impl; [exact H|]. intros e He Hw. destruct e; simpl in *; tauto.
Qed.

Lemma quiet_no_write (e : Event Time) : quiet e -> no_write e.
Proof. intros He Hw. destruct e; simpl in *; tauto. Qed.

End PostMore.

Ltac find_write Hin :=
  repeat match type of Hin with
  | In _ (_ ++ _) => apply in_app_or in Hin
  | _ \/ _ => destruct Hin as [Hin|Hin]
  end.

Section Delivery.
Context {Time World : Type} (out : Outside Time World).

Lemma emits_Review_no_write (rv : review.Reviewer) (diffs : list Diff.t) :
  emits (@no_write Time) (review.Review out rv diffs).
Proof.
  unfold review.Review, review.GenerateText.
  destruct (_ =? 0)%Z; [apply emits_ret|].
  apply emits_bind.
  - apply emits_bind; [apply emits_call|intros res].
    apply emits_bind; [apply emits_emit; unfold no_write; simpl; tauto|intros; apply emits_ret].
  - intros [answer|err]; [|apply emits_ret].
    destruct (review.parseResponse answer); apply emits_ret.
Qed.

Lemma emits_Run_notify_no_write (cfg : Config.t) (startTime : Time) (rpt : Report.t Time) :
  emits (@no_write Time) (app.Run_notify out cfg startTime rpt).
Proof.
  apply (emits_Run_notify_when out no_write (Config.Verbose cfg));
    try reflexivity; intros; unfold no_write; simpl; tauto.
Qed.

Lemma post_handleNoFindings (cfg : Config.t) :
  post (fun _ evs => forall rpt, In (EvWriteReport rpt) evs -> Report.HasFindings rpt = false)
    (app.handleNoFindings out cfg).
Proof.
  intros st. destruct (handleNoFindings_spec out cfg st)
    as (rpt0 & logs & Htr & _ & Hfs & _ & Hlogs).
  exists (EvWriteReport rpt0 :: logs). split; [exact Htr|].
  intros rpt [[= <-]|Hin].
  - unfold Report.HasFindings. rewrite Hfs. reflexivity.
  - destruct (no_write_In _ _ (log_no_write _ Hlogs) Hin).
Qed.

Lemma post_Write (rpt : Report.t Time) :
  post (fun _ evs => evs = [EvWriteReport rpt]) (app.Write out rpt).
Proof.
  intros [w tr]. unfold app.Write, bind, call, emit, ret. simpl.
  destruct (report_Write out rpt w). simpl. exists [EvWriteReport rpt]. split; reflexivity.
Qed.

Lemma post_log_no_write (cfg : Config.t) (format : string) (args : list fmt_arg) :
  post (fun _ evs => Forall (@no_write Time) evs)
    (app.log (Time:=Time) (World:=World) cfg format args).
Proof.
  eapply post_weaken; [apply post_log|]. intros a evs H. apply log_no_write, H.
Qed.

Lemma post_Run_review (cfg : Config.t) (startTime : Time) (repos : list string)
    (allCommits : list (Commit.t Time)) (allDiffs : list Diff.t) :
  post (fun v evs =>
          forall rpt, v = None -> In (EvWriteReport rpt) evs ->
                      Report.HasFindings rpt = true ->
                      EmailConfig.Enabled (Config.Email cfg) = true -> delivered evs)
    (app.Run_review out cfg startTime repos allCommits allDiffs).
Proof.
  unfold app.Run_review.
  apply (post_bind (fun _ evs => Forall no_write evs));
    [apply post_log_no_write|intros _ e1 H1].
  apply (post_bind (fun _ evs => Forall no_write evs));
    [apply post_emits, emits_NewReviewer|intros [rv|err] e2 H2];
    [|apply post_ret; intros rpt [=]].
  apply (post_bind (fun _ evs => Forall no_write evs));
    [apply post_log_no_write|intros _ e3 H3].
  apply (post_bind (fun _ evs => Forall no_write evs));
    [apply post_emits, emits_Review_no_write|intros [[findings summary] [err|]] e4 H4];
    [apply post_ret; intros rpt [=]|].
  apply (post_bind (fun _ evs => Forall no_write evs));
    [apply post_log_no_write|intros _ e5 H5].
  apply (post_bind (fun _ evs => Forall no_write evs));
    [apply post_log_no_write|intros _ e6 H6].
  apply (post_bind (fun _ evs => evs = [])); [apply post_call|intros now ? ->].
  set (rpt0 := Report.mk Time now summary findings repos (Z.of_nat (length allCommits))
                 (Z.of_nat (length allDiffs)) false "").
  apply (post_bind (fun _ evs => evs = [EvWriteReport rpt0]));
    [apply post_Write|intros [reportPath|err] ? ->];
    [|apply post_ret; intros rpt [=]].
  apply (post_bind (fun _ evs => Forall no_write evs));
    [apply post_log_no_write|intros _ e8 H8].
  apply (post_weaken
           (fun v evs =>
              Forall no_write evs
              /\ (EmailConfig.Enabled (Config.Email cfg) && Report.HasFindings rpt0 = true ->
                  v = None -> delivered evs))).
  - apply post_and; [apply post_emits, emits_Run_notify_no_write|].
    destruct (EmailConfig.Enabled (Config.Email cfg) && Report.HasFindings rpt0) eqn:Hgate.
    + eapply post_weaken; [apply post_Run_notify, Hgate|]. intros v evs H _. exact H.
    + eapply post_weaken; [apply (post_emits no_write), emits_Run_notify_no_write|].
      intros v evs _ [=].
  - intros v evsN [HN Hdel] rpt Hv Hin Hf Hen.
    assert (Hrpt : rpt = rpt0).
    { find_write Hin; try (exfalso; eapply no_write_In; [|exact Hin]; assumption).
      - destruct Hin.
      - destruct Hin as [[= ->]|[]]. reflexivity. }
    subst rpt. rewrite Hen, Hf in Hdel. destruct (Hdel eq_refl Hv) as (a & m & Hsend).
    exists a, m. rewrite !in_app_iff. tauto.
Qed.

Lemma returns_Run_scan_Email (cfg : Config.t) :
  returns (fun r => match r with
                    | inr (_, cfg', _) => Config.Email cfg' = Config.Email cfg
                    | inl _ => True
                    end) (app.Run_scan out cfg).
Proof.
  intros st. destruct (app.Run_scan out cfg st) as [[err|[[t cfg'] repos]] st'] eqn:H;
    [exact I|]. simpl. eapply Run_scan_Email, H.
Qed.

Lemma post_Run_delivers (cfg : Config.t) :
  post (fun v evs =>
          forall rpt, v = Return None -> In (EvWriteReport rpt) evs ->
                      Report.HasFindings rpt = true ->
                      EmailConfig.Enabled (Config.Email cfg) = true -> delivered evs)
    (app.Run out cfg).
Proof.
  unfold app.Run.
  eapply post_bind;
    [apply (post_both no_write), returns_Run_scan_Email;
     apply emits_Run_scan, quiet_no_write|].
  intros [err|[[t cfg'] repos]] e1 [HE H1].
  { apply post_ret. intros rpt _ Hin. rewrite app_nil_r in Hin.
    destruct (no_write_In _ _ H1 Hin). }
  destruct (_ =? 0)%Z.
  { apply (post_bind (fun _ evs => Forall no_write evs));
      [apply post_log_no_write|intros _ e2 H2].
    apply post_ret. intros rpt _ Hin.
    find_write Hin; try (exfalso; eapply no_write_In; [|exact Hin]; assumption).
    destruct Hin. }
  apply (post_bind (fun _ evs => Forall no_write evs));
    [apply post_emits, emits_Run_commits, quiet_no_write|intros allCommits e2 H2].
  assert (Hnothing : forall (format : string) (pre : list (Event Time)),
            Forall no_write pre ->
            post (fun (b : outcome (option error)) evs2 =>
                    forall rpt, b = Return None -> In (EvWriteReport rpt) (pre ++ evs2) ->
                                Report.HasFindings rpt = true ->
                                EmailConfig.Enabled (Config.Email cfg) = true ->
                                delivered (pre ++ evs2))
              (app.log cfg' format [] ;;
               let* err := app.handleNoFindings out cfg' in ret (Return err))).
  { intros format pre Hpre.
    apply (post_bind (fun _ evs => Forall no_write evs));
      [apply post_log_no_write|intros _ e3 H3].
    eapply post_bind; [apply post_handleNoFindings|intros err e4 H4].
    apply post_ret. intros rpt _ Hin Hf. exfalso.
    find_write Hin; try (eapply no_write_In; [|exact Hin]; assumption).
    - rewrite (H4 rpt Hin) in Hf. discriminate.
    - destruct Hin. }
  destruct (_ =? 0)%Z.
  { eapply post_weaken; [apply (Hnothing _ (e1 ++ e2))|].
    - apply Forall_app. split; assumption.
    - intros b evs H rpt Hb Hin Hf Hen. rewrite app_assoc in Hin |- *.
      apply (H rpt); assumption. }
  apply (post_bind (fun _ evs => Forall no_write evs));
    [apply post_emits, emits_Run_diffs, quiet_no_write|intros [allDiffs|reason] e3 H3];
    [|apply post_ret; intros rpt [=]].
  destruct (_ =? 0)%Z.
  { eapply post_weaken; [apply (Hnothing _ (e1 ++ e2 ++ e3))|].
    - repeat (apply Forall_app; split); assumption.
    - intros b evs H rpt Hb Hin Hf Hen. rewrite !app_assoc in Hin |- *.
      rewrite <- (app_assoc e1 e2 e3) in Hin |- *. apply (H rpt); assumption. }
  eapply post_bind; [apply post_Run_review|intros err e4 H4].
  apply post_ret. intros rpt [= ->] Hin Hf Hen.
  find_write Hin; try (exfalso; eapply no_write_In; [|exact Hin]; assumption);
    [|destruct Hin].
  rewrite <- HE in Hen. destruct (H4 rpt eq_refl Hin Hf Hen) as (a & m & Hsend).
  exists a, m. rewrite !in_app_iff. tauto.
Qed.

End Delivery.

(** X21. A run that reports success has sent the mail it owed: when
    [Run] returns no error, email is enabled and the report it handed over
    has a finding, then one of the SMTP sessions of the run succeeded. *)
Theorem Run_success_means_the_mail_went_out {Time World : Type}
    (out : Outside Time World) (cfg : Config.t) (w : World) (rpt : Report.t Time) :
  value_of (run (app.Run out cfg) w) = Return None ->
  In (EvWriteReport rpt) (trace_of (run (app.Run out cfg) w)) ->
  Report.HasFindings rpt = true ->
  EmailConfig.Enabled (Config.Email cfg) = true ->
  exists addr message,
    In (EvSend addr message (30 * Second)%Z None) (trace_of (run (app.Run out cfg) w)).
Proof.
  intros Hv Hin Hf Hen. unfold run, value_of, trace_of in *.
  destruct (post_Run_delivers out cfg (w, [])) as (evs & Htr & H).
  simpl in Htr. rewrite Htr in Hin |- *. apply (H rpt); assumption.
Qed.

(** The mail server of the example refuses the first session. *)
Lemma Run_success_means_the_mail_went_out_witness :
  exists addr message,
    In (EvSend addr message (30 * Second)%Z None) (trace_of retried_run).
Proof.
  apply (Run_success_means_the_mail_went_out
           (toy (toy_git toy_log "+x") (inl clean_response) (inl toy_repos)
              [Some (External "EOF"); None])
           (toy_config true) 0 (first_report (trace_of retried_run))).
  - vm_compute. reflexivity.
  - vm_compute. repeat (first [left; reflexivity | right]).
  - vm_compute. reflexivity.
  - reflexivity.
Defined.

(** *** The order of the stages *)

Section Stages.
Context {Time World : Type} (out : Outside Time World).

Lemma stages_app (x y : list (Event Time)) : stages (x ++ y) = stages x ++ stages y.
Proof. apply omap_app. Qed.

Lemma stages_log (evs : list (Event Time)) : Forall is_log evs -> stages evs = [].
Proof.
  induction 1 as [|e evs He _ IH]; [reflexivity|].
  destruct e; try destruct He. exact IH.
Qed.

Lemma stages_cons (e : Event Time) (evs : list (Event Time)) :
  stages (e :: evs)
  = match stage e with
    | Some k => k :: stages evs
    | None => stages evs
    end.
Proof. reflexivity. Qed.

Lemma stages_quiet (evs : list (Event Time)) :
  Forall quiet evs -> exists a, stages evs = replicate a 1.
Proof.
  induction 1 as [|e evs He _ [a IH]]; [exists 0; reflexivity|].
  rewrite stages_cons, IH.
  destruct e; try destruct He; [exists a|exists (S a)|exists (S a)]; reflexivity.
Qed.

Lemma stages_delivery (evs : list (Event Time)) :
  Forall of_delivery evs -> exists d, stages evs = replicate d 4.
Proof.
  induction 1 as [|e evs He _ [d IH]]; [exists 0; reflexivity|].
  rewrite stages_cons, IH.
  destruct e; try destruct He; [exists d|exists (S d)|exists (S d)]; reflexivity.
Qed.

Lemma from_stage2_1 (a : nat) (l : list nat) :
  from_stage1 l -> from_stage1 (replicate a 1 ++ l).
Proof.
  intros (a' & b & c & d & -> & H). exists (a + a'), b, c, d.
  rewrite replicate_add, <- app_assoc. split; [reflexivity|exact H].
Qed.

Lemma from_stage2_up (l : list nat) : from_stage2 l -> from_stage1 l.
Proof. intros (b & c & d & -> & H). exists 0, b, c, d. split; [reflexivity|exact H]. Qed.

Lemma from_stage3_up (l : list nat) : from_stage3 l -> from_stage2 l.
Proof.
  intros (c & d & -> & H). exists 0, c, d. split; [reflexivity|].
  split; [lia|exact H].
Qed.

Lemma from_stage3_after_2 (l : list nat) : from_stage3 l -> from_stage2 (2 :: l).
Proof.
  intros (c & d & -> & H). exists 1, c, d. split; [reflexivity|]. split; [lia|exact H].
Qed.

Lemma from_stage3_nil : from_stage3 [].
Proof. exists 0, 0. split; [reflexivity|]. split; lia. Qed.

Lemma from_stage3_written (d : nat) : from_stage3 (3 :: replicate d 4).
Proof. exists 1, d. split; [reflexivity|]. split; lia. Qed.

Lemma post_stages_log {A B : Type} (F : list nat -> Prop) (pre : list (Event Time))
    (m : @IO Time World B) :
  Forall is_log pre ->
  post (fun _ evs => F (stages evs)) m ->
  post (fun _ evs => F (stages (pre ++ evs))) m.
Proof.
  intros Hpre Hm. eapply post_weaken; [exact Hm|]. intros b evs H. cbv beta in *.
  rewrite stages_app, (stages_log pre Hpre). exact H.
Qed.

Lemma post_Review_stages (rv : review.Reviewer) (diffs : list Diff.t) :
  post (fun _ evs => stages evs = [] \/ stages evs = [2]) (review.Review out rv diffs).
Proof.
  intros [w tr]. unfold review.Review, review.GenerateText, bind, call, emit, ret.
  destruct (_ =? 0)%Z.
  - exists []. simpl. rewrite app_nil_r. split; [reflexivity|left; reflexivity].
  - simpl. destruct (genkit_GenerateText out _ _ _ w) as [[answer|err] w1]; simpl.
    + destruct (review.parseResponse answer); simpl; eexists; (split; [reflexivity|]);
        right; reflexivity.
    + eexists. split; [reflexivity|]. right. reflexivity.
Qed.

Lemma emits_Run_notify_delivery (cfg : Config.t) (startTime : Time) (rpt : Report.t Time) :
  emits (@of_delivery Time) (app.Run_notify out cfg startTime rpt).
Proof.
  apply (emits_Run_notify_when out of_delivery (Config.Verbose cfg));
    try reflexivity; intros; exact I.
Qed.

Lemma post_Run_review_stages (cfg : Config.t) (startTime : Time) (repos : list string)
    (allCommits : list (Commit.t Time)) (allDiffs : list Diff.t) :
  post (fun _ evs => from_stage2 (stages evs))
    (app.Run_review out cfg startTime repos allCommits allDiffs).
Proof.
  unfold app.Run_review.
  apply (post_bind (fun _ evs => Forall is_log evs)); [apply post_log|intros u1 e1 H1].
  apply (post_stages_log (A:=unit)); [exact H1|].
  apply (post_bind (fun _ evs => stages evs = [])).
  { eapply post_weaken; [apply (post_emits is_log), emits_NewReviewer|].
    intros a evs H. apply stages_log, H. }
  intros [rv|err] e2 H2.
  2: { apply post_ret. rewrite app_nil_r, H2. apply from_stage3_up, from_stage3_nil. }
  eapply post_weaken with (Q1 := fun _ evs => from_stage2 (stages evs));
    [|intros b evs H; cbv beta; rewrite stages_app, H2; exact H].
  apply (post_bind (fun _ evs => Forall is_log evs)); [apply post_log|intros u3 e3 H3].
  apply (post_stages_log (A:=unit)); [exact H3|].
  apply (post_bind (fun _ evs => stages evs = [] \/ stages evs = [2]));
    [apply post_Review_stages|intros [[findings summary] [err|]] e4 H4].
  { apply post_ret. rewrite app_nil_r.
    destruct H4 as [-> | ->]; [apply from_stage3_up|apply from_stage3_after_2];
      apply from_stage3_nil. }
  apply (post_weaken (fun _ evs => from_stage3 (stages evs))).
  2: { intros b evs H. cbv beta. rewrite stages_app.
       destruct H4 as [-> | ->]; [apply from_stage3_up|apply from_stage3_after_2]; exact H. }
  apply (post_bind (fun _ evs => Forall is_log evs)); [apply post_log|intros u5 e5 H5].
  apply (post_stages_log (A:=unit)); [exact H5|].
  apply (post_bind (fun _ evs => Forall is_log evs)); [apply post_log|intros u6 e6 H6].
  apply (post_stages_log (A:=unit)); [exact H6|].
  apply (post_bind (fun _ evs => evs = [])); [apply post_call|intros now ? ->].
  apply (post_bind (fun _ evs => exists r, evs = [EvWriteReport r]));
    [eapply post_weaken; [apply post_Write|]; intros a evs ->; eexists; reflexivity|].
  intros [reportPath|err] ? [r ->].
  2: { apply post_ret. simpl. apply (from_stage3_written 0). }
  apply (post_bind (fun _ evs => Forall is_log evs)); [apply post_log|intros u8 e8 H8].
  eapply post_weaken; [apply (post_emits of_delivery), emits_Run_notify_delivery|].
  intros v evs H. cbv beta. simpl. rewrite stages_app, (stages_log e8 H8).
  destruct (stages_delivery evs H) as [d ->]. apply from_stage3_written.
Qed.

Lemma post_handleNoFindings_stages (cfg : Config.t) :
  post (fun _ evs => stages evs = [3]) (app.handleNoFindings out cfg).
Proof.
  intros st. destruct (handleNoFindings_spec out cfg st)
    as (rpt0 & logs & Htr & _ & _ & _ & Hlogs).
  exists (EvWriteReport rpt0 :: logs). split; [exact Htr|].
  rewrite stages_cons, (stages_log logs Hlogs). reflexivity.
Qed.

Lemma post_Run_stages (cfg : Config.t) :
  post (fun _ evs => from_stage1 (stages evs)) (app.Run out cfg).
Proof.
  assert (Hquiet : forall (A B : Type) (m : @IO Time World A) (k : A -> @IO Time World B),
            emits quiet m ->
            (forall a, post (fun _ evs => from_stage1 (stages evs)) (k a)) ->
            post (fun _ evs => from_stage1 (stages evs)) (bind m k)).
  { intros A B m k Hm Hk.
    apply (post_bind (fun _ evs => Forall quiet evs)); [apply post_emits, Hm|].
    intros a e1 H1. eapply post_weaken; [apply Hk|]. intros b evs H. cbv beta.
    rewrite stages_app. destruct (stages_quiet e1 H1) as [n ->].
    apply from_stage2_1, H. }
  assert (Hnothing : forall (cfg' : Config.t) (format : string),
            post (fun _ evs => from_stage1 (stages evs))
              (app.log (Time:=Time) cfg' format [] ;;
               let* err := app.handleNoFindings out cfg' in ret (Return err))).
  { intros cfg' format. apply Hquiet; [apply emits_log; exact I|intros _].
    apply (post_bind (fun _ evs => stages evs = [3]));
      [apply post_handleNoFindings_stages|intros err e H].
    apply post_ret. rewrite app_nil_r, H. apply from_stage2_up, from_stage3_up.
    apply (from_stage3_written 0). }
  unfold app.Run. apply Hquiet; [apply emits_Run_scan; auto|].
  intros [err|[[t cfg'] repos]].
  { apply post_ret. apply from_stage2_up, from_stage3_up, from_stage3_nil. }
  destruct (_ =? 0)%Z.
  { apply Hquiet; [apply emits_log; exact I|intros _].
    apply post_ret. apply from_stage2_up, from_stage3_up, from_stage3_nil. }
  apply Hquiet; [apply emits_Run_commits; auto|intros allCommits].
  destruct (_ =? 0)%Z; [apply Hnothing|].
  apply Hquiet; [apply emits_Run_diffs; auto|intros [allDiffs|reason]].
  2: { apply post_ret. apply from_stage2_up, from_stage3_up, from_stage3_nil. }
  destruct (_ =? 0)%Z; [apply Hnothing|].
  apply (post_bind (fun _ evs => from_stage2 (stages evs)));
    [apply post_Run_review_stages|intros err e H].
  apply post_ret. rewrite app_nil_r. apply from_stage2_up, H.
Qed.

End Stages.

(** X22. The events of a run come in the order of the pipeline: first
    the scan and the sub-processes, then at most one call of the model, then
    at most one hand-over of a report, and only then SMTP sessions and
    sleeps; log lines may come anywhere. No session comes without a report
    handed over before it. *)
Theorem Run_keeps_the_order_of_the_stages {Time World : Type}
    (out : Outside Time World) (cfg : Config.t) (w : World) :
  exists a b c d,
    stages (trace_of (run (app.Run out cfg) w))
    = replicate a 1 ++ replicate b 2 ++ replicate c 3 ++ replicate d 4
    /\ b <= 1 /\ c <= 1 /\ (c = 0 -> d = 0).
Proof.
  destruct (post_Run_stages out cfg (w, [])) as (evs & Htr & H).
  unfold run, trace_of. simpl in Htr. rewrite Htr. exact H.
Qed.

Example stages_of_a_retried_run :
  stages (trace_of retried_run) = [1; 1; 1; 1; 2; 3; 4; 4; 4].
Proof. vm_compute. reflexivity. Qed.
(** ** The scan for repositories *)

(** Induction on a tree, with the hypothesis for every entry of a
    directory. *)
Lemma node_nested_ind (P : node -> Prop) :
  P File ->
  (forall dirs err, Forall (fun en => P (snd en)) dirs -> P (Dir dirs err)) ->
  forall n, P n.
Proof.
  intros HF HD. fix IH 1. intros [|dirs err]; [exact HF|].
  apply HD. induction dirs as [|[name1 n1] dirs IHdirs]; constructor.
  - apply IH.
  - exact IHdirs.
Qed.

Lemma walkDir_eq {S : Type} (fn : fswalk.WalkDirFunc (S:=S)) (path name : string) (n : node)
    (s : S) :
  fswalk.walkDir fn path name n s
  = let d := DirEntry.mk name (node_IsDir n) in
    match fn path (Some d) None s with
    | (Some err, s) => (fswalk.skipped err d, s)
    | (None, s) =>
        match n with
        | File => (None, s)
        | Dir dirs rerr =>
            let (err, s) :=
              match rerr with
              | Some e => fn path (Some d) (Some e) s
              | None => (None, s)
              end in
            match err with
            | Some err => (fswalk.skipped err d, s)
            | None =>
                fswalk.walk_entries
                  (fun name1 n1 s => fswalk.walkDir fn (fspath.Join [path; name1]) name1 n1 s)
                  dirs s
            end
        end
    end.
Proof. destruct n; reflexivity. Qed.

Lemma descends_not_git : descends ".git" = false.
Proof. reflexivity. Qed.

Lemma found_below_File (path name : string) (r : string) :
  ~ found_below path name File r.
Proof.
  intros (p & dirs & e & Hv & _). inversion Hv; subst; discriminate.
Qed.

(** What is found below a directory that the walk does not go into. *)
Lemma found_below_closed (path name : string) (dirs : list (string * node))
    (err : option error) (r : string) :
  descends name = false ->
  found_below path name (Dir dirs err) r <-> name = ".git" /\ r = fspath.Dir path.
Proof.
  intros Hd. split.
  - intros (p & dirs' & e & Hv & ->). inversion Hv; subst.
    + split; reflexivity.
    + congruence.
  - intros [-> ->]. exists path, dirs, err. split; [constructor|reflexivity].
Qed.

(** What is found below a directory that the walk goes into. *)
Lemma found_below_open (path name : string) (dirs : list (string * node))
    (err : option error) (r : string) :
  descends name = true ->
  found_below path name (Dir dirs err) r
  <-> exists name1 n1, In (name1, n1) dirs
                       /\ found_below (fspath.Join [path; name1]) name1 n1 r.
Proof.
  intros Hd. split.
  - intros (p & dirs' & e & Hv & ->). inversion Hv; subst.
    + rewrite descends_not_git in Hd. discriminate.
    + match goal with H : Dir _ _ = Dir _ _ |- _ => injection H as <- <- end.
      exists name1, n1. split; [assumption|]. exists p, dirs', e. split; [assumption|reflexivity].
  - intros (name1 & n1 & Hin & p & dirs' & e & Hv & ->).
    exists p, dirs', e. split; [|reflexivity].
    eapply visited_below; [reflexivity|exact Hd|exact Hin|exact Hv].
Qed.

Lemma walk_entries_cons {S : Type} (walk : string -> node -> S -> option walk_error * S)
    (name1 : string) (n1 : node) (dirs : list (string * node)) (s : S) :
  fswalk.walk_entries walk ((name1, n1) :: dirs) s
  = match walk name1 n1 s with
    | (Some err, s) => if is_SkipDir err then (None, s) else (Some err, s)
    | (None, s) => fswalk.walk_entries walk dirs s
    end.
Proof. reflexivity. Qed.

Lemma walk_entries_visit (path : string) (dirs : list (string * node)) :
  Forall (fun en =>
            forall path name repos,
            exists found,
              fswalk.walkDir repos.visit path name (snd en) repos = (None, repos ++ found)
              /\ forall r, In r found <-> found_below path name (snd en) r) dirs ->
  forall repos,
  exists found,
    fswalk.walk_entries
      (fun name1 n1 s => fswalk.walkDir repos.visit (fspath.Join [path; name1]) name1 n1 s)
      dirs repos
    = (None, repos ++ found)
    /\ forall r, In r found
                 <-> exists name1 n1, In (name1, n1) dirs
                                      /\ found_below (fspath.Join [path; name1]) name1 n1 r.
Proof.
  induction 1 as [|[name1 n1] dirs Hn1 _ IH]; intros repos.
  - exists []. rewrite app_nil_r. split; [reflexivity|].
    intros r. split; [intros []|intros (? & ? & [] & _)].
  - simpl in Hn1. destruct (Hn1 (fspath.Join [path; name1]) name1 repos) as (f1 & Hw & Hf1).
    destruct (IH (repos ++ f1)) as (f2 & Hrest & Hf2).
    exists (f1 ++ f2). split.
    + rewrite walk_entries_cons, Hw, Hrest, app_assoc. reflexivity.
    + intros r. rewrite in_app_iff, Hf1, Hf2. split.
      * intros [Hr|(name2 & n2 & Hin & Hr)].
        -- exists name1, n1. split; [left; reflexivity|exact Hr].
        -- exists name2, n2. split; [right; exact Hin|exact Hr].
      * intros (name2 & n2 & [[= <- <-]|Hin] & Hr); [left; exact Hr|].
        right. exists name2, n2. split; assumption.
Qed.

(** The walk of a node with the function of [FindRepositories]: it
    returns no error, and adds the directories of the [.git] directories
    that it visits. *)
Lemma walkDir_visit (n : node) :
  forall path name repos,
  exists found,
    fswalk.walkDir repos.visit path name n repos = (None, repos ++ found)
    /\ forall r, In r found <-> found_below path name n r.
Proof.
  induction n as [|dirs rerr IH] using node_nested_ind; intros path name repos.
  - exists []. rewrite app_nil_r. split.
    + rewrite walkDir_eq. cbv zeta. unfold repos.visit.
      cbn [DirEntry.Name DirEntry.IsDir node_IsDir andb].
      destruct (HasPrefix name "." && negb (String.eqb name ".git")); reflexivity.
    + intros r. split; [intros []|intros H; destruct (found_below_File _ _ _ H)].
  - rewrite walkDir_eq. cbv zeta. unfold repos.visit at 1.
    cbn [DirEntry.Name DirEntry.IsDir node_IsDir andb].
    destruct (HasPrefix name ".") eqn:Hdot.
    + (* hidden, or .git itself *)
      assert (Hd : descends name = false) by (unfold descends; rewrite Hdot; reflexivity).
      destruct (String.eqb_spec name ".git") as [->|Hgit]; simpl.
      * exists [fspath.Dir path]. split; [reflexivity|].
        intros r. rewrite found_below_closed by exact Hd. simpl. split.
        -- intros [<-|[]]. split; reflexivity.
        -- intros [_ ->]. left. reflexivity.
      * exists []. rewrite app_nil_r. split; [reflexivity|].
        intros r. rewrite found_below_closed by exact Hd. split; [intros []|].
        intros [H _]. contradiction.
    + assert (Hgit : String.eqb name ".git" = false).
      { apply String.eqb_neq. intros ->. discriminate. }
      rewrite Hgit. simpl andb.
      destruct (repos.excluded name) eqn:Hex; simpl.
      * assert (Hd : descends name = false)
          by (unfold descends; rewrite Hex, andb_false_r; reflexivity).
        exists []. rewrite app_nil_r. split; [reflexivity|].
        intros r. rewrite found_below_closed by exact Hd. split; [intros []|].
        intros [-> _]. discriminate.
      * assert (Hd : descends name = true)
          by (unfold descends; rewrite Hdot, Hex; reflexivity).
        destruct (walk_entries_visit path dirs IH repos) as (found & Hw & Hf).
        exists found. split; [destruct rerr; exact Hw|].
        intros r. rewrite found_below_open by exact Hd. apply Hf.
Qed.

Lemma FindRepositories_of_node (rootPath : string) (n : node) :
  exists found,
    repos.FindRepositories rootPath (inl n) = inl found
    /\ forall r, In r found <-> found_below rootPath (filepath.Base rootPath) n r.
Proof.
  destruct (walkDir_visit n rootPath (filepath.Base rootPath) []) as (found & Hw & Hf).
  exists found. split; [|exact Hf].
  unfold repos.FindRepositories, fswalk.WalkDir. rewrite Hw. reflexivity.
Qed.

(** X23. [FindRepositories] never returns an error, whatever the tree and
    whatever directories cannot be read: the errors of the walk are
    dropped.  When the root itself cannot be examined the result is the
    empty list. *)
Theorem FindRepositories_never_fails (rootPath : string) (root : result node) :
  exists found,
    repos.FindRepositories rootPath root = inl found
    /\ forall e, root = inr e -> found = [].
Proof.
  destruct root as [n|e].
  - destruct (FindRepositories_of_node rootPath n) as (found & Hfind & _).
    exists found. split; [exact Hfind|]. intros e [=].
  - exists []. split; [reflexivity|]. reflexivity.
Qed.

(** X24. The repositories that [FindRepositories] returns are exactly
    the parent directories of the directories named [.git] that are
    reached from the root through directories whose name neither starts
    with a dot nor is in [ExcludedDirs]; a [.git] that is a file does not
    count, and a repository below another repository does. *)
Theorem FindRepositories_lists_the_git_directories (rootPath : string) (n : node)
    (found : list string) :
  repos.FindRepositories rootPath (inl n) = inl found ->
  forall r, In r found <-> found_below rootPath (filepath.Base rootPath) n r.
Proof.
  intros Hfind r.
  destruct (FindRepositories_of_node rootPath n) as (found' & Hfind' & Hf).
  rewrite Hfind in Hfind'. injection Hfind' as ->. apply Hf.
Qed.

Lemma FindRepositories_lists_the_git_directories_witness :
  repos.FindRepositories "/home/ada/projects" (inl toy_tree)
  = inl ["/home/ada/projects/cra"; "/home/ada/projects/cra/third_party/lib"]
  /\ found_below "/home/ada/projects" (filepath.Base "/home/ada/projects") toy_tree
       "/home/ada/projects/cra/third_party/lib".
Proof.
  split; [vm_compute; reflexivity|].
  apply (FindRepositories_lists_the_git_directories "/home/ada/projects" toy_tree
           ["/home/ada/projects/cra"; "/home/ada/projects/cra/third_party/lib"]).
  - vm_compute. reflexivity.
  - simpl. right. left. reflexivity.
Defined.

(** X25. When the last element of the root path starts with a dot (as in
    [.] and [~/.config]) or is in [ExcludedDirs] (as in [~/build]), and is
    not [.git], [FindRepositories] skips the root itself and returns no
    repository, whatever the tree holds. *)
Theorem FindRepositories_skips_a_hidden_or_excluded_root (rootPath : string) (n : node) :
  descends (filepath.Base rootPath) = false ->
  String.eqb (filepath.Base rootPath) ".git" = false ->
  repos.FindRepositories rootPath (inl n) = inl [].
Proof.
  intros Hd Hgit.
  destruct (FindRepositories_of_node rootPath n) as (found & Hfind & Hf).
  rewrite Hfind. f_equal.
  destruct found as [|r found]; [reflexivity|exfalso].
  destruct (proj1 (Hf r) (or_introl eq_refl)) as (p & dirs & e & Hv & _).
  destruct Hv as [|dirs' err name1 n1 p name' n' _ Hd' _ _].
  - rewrite String.eqb_refl in Hgit. discriminate.
  - congruence.
Qed.

Lemma FindRepositories_skips_a_hidden_or_excluded_root_witness :
  repos.FindRepositories "." (inl toy_tree) = inl [].
Proof.
  apply (FindRepositories_skips_a_hidden_or_excluded_root "." toy_tree).
  - vm_compute. reflexivity.
  - vm_compute. reflexivity.
Defined.
(** ** The command: loading the configuration and the flags *)

(** A run with email disabled opens no SMTP session. *)
Lemma Run_disabled_no_send {Time World : Type} (out : Outside Time World)
    (cfg : Config.t) (w : World) :
  EmailConfig.Enabled (Config.Email cfg) = false ->
  Forall no_send (trace_of (run (app.Run out cfg) w)).
Proof.
  intros Hoff. unfold app.Run, run, trace_of, bind.
  pose proof (Run_scan_Email out cfg (w, [])) as HEmail.
  phase (emits_Run_scan out no_send quiet_no_send cfg (w, [])) as scanned w1 evs1 H1.
  simpl app_nil_l in *.
  destruct scanned as [err | [[t cfg'] repos]]; [unfold ret; simpl; exact H1|].
  specialize (HEmail _ _ _ _ eq_refl).
  destruct (Z.of_nat (length repos) =? 0)%Z.
  { phase (emits_log no_send cfg' "No repositories found, nothing to review" []
             (no_send_log _ _) (w1, evs1)) as u w2 evs2 H2.
    unfold ret; simpl. no_send_all. }
  phase (emits_Run_commits out no_send quiet_no_send cfg' repos (w1, evs1))
    as allCommits w2 evs2 H2.
  destruct (Z.of_nat (length allCommits) =? 0)%Z.
  { phase (emits_log no_send cfg' "No commits today, nothing to review" []
             (no_send_log _ _) (w2, evs1 ++ evs2)) as u w3 evs3 H3.
    phase (emits_handleNoFindings out cfg' (w3, (evs1 ++ evs2) ++ evs3)) as err w4 evs4 H4.
    unfold ret; simpl. no_send_all. }
  phase (emits_Run_diffs out no_send quiet_no_send cfg' allCommits (w2, evs1 ++ evs2))
    as diffs w3 evs3 H3.
  destruct diffs as [allDiffs|reason]; [|unfold ret; simpl; no_send_all].
  destruct (Z.of_nat (length allDiffs) =? 0)%Z.
  { phase (emits_log no_send cfg' "No relevant diffs found, nothing to review" []
             (no_send_log _ _) (w3, (evs1 ++ evs2) ++ evs3)) as u w4 evs4 H4.
    phase (emits_handleNoFindings out cfg' (w4, ((evs1 ++ evs2) ++ evs3) ++ evs4))
      as err w5 evs5 H5.
    unfold ret; simpl. no_send_all. }
  assert (Hbefore : Forall no_send ((evs1 ++ evs2) ++ evs3)) by no_send_all.
  pose proof (Run_review_spec out cfg' t repos allCommits allDiffs w3 _ Hbefore) as Hrev.
  cbv zeta in Hrev.
  destruct (app.Run_review out cfg' t repos allCommits allDiffs (w3, (evs1 ++ evs2) ++ evs3))
    as [err [w4 tr4]].
  unfold ret. simpl in Hrev |- *.
  destruct Hrev as [Hall|(Hen & _)]; [exact Hall|congruence].
Qed.

(** The loader records no call. *)
Lemma emits_UserHomeDir {Time World : Type} (out : Outside Time World)
    (P : Event Time -> Prop) :
  emits P (configfile.UserHomeDir out).
Proof. unfold configfile.UserHomeDir. emits_auto. Qed.

Lemma emits_expandPath {Time World : Type} (out : Outside Time World)
    (P : Event Time -> Prop) (path : string) :
  emits P (configfile.expandPath out path).
Proof.
  unfold configfile.expandPath. destruct (HasPrefix path "~/"); [|apply emits_ret].
  apply emits_bind; [apply emits_UserHomeDir|intros [homeDir|err]; apply emits_ret].
Qed.

Lemma emits_Load {Time World : Type} (out : Outside Time World) (files : Files World)
    (P : Event Time -> Prop) (path : string) :
  emits P (configfile.Load out files path).
Proof.
  unfold configfile.Load, configfile.DefaultConfig.
  apply emits_bind; [apply emits_bind; [apply emits_UserHomeDir|intros; apply emits_ret]|].
  intros cfg. apply emits_bind.
  { destruct (String.eqb path ""); [|apply emits_ret].
    apply emits_bind; [apply emits_UserHomeDir|intros [homeDir|err]; apply emits_ret]. }
  intros [path'|]; [|apply emits_ret].
  apply emits_bind; [apply emits_expandPath|intros path''].
  apply emits_bind; [apply emits_call|intros [data|err]].
  - destruct (yaml_Unmarshal files data cfg) as [cfg'|err]; [|apply emits_ret].
    apply emits_bind; [apply emits_expandPath|intros rootPath].
    apply emits_bind; [apply emits_expandPath|intros outputDir]. apply emits_ret.
  - destruct (os_IsNotExist files err); apply emits_ret.
Qed.

Lemma Load_trace {Time World : Type} (out : Outside Time World) (files : Files World)
    (path : string) (st : World * list (Event Time)) :
  snd (snd (configfile.Load out files path st)) = snd st.
Proof.
  destruct (emits_Load out files (fun _ => False) path st) as (evs & Htr & Hall).
  destruct evs as [|e evs]; [rewrite app_nil_r in Htr; exact Htr|].
  inversion Hall; contradiction.
Qed.

Lemma main_run_unfold {Time World : Type} (out : Outside Time World) (files : Files World)
    (flags : main.Flags) (w : World) :
  run (main.run out files flags) w
  = match fst (run (configfile.Load out files (main.cfgFile flags)) w) with
    | inr err =>
        (Return (Some (Errorf "failed to load config: %w" [arg_error err])),
         (fst (snd (run (configfile.Load out files (main.cfgFile flags)) w)), []))
    | inl cfg =>
        run (app.Run out (main.override flags cfg))
          (fst (snd (run (configfile.Load out files (main.cfgFile flags)) w)))
    end.
Proof.
  unfold run, main.run, bind.
  pose proof (Load_trace out files (main.cfgFile flags) (w, [])) as Htr.
  destruct (configfile.Load out files (main.cfgFile flags) (w, [])) as [loaded [w' tr]].
  simpl in Htr |- *. subst tr. destruct loaded; reflexivity.
Qed.

(** X26. With [--dry-run] the command opens no SMTP session, whatever
    the configuration file says and whatever the review finds. *)
Theorem run_dry_run_never_sends {Time World : Type} (out : Outside Time World)
    (files : Files World) (flags : main.Flags) (w : World) (addr message : string)
    (timeout : Duration) (res : option error) :
  main.dryRun flags = true ->
  ~ In (EvSend addr message timeout res) (trace_of (run (main.run out files flags) w)).
Proof.
  intros Hdry Hin. rewrite main_run_unfold in Hin.
  destruct (fst (run (configfile.Load out files (main.cfgFile flags)) w)) as [cfg|err].
  - eapply no_send_In; [|exact Hin]. apply Run_disabled_no_send.
    unfold main.override. rewrite Hdry. reflexivity.
  - destruct Hin.
Qed.

Lemma run_dry_run_never_sends_witness :
  (exists addr message,
     In (EvSend addr message (30 * Second)%Z None)
       (trace_of (run (main.run (toy (toy_git toy_log "+x") (inl clean_response) (inl toy_repos) [None])
                         (toy_files (Some (toy_config true)))
                         (main.mkFlags "" "cra.yaml" false false)) 0)))
  /\ ~ In (EvSend "smtp.example.com:587" "" (30 * Second)%Z None)
         (trace_of (run (main.run (toy (toy_git toy_log "+x") (inl clean_response) (inl toy_repos) [None])
                           (toy_files (Some (toy_config true)))
                           (main.mkFlags "" "cra.yaml" true false)) 0)).
Proof.
  split.
  - eexists _, _. vm_compute. repeat (first [left; reflexivity | right]).
  - apply (run_dry_run_never_sends
             (toy (toy_git toy_log "+x") (inl clean_response) (inl toy_repos) [None])
             (toy_files (Some (toy_config true)))
             (main.mkFlags "" "cra.yaml" true false) 0).
    reflexivity.
Defined.

(** [Run] with a configuration that [Validate] rejects. *)
Lemma Run_rejected {Time World : Type}
    (out : Outside Time World) (cfg : Config.t) (w : World) (cause : error) :
  fst (value_of (run (config.Validate out cfg) (snd (time_Now out w)))) = Some cause ->
  value_of (run (app.Run out cfg) w)
  = Return (Some (Errorf "invalid configuration: %w" [arg_error cause]))
  /\ trace_of (run (app.Run out cfg) w) = [].
Proof.
  unfold run, value_of, trace_of, app.Run, app.Run_scan, bind, call. simpl fst. simpl snd.
  destruct (time_Now out w) as [now w1]. simpl snd.
  pose proof (Validate_run out cfg w1) as Hrun. unfold run in Hrun.
  assert (Htr : snd (snd (config.Validate out cfg (w1, []))) = []).
  { rewrite Hrun. cbv zeta.
    repeat match goal with |- context [if ?b then _ else _] => destruct b end; reflexivity. }
  destruct (config.Validate out cfg (w1, [])) as [[err cfg1] [w2 tr2]].
  simpl in Htr |- *. subst tr2. intros ->. split; reflexivity.
Qed.

Lemma Validate_rejects_without_host {Time World : Type} (out : Outside Time World)
    (c : Config.t) (w : World) :
  EmailConfig.Enabled (Config.Email c) = true ->
  EmailConfig.SMTPHost (Config.Email c) = "" ->
  exists cause, fst (value_of (run (config.Validate out c) w)) = Some cause.
Proof.
  intros Hen Hhost. rewrite Validate_run, Hen, Hhost. cbv zeta. unfold value_of.
  destruct (String.eqb (Config.RootPath c) ""); [eexists; reflexivity|].
  destruct (fst (os_Stat_IsNotExist out (Config.RootPath c) w)); eexists; reflexivity.
Qed.

(** Without a file the loader returns the defaults, in which email is
    enabled and no SMTP host is set. *)
Lemma Load_no_file {Time World : Type} (out : Outside Time World) (files : Files World)
    (path : string) (w : World) :
  no_file files ->
  exists cfg,
    fst (run (configfile.Load (Time:=Time) out files path) w) = inl cfg
    /\ EmailConfig.Enabled (Config.Email cfg) = true
    /\ EmailConfig.SMTPHost (Config.Email cfg) = "".
Proof.
  intros Hno. unfold run, configfile.Load, bind.
  destruct (configfile.DefaultConfig out (w, [])) as [cfg st1] eqn:Hdef.
  assert (Hcfg : EmailConfig.Enabled (Config.Email cfg) = true
                 /\ EmailConfig.SMTPHost (Config.Email cfg) = "").
  { unfold configfile.DefaultConfig, bind, ret in Hdef.
    destruct (configfile.UserHomeDir out (w, [])) as [home st0].
    injection Hdef as <- _. split; reflexivity. }
  match goal with
  | |- context [let (a, st') := ?m st1 in _] => destruct (m st1) as [[path'|] st2]
  end; [|exists cfg; split; [reflexivity|exact Hcfg]].
  destruct (configfile.expandPath out path' st2) as [path'' [w3 tr3]].
  unfold call. simpl fst. simpl snd.
  destruct (Hno path'' w3) as (err & w4 & -> & Hnot). cbv beta iota.
  rewrite Hnot. exists cfg. split; [reflexivity|exact Hcfg].
Qed.

(** X27. Without a configuration file and without [--dry-run] the
    command cannot run: the defaults enable email and name no SMTP host, so
    [Run] stops at "invalid configuration" before anything is done,
    whatever the other flags and the environment are. *)
Theorem run_without_a_configuration_file_is_rejected {Time World : Type}
    (out : Outside Time World) (files : Files World) (flags : main.Flags) (w : World) :
  no_file files ->
  main.dryRun flags = false ->
  exists cause,
    value_of (run (main.run out files flags) w)
    = Return (Some (Errorf "invalid configuration: %w" [arg_error cause]))
    /\ trace_of (run (main.run out files flags) w) = [].
Proof.
  intros Hno Hdry. rewrite main_run_unfold.
  destruct (Load_no_file (Time:=Time) out files (main.cfgFile flags) w Hno)
    as (cfg & -> & Hen & Hhost).
  set (w' := fst (snd (run (configfile.Load out files (main.cfgFile flags)) w))).
  destruct (Validate_rejects_without_host out (main.override flags cfg)
              (snd (time_Now out w'))) as (cause & Hcause).
  - unfold main.override. rewrite Hdry.
    destruct (negb (String.eqb (main.rootPath flags) "")); exact Hen.
  - unfold main.override. rewrite Hdry.
    destruct (negb (String.eqb (main.rootPath flags) "")); exact Hhost.
  - exists cause. apply Run_rejected, Hcause.
Qed.

Lemma run_without_a_configuration_file_is_rejected_witness :
  exists cause,
    value_of (run (main.run (toy (toy_git toy_log "+x") (inl clean_response) (inl toy_repos)
                               [None])
                     (toy_files None) (main.mkFlags "/home/ada/projects" "" false true)) 0)
    = Return (Some (Errorf "invalid configuration: %w" [arg_error cause]))
    /\ trace_of (run (main.run (toy (toy_git toy_log "+x") (inl clean_response)
                                  (inl toy_repos) [None])
                        (toy_files None) (main.mkFlags "/home/ada/projects" "" false true)) 0)
       = [].
Proof.
  apply (run_without_a_configuration_file_is_rejected
           (toy (toy_git toy_log "+x") (inl clean_response) (inl toy_repos) [None])
           (toy_files None) (main.mkFlags "/home/ada/projects" "" false true) 0).
  - intros path w. exists ENOENT, w. split; reflexivity.
  - reflexivity.
Defined.
